(* ===== verification/_CoqProject ===== *)
-Q . S2P
Prelude.v
Text.v
HttpTypes.v
Apis.v
Schemas.v
McpStandardHeaders.v
IntegerHeaders.v
SchemaAnnotations.v
ToolParams.v
HeaderLimits.v
ConfigStore.v
Authorization.v
Jwks.v
Rmcp.v
Layers.v
UpstreamHeaders.v
Cmf.v
CpexRuntime.v
CpexPrompts.v
CpexResources.v
CpexTools.v
CpexRegistry.v
PluginLifetimes.v
Gateway.v
Progress.v
EndToEnd.v
Reach.v
SharedServices.v
Deployment.v
GatewayPlugins.v
ReloadIsolation.v
SecretsConfig.v
SecretsScanner.v
SecretsPatterns.v
SecretsDetection.v
SecretsPlugin.v
SecretsGateway.v
SecretsProgress.v
Config.v
Debugging.v
Observability.v
GlobalConfigStore.v
Transports.v
Startup.v
AdminTools.v
