(* ===== verification/Prelude.v ===== *)
(** * ContextForge data plane: a verification library

    The data plane is a gateway between MCP clients and MCP servers
    ("backends").  A request passes a stack of HTTP layers that authenticate it
    and fetch its subject's configuration, is dispatched to one MCP handler,
    is shown to content plugins, is sent to the one backend that publishes the
    named tool, prompt or resource, and its answer is shown to the plugins on
    the way back.  This library is a shallow embedding of that program: Rust
    functions are Gallina functions, [Result] is [result], shared state is
    passed explicitly, and where requests or tasks interleave there is a step
    relation between the awaits.

    ** Files and the code they model

    Paths are relative to [src/crates/]; LIB is [contextforge-data-plane-lib/src],
    APIS [contextforge-data-plane-apis/src], CPEX [contextforge-data-plane-cpex/src],
    SEC [plugins/cpex-secrets-detection/src].

    - [Prelude]: results and loops over them, text and its ASCII operations,
      machine integers, JSON values, decimal printing; shared tactics and hints.
      [Text]: splitting and trimming of text, as the parsers of strings need it.
    - [HttpTypes]: header maps (association lists in iteration order), and the
      [http], [rmcp] and [base64] crates behind classes.  [Rmcp]: the MCP model
      types the code names.
    - [Apis]: APIS [user.rs], [user_store.rs] and [global_config.rs];
      [runtime_plugin_config.rs] is in [CpexRegistry].
      [Schemas]: APIS [main.rs], the tool that writes their schemas.
    - [McpStandardHeaders], [IntegerHeaders], [SchemaAnnotations], [ToolParams]:
      LIB [mcp_standard_headers.rs].  The first has the code; the others relate
      the integer parser, the schema walk and the parameter check to
      specifications that share no control flow with it.
    - [HeaderLimits]: LIB [layers/mcp_header_limits.rs].
    - [ConfigStore]: LIB [config_stores/]; the Redis store with its LRU cache, the
      phases of a request as a step relation.  [GlobalConfigStore]: LIB
      [config_stores/global_config_store.rs] and [common/redis.rs], the second
      instance of that store.
    - [Authorization], [Jwks]: LIB [authorization/]; principals and their two
      extractors, the JWKS service.
    - [Layers]: LIB [layers/], [lib.rs] ([into_router]) and
      [gateway/mcp_call_validator.rs]; each layer is a handler transformer.
    - [UpstreamHeaders]: LIB [gateway/mcp_service/initialization.rs].
    - [Gateway]: LIB [gateway/mcp_service/], [backend_client.rs],
      [routing_error.rs]; every handler as a computation that stops at the
      first error and records its actions on backends and plugins in order.
    - [Progress]: LIB [gateway/backend_client.rs]; the tasks that relay progress
      notifications against the request that tracks its call, with the write
      lock and the hook store explicit.
    - [EndToEnd]: LIB [gateway/mcp_service/mod.rs] and the composition in
      [lib.rs]: one HTTP request through the layers, the dispatch to a handler
      and the handler ([serve_request]).  [SharedServices]: the key set and the
      configuration store under requests that run at the same time, in a
      rely-guarantee style: what others do at each suspension point is an argument,
      restricted to [phase]s, and each operation is again a sequence of phases.
      [Deployment]: a request over these services.  [Reach]: the exact condition
      under which a request opens a connection, with a rule per construct of the
      handlers.
    - [Cmf], [CpexRuntime], [CpexTools], [CpexPrompts], [CpexResources],
      [CpexRegistry]: CPEX; the messages plugins see, the execution of hooks,
      the conversion of MCP values to and from them, and the runtime that
      reloads replace.  [PluginLifetimes]: CPEX [registry/mod.rs] and
      [runtime.rs]; who owns a runtime, with the strong counts explicit.
    - [GatewayPlugins]: CPEX as the instance of the interface
      [Gateway.PluginHooks] the handlers are written against; a tool's hook
      state is an address into a store, because request and relay share it.
      [ReloadIsolation]: the handlers run twice, alone and with the runtime replaced
      at any await, related by a small relational logic.
    - [SecretsConfig], [SecretsScanner], [SecretsPlugin]: SEC; configuration,
      scanner and stage handler of the plugin that detects secrets.
      [SecretsPatterns]: SEC [patterns.rs], each expression as a term, with its
      matches and the search for them; [SecretsDetection]: the scanner over them.
      [SecretsGateway]: the plugin behind the hooks of the handlers, with a small
      Hoare logic of the handlers.  [SecretsProgress]: the plugin behind the relay of
      progress notifications, by rule induction over the runs of [Progress].
    - [Config]: LIB [common/], the listeners of [lib.rs] and [transports/].
      [Debugging]: the [Debug] implementations of the configuration, of the plugin
      runtime's errors and of the services, and the line [main.rs] logs with them.
      [Transports]: LIB [transports/], the socket calls and the TLS accept loop
      with its connection tasks; the end of [run_gateway].
    - [Observability]: [contextforge-data-plane-observability/src] and LIB's
      extraction and injection of trace contexts.
    - [Startup]: [contextforge-data-plane/src] ([main.rs], [lib.rs],
      [test_plugins.rs]); the stages from the command line to a running gateway.
    - [AdminTools]: LIB [tools.rs], the endpoints of the [with_tools] feature.

    ** Interfaces

    The handlers know backends and plugins only through [Backends] and
    [PluginHooks]; the layers know the services behind them through
    [AuthorizationService], [PrincipalExtractor] and [ConfigStore].  Theorems
    about a client are proved against the class, and the implementing file
    gives the instance.

    Code outside the repository is a class whose fields are its functions: the HTTP,
    rmcp, base64 and URL libraries ([HttpLib], [RmcpHeaders], [RmcpTypes], [Base64],
    [UrlLib], [UrlParts]), the LRU cache, Redis and MessagePack ([LruLib], [Redis],
    [MessagePack]), JWT decoding and the HTTP client ([JwtLib], [JwtDecode],
    [HttpClient]), CEL ([Cel]), the plugin manager ([CpexManager], [CmfMessages]), the
    regex engine ([Regexes]), certificates and TLS ([Pem], [ReqwestTls], [Rustls]),
    sockets and the connections to Redis ([Sockets], [RedisClients]), the match of a
    path with a nested route ([AxumRouter]), signing of tokens ([JwtEncode]), how
    text, URLs and paths print themselves ([DebugLib]), OpenTelemetry ([Tonic],
    [Otlp], [Propagator], [TraceContext]), rmcp's transport ([StreamableHttp]), the
    plugin factories ([FactoryRegistry]), the word characters of Unicode ([Unicode]),
    and the iteration order of hash maps ([HashIter]).  [ProgressJson] says how
    [serde] writes a notification's token, [DocumentedEngine] that [Regexes] searches
    leftmost first, as the [regex] crate documents.  What a theorem needs of one of
    them is its [..Laws] class, which states documented behaviour; the [Concrete..]
    modules instantiate the classes with functions that compute, and the theorems are
    applied there to concrete inputs.

    ** What the theorems show

    - Admission: the nested layers are a straight line of checks before the MCP
      service, a request behind them always validates, the header limits decide
      on exact counts although the counters saturate, and the paths that name
      a virtual host are exactly characterised.
    - End to end: with any requests before and at the same time, all that
      a request makes the gateway do is on one backend of the virtual host its path
      names, in a configuration Redis gave for the principal of a token verified
      with a key of a key set that the configured URL served when it was asked
      ([Deployment]).  Conversely [Reach] says exactly when
      a request reaches a backend, and which: nothing beyond the route's, the layers'
      and the handler's checks is asked; and that no request panics, for the one path
      on which the virtual host layer would panic is not the route's.
    - Start-up: the gateway serves only when every stage succeeded, with plugins
      made of the configuration Redis had under their key; what a failed read of the
      global configuration and a failed listener do; when the gateway ends; the
      TLS loop survives every failure of a connection.
    - Administration: a minted token is accepted by a verifier of the published key
      set from a minute before it was minted to an hour after, and maps to the user
      and tenant it was minted for.
    - Observability: what is installed for each configuration, which header
      strings the exporters accept, and that a trace continues in the backend.
    - Authentication: over any run, an accepted token was verified with an asymmetric
      signature key, fitting its algorithm, of a key set of bounded size that the
      configured URL served with success when the service asked it; the service is set
      up for https or loopback only; what the principal extractors make of claims.
    - Configuration: under any interleaving of requests the configuration
      a request receives was vouched for by Redis for the same subject within
      expiry plus latency; reads see writes; the transports are never weaker
      than the configured modes, and their bundles, identities and server certificates
      are those of the configured files.
    - MCP headers: validation of tool parameters accepts exactly the calls
      whose annotated arguments the headers mirror, integers compare by the
      number they denote, and the schema walk equals a stateless reference.
    - Handlers: each run of each handler as a relation: the checks and their
      order, the requests made, the cleanup once the backend took a request, and how the
      result comes from the backend's answer and the plugins.  Rewrites stay
      inside the published resources; header configuration is given by lookup.
    - Plugins: with a failed runtime or a denying plugin nothing reaches
      a backend; what a plugin edited is what the client sees, or an error;
      what it did not edit is returned unchanged, but that a tool result the manager
      hands back has its error flag made explicit; reloads track the store; a
      replaced runtime is shut down once, when the last call on it has ended;
      a call never notices a reload, result and actions are those it has alone.
    - Progress: under any interleaving a notification finds exactly the call
      sent under its token for as long as the call is tracked.
    - Secrets: a scan never fails, redacts exactly the bytes that matches cover,
      reports the most specific finding, does not depend on the order of the pattern
      map, and reports contain only types and counts.  A secret that matches an
      enabled pattern and stands as a word of its own is hidden from the text,
      whatever surrounds it; a match of any enabled pattern but the base64 one, which
      is searched by its captures, has a finding; a base64 value behind a long name
      and an equals sign is missed.  In the gateway, with a manager that hands an allowed
      message back as it was, what a tool call or a prompt sends is redacted or, when
      it blocks, not sent, and so is what a tool, its notifications or a resource give
      back; a backend's protocol error is forwarded without a hook and so unscanned
      ([SecretsGateway]).  Under any interleaving the notifications a client gets are
      the backend's for its call, redacted; the token the client chose is scanned with
      them and may be redacted too ([SecretsProgress]).  The line logged at start-up
      does not depend on key material, nor on what exporter headers say, and errors of
      the plugin runtime do not show their source ([Debugging]).

    ** Integers, bounds and fuel

    Machine integers are [Z] with their width written where it can matter:
    the header counters saturate at the word size, sizes and exponents of the
    integer parser are machine words, correlation ids come from a counter that
    wraps at 64 bits (the theorem on distinct ids carries the bound).
    Recursion is structural, on JSON values, on text or on lists, but for three
    functions with fuel.  Decimal printing ([print_nonneg_fuel]) is given one more
    than the binary logarithm of the number, which is at least the number of its
    digits; [print_nonneg_fuel_spec] shows that it suffices.  Repetition and
    search of a regular expression ([SecretsPatterns.repeats], [find_from]) consume
    a character or advance by one in each round, and are given the length of the
    text left and one more than the length of the text; [repeats_fuel] and
    [find_from_covers] show that this suffices.  Times and expiries are
    unbounded integers.  Slicing text out of range or inside a character is
    an explicit panic, in the scanner and in the virtual host layer.

    ** Not modelled

    The JSON schemas that macros derive (the tool that writes them is [Schemas]). The
    inside of libraries: TLS handshakes, axum's matching of methods and its matching
    of paths beyond which of them a nested route takes, the answers to CORS
    preflights, the order in which a hash map of arguments is iterated when it is
    shown to plugins, the parsing of the command line, the OpenTelemetry SDK, the
    regular expression engine. Allocator and runtime set-up of the binary.  Log output
    is not an action of the model; of its texts only the start-up line is a definition
    ([Debugging]), as the one place where a whole configuration is printed.

    ** Where it can grow

    Every request opens a backend client of its own, so that no two calls share one;
    what requests share behind it, the backends themselves, is the world [E] of
    [Backends], whose instance is arbitrary in every theorem about handlers.  A model
    of one particular MCP server would be such an instance, and the theorems hold of
    it as they stand. *)

From stdpp Require Export prelude gmap strings list.
From Stdlib Require Export ZArith Lia.
From Stdlib Require Export Ascii.
From Stdlib Require SpecFloat String.
Export (notations) String.

#[export] Set Warnings "-clear-no-such-hyp,-register-all".


(** ** Errors as values *)

(** Rust's [Result<A, E>]; the error type comes first so that [result E]
    is a monad for stdpp's [x ← m; k] notation (the [?] operator). *)
Inductive result (E A : Type) : Type :=
| Ok (a : A)
| Err (e : E).
Arguments Ok {E A} a.
Arguments Err {E A} e.

#[export] Instance result_ret {E} : MRet (result E) := λ A a, Ok a.
#[export] Instance result_bind {E} : MBind (result E) := λ A B k m,
  match m with Ok a => k a | Err e => Err e end.
#[export] Instance result_fmap {E} : FMap (result E) := λ A B f m,
  match m with Ok a => Ok (f a) | Err e => Err e end.

(** [Option::ok_or], [Result::map_err], [Result::ok]. *)
Definition ok_or {E A} (o : option A) (e : E) : result E A :=
  match o with Some a => Ok a | None => Err e end.
Definition map_err {E F A} (f : E → F) (r : result E A) : result F A :=
  match r with Ok a => Ok a | Err e => Err (f e) end.
Definition result_ok {E A} (r : result E A) : option A :=
  match r with Ok a => Some a | Err _ => None end.
Definition is_ok {E A} (r : result E A) : bool :=
  match r with Ok _ => true | Err _ => false end.

(** A Rust [for] loop over a slice whose body may leave with [?]: the state
    [s] is what the loop body mutates. *)
Fixpoint foldM {E S A} (f : S → A → result E S) (l : list A) (s : S) : result E S :=
  match l with
  | [] => Ok s
  | a :: l => s' ← f s a; foldM f l s'
  end.

Lemma result_bind_ok {E A B} (m : result E A) (k : A → result E B) b :
  (m ≫= k) = Ok b ↔ ∃ a, m = Ok a ∧ k a = Ok b.
Proof. destruct m; simpl; naive_solver. Qed.

Lemma foldM_app {E S A} (f : S → A → result E S) l1 l2 s :
  foldM f (l1 ++ l2) s = (foldM f l1 s ≫= foldM f l2).
Proof.
  revert s; induction l1 as [|a l1 IH]; intros s; simpl; [done|].
  destruct (f s a); simpl; auto.
Qed.

(** Rule of invariants for loops that may fail. *)
Lemma foldM_invariant {E S A} (f : S → A → result E S) (P : S → Prop) l s s' :
  P s → (∀ t a t', a ∈ l → P t → f t a = Ok t' → P t') →
  foldM f l s = Ok s' → P s'.
Proof.
  revert s; induction l as [|a l IH]; intros s Hs Hstep; simpl; [naive_solver|].
  destruct (f s a) as [t|] eqn:Hf; [|done]; simpl.
  apply IH; [eapply Hstep; eauto; left|].
  intros t0 b t' Hb; apply Hstep; by right.
Qed.

(** A loop without state succeeds when its body does on every element. *)
Lemma foldM_all {E A} (f : A → result E ()) l :
  foldM (λ _ a, f a) l () = Ok () ↔ Forall (λ a, f a = Ok ()) l.
Proof.
  induction l as [|a l IH]; cbn [foldM]; [by split|].
  rewrite result_bind_ok, Forall_cons, <- IH. split; [by intros ([] & ? & ?)|].
  intros [? ?]. by exists ().
Qed.

(** ** Machine integers

    A w-bit integer is a [Z] in its range; the operations below are the
    [checked_*], [saturating_*] and [try_from] of the Rust standard library on
    a 64-bit target. *)

Declare Scope rust_scope.
Delimit Scope rust_scope with rust.
#[global] Open Scope Z_scope.

Definition i64_max : Z := 2 ^ 63 - 1.
Definition i64_min : Z := - 2 ^ 63.
Definition u64_max : Z := 2 ^ 64 - 1.
Definition u32_max : Z := 2 ^ 32 - 1.
Definition i32_max : Z := 2 ^ 31 - 1.
Definition i32_min : Z := - 2 ^ 31.
Definition usize_max : Z := 2 ^ 64 - 1.

Definition to_i64 (z : Z) : option Z :=
  if decide (i64_min ≤ z ≤ i64_max) then Some z else None.
Definition to_u64 (z : Z) : option Z :=
  if decide (0 ≤ z ≤ u64_max) then Some z else None.
Definition to_usize (z : Z) : option Z :=
  if decide (0 ≤ z ≤ usize_max) then Some z else None.
Definition to_u32 (z : Z) : option Z :=
  if decide (0 ≤ z ≤ u32_max) then Some z else None.
Definition to_i32 (z : Z) : option Z :=
  if decide (i32_min ≤ z ≤ i32_max) then Some z else None.

Definition usize_saturating_add (a b : Z) : Z := Z.min usize_max (a + b).

Lemma to_i64_Some z r : to_i64 z = Some r ↔ z = r ∧ i64_min ≤ r ≤ i64_max.
Proof. unfold to_i64; case_decide; naive_solver. Qed.
Lemma to_u64_Some z r : to_u64 z = Some r ↔ z = r ∧ 0 ≤ r ≤ u64_max.
Proof. unfold to_u64; case_decide; naive_solver. Qed.
Lemma to_usize_Some z r : to_usize z = Some r ↔ z = r ∧ 0 ≤ r ≤ usize_max.
Proof. unfold to_usize; case_decide; naive_solver. Qed.
Lemma to_u32_Some z r : to_u32 z = Some r ↔ z = r ∧ 0 ≤ r ≤ u32_max.
Proof. unfold to_u32; case_decide; naive_solver. Qed.

Lemma to_i64_in z : i64_min ≤ z ≤ i64_max → to_i64 z = Some z.
Proof. intros ?; by apply to_i64_Some. Qed.
Lemma to_i64_out z : ¬ i64_min ≤ z ≤ i64_max → to_i64 z = None.
Proof. intros ?; unfold to_i64; by rewrite decide_False. Qed.
Lemma to_u64_in z : 0 ≤ z ≤ u64_max → to_u64 z = Some z.
Proof. intros ?; by apply to_u64_Some. Qed.
Lemma to_usize_in z : 0 ≤ z ≤ usize_max → to_usize z = Some z.
Proof. intros ?; by apply to_usize_Some. Qed.
Lemma to_u32_in z : 0 ≤ z ≤ u32_max → to_u32 z = Some z.
Proof. intros ?; by apply to_u32_Some. Qed.

(** Discharges a conversion of a value that is in range. *)
Ltac in_width :=
  repeat (first [rewrite to_i64_in by (unfold i64_min, i64_max, usize_max in *; lia)
                |rewrite to_u64_in by (unfold u64_max, i64_max in *; lia)
                |rewrite to_usize_in by (unfold usize_max, i64_min, i64_max in *; lia)
                |rewrite to_u32_in by (unfold u32_max in *; lia)];
          cbn [mbind option_bind]).

(** ** Text

    A Rust [str] is its UTF-8 bytes: a [string], one [ascii] per byte. *)

Definition slen (s : string) : Z := Z.of_nat (String.length s).

Definition byte_val (c : ascii) : Z := Z.of_nat (nat_of_ascii c).
Definition in_range (lo hi : Z) (c : ascii) : bool :=
  (lo <=? byte_val c) && (byte_val c <=? hi).

Definition is_ascii_digit (c : ascii) : bool := in_range 48 57 c.
Definition is_ascii_upper (c : ascii) : bool := in_range 65 90 c.
Definition is_ascii_lower (c : ascii) : bool := in_range 97 122 c.
Definition is_ascii_alphanumeric (c : ascii) : bool :=
  is_ascii_digit c || is_ascii_upper c || is_ascii_lower c.

Definition lower_ascii (c : ascii) : ascii :=
  if is_ascii_upper c then ascii_of_nat (nat_of_ascii c + 32) else c.

Fixpoint str_map (f : ascii → ascii) (s : string) : string :=
  match s with EmptyString => EmptyString | String c s => String (f c) (str_map f s) end.
Fixpoint str_all (p : ascii → bool) (s : string) : bool :=
  match s with EmptyString => true | String c s => p c && str_all p s end.
Definition str_any (p : ascii → bool) (s : string) : bool :=
  negb (str_all (λ c, negb (p c)) s).

(** [str::to_ascii_lowercase], [str::eq_ignore_ascii_case]. *)
Definition to_ascii_lowercase : string → string := str_map lower_ascii.
Definition eq_ignore_ascii_case (a b : string) : bool :=
  String.eqb (to_ascii_lowercase a) (to_ascii_lowercase b).

(** [&s[..n]] and [&s[n..]] for an index that is in range. *)
Fixpoint str_take (n : nat) (s : string) : string :=
  match n, s with
  | O, _ | _, EmptyString => EmptyString
  | S n, String c s => String c (str_take n s)
  end.
Fixpoint str_drop (n : nat) (s : string) : string :=
  match n, s with
  | O, _ => s
  | _, EmptyString => EmptyString
  | S n, String _ s => str_drop n s
  end.

(** [str::strip_prefix], [str::starts_with], [str::strip_suffix],
    [str::ends_with]. *)
Fixpoint strip_prefix (p s : string) : option string :=
  match p, s with
  | EmptyString, _ => Some s
  | String a p, String b s => if Ascii.eqb a b then strip_prefix p s else None
  | _, EmptyString => None
  end.
Definition starts_with (p s : string) : bool := bool_decide (is_Some (strip_prefix p s)).
Definition strip_suffix (p s : string) : option string :=
  let n := (String.length s - String.length p)%nat in
  if String.eqb (str_drop n s) p then Some (str_take n s) else None.
Definition ends_with (p s : string) : bool := bool_decide (is_Some (strip_suffix p s)).

(** [str::split_once] on a character class, [str::split] on one character,
    [[String]::join]. *)
Fixpoint split_once (p : ascii → bool) (s : string) : option (string * string) :=
  match s with
  | EmptyString => None
  | String c s =>
      if p c then Some (EmptyString, s)
      else match split_once p s with
           | Some (a, b) => Some (String c a, b)
           | None => None
           end
  end.
Fixpoint split (p : ascii → bool) (s : string) : list string :=
  match s with
  | EmptyString => [EmptyString]
  | String c s =>
      if p c then EmptyString :: split p s
      else match split p s with
           | [] => [String c EmptyString]
           | w :: ws => String c w :: ws
           end
  end.
Fixpoint join (sep : string) (l : list string) : string :=
  match l with
  | [] => EmptyString
  | [x] => x
  | x :: l => x +:+ sep +:+ join sep l
  end.

Definition char_is (c : ascii) : ascii → bool := Ascii.eqb c.
#[global] Arguments char_is : simpl never.
#[global] Arguments in_range : simpl never.
#[global] Arguments is_ascii_digit : simpl never.

(** ASCII white space, as [str::trim] removes it from ASCII text. *)
Definition is_ascii_space (c : ascii) : bool :=
  in_range 9 13 c || Ascii.eqb c " ".

Fixpoint trim_start (p : ascii → bool) (s : string) : string :=
  match s with
  | String c s' => if p c then trim_start p s' else s
  | EmptyString => EmptyString
  end.

Fixpoint str_last (s : string) : option ascii :=
  match s with
  | EmptyString => None
  | String c EmptyString => Some c
  | String _ s => str_last s
  end.
Definition str_first (s : string) : option ascii :=
  match s with EmptyString => None | String c _ => Some c end.

Fixpoint str_repeat (c : ascii) (n : nat) : string :=
  match n with O => EmptyString | S n => String c (str_repeat c n) end.

Section string_lemmas.
Implicit Types (s p q : string) (f : ascii → bool).

Lemma app_empty_r s : s +:+ EmptyString = s.
Proof. induction s; simpl; [done|]. unfold String.app in *; simpl; congruence. Qed.
Lemma app_assoc_s s p q : s +:+ (p +:+ q) = (s +:+ p) +:+ q.
Proof. induction s as [|c s IH]; [done|]. unfold String.app in *; simpl; by rewrite IH. Qed.
Lemma app_cons c s p : String c s +:+ p = String c (s +:+ p).
Proof. done. Qed.
Lemma app_nil_s p : EmptyString +:+ p = p.
Proof. done. Qed.
Lemma length_app_s s p :
  String.length (s +:+ p) = (String.length s + String.length p)%nat.
Proof. induction s as [|c s IH]; [done|]. rewrite app_cons; simpl; by rewrite IH. Qed.
Lemma slen_app s p : slen (s +:+ p) = slen s + slen p.
Proof. unfold slen; rewrite length_app_s; lia. Qed.
Lemma slen_nonneg s : 0 ≤ slen s.
Proof. unfold slen; lia. Qed.

Lemma str_all_app f s p : str_all f (s +:+ p) = str_all f s && str_all f p.
Proof.
  induction s as [|c s IH]; [done|]. rewrite app_cons; simpl; rewrite IH.
  by rewrite andb_assoc.
Qed.

Lemma str_take_drop n s : str_take n s +:+ str_drop n s = s.
Proof.
  revert n; induction s as [|c s IH]; intros [|n]; try done.
  simpl; rewrite app_cons; by rewrite IH.
Qed.
Lemma str_take_app s p : str_take (String.length s) (s +:+ p) = s.
Proof. induction s as [|c s IH]; [by destruct p|]. rewrite app_cons; simpl; by rewrite IH. Qed.
Lemma str_drop_app s p : str_drop (String.length s) (s +:+ p) = p.
Proof. induction s as [|c s IH]; [by destruct p|]. rewrite app_cons; simpl; by rewrite IH. Qed.
Lemma length_str_take n s : String.length (str_take n s) = Nat.min n (String.length s).
Proof. revert n; induction s as [|c s IH]; intros [|n]; simpl; auto. Qed.
Lemma length_str_drop n s : String.length (str_drop n s) = (String.length s - n)%nat.
Proof. revert n; induction s as [|c s IH]; intros [|n]; simpl; auto. Qed.

Lemma strip_prefix_Some p s q : strip_prefix p s = Some q ↔ s = p +:+ q.
Proof.
  revert s; induction p as [|a p IH]; intros s; simpl.
  { rewrite app_nil_s; naive_solver. }
  destruct s as [|b s]; [by split|].
  rewrite app_cons. destruct (Ascii.eqb_spec a b) as [->|Hne].
  - rewrite IH; naive_solver.
  - naive_solver.
Qed.
Lemma starts_with_true p s : starts_with p s = true ↔ ∃ q, s = p +:+ q.
Proof.
  unfold starts_with. rewrite bool_decide_eq_true.
  split; intros [q Hq]; exists q; by apply strip_prefix_Some.
Qed.
Lemma strip_suffix_Some p s q : strip_suffix p s = Some q ↔ s = q +:+ p.
Proof.
  unfold strip_suffix. destruct (String.eqb_spec
    (str_drop (String.length s - String.length p) s) p) as [He|Hne]; split.
  - intros [= <-]. rewrite <- (str_take_drop (String.length s - String.length p) s) at 1.
    by rewrite He.
  - intros ->. f_equal. rewrite length_app_s.
    replace (_ + _ - _)%nat with (String.length q) by lia. apply str_take_app.
  - done.
  - intros ->. destruct Hne. rewrite length_app_s.
    replace (_ + _ - _)%nat with (String.length q) by lia. apply str_drop_app.
Qed.
Lemma ends_with_true p s : ends_with p s = true ↔ ∃ q, s = q +:+ p.
Proof.
  unfold ends_with. rewrite bool_decide_eq_true.
  split; intros [q Hq]; exists q; by apply strip_suffix_Some.
Qed.

Lemma split_once_Some f s a b :
  split_once f s = Some (a, b) ↔
  ∃ c, s = a +:+ String c b ∧ f c = true ∧ str_all (λ c, negb (f c)) a = true.
Proof.
  revert a b; induction s as [|c s IH]; intros a b; simpl.
  { split; [done|]. intros (c & Hs & _). by destruct a. }
  destruct (f c) eqn:Hc.
  - split.
    + intros [= <- <-]. by exists c.
    + intros (c' & Hs & Hc' & Ha). destruct a as [|c0 a].
      * rewrite app_nil_s in Hs. by simplify_eq.
      * rewrite app_cons in Hs. simplify_eq/=. by rewrite Hc in Ha.
  - destruct (split_once f s) as [[a' b']|] eqn:Hs; split.
    + intros [= <- <-]. destruct (proj1 (IH a' b') eq_refl) as (c' & -> & Hc' & Ha).
      exists c'. rewrite app_cons; simpl.
      by rewrite Hc, Ha.
    + intros (c' & Heq & Hc' & Ha). destruct a as [|c0 a].
      { rewrite app_nil_s in Heq. simplify_eq. congruence. }
      rewrite app_cons in Heq. simplify_eq/=.
      apply andb_true_iff in Ha as [_ Ha].
      assert (Some (a', b') = Some (a, b)) as [= -> ->]; [|done].
      apply IH. by exists c'.
    + done.
    + intros (c' & Heq & Hc' & Ha). destruct a as [|c0 a].
      { rewrite app_nil_s in Heq. simplify_eq. congruence. }
      rewrite app_cons in Heq. simplify_eq/=. apply andb_true_iff in Ha as [_ Ha].
      assert (None = Some (a, b)); [|done].
      apply IH. by exists c'.
Qed.
Lemma split_once_None f s :
  split_once f s = None ↔ str_all (λ c, negb (f c)) s = true.
Proof.
  induction s as [|c s IH]; simpl; [done|].
  destruct (f c); simpl; [done|]. destruct (split_once f s) as [[]|]; naive_solver.
Qed.

Lemma trim_start_spec f s :
  ∃ p, s = p +:+ trim_start f s ∧ str_all f p = true ∧
       (∀ c, str_first (trim_start f s) = Some c → f c = false).
Proof.
  induction s as [|c s (p & Hs & Hp & Hf)]; simpl.
  { by exists EmptyString. }
  destruct (f c) eqn:Hc.
  - exists (String c p). rewrite app_cons; simpl. rewrite Hc, Hp, <- Hs. by split_and!.
  - exists EmptyString. split_and!; [done..|]. simpl. by intros c' [= <-].
Qed.

Lemma eq_ignore_ascii_case_true p q :
  eq_ignore_ascii_case p q = true ↔ to_ascii_lowercase p = to_ascii_lowercase q.
Proof. apply String.eqb_eq. Qed.

Lemma lower_ascii_idem c : lower_ascii (lower_ascii c) = lower_ascii c.
Proof. by destruct c as [[] [] [] [] [] [] [] []]. Qed.
Lemma to_ascii_lowercase_idem s :
  to_ascii_lowercase (to_ascii_lowercase s) = to_ascii_lowercase s.
Proof.
  induction s as [|c s IH]; [done|]. unfold to_ascii_lowercase in *; simpl.
  by rewrite lower_ascii_idem, IH.
Qed.
Lemma app_string_inj_l p q1 q2 : p +:+ q1 = p +:+ q2 → q1 = q2.
Proof. induction p as [|c p IH]; [done|]. intros [= ?]. by apply IH. Qed.
Lemma app_string_inj_r p1 q1 p2 q2 :
  String.length q1 = String.length q2 → p1 +:+ q1 = p2 +:+ q2 → p1 = p2 ∧ q1 = q2.
Proof.
  intros Hlen Heq. assert (String.length p1 = String.length p2) as Hp.
  { apply (f_equal String.length) in Heq. rewrite !length_app_s in Heq. lia. }
  pose proof (str_take_app p1 q1) as Ht. pose proof (str_drop_app p1 q1) as Hd.
  rewrite Heq, Hp in Ht, Hd. by rewrite str_take_app in Ht; rewrite str_drop_app in Hd.
Qed.
Lemma to_ascii_lowercase_app p q :
  to_ascii_lowercase (p +:+ q) = to_ascii_lowercase p +:+ to_ascii_lowercase q.
Proof.
  induction p as [|c p IH]; [done|]. rewrite app_cons.
  unfold to_ascii_lowercase in *; simpl. by rewrite IH.
Qed.
Lemma length_to_ascii_lowercase s :
  String.length (to_ascii_lowercase s) = String.length s.
Proof. induction s as [|c s IH]; [done|]. unfold to_ascii_lowercase in *; simpl; auto. Qed.
End string_lemmas.

Create Rewrite HintDb strings.
#[export] Hint Rewrite app_empty_r app_nil_s app_cons slen_app length_app_s
  str_all_app : strings.

(** ** Insertion-ordered maps

    [serde_json::Map] with [preserve_order] (the workspace enables it through
    schemars) and [http::HeaderMap] iterate in insertion order, so they are
    association lists: [assoc_get] is [get], [assoc_insert] is [insert], which
    replaces in place or appends. *)

Section assoc.
Context {A : Type}.
Implicit Types (o : list (string * A)).

Fixpoint assoc_get (k : string) (o : list (string * A)) : option A :=
  match o with
  | [] => None
  | (k', a) :: o => if String.eqb k k' then Some a else assoc_get k o
  end.
Fixpoint assoc_insert (k : string) (a : A) (o : list (string * A)) : list (string * A) :=
  match o with
  | [] => [(k, a)]
  | (k', a') :: o =>
      if String.eqb k k' then (k, a) :: o else (k', a') :: assoc_insert k a o
  end.
Definition assoc_contains (k : string) o : bool := bool_decide (is_Some (assoc_get k o)).

(** [HeaderMap::get_all]: every value stored under a name, in order. *)
Definition assoc_get_all (k : string) o : list A :=
  (filter (λ kv, kv.1 = k) o).*2.

Lemma assoc_get_Some_elem k a o : assoc_get k o = Some a → (k, a) ∈ o.
Proof.
  induction o as [|[k' a'] o IH]; simpl; [done|].
  destruct (String.eqb_spec k k') as [->|]; [intros [= ->]; left|].
  intros; right; auto.
Qed.
Lemma assoc_get_None_iff k o : assoc_get k o = None ↔ k ∉ o.*1.
Proof.
  induction o as [|[k' a'] o IH]; simpl; [set_solver|].
  destruct (String.eqb_spec k k') as [->|]; [set_solver|]. set_solver.
Qed.
Lemma assoc_get_elem k a o : NoDup (o.*1) → (k, a) ∈ o → assoc_get k o = Some a.
Proof.
  induction o as [|[k' a'] o IH]; simpl; [set_solver|].
  rewrite NoDup_cons, elem_of_cons. intros [Hk' Hnd] [[= -> ->]|Hin].
  - by rewrite String.eqb_refl.
  - destruct (String.eqb_spec k k') as [->|]; [|auto].
    destruct Hk'. apply list_elem_of_fmap. by exists (k', a).
Qed.
Lemma assoc_get_insert k k' a o :
  assoc_get k (assoc_insert k' a o) = if String.eqb k k' then Some a else assoc_get k o.
Proof.
  induction o as [|[k0 a0] o IH]; simpl; [done|].
  destruct (String.eqb_spec k' k0) as [->|Hne]; simpl.
  - by destruct (String.eqb_spec k k0).
  - rewrite IH. destruct (String.eqb_spec k k0) as [->|]; [|done].
    destruct (String.eqb_spec k0 k'); congruence.
Qed.
Lemma assoc_insert_fresh k a o : k ∉ o.*1 → assoc_insert k a o = o ++ [(k, a)].
Proof.
  induction o as [|[k0 a0] o IH]; simpl; [done|]. intros Hk.
  destruct (String.eqb_spec k k0) as [->|]; [set_solver|]. rewrite IH; set_solver.
Qed.
Lemma assoc_get_all_cons k k' a o :
  assoc_get_all k ((k', a) :: o) =
    if decide (k' = k) then a :: assoc_get_all k o else assoc_get_all k o.
Proof. unfold assoc_get_all. rewrite filter_cons; simpl. by case_decide. Qed.
Lemma assoc_get_all_head k o : head (assoc_get_all k o) = assoc_get k o.
Proof.
  induction o as [|[k' a] o IH]; [done|]. rewrite assoc_get_all_cons; simpl.
  case_decide as Hk; destruct (String.eqb_spec k k'); simpl; congruence.
Qed.
Lemma elem_of_assoc_get_all k a o : a ∈ assoc_get_all k o ↔ (k, a) ∈ o.
Proof.
  unfold assoc_get_all. rewrite list_elem_of_fmap. split.
  - intros ([k' a'] & -> & [<- ?]%list_elem_of_filter). done.
  - intros Hin. exists (k, a). split; [done|]. by apply list_elem_of_filter.
Qed.
End assoc.

(** ** JSON values ([serde_json::Value])

    A float keeps its IEEE value; how serde_json prints it is a parameter of
    the definitions that print one. *)

Inductive Number : Type :=
| PosInt (n : Z)   (* u64 *)
| NegInt (z : Z)   (* a negative i64 *)
| Float (f : SpecFloat.spec_float).

Inductive Value : Type :=
| JNull
| JBool (b : bool)
| JNumber (n : Number)
| JString (s : string)
| JArray (items : list Value)
| JObject (entries : list (string * Value)).

(** [Map<String, Value>] *)
Abbreviation JsonObject := (list (string * Value)).

Section Value_induction.
Variable P : Value → Prop.
Hypothesis Hnull : P JNull.
Hypothesis Hbool : ∀ b, P (JBool b).
Hypothesis Hnumber : ∀ n, P (JNumber n).
Hypothesis Hstring : ∀ s, P (JString s).
Hypothesis Harray : ∀ l, Forall P l → P (JArray l).
Hypothesis Hobject : ∀ o, Forall (λ kv, P kv.2) o → P (JObject o).

Fixpoint Value_nested_ind (v : Value) : P v :=
  match v with
  | JNull => Hnull
  | JBool b => Hbool b
  | JNumber n => Hnumber n
  | JString s => Hstring s
  | JArray l => Harray l
      ((fix go (l : list Value) : Forall P l :=
          match l with
          | [] => @List.Forall_nil _ P
          | x :: l => @List.Forall_cons _ P x l (Value_nested_ind x) (go l)
          end) l)
  | JObject o => Hobject o
      ((fix go (o : list (string * Value)) : Forall (λ kv, P kv.2) o :=
          match o with
          | [] => @List.Forall_nil _ (λ kv, P kv.2)
          | kv :: o => @List.Forall_cons _ (λ kv, P kv.2) kv o
              (Value_nested_ind kv.2) (go o)
          end) o)
  end.
End Value_induction.

Definition is_null (v : Value) : bool := match v with JNull => true | _ => false end.
Definition as_str (v : Value) : option string :=
  match v with JString s => Some s | _ => None end.
Definition as_array (v : Value) : option (list Value) :=
  match v with JArray l => Some l | _ => None end.
Definition as_object (v : Value) : option JsonObject :=
  match v with JObject o => Some o | _ => None end.

(** [Value::get] on a string key: only an object has one. *)
Definition value_get (k : string) (v : Value) : option Value :=
  o ← as_object v; assoc_get k o.

(** [Number::as_i64], [Number::as_u64]. *)
Definition as_i64 (n : Number) : option Z :=
  match n with PosInt n => to_i64 n | NegInt z => Some z | Float _ => None end.
Definition as_u64 (n : Number) : option Z :=
  match n with PosInt n => Some n | _ => None end.

Definition number_eqb (a b : Number) : bool :=
  match a, b with
  | PosInt x, PosInt y | NegInt x, NegInt y => Z.eqb x y
  | Float f, Float g => SpecFloat.SFeqb f g
  | _, _ => false
  end.

(** [PartialEq for Value]: objects compare as maps, not as entry lists. *)
Fixpoint value_eqb (a b : Value) {struct a} : bool :=
  match a, b with
  | JNull, JNull => true
  | JBool x, JBool y => Bool.eqb x y
  | JNumber x, JNumber y => number_eqb x y
  | JString x, JString y => String.eqb x y
  | JArray l, JArray l' =>
      (fix go (l l' : list Value) : bool :=
         match l, l' with
         | [], [] => true
         | x :: l, y :: l' => value_eqb x y && go l l'
         | _, _ => false
         end) l l'
  | JObject o, JObject o' =>
      Nat.eqb (length o) (length o') &&
      (fix go (o : list (string * Value)) : bool :=
         match o with
         | [] => true
         | (k, x) :: o =>
             match assoc_get k o' with Some y => value_eqb x y | None => false end && go o
         end) o
  | _, _ => false
  end.
Definition object_eqb (a b : JsonObject) : bool := value_eqb (JObject a) (JObject b).

(** The key type of a JSON object is unique: [serde_json] never builds a value
    that is not [wf_value]. *)
Fixpoint wf_value (v : Value) : Prop :=
  match v with
  | JArray l =>
      (fix go (l : list Value) : Prop :=
         match l with [] => True | x :: l => wf_value x ∧ go l end) l
  | JObject o =>
      NoDup (o.*1) ∧
      (fix go (o : list (string * Value)) : Prop :=
         match o with [] => True | (_, x) :: o => wf_value x ∧ go o end) o
  | _ => True
  end.

Lemma wf_value_array l : wf_value (JArray l) ↔ Forall wf_value l.
Proof. simpl. induction l as [|x l IH]; [by split; constructor|]. by rewrite IH, Forall_cons. Qed.
Lemma wf_value_object o :
  wf_value (JObject o) ↔ NoDup (o.*1) ∧ Forall (λ kv, wf_value kv.2) o.
Proof.
  simpl. f_equiv. induction o as [|[k x] o IH]; [by split; constructor|].
  by rewrite IH, Forall_cons.
Qed.

(** ** UTF-8 ([std::str::from_utf8]) *)

Definition is_continuation (c : ascii) : bool := in_range 128 191 c.

(** The well-formed byte sequences of RFC 3629: no overlong form, no
    surrogate, nothing above U+10FFFF. *)
Fixpoint utf8_valid (s : string) : bool :=
  match s with
  | EmptyString => true
  | String c0 s1 =>
      if in_range 0 127 c0 then utf8_valid s1 else
      match s1 with
      | EmptyString => false
      | String c1 s2 =>
          if in_range 194 223 c0 then is_continuation c1 && utf8_valid s2 else
          match s2 with
          | EmptyString => false
          | String c2 s3 =>
              if in_range 224 239 c0 then
                in_range (if byte_val c0 =? 224 then 160 else 128)
                         (if byte_val c0 =? 237 then 159 else 191) c1
                && is_continuation c2 && utf8_valid s3
              else
              match s3 with
              | EmptyString => false
              | String c3 s4 =>
                  in_range 240 244 c0
                  && in_range (if byte_val c0 =? 240 then 144 else 128)
                              (if byte_val c0 =? 244 then 143 else 191) c1
                  && is_continuation c2 && is_continuation c3 && utf8_valid s4
              end
          end
      end
  end.

Lemma utf8_valid_ascii s : str_all (in_range 0 127) s = true → utf8_valid s = true.
Proof.
  induction s as [|c s IH]; [done|]; simpl.
  rewrite andb_true_iff; intros [-> ?]; auto.
Qed.

(** [i64::from_str] and [u64::from_str] on ASCII text. *)
Definition digit_val (c : ascii) : Z := byte_val c - 48.
Fixpoint digits_val_acc (acc : Z) (s : string) : Z :=
  match s with
  | EmptyString => acc
  | String c s => digits_val_acc (acc * 10 + digit_val c) s
  end.
Definition digits_val : string → Z := digits_val_acc 0.

Definition parse_unsigned (s : string) : option Z :=
  if negb (String.eqb s EmptyString) && str_all is_ascii_digit s
  then Some (digits_val s) else None.
Definition parse_i64 (s : string) : option Z :=
  match s with
  | String "-" s' => n ← parse_unsigned s'; to_i64 (- n)
  | String "+" s' => n ← parse_unsigned s'; to_i64 n
  | _ => n ← parse_unsigned s; to_i64 n
  end.
Definition parse_u64 (s : string) : option Z :=
  match s with
  | String "+" s' => n ← parse_unsigned s'; to_u64 n
  | _ => n ← parse_unsigned s; to_u64 n
  end.

(** [ToString] of an integer: decimal digits, most significant first. *)
Fixpoint print_nonneg_fuel (fuel : nat) (z : Z) (acc : string) : string :=
  match fuel with
  | O => acc
  | S fuel =>
      let acc := String (ascii_of_nat (Z.to_nat (48 + z mod 10))) acc in
      if z / 10 =? 0 then acc else print_nonneg_fuel fuel (z / 10) acc
  end.
(** An integer has at most [Z.log2_up z + 1] decimal digits. *)
Definition print_nonneg (z : Z) : string :=
  print_nonneg_fuel (S (Z.to_nat (Z.log2_up (z + 1)))) z EmptyString.
Definition print_Z (z : Z) : string :=
  if z <? 0 then String "-" (print_nonneg (- z)) else print_nonneg z.
Definition print_bool (b : bool) : string := if b then "true" else "false".

Section digits.
Lemma digits_val_acc_eq acc s :
  digits_val_acc acc s = acc * 10 ^ slen s + digits_val s.
Proof.
  unfold digits_val. revert acc; induction s as [|c s IH]; intros acc.
  { simpl. unfold slen; simpl. lia. }
  cbn [digits_val_acc]. rewrite IH, (IH (0 * 10 + _)).
  replace (slen (String c s)) with (1 + slen s) by (unfold slen; simpl; lia).
  rewrite Z.pow_add_r by (pose proof (slen_nonneg s); lia). lia.
Qed.
Lemma digits_val_app a b : digits_val (a +:+ b) = digits_val a * 10 ^ slen b + digits_val b.
Proof.
  unfold digits_val. rewrite <- digits_val_acc_eq.
  generalize 0. induction a as [|c a IH]; intros z; [done|].
  rewrite app_cons; simpl. apply IH.
Qed.
Lemma digits_val_cons c s : digits_val (String c s) = digit_val c * 10 ^ slen s + digits_val s.
Proof.
  change (String c s) with (String c EmptyString +:+ s). rewrite digits_val_app.
  by unfold digits_val at 1.
Qed.
Lemma is_ascii_digit_val c : is_ascii_digit c = true → 0 ≤ digit_val c ≤ 9.
Proof.
  unfold is_ascii_digit, in_range, digit_val. rewrite andb_true_iff, !Z.leb_le. lia.
Qed.
Lemma digits_val_bound s :
  str_all is_ascii_digit s = true → 0 ≤ digits_val s < 10 ^ slen s.
Proof.
  induction s as [|c s IH]; [done|]. simpl. rewrite andb_true_iff.
  intros [Hc%is_ascii_digit_val Hs%IH]. rewrite digits_val_cons.
  replace (slen (String c s)) with (1 + slen s) by (unfold slen; simpl; lia).
  pose proof (slen_nonneg s). rewrite Z.pow_add_r by lia. nia.
Qed.
Lemma digits_val_zeroes s :
  str_all is_ascii_digit s = true →
  digits_val s = 0 ↔ str_all (char_is "0") s = true.
Proof.
  induction s as [|c s IH]; [done|]. simpl. rewrite !andb_true_iff.
  intros [Hc Hs]. pose proof (is_ascii_digit_val _ Hc). pose proof (digits_val_bound _ Hs).
  rewrite digits_val_cons, <- (IH Hs).
  pose proof (slen_nonneg s). assert (0 < 10 ^ slen s) by (apply Z.pow_pos_nonneg; lia).
  split.
  - intros Hsum. assert (digit_val c = 0 ∧ digits_val s = 0) as [Hd ->] by nia.
    split; [|done]. unfold char_is. destruct c as [[] [] [] [] [] [] [] []]; done.
  - intros [Hd%Ascii.eqb_eq ->]; subst c. done.
Qed.

Lemma digit_char z : 0 ≤ z < 10 →
  let c := ascii_of_nat (Z.to_nat (48 + z)) in is_ascii_digit c = true ∧ digit_val c = z.
Proof.
  intros Hz. unfold is_ascii_digit, in_range, digit_val, byte_val; simpl.
  rewrite nat_ascii_embedding by lia. rewrite andb_true_iff, !Z.leb_le. lia.
Qed.
Lemma print_nonneg_fuel_spec fuel z acc :
  0 ≤ z < 10 ^ Z.of_nat fuel → (0 < fuel)%nat →
  ∃ ds, print_nonneg_fuel fuel z acc = ds +:+ acc ∧ str_all is_ascii_digit ds = true ∧
        digits_val ds = z ∧ ds ≠ EmptyString.
Proof.
  revert z acc; induction fuel as [|fuel IH]; intros z acc Hz Hfuel; [lia|].
  cbn [print_nonneg_fuel].
  pose proof (Z.div_mod z 10 ltac:(lia)). pose proof (Z.mod_pos_bound z 10 ltac:(lia)).
  destruct (digit_char (z mod 10) ltac:(lia)) as [Hd Hv].
  set (c := ascii_of_nat _) in *.
  destruct (Z.eqb_spec (z / 10) 0) as [Hdiv|Hdiv].
  - exists (String c EmptyString). split_and!; [done| |unfold digits_val; simpl; lia|done].
    simpl. by rewrite Hd.
  - rewrite Nat2Z.inj_succ, Z.pow_succ_r in Hz by lia.
    assert (0 < fuel)%nat by (destruct fuel; [simpl in Hz; lia|lia]).
    destruct (IH (z / 10) (String c acc)) as (ds & -> & Hds & Hval & Hne); [lia|done|].
    exists (ds +:+ String c EmptyString). split_and!.
    + by rewrite <- app_assoc_s.
    + rewrite str_all_app, Hds. simpl. by rewrite Hd.
    + rewrite digits_val_app, Hval. unfold digits_val, slen; simpl. lia.
    + by destruct ds.
Qed.
Lemma print_nonneg_digits z : 0 ≤ z →
  str_all is_ascii_digit (print_nonneg z) = true ∧
  digits_val (print_nonneg z) = z ∧ print_nonneg z ≠ EmptyString.
Proof.
  intros Hz. unfold print_nonneg.
  set (n := Z.log2_up (z + 1)). assert (0 ≤ n) by apply Z.log2_up_nonneg.
  assert (z + 1 ≤ 2 ^ n) by (apply Z.log2_up_le_pow2; lia).
  assert (2 ^ n ≤ 10 ^ n) by (apply Z.pow_le_mono_l; lia).
  edestruct (print_nonneg_fuel_spec (S (Z.to_nat n)) z EmptyString) as (ds & -> & ? & ? & ?);
    [|lia|by rewrite app_empty_r].
  rewrite Nat2Z.inj_succ, Z2Nat.id, Z.pow_succ_r by lia. lia.
Qed.
Lemma print_nonneg_fuel_length fuel z acc :
  (String.length (print_nonneg_fuel fuel z acc) ≤ fuel + String.length acc)%nat.
Proof.
  revert z acc; induction fuel as [|fuel IH]; intros z acc; [simpl; lia|].
  cbn [print_nonneg_fuel]. case_match; [simpl; lia|].
  etransitivity; [apply IH|]. simpl; lia.
Qed.
Lemma print_nonneg_length z n :
  0 ≤ z < 2 ^ n → slen (print_nonneg z) ≤ n + 1.
Proof.
  intros Hz. unfold print_nonneg, slen.
  assert (0 ≤ n) by (destruct (Z.le_gt_cases 0 n); [done|]; rewrite Z.pow_neg_r in Hz; lia).
  pose proof (print_nonneg_fuel_length (S (Z.to_nat (Z.log2_up (z + 1)))) z EmptyString).
  assert (Z.log2_up (z + 1) ≤ n) by (apply Z.log2_up_le_pow2; lia).
  pose proof (Z.log2_up_nonneg (z + 1)). simpl in *. lia.
Qed.
End digits.

(** A loop whose body is itself a loop over the items [h a] that also demands
    [c a] is a loop over all the items that demands every [c a]. *)
Lemma foldM_flat {E S A B} (f : S → A → result E S) (g : S → B → result E S)
    (c : A → bool) (h : A → list B) l s s' :
  (∀ a t t', a ∈ l → f t a = Ok t' ↔ c a = true ∧ foldM g (h a) t = Ok t') →
  foldM f l s = Ok s' ↔ forallb c l = true ∧ foldM g (flat_map h l) s = Ok s'.
Proof.
  revert s; induction l as [|a l IH]; intros s Hstep; [by simpl; split; [split|intros [_ ?]]|].
  cbn [foldM forallb flat_map]. rewrite foldM_app, !result_bind_ok, andb_true_iff.
  split.
  - intros (t & Ha%Hstep & Hl); [|left]. apply IH in Hl; [|intros; apply Hstep; by right].
    destruct Ha, Hl; split; [done|]. by exists t.
  - intros [[Hca Hcl] (t & Ha & Hl)]. exists t. split; [apply Hstep; [left|done]|].
    apply IH; [intros; apply Hstep; by right|done].
Qed.

Lemma result_bind_check {E A} (r : result E ()) (a a' : A) (b : bool) :
  (r = Ok () ↔ b = true) → (r ≫= λ _, Ok a) = Ok a' ↔ b = true ∧ a = a'.
Proof.
  intros Hb. rewrite result_bind_ok. split.
  - intros ([] & Hr%Hb & [= ->]). done.
  - intros [Hr%Hb ->]. by exists ().
Qed.
