(* ===== verification/Text.v ===== *)
(** * Text: white space, splitting and joining

    Rust's [str::trim] on UTF-8 bytes, and the lemmas on [split] and [join] that
    the parsers of the command line and of plugin configurations share. *)

From S2P Require Import Prelude.

(** ** White space *)

(** [s.trim().is_empty()]: only Unicode white space, read off its UTF-8. *)
Definition is_space2 (c0 c1 : ascii) : bool :=
  (byte_val c0 =? 194)%Z && ((byte_val c1 =? 133)%Z || (byte_val c1 =? 160)%Z).
Definition is_space3 (c0 c1 c2 : ascii) : bool :=
  let b1 := byte_val c1 in let b2 := byte_val c2 in
  ((byte_val c0 =? 225)%Z && (b1 =? 154)%Z && (b2 =? 128)%Z)
  || ((byte_val c0 =? 226)%Z && (b1 =? 128)%Z
      && (in_range 128 138 c2 || (b2 =? 168)%Z || (b2 =? 169)%Z || (b2 =? 175)%Z))
  || ((byte_val c0 =? 226)%Z && (b1 =? 129)%Z && (b2 =? 159)%Z)
  || ((byte_val c0 =? 227)%Z && (b1 =? 128)%Z && (b2 =? 128)%Z).
Fixpoint is_blank (s : string) : bool :=
  match s with
  | EmptyString => true
  | String c0 s1 =>
      if is_ascii_space c0 then is_blank s1 else
      match s1 with
      | EmptyString => false
      | String c1 s2 =>
          if is_space2 c0 c1 then is_blank s2 else
          match s2 with
          | EmptyString => false
          | String c2 s3 => is_space3 c0 c1 c2 && is_blank s3
          end
      end
  end.

(** [str::trim_start], [str::trim_end], [str::trim]. *)
Fixpoint trim_start_ws (s : string) : string :=
  match s with
  | EmptyString => EmptyString
  | String c0 s1 =>
      if is_ascii_space c0 then trim_start_ws s1 else
      match s1 with
      | EmptyString => s
      | String c1 s2 =>
          if is_space2 c0 c1 then trim_start_ws s2 else
          match s2 with
          | EmptyString => s
          | String c2 s3 => if is_space3 c0 c1 c2 then trim_start_ws s3 else s
          end
      end
  end.
Fixpoint trim_end_ws (s : string) : string :=
  match s with
  | EmptyString => EmptyString
  | String c s' => if is_blank s then EmptyString else String c (trim_end_ws s')
  end.
Definition trim (s : string) : string := trim_end_ws (trim_start_ws s).

(** ** Lemmas on splitting *)

(** Splitting at a separator splits the list of pieces. *)
Lemma split_sep p a c b : p c = true → split p (a +:+ String c b) = split p a ++ split p b.
Proof.
  intros Hc. induction a as [|x a IH]; simpl; [by rewrite Hc|].
  destruct (p x); [by rewrite IH|]. rewrite IH.
  by destruct (split p a) as [|w ws] eqn:E; [destruct a as [|y a]; simpl in E; [|destruct (p y), (split p a)]|].
Qed.
Lemma split_none p a : str_any p a = false → split p a = [a].
Proof.
  unfold str_any. induction a as [|x a IH]; simpl; [done|].
  destruct (p x) eqn:Hx; simpl; [done|]. intros H. by rewrite (IH H).
Qed.
Lemma split_not_nil p a : split p a ≠ [].
Proof. destruct a as [|x a]; simpl; [done|]. destruct (p x), (split p a); done. Qed.
Lemma split_pieces p a : Forall (λ s, str_any p s = false) (split p a).
Proof.
  unfold str_any. induction a as [|x a IH]; simpl; [by repeat constructor|].
  destruct (p x) eqn:Hx; [by constructor|].
  destruct (split p a) as [|w ws]; simpl in *; [by constructor; simpl; rewrite ?Hx|].
  inversion IH; subst. constructor; [|done]. simpl. by rewrite Hx.
Qed.
Lemma join_cons sep x l : l ≠ [] → join sep (x :: l) = x +:+ sep +:+ join sep l.
Proof. by destruct l. Qed.
Lemma join_split c a : join (String c "") (split (char_is c) a) = a.
Proof.
  induction a as [|x a IH]; simpl; [done|]. unfold char_is at 1.
  destruct (Ascii.eqb_spec c x) as [->|Hx].
  - rewrite join_cons by apply split_not_nil. by rewrite IH.
  - destruct (split (char_is c) a) as [|w ws] eqn:E; [by apply split_not_nil in E|].
    rewrite <-IH. by destruct ws.
Qed.
Lemma split_join c l : l ≠ [] → Forall (λ s, str_any (char_is c) s = false) l →
  split (char_is c) (join (String c "") l) = l.
Proof.
  intros Hne. induction l as [|x l IH]; [done|]. inversion 1 as [|?? Hx Hl]; subst.
  destruct l as [|y l]; [by apply split_none|].
  rewrite join_cons by done.
  change (String c "" +:+ join (String c "") (y :: l)) with (String c (join (String c "") (y :: l))).
  rewrite split_sep by apply Ascii.eqb_refl. rewrite split_none by done. by rewrite IH.
Qed.

(** ** Lemmas on white space *)

(** A byte that may belong to white space. *)
Definition blank_byte (c : ascii) : bool := is_ascii_space c || in_range 128 255 c.

Lemma space2_bytes c0 c1 : is_space2 c0 c1 = true →
  in_range 192 255 c0 = true ∧ in_range 128 191 c1 = true.
Proof.
  unfold is_space2, in_range. rewrite !andb_true_iff, orb_true_iff, !Z.eqb_eq, !Z.leb_le. lia.
Qed.
Lemma space3_bytes c0 c1 c2 : is_space3 c0 c1 c2 = true →
  in_range 192 255 c0 = true ∧ in_range 128 191 c1 = true ∧ in_range 128 191 c2 = true.
Proof.
  unfold is_space3, in_range.
  rewrite !orb_true_iff, !andb_true_iff, !orb_true_iff, !andb_true_iff, !Z.eqb_eq, !Z.leb_le. lia.
Qed.
Lemma lead_byte_blank c : in_range 192 255 c = true → blank_byte c = true.
Proof.
  unfold blank_byte, in_range. rewrite orb_true_iff, !andb_true_iff, !Z.leb_le. lia.
Qed.
Lemma cont_byte_blank c : in_range 128 191 c = true → blank_byte c = true.
Proof.
  unfold blank_byte, in_range. rewrite orb_true_iff, !andb_true_iff, !Z.leb_le. lia.
Qed.
(** A continuation byte does not start white space. *)
Lemma cont_not_blank c s : in_range 128 191 c = true → is_blank (String c s) = false.
Proof.
  intros Hc.
  assert (is_ascii_space c = false) as Ha.
  { apply not_true_is_false. unfold is_ascii_space, in_range in *. intros H.
    rewrite orb_true_iff, andb_true_iff, !Z.leb_le in *. destruct H as [H| ->%Ascii.eqb_eq]; [lia|].
    vm_compute in Hc. intuition. }
  cbn [is_blank]. rewrite Ha. destruct s as [|c1 [|c2 s]]; [done|..].
  all: destruct (is_space2 c c1) eqn:H2;
    [apply space2_bytes in H2 as [H2 _]; unfold in_range in *;
     rewrite andb_true_iff, !Z.leb_le in *; lia|].
  - done.
  - destruct (is_space3 c c1 c2) eqn:H3; [|done].
    apply space3_bytes in H3 as [H3 _]. unfold in_range in *.
    rewrite andb_true_iff, !Z.leb_le in *. lia.
Qed.

(** Induction along white space: empty, one leading white space character of one,
    two or three bytes, or none. *)
Inductive leading (s : string) : Prop :=
| leading_none : trim_start_ws s = s → (s = EmptyString ∨ is_blank s = false) → leading s
| leading_space w s' : s = w +:+ s' → w ≠ EmptyString →
    str_all blank_byte w = true → str_all (in_range 128 191) (str_drop 1 w) = true →
    (∀ t, trim_start_ws (w +:+ t) = trim_start_ws t) →
    (∀ t, is_blank (w +:+ t) = is_blank t) → leading s.
Lemma leading_cases s : leading s.
Proof.
  destruct s as [|c0 s1]; [apply leading_none; auto|].
  destruct (is_ascii_space c0) eqn:H0.
  { apply (leading_space _ (String c0 "") s1); try done; simpl; intros; rewrite ?H0; try done.
    unfold blank_byte. by rewrite H0. }
  destruct s1 as [|c1 s2].
  { apply leading_none; simpl; rewrite H0; auto. }
  destruct (is_space2 c0 c1) eqn:H2.
  { pose proof (space2_bytes _ _ H2) as [Hl%lead_byte_blank Hc].
    apply (leading_space _ (String c0 (String c1 "")) s2); try done; simpl; intros;
      rewrite ?H0, ?H2, ?Hl, ?(cont_byte_blank _ Hc), ?Hc; done. }
  destruct s2 as [|c2 s3].
  { apply leading_none; simpl; rewrite H0, H2; auto. }
  destruct (is_space3 c0 c1 c2) eqn:H3.
  - pose proof (space3_bytes _ _ _ H3) as (Hl%lead_byte_blank & Hc & Hd).
    apply (leading_space _ (String c0 (String c1 (String c2 ""))) s3); try done; simpl; intros;
      rewrite ?H0, ?H2, ?H3, ?Hl, ?(cont_byte_blank _ Hc), ?(cont_byte_blank _ Hd), ?Hc, ?Hd; done.
  - apply leading_none; simpl; rewrite H0, H2, H3; auto.
Qed.
(** Induction on a text, one leading white space character at a time. *)
Ltac space_induction s :=
  induction s as [s IH] using (induction_ltof1 _ String.length); unfold ltof in IH.

Lemma is_blank_bytes s : is_blank s = true → str_all blank_byte s = true.
Proof.
  space_induction s. destruct (leading_cases s) as [_ [->|?]|w s' -> Hw Hb _ _ Hbl]; [done|congruence|].
  rewrite Hbl, str_all_app, Hb. intros Hs. apply IH; [|done]. rewrite length_app_s.
  destruct w; simpl; [done|lia].
Qed.
Lemma is_blank_not_any p s : (∀ c, p c = true → blank_byte c = false) →
  is_blank s = true → str_any p s = false.
Proof.
  intros Hp H%is_blank_bytes. unfold str_any. rewrite negb_false_iff.
  induction s as [|c s IH]; [done|]. simpl in *. apply andb_true_iff in H as [Hc Hs].
  rewrite IH by done. destruct (p c) eqn:E; [|done]. apply Hp in E. congruence.
Qed.

(** Outside a byte that cannot be white space, trimming acts on the two sides. *)
Lemma trim_start_app c k v : blank_byte c = false →
  trim_start_ws (k +:+ String c v) = trim_start_ws k +:+ String c v.
Proof.
  intros Hc.
  assert (∀ x, in_range 128 191 x = true → x ≠ c) as Hcont.
  { intros x Hx ->. apply cont_byte_blank in Hx. congruence. }
  assert (is_ascii_space c = false ∧ ∀ x y, is_space2 c x = false ∧ is_space3 c x y = false)
    as [Ha Hl].
  { unfold blank_byte in Hc. apply orb_false_iff in Hc as [? Hr]. split; [done|]. intros x y.
    split; apply not_true_is_false; [intros [Hb _]%space2_bytes|intros (Hb & _)%space3_bytes];
      unfold in_range in *; rewrite andb_true_iff, andb_false_iff, !Z.leb_le, !Z.leb_gt in *; lia. }
  space_induction k. destruct k as [|c0 [|c1 [|c2 k]]]; simpl.
  - rewrite Ha. destruct v as [|x [|y v]]; [done|by rewrite (proj1 (Hl x x))|].
    by rewrite (proj1 (Hl x y)), (proj2 (Hl x y)).
  - destruct (is_ascii_space c0); [apply (IH ""); simpl; lia|].
    destruct (is_space2 c0 c) eqn:E; [by apply space2_bytes in E as [_ ?%Hcont]|].
    destruct v as [|y v]; [done|].
    destruct (is_space3 c0 c y) eqn:E3; [by apply space3_bytes in E3 as (_ & ?%Hcont & _)|done].
  - destruct (is_ascii_space c0); [apply (IH (String c1 "")); simpl; lia|].
    destruct (is_space2 c0 c1); [apply (IH ""); simpl; lia|].
    destruct (is_space3 c0 c1 c) eqn:E3; [by apply space3_bytes in E3 as (_ & _ & ?%Hcont)|done].
  - destruct (is_ascii_space c0); [apply (IH (String c1 (String c2 k))); simpl; lia|].
    destruct (is_space2 c0 c1); [apply (IH (String c2 k)); simpl; lia|].
    destruct (is_space3 c0 c1 c2); [apply (IH k); simpl; lia|done].
Qed.
Lemma is_blank_mid c k v : blank_byte c = false → is_blank (k +:+ String c v) = false.
Proof.
  intros Hc. apply not_true_is_false. intros H%is_blank_bytes.
  rewrite str_all_app in H. simpl in H. rewrite Hc in H. by rewrite andb_false_r in H.
Qed.
Lemma trim_end_cons c s :
  trim_end_ws (String c s) = if is_blank (String c s) then "" else String c (trim_end_ws s).
Proof. done. Qed.
Lemma trim_end_app c k v : blank_byte c = false →
  trim_end_ws (k +:+ String c v) = k +:+ String c (trim_end_ws v).
Proof.
  intros Hc. induction k as [|x k IH]; rewrite ?app_cons, ?app_nil_s, trim_end_cons.
  - by rewrite (is_blank_mid c "" v Hc : is_blank (String c v) = false).
  - change (String x (k +:+ String c v)) with (String x k +:+ String c v).
    rewrite is_blank_mid by done. by rewrite IH.
Qed.
Lemma trim_app c k v : blank_byte c = false →
  trim (k +:+ String c v) = trim_start_ws k +:+ String c (trim_end_ws v).
Proof. intros Hc. unfold trim. by rewrite trim_start_app, trim_end_app. Qed.

Lemma trim_end_cont w t : str_all (in_range 128 191) w = true →
  trim_end_ws (w +:+ t) = w +:+ trim_end_ws t.
Proof.
  induction w as [|d w IH]; [done|]. simpl. intros [Hd Hw]%andb_true_iff.
  change (trim_end_ws (String d (w +:+ t)) = String d (w +:+ trim_end_ws t)).
  by rewrite trim_end_cons, cont_not_blank, IH by done.
Qed.
Lemma trim_end_nonspace w t : str_all (in_range 128 191) (str_drop 1 w) = true →
  w ≠ EmptyString → is_blank (w +:+ t) = false → trim_end_ws (w +:+ t) = w +:+ trim_end_ws t.
Proof.
  destruct w as [|c w]; [done|]. intros Hw _ Hb. change (str_drop 1 (String c w)) with w in Hw.
  change (trim_end_ws (String c (w +:+ t)) = String c (w +:+ trim_end_ws t)).
  change (is_blank (String c (w +:+ t)) = false) in Hb.
  by rewrite trim_end_cons, Hb, trim_end_cont.
Qed.

(** The two ends are independent, and trimming twice is trimming once. *)
Lemma trim_blank s : is_blank s = true ↔ trim_start_ws s = EmptyString.
Proof.
  space_induction s. destruct (leading_cases s) as [Ht Hn|w s' -> Hw Hb Hc Ht Hbl].
  - rewrite Ht. destruct Hn as [->|Hn]; [done|]. rewrite Hn. split; [done|by intros ->].
  - rewrite Hbl, Ht. apply IH. rewrite length_app_s. destruct w; simpl; [done|lia].
Qed.
Lemma trim_start_idem s : trim_start_ws (trim_start_ws s) = trim_start_ws s.
Proof.
  space_induction s. destruct (leading_cases s) as [Ht _|w s' -> Hw Hb Hc Ht Hbl]; [by rewrite !Ht|].
  rewrite Ht. apply IH. rewrite length_app_s. destruct w; simpl; [done|lia].
Qed.
Lemma trim_end_prefix s : ∃ b, s = trim_end_ws s +:+ b ∧ is_blank b = true.
Proof.
  induction s as [|c s (b & Hs & Hb)]; [by exists ""|]. rewrite trim_end_cons.
  destruct (is_blank (String c s)) eqn:E; [by exists (String c s)|].
  exists b. by rewrite app_cons, <- Hs.
Qed.
Lemma length_trim_start t : (String.length (trim_start_ws t) ≤ String.length t)%nat.
Proof.
  space_induction t. destruct (leading_cases t) as [-> _|w s' -> Hw _ _ Ht _]; [done|].
  rewrite Ht. specialize (IH s'). rewrite length_app_s in *. destruct w; simpl in *; [done|lia].
Qed.
Lemma trim_end_start s : trim_end_ws (trim_start_ws s) = trim_start_ws (trim_end_ws s).
Proof.
  space_induction s. destruct (leading_cases s) as [Ht Hn|w s' -> Hw Hb Hc Ht Hbl].
  - rewrite Ht. destruct (leading_cases (trim_end_ws s)) as [Ht' _|w' s' Hs' Hw' _ _ Hst' Hbl'];
      [done|exfalso].
    destruct (trim_end_prefix s) as (b & Hs & Hbb). rewrite Hs' in Hs.
    rewrite Hs in Ht at 1. rewrite <- !app_assoc_s, Hst' in Ht.
    apply (f_equal String.length) in Ht.
    pose proof (length_trim_start (s' +:+ b)) as Hle. rewrite Hs, !length_app_s in Ht. rewrite length_app_s in Hle.
    destruct w'; simpl in *; [done|lia].
  - assert (String.length s' < String.length (w +:+ s'))%nat as Hlt.
    { rewrite length_app_s. destruct w; simpl; [done|lia]. }
    rewrite Ht, IH by done. destruct (is_blank s') eqn:E.
    + assert (∀ t, is_blank t = true → trim_end_ws t = "") as He by (intros []; simpl; [done|by intros ->]).
      by rewrite !He by (rewrite ?Hbl; done).
    + rewrite trim_end_nonspace by (rewrite ?Hbl; done). by rewrite Ht.
Qed.
Lemma is_blank_app a b : is_blank a = true → is_blank (a +:+ b) = is_blank b.
Proof.
  space_induction a. destruct (leading_cases a) as [_ [->|?]|w s' -> Hw _ _ _ Hbl]; [done|congruence|].
  rewrite Hbl, <- app_assoc_s, Hbl. apply IH. rewrite length_app_s. destruct w; simpl; [done|lia].
Qed.
Lemma trim_end_idem s : trim_end_ws (trim_end_ws s) = trim_end_ws s.
Proof.
  induction s as [|c s IH]; [done|]. rewrite trim_end_cons.
  destruct (is_blank (String c s)) eqn:E; [done|]. rewrite trim_end_cons, IH.
  destruct (is_blank (String c (trim_end_ws s))) eqn:E'; [|done].
  destruct (trim_end_prefix s) as (b & Hs & Hb).
  apply (is_blank_app _ b) in E'. rewrite app_cons, <- Hs in E'. congruence.
Qed.
Lemma trim_trim_start s : trim (trim_start_ws s) = trim s.
Proof. unfold trim. by rewrite trim_start_idem. Qed.
Lemma trim_trim_end s : trim (trim_end_ws s) = trim s.
Proof. unfold trim. by rewrite <- trim_end_start, trim_end_idem. Qed.
Lemma is_blank_trim s : is_blank s = true ↔ trim s = EmptyString.
Proof.
  split.
  - intros H%trim_blank. unfold trim. by rewrite H.
  - unfold trim. intros H. apply trim_blank.
    destruct (leading_cases (trim_start_ws s)) as [_ [H'|Hn]|w s' Hs Hw Hb Hc Ht _].
    + done.
    + destruct (trim_end_prefix (trim_start_ws s)) as (b & Hp & Hb). rewrite H in Hp.
      rewrite Hp, app_nil_s in Hn. congruence.
    + exfalso. pose proof (trim_start_idem s) as Hi. rewrite Hs, Ht in Hi.
      pose proof (length_trim_start s') as Hle. rewrite Hi, length_app_s in Hle. destruct w; simpl in *; [done|lia].
Qed.
Lemma trim_start_suffix s : ∃ b, s = b +:+ trim_start_ws s.
Proof.
  space_induction s. destruct (leading_cases s) as [-> _|w s' -> Hw _ _ Ht _]; [by exists ""|].
  destruct (IH s') as [b Hb]; [rewrite length_app_s; destruct w; simpl; [done|lia]|].
  exists (w +:+ b). rewrite Ht, <- app_assoc_s. by rewrite <- Hb.
Qed.
Lemma trim_infix s : ∃ a b, s = a +:+ trim s +:+ b.
Proof.
  destruct (trim_start_suffix s) as [a Ha]. destruct (trim_end_prefix (trim_start_ws s)) as (b & Hb & _).
  exists a, b. unfold trim. by rewrite <- Hb, <- Ha.
Qed.
