(* ===== verification/HttpTypes.v ===== *)
(** * HTTP types and the libraries behind them

    What the data plane uses of the [http], [rmcp] and [base64] crates.  A
    header map is the association list of its entries in iteration order;
    the crates' own functions and constants are class fields, and what the
    code relies on of them is the matching [..Laws] class. *)

From S2P Require Import Prelude.

(** A [HeaderName] is its normalised (lower-case) text, a [HeaderValue] its
    bytes, a [HeaderMap] its (name, value) entries. *)
Abbreviation HeaderName := string (only parsing).
Abbreviation HeaderValue := string (only parsing).
Abbreviation HeaderMap := (list (HeaderName * HeaderValue)) (only parsing).

Class HttpLib := {
  HeaderName_from_bytes : string → option HeaderName;
  HeaderValue_from_str : string → option HeaderValue;
}.

(** Documented behaviour of [http]: [HeaderName::from_bytes] normalises to
    lower case, [HeaderValue::from_str] keeps the bytes. *)
Class HttpLibLaws `{HttpLib} : Prop := {
  from_bytes_lower : ∀ s n,
    HeaderName_from_bytes s = Some n → n = to_ascii_lowercase s;
  from_str_same : ∀ s v, HeaderValue_from_str s = Some v → v = s;
}.

(** What the code looks at of a response: its status, its content type and its
    body. *)
Record Response : Type := {
  response_status : Z;
  response_content_type : string;
  response_body : string;
}.

(** [errors.rs]. *)
Definition custom_error (status : Z) (message : string) : Response :=
  {| response_status := status; response_content_type := "text/plain"; response_body := message |}.
Definition unauthorized_response : string → Response := custom_error 401.
Definition bad_request : string → Response := custom_error 400.
Definition internal_server_error : string → Response := custom_error 500.

(** [rmcp::transport::common::http_header] constants. *)
Class RmcpHeaders := {
  HEADER_MCP_METHOD : string;
  HEADER_MCP_NAME : string;
  HEADER_MCP_PROTOCOL_VERSION : string;
  HEADER_SESSION_ID : string;
  HEADER_MCP_PARAM_PREFIX : string;
  BASE64_HEADER_PREFIX : string;
  BASE64_HEADER_SUFFIX : string;
}.

(** The sentinels are ASCII constants. *)
Class RmcpHeadersLaws `{RmcpHeaders} : Prop := {
  sentinel_prefix_ascii : str_all (in_range 0 127) BASE64_HEADER_PREFIX = true;
  sentinel_suffix_ascii : str_all (in_range 0 127) BASE64_HEADER_SUFFIX = true;
}.

(** [base64::prelude::BASE64_STANDARD]. *)
Class Base64 := {
  base64_encode : string → string;
  base64_decode : string → option string;
}.
Class Base64Laws `{Base64} : Prop := {
  base64_decode_encode : ∀ bytes, base64_decode (base64_encode bytes) = Some bytes;
  base64_encode_ascii : ∀ bytes, str_all (in_range 0 127) (base64_encode bytes) = true;
}.

(** [HashMap::iter]: the entries, in some order. *)
Class HashIter := { hash_entries {A} : gmap string A → list (string * A) }.
Class HashIterLaws `{HashIter} : Prop := {
  hash_entries_perm {A} (m : gmap string A) : hash_entries m ≡ₚ map_to_list m;
}.

(** How [serde_json] prints a float. *)
Class SerdeFloat := { float_to_string : SpecFloat.spec_float → string }.

(** ** A concrete instance of every parameter

    Witnesses evaluate the definitions at this instance.  The header constants
    are the ones the unit tests of the repository spell out; the token
    alphabet is RFC 9110's; base64 is replaced by a hexadecimal code, which has
    the same law. *)
Module Concrete.
Definition token_char (c : ascii) : bool :=
  is_ascii_alphanumeric c ||
  str_any (char_is c) "!#$%&'*+-.^_`|~".

#[export] Instance http_lib : HttpLib := {|
  HeaderName_from_bytes s :=
    if negb (String.eqb s "") && str_all token_char s
    then Some (to_ascii_lowercase s) else None;
  HeaderValue_from_str s :=
    if str_all (λ c, in_range 32 126 c || Ascii.eqb c "009") s then Some s else None;
|}.
#[export] Instance http_lib_laws : HttpLibLaws.
Proof.
  split; simpl; intros s n; [destruct (_ && _)|destruct (str_all _ _)]; naive_solver.
Qed.

#[export] Instance rmcp_headers : RmcpHeaders := {|
  HEADER_MCP_METHOD := "Mcp-Method";
  HEADER_MCP_NAME := "Mcp-Name";
  HEADER_MCP_PROTOCOL_VERSION := "Mcp-Protocol-Version";
  HEADER_SESSION_ID := "Mcp-Session-Id";
  HEADER_MCP_PARAM_PREFIX := "Mcp-Param-";
  BASE64_HEADER_PREFIX := "=?base64?";
  BASE64_HEADER_SUFFIX := "?=";
|}.

#[export] Instance rmcp_headers_laws : RmcpHeadersLaws.
Proof. by split. Qed.

(** Two letters "a".."p" per byte. *)
Definition nibble (n : nat) : ascii := ascii_of_nat (97 + n).
Definition unnibble (c : ascii) : option nat :=
  if in_range 97 112 c then Some (nat_of_ascii c - 97)%nat else None.
Fixpoint hex_encode (s : string) : string :=
  match s with
  | EmptyString => EmptyString
  | String c s =>
      String (nibble (nat_of_ascii c / 16))
        (String (nibble (nat_of_ascii c mod 16)) (hex_encode s))
  end.
Fixpoint hex_decode (s : string) : option string :=
  match s with
  | EmptyString => Some EmptyString
  | String _ EmptyString => None
  | String a (String b s) =>
      x ← unnibble a; y ← unnibble b; r ← hex_decode s;
      Some (String (ascii_of_nat (x * 16 + y)%nat) r)
  end.
#[export] Instance base64 : Base64 := {|
  base64_encode := hex_encode; base64_decode := hex_decode |}.
#[export] Instance base64_laws : Base64Laws.
Proof.
  split; intros bytes; induction bytes as [|c s IH]; try done;
    cbn [base64_encode base64_decode base64 hex_encode hex_decode str_all] in *;
    rewrite IH; by destruct c as [[] [] [] [] [] [] [] []].
Qed.

(** The entries in the order of the finite map. *)
#[export] Instance hash_iter : HashIter := {| hash_entries A m := map_to_list m |}.
#[export] Instance hash_iter_laws : HashIterLaws.
Proof. by split. Qed.

(** Rocq has no decimal printer for floats: the witnesses print none. *)
#[export] Instance serde_float : SerdeFloat := {| float_to_string _ := "0.5" |}.
End Concrete.
