(* ===== verification/Apis.v ===== *)
(** * Configuration types of the control plane ([contextforge-data-plane-apis])

    What a subject's configuration holds: virtual hosts, each with its backends
    and the routes from published names to a backend and its own name for the
    tool, resource or prompt.  A [HashMap] is a [gmap], a [Url] and a protocol
    version are their text. *)

From S2P Require Import Prelude HttpTypes.

Abbreviation DownstreamBackendName := string (only parsing).
Abbreviation UpstreamName := string (only parsing).
Abbreviation Url := string (only parsing).
Abbreviation ProtocolVersion := string (only parsing).

Record BackendMCPGateway : Type := {
  backend_display_name : string;
  url : Url;
  mcp_protocol_version : ProtocolVersion;
  passthrough_headers : list string;
  add_headers : gmap string string;
  remove_headers : list string;
  completion_config : gmap string string;
  tool_schemas : gmap string JsonObject;
}.

Record ServiceRoute : Type := {
  backend_name : DownstreamBackendName;
  upstream_name : UpstreamName;
}.

Record VirtualHost : Type := {
  backends : gmap string BackendMCPGateway;
  tools : gmap string ServiceRoute;
  resources : gmap string ServiceRoute;
  resource_templates : gmap string ServiceRoute;
  prompts : gmap string ServiceRoute;
}.

Record UserConfig : Type := { virtual_hosts : gmap string VirtualHost }.

#[export] Instance ServiceRoute_eq_dec : EqDecision ServiceRoute.
Proof. solve_decision. Defined.

(** The key type of [User] distinguishes it from other records in the store. *)
Inductive KeyType : Type := KUserConfig.

Record User : Type := { user_name : KeyType; user_key : string }.

Definition User_new (key : string) : User := {| user_name := KUserConfig; user_key := key |}.

#[export] Instance User_eq_dec : EqDecision User.
Proof. intros [[] k1] [[] k2]. destruct (decide (k1 = k2)); [left|right]; congruence. Defined.

Record Authority : Type := { hostname : string; port : Z }.

Record GlobalConfig : Type := {
  gc_standard_header_max_count : option Z;
  gc_standard_header_max_value_bytes : option Z;
  gc_standard_header_max_total_bytes : option Z;
  gc_allowed_origins : option (list Url);
  gc_allowed_hosts : option (list Authority);
}.

(** [http::uri::Authority::try_from(String)]. *)
Class HttpUri := { uri_authority_try_from : string → option string }.

(** [TryFrom<Authority> for http::uri::Authority]. *)
Definition authority_try_from `{!HttpUri} (value : Authority) : option string :=
  uri_authority_try_from (hostname value +:+ ":" +:+ print_Z (port value)).
