(* ===== verification/Schemas.v ===== *)
(** * The schema generator ([contextforge-data-plane-apis]: [main.rs])

    The tool that writes the JSON schemas of the three documents the control plane
    stores.  The schemas themselves are what [schemars] derives from the types. *)

From S2P Require Import Prelude.

Inductive SchemaType : Type := SUserConfig | SUser | SGlobalConfig.

(** [into_root_schema_for] and [serde_json::to_string_pretty]. *)
Class Schemars := { schema_text : SchemaType → result string string }.
(** [fs::write]: an error may leave anything behind. *)
Class Files (W : Type) := { fs_write : string → string → W → result string () * W }.

Section generator.
Context `{!Schemars} {W : Type} `{!Files W}.

(** One of the three blocks: nothing is written when there is no text to write. *)
Definition write_schema (path : string) (schema : SchemaType) (w : W) : result string () * W :=
  match schema_text schema with
  | Err e => (Err e, w)
  | Ok text => fs_write path text w
  end.
Definition schemas_main (w : W) : result string () * W :=
  match write_schema "./schemas/user_config.json" SUserConfig w with
  | (Err e, w) => (Err e, w)
  | (Ok _, w) =>
      match write_schema "./schemas/user.json" SUser w with
      | (Err e, w) => (Err e, w)
      | (Ok _, w) => write_schema "./schemas/global_config.json" SGlobalConfig w
      end
  end.

(** What a file holds after a write, and that a write leaves the other files alone. *)
Class FilesLaws (file : string → W → option string) : Prop := {
  fs_write_ok path text w w' : fs_write path text w = (Ok (), w') →
    ∀ p, file p w' = if String.eqb p path then Some text else file p w;
}.
Context (file : string → W → option string) `{!FilesLaws file}.

Lemma write_schema_ok path schema w w' :
  write_schema path schema w = (Ok (), w') →
  ∃ text, schema_text schema = Ok text ∧
    ∀ p, file p w' = if String.eqb p path then Some text else file p w.
Proof.
  unfold write_schema. destruct (schema_text schema) as [text|]; [|done].
  intros Hw. exists text. split; [done|]. by apply fs_write_ok.
Qed.

(** When the tool succeeds the three schema files hold the schemas of their types, and
    no other file has changed. *)
Theorem schemas_written w w' (Hmain : schemas_main w = (Ok (), w')) :
  (∃ text, schema_text SUserConfig = Ok text ∧ file "./schemas/user_config.json" w' = Some text) ∧
  (∃ text, schema_text SUser = Ok text ∧ file "./schemas/user.json" w' = Some text) ∧
  (∃ text, schema_text SGlobalConfig = Ok text ∧ file "./schemas/global_config.json" w' = Some text) ∧
  ∀ p, p ∉ ["./schemas/user_config.json"; "./schemas/user.json"; "./schemas/global_config.json"] →
    file p w' = file p w.
Proof.
  unfold schemas_main in Hmain.
  destruct (write_schema _ SUserConfig w) as [[[]|e] w1] eqn:H1; [|done].
  destruct (write_schema _ SUser w1) as [[[]|e] w2] eqn:H2; [|done].
  apply write_schema_ok in H1 as (t1 & Ht1 & H1), H2 as (t2 & Ht2 & H2), Hmain as (t3 & Ht3 & H3).
  split_and!.
  - exists t1. by rewrite H3, H2, H1.
  - exists t2. by rewrite H3, H2.
  - exists t3. by rewrite H3.
  - intros p Hp. rewrite H3, H2, H1.
    destruct (String.eqb_spec p "./schemas/global_config.json") as [->|_]; [set_solver|].
    destruct (String.eqb_spec p "./schemas/user.json") as [->|_]; [set_solver|].
    destruct (String.eqb_spec p "./schemas/user_config.json") as [->|_]; [set_solver|done].
Qed.
End generator.

(** A file system that is a map. *)
Module ConcreteSchemas.
#[export] Instance schemars : Schemars := {|
  schema_text s := Ok match s with SUserConfig => "config" | SUser => "user" | SGlobalConfig => "global" end |}.
#[export] Instance files : Files (gmap string string) := {|
  fs_write path text w := (Ok (), <[path := text]> w) |}.
Definition file (p : string) (w : gmap string string) : option string := w !! p.
#[export] Instance files_laws : FilesLaws file.
Proof.
  split. intros path text w w' [= <-] p. unfold file.
  destruct (String.eqb_spec p path) as [->|Hne]; [apply lookup_insert_eq|by apply lookup_insert_ne].
Qed.
Lemma schemas_written_witness : file "./schemas/user.json" (schemas_main ∅).2 = Some "user".
Proof.
  assert (schemas_main (∅ : gmap string string) = (Ok (), (schemas_main ∅).2)) as Hmain by reflexivity.
  destruct (schemas_written file ∅ _ Hmain) as (_ & (text & [= <-] & Hfile) & _).
  exact Hfile.
Defined.
End ConcreteSchemas.
