(* ===== verification/McpStandardHeaders.v ===== *)
(** * MCP standard headers ([mcp_standard_headers.rs])

    Classification of the MCP headers, the walk over a tool's input schema that
    finds its [x-mcp-header] annotations, and the check of a call's
    [Mcp-Param-*] headers against its arguments.  A formatted error message is
    the constructor of [HeaderError] that carries the values it interpolates. *)

From S2P Require Import Prelude HttpTypes.

Definition MAX_SAFE_INTEGER : Z := 9007199254740991.
Definition MIN_SAFE_INTEGER : Z := - MAX_SAFE_INTEGER.

Inductive ParameterType : Type := TBoolean | TInteger | TString.

Record ParamHeaderAnnotation : Type := {
  header_name : HeaderName;
  header_name_display : string;
  parameter_type : ParameterType;
  property_path : list string;
}.

Inductive HeaderError : Type :=
| UnexpectedHeader (display path : string)
| MissingHeader (display path : string)
| MalformedHeader (display : string) (reason : string)
| HeaderMismatch (display decoded expected : string)
| UnreachableAnnotation (schema_path : string)
| AnnotationNotString (path : string)
| AnnotationEmpty (path : string)
| AnnotationNotToken (path header : string)
| AnnotationDuplicate (path header : string)
| AnnotationType (path : string) (got : option string)
| AnnotationHeaderName (path display : string)
| BodyNotBoolean (path : string)
| BodyNotInteger (path : string)
| BodyNotString (path : string).

(** ** Header classes *)

Section classes.
Context `{!RmcpHeaders}.

Definition is_exact (name : HeaderName) (expected : string) : bool :=
  eq_ignore_ascii_case name expected.

(** [name.as_str().get(..PREFIX.len())] is [None] for a shorter name. *)
Definition is_param (name : HeaderName) : bool :=
  let n := String.length HEADER_MCP_PARAM_PREFIX in
  if (n <=? String.length name)%nat
  then eq_ignore_ascii_case (str_take n name) HEADER_MCP_PARAM_PREFIX
  else false.

Definition is_limited (name : HeaderName) : bool :=
  is_exact name HEADER_MCP_METHOD
  || is_exact name HEADER_MCP_NAME
  || is_exact name HEADER_MCP_PROTOCOL_VERSION
  || is_exact name HEADER_SESSION_ID
  || is_param name.

Definition is_computed (name : HeaderName) : bool :=
  is_exact name HEADER_MCP_METHOD
  || is_exact name HEADER_MCP_NAME
  || is_exact name HEADER_MCP_PROTOCOL_VERSION
  || is_param name.
End classes.

Definition is_tchar (byte : ascii) : bool :=
  is_ascii_alphanumeric byte ||
  (Ascii.eqb byte "!" || Ascii.eqb byte "#" || Ascii.eqb byte "$" || Ascii.eqb byte "%"
   || Ascii.eqb byte "&" || Ascii.eqb byte "'" || Ascii.eqb byte "*" || Ascii.eqb byte "+"
   || Ascii.eqb byte "-" || Ascii.eqb byte "." || Ascii.eqb byte "^" || Ascii.eqb byte "_"
   || Ascii.eqb byte "`" || Ascii.eqb byte "|" || Ascii.eqb byte "~").

(** ** Integer header values *)

Definition is_exponent_mark (c : ascii) : bool := Ascii.eqb c "e" || Ascii.eqb c "E".

Record IntegerLiteral : Type := {
  lit_negative : bool;
  lit_whole : string;
  lit_fraction : string;
  lit_exponent : Z;
}.

(** First half of [parse_integer_header_value]: sign, exponent and fraction are
    split off and the digits checked. *)
Definition split_integer_literal (value : string) : option IntegerLiteral :=
  let '(negative, value) :=
    match value with
    | String "-" rest => (true, rest)
    | String "+" rest => (false, rest)
    | _ => (false, value)
    end in
  me ← match split_once is_exponent_mark value with
       | Some (mantissa, exponent) => e ← parse_i64 exponent; Some (mantissa, e)
       | None => Some (value, 0)
       end;
  let '(mantissa, exponent) := me : string * Z in
  wf ← match split_once (char_is ".") mantissa with
       | Some (whole, fraction) =>
           if negb (String.eqb fraction EmptyString) then Some (whole, fraction) else None
       | None => Some (mantissa, EmptyString)
       end;
  let '(whole, fraction) := wf : string * string in
  if String.eqb whole EmptyString || negb (str_all is_ascii_digit whole)
     || negb (str_all is_ascii_digit fraction)
  then None
  else Some {| lit_negative := negative; lit_whole := whole;
               lit_fraction := fraction; lit_exponent := exponent |}.

(** Last part: the digits that remain and the zeroes the exponent appends make
    a magnitude within the safe range, or nothing. *)
Definition finish_integer (negative : bool) (integer_digits : string) (trailing_zeroes : Z)
    : option Z :=
  let integer_digits := trim_start (char_is "0") integer_digits in
  if String.eqb integer_digits EmptyString then Some 0 else
  total ← to_usize (slen integer_digits + trailing_zeroes);
  if slen (print_Z MAX_SAFE_INTEGER) <? total then None else
  d ← parse_u64 integer_digits;
  t ← to_u32 trailing_zeroes;
  p ← to_u64 (10 ^ t);
  magnitude ← to_u64 (d * p);
  if MAX_SAFE_INTEGER <? magnitude then None else
  magnitude ← to_i64 magnitude;
  if negative then to_i64 (- magnitude) else Some magnitude.

(** Middle part: a positive scale drops fraction digits, which must be zeroes;
    any other scale appends zeroes. *)
Definition scale_integer (lit : IntegerLiteral) : option Z :=
  _ ← to_usize (slen (lit_whole lit) + slen (lit_fraction lit));
  let digits := lit_whole lit +:+ lit_fraction lit in
  flen ← to_i64 (slen (lit_fraction lit));
  scale ← to_i64 (flen - lit_exponent lit);
  if 0 <? scale then
    scale ← to_usize scale;
    if slen digits <? scale then
      if str_all (char_is "0") digits then Some 0 else None
    else
      let integer_end := Z.to_nat (slen digits - scale) in
      if negb (str_all (char_is "0") (str_drop integer_end digits)) then None
      else finish_integer (lit_negative lit) (str_take integer_end digits) 0
  else
    negated ← to_i64 (- scale);
    zeroes ← to_usize negated;
    finish_integer (lit_negative lit) digits zeroes.

Definition parse_integer_header_value (value : string) : option Z :=
  lit ← split_integer_literal value; scale_integer lit.

(** ** Parameter values *)

Inductive ParameterValue : Type :=
| PBoolean (b : bool)
| PInteger (z : Z)
| PString (s : string).

Definition display (v : ParameterValue) : string :=
  match v with
  | PBoolean b => print_bool b
  | PInteger z => print_Z z
  | PString s => s
  end.

Definition number_to_string `{!SerdeFloat} (n : Number) : string :=
  match n with
  | PosInt z | NegInt z => print_Z z
  | Float f => float_to_string f
  end.

Definition safe_integer (z : Z) : bool :=
  (MIN_SAFE_INTEGER <=? z) && (z <=? MAX_SAFE_INTEGER).

(** [a.or_else(b)] and [Option::filter]. *)
Definition or_else {A} (a b : option A) : option A :=
  match a with Some _ => a | None => b end.
Definition opt_filter {A} (p : A → bool) (o : option A) : option A :=
  match o with Some a => if p a then Some a else None | None => None end.

Definition parameter_value `{!SerdeFloat} (value : Value) (ty : ParameterType) (path : string)
    : result HeaderError ParameterValue :=
  match ty, value with
  | TBoolean, JBool b => Ok (PBoolean b)
  | TInteger, JNumber n =>
      integer ← ok_or
        (opt_filter safe_integer
           (or_else (as_i64 n)
              (or_else (z ← as_u64 n; to_i64 z)
                 (parse_integer_header_value (number_to_string n)))))
        (BodyNotInteger path);
      Ok (PInteger integer)
  | TString, JString s => Ok (PString s)
  | TBoolean, _ => Err (BodyNotBoolean path)
  | TInteger, _ => Err (BodyNotInteger path)
  | TString, _ => Err (BodyNotString path)
  end.

Definition parameter_values_match (header_value : string) (body_value : ParameterValue) : bool :=
  match body_value with
  | PBoolean b => String.eqb header_value (print_bool b)
  | PInteger z =>
      match parse_integer_header_value header_value with
      | Some header => Z.eqb header z
      | None => false
      end
  | PString s => String.eqb header_value s
  end.

Definition value_at_property_path (arguments : option JsonObject) (path : list string)
    : option Value :=
  match path with
  | [] => None
  | first :: rest =>
      arguments ← arguments;
      value ← assoc_get first arguments;
      foldl (λ value property, value ← value; value_get property value) (Some value) rest
  end.

Definition is_blank (c : option ascii) : bool :=
  match c with Some c => Ascii.eqb c " " || Ascii.eqb c "009" | None => false end.

Section decode.
Context `{!RmcpHeaders, !Base64}.

Definition decode_header_value (raw : HeaderValue) : result string string :=
  if negb (utf8_valid raw) then Err "value is not ASCII or UTF-8" else
  match (inner ← strip_prefix BASE64_HEADER_PREFIX raw;
         strip_suffix BASE64_HEADER_SUFFIX inner) with
  | Some inner =>
      decoded ← ok_or (base64_decode inner) "sentinel contains invalid Base64";
      if utf8_valid decoded then Ok decoded else Err "sentinel does not contain UTF-8"
  | None =>
      if is_blank (str_first raw) || is_blank (str_last raw)
      then Err "plain value has leading or trailing whitespace" else
      if str_any (λ c, negb (Ascii.eqb c "009" || in_range 32 126 c)) raw
      then Err "plain value contains characters that require Base64 encoding"
      else Ok raw
  end.
End decode.

(** ** Schema annotations *)

Definition ANNOTATION : string := "x-mcp-header".

Fixpoint reject_unreachable_annotations (value : Value) (schema_path : string)
    : result HeaderError () :=
  match value with
  | JObject object =>
      if assoc_contains ANNOTATION object then Err (UnreachableAnnotation schema_path) else
      (fix go (o : list (string * Value)) : result HeaderError () :=
         match o with
         | [] => Ok ()
         | (key, nested) :: o =>
             _ ← reject_unreachable_annotations nested (schema_path +:+ "." +:+ key); go o
         end) object
  | JArray array =>
      (fix go (index : nat) (l : list Value) : result HeaderError () :=
         match l with
         | [] => Ok ()
         | nested :: l =>
             _ ← reject_unreachable_annotations nested
                   (schema_path +:+ "[" +:+ print_Z (Z.of_nat index) +:+ "]");
             go (S index) l
         end) 0%nat array
  | _ => Ok ()
  end.

(** The two accumulators [visit_schema] mutates: [seen_headers] and
    [annotations]. *)
Record VisitState : Type := {
  seen_headers : list string;
  annotations : list ParamHeaderAnnotation;
}.

Definition path_or_empty (p : option (list string)) : list string :=
  match p with Some p => p | None => [] end.

(** The [match] on the declared type; [None] is its [other] arm. *)
Definition parameter_type_named (ty : option string) : option ParameterType :=
  match ty with
  | Some "boolean" => Some TBoolean
  | Some "integer" => Some TInteger
  | Some "string" => Some TString
  | _ => None
  end.

Section schema.
Context `{!RmcpHeaders, !HttpLib}.

(** The block under [if let Some(raw_header) = schema.get("x-mcp-header")]. *)
Definition visit_annotation (schema : JsonObject) (schema_path : string)
    (property_path : option (list string)) (raw_header : Value) (st : VisitState)
    : result HeaderError VisitState :=
  property_path ← ok_or property_path (UnreachableAnnotation schema_path);
  let property_path_display := join "." property_path in
  header ← ok_or (as_str raw_header) (AnnotationNotString property_path_display);
  if String.eqb header EmptyString then Err (AnnotationEmpty property_path_display) else
  if negb (str_all is_tchar header)
  then Err (AnnotationNotToken property_path_display header) else
  if bool_decide (to_ascii_lowercase header ∈ seen_headers st)
  then Err (AnnotationDuplicate property_path_display header) else
  let ty := (ty ← assoc_get "type" schema; as_str ty) in
  parameter_type ← ok_or (parameter_type_named ty) (AnnotationType property_path_display ty);
  let header_name_display := HEADER_MCP_PARAM_PREFIX +:+ header in
  header_name ← ok_or (HeaderName_from_bytes header_name_display)
                   (AnnotationHeaderName property_path_display header_name_display);
  Ok {| seen_headers := to_ascii_lowercase header :: seen_headers st;
        annotations := annotations st ++
          [{| header_name := header_name; header_name_display := header_name_display;
              parameter_type := parameter_type; property_path := property_path |}] |}.

(** [visit_schema] on [JObject schema]; on another value it has nothing to
    visit (the code never calls it there). *)
Fixpoint visit_schema (schema : Value) (schema_path : string)
    (property_path : option (list string)) (st : VisitState)
    : result HeaderError VisitState :=
  match schema with
  | JObject object =>
      st ← match assoc_get ANNOTATION object with
           | Some raw_header => visit_annotation object schema_path property_path raw_header st
           | None => Ok st
           end;
      (fix keywords (o : list (string * Value)) (st : VisitState)
         : result HeaderError VisitState :=
         match o with
         | [] => Ok st
         | (keyword, value) :: o =>
             st ←
               (if String.eqb keyword "properties" then
                  match value with
                  | JObject properties =>
                      (fix props (ps : list (string * Value)) (st : VisitState)
                         : result HeaderError VisitState :=
                         match ps with
                         | [] => Ok st
                         | (property, property_schema) :: ps =>
                             let nested_property_path :=
                               path_or_empty property_path ++ [property] in
                             let nested_schema_path :=
                               schema_path +:+ ".properties." +:+ property in
                             st ←
                               match property_schema with
                               | JObject _ =>
                                   visit_schema property_schema nested_schema_path
                                     (Some nested_property_path) st
                               | _ =>
                                   _ ← reject_unreachable_annotations property_schema
                                         nested_schema_path;
                                   Ok st
                               end;
                             props ps st
                         end) properties st
                  | _ =>
                      _ ← reject_unreachable_annotations value (schema_path +:+ ".properties");
                      Ok st
                  end
                else if negb (String.eqb keyword ANNOTATION) then
                  _ ← reject_unreachable_annotations value (schema_path +:+ "." +:+ keyword);
                  Ok st
                else Ok st);
             keywords o st
         end) object st
  | _ => Ok st
  end.

Definition param_header_annotations (input_schema : JsonObject)
    : result HeaderError (list ParamHeaderAnnotation) :=
  st ← visit_schema (JObject input_schema) "$" None
         {| seen_headers := []; annotations := [] |};
  Ok (annotations st).
End schema.

(** ** Validation of a call *)

Section validate.
Context `{!RmcpHeaders, !HttpLib, !Base64, !SerdeFloat}.

(** The comparison of one header value inside the loop over the repeated
    values. *)
Definition check_header_value (annotation : ParamHeaderAnnotation)
    (expected : ParameterValue) (raw : HeaderValue) : result HeaderError () :=
  decoded ← map_err (MalformedHeader (header_name_display annotation))
              (decode_header_value raw);
  if negb (parameter_values_match decoded expected)
  then Err (HeaderMismatch (header_name_display annotation) decoded (display expected))
  else Ok ().

(** The body of the loop over the annotations. *)
Definition validate_annotation (headers : HeaderMap) (arguments : option JsonObject)
    (annotation : ParamHeaderAnnotation) : result HeaderError () :=
  let header_values := assoc_get_all (header_name annotation) headers in
  let body_value := opt_filter (λ v, negb (is_null v))
                      (value_at_property_path arguments (property_path annotation)) in
  let path := join "." (property_path annotation) in
  match header_values, body_value with
  | [], None => Ok ()
  | _ :: _, None => Err (UnexpectedHeader (header_name_display annotation) path)
  | [], Some _ => Err (MissingHeader (header_name_display annotation) path)
  | first :: rest, Some body_value =>
      expected ← parameter_value body_value (parameter_type annotation) path;
      foldM (λ _ raw, check_header_value annotation expected raw) (first :: rest) ()
  end.

Definition validate_tool_params (headers : HeaderMap) (arguments : option JsonObject)
    (input_schema : JsonObject) : result HeaderError () :=
  anns ← param_header_annotations input_schema;
  foldM (λ _ annotation, validate_annotation headers arguments annotation) anns ().
End validate.
