(* ===== verification/IntegerHeaders.v ===== *)
(** * Integer header values: the parser against decimal notation

    [parse_integer_header_value] works on digit strings and exponents; here it
    is related to the number the text denotes.  [literal_text] is the accepted
    grammar, [denotes] the value of a literal in decimal scientific notation. *)

From S2P Require Import Prelude HttpTypes McpStandardHeaders.

(** The integer [z] is the value of the literal: whole.fraction * 10^exponent. *)
Definition denotes (lit : IntegerLiteral) (z : Z) : Prop :=
  let scale := slen (lit_fraction lit) - lit_exponent lit in
  let mantissa := (if lit_negative lit then -1 else 1)
                  * digits_val (lit_whole lit +:+ lit_fraction lit) in
  if 0 <? scale then z * 10 ^ scale = mantissa else z = mantissa * 10 ^ (- scale).

Inductive sign_text : bool → string → Prop :=
| sign_minus : sign_text true "-"
| sign_plus : sign_text false "+"
| sign_none : sign_text false "".

Inductive fraction_text : string → string → Prop :=
| fraction_none : fraction_text "" ""
| fraction_some f : f ≠ EmptyString → fraction_text f (String "." f).

Inductive exponent_text : Z → string → Prop :=
| exponent_none : exponent_text 0 ""
| exponent_some c e x :
    is_exponent_mark c = true → parse_i64 e = Some x → exponent_text x (String c e).

Inductive literal_text : IntegerLiteral → string → Prop :=
| literal_text_intro neg sign whole fraction ftext exponent etext :
    sign_text neg sign →
    whole ≠ EmptyString →
    str_all is_ascii_digit whole = true →
    fraction_text fraction ftext →
    str_all is_ascii_digit fraction = true →
    exponent_text exponent etext →
    literal_text
      {| lit_negative := neg; lit_whole := whole;
         lit_fraction := fraction; lit_exponent := exponent |}
      (sign +:+ (whole +:+ ftext) +:+ etext).

(** Difference of the two exponents; the code keeps it in an [i64] that it can
    negate. *)
Definition lit_scale (lit : IntegerLiteral) : Z := slen (lit_fraction lit) - lit_exponent lit.
Definition scale_fits (lit : IntegerLiteral) : Prop := i64_min < lit_scale lit ≤ i64_max.

Section finish.
Lemma trim_zeroes_val s : digits_val (trim_start (char_is "0") s) = digits_val s.
Proof.
  induction s as [|c s IH]; [done|]. cbn [trim_start].
  destruct (char_is "0" c) eqn:Hc; [|done].
  apply Ascii.eqb_eq in Hc as <-. rewrite IH, digits_val_cons. by change (digit_val "0") with 0.
Qed.
Lemma trim_start_all f g s : str_all g s = true → str_all g (trim_start f s) = true.
Proof.
  intros Hs. destruct (trim_start_spec f s) as (p & Heq & _ & _).
  rewrite Heq, str_all_app in Hs. by apply andb_true_iff in Hs as [_ ?].
Qed.
Lemma slen_trim_start f s : slen (trim_start f s) ≤ slen s.
Proof.
  destruct (trim_start_spec f s) as (p & Heq & _ & _). rewrite Heq at 2.
  rewrite slen_app. pose proof (slen_nonneg p). lia.
Qed.
Lemma leading_digit_val s :
  str_all is_ascii_digit s = true → s ≠ EmptyString →
  (∀ c, str_first s = Some c → char_is "0" c = false) → 10 ^ (slen s - 1) ≤ digits_val s.
Proof.
  destruct s as [|c s]; [done|]; intros Hs _ Hc.
  simpl in Hs. apply andb_true_iff in Hs as [Hd Hs].
  pose proof (is_ascii_digit_val _ Hd). pose proof (digits_val_bound _ Hs).
  rewrite digits_val_cons. replace (slen (String c s) - 1) with (slen s)
    by (unfold slen; simpl; lia).
  assert (digit_val c ≠ 0).
  { specialize (Hc c eq_refl). intros Hzero.
    assert (str_all (char_is "0") (String c "") = true) as Hz.
    { apply digits_val_zeroes; [simpl; by rewrite Hd|].
      unfold digits_val; simpl; lia. }
    simpl in Hz. by rewrite Hc in Hz. }
  assert (0 < 10 ^ slen s) by (apply Z.pow_pos_nonneg; [lia|apply slen_nonneg]). nia.
Qed.

Lemma parse_u64_digits s :
  str_all is_ascii_digit s = true → s ≠ EmptyString → parse_u64 s = to_u64 (digits_val s).
Proof.
  intros Hs Hne. assert (parse_unsigned s = Some (digits_val s)) as Hp.
  { unfold parse_unsigned. destruct (String.eqb_spec s ""); [done|]. by rewrite Hs. }
  unfold parse_u64. destruct s as [|[[] [] [] [] [] [] [] []] s]; rewrite ?Hp; done.
Qed.

Lemma max_safe_digits : slen (print_Z MAX_SAFE_INTEGER) = 16.
Proof. by vm_compute. Qed.

Lemma finish_integer_spec neg ds t z :
  str_all is_ascii_digit ds = true → slen ds ≤ i64_max → 0 ≤ t ≤ i64_max →
  finish_integer neg ds t = Some z ↔
  z = (if neg then -1 else 1) * digits_val ds * 10 ^ t ∧ Z.abs z ≤ MAX_SAFE_INTEGER.
Proof.
  intros Hds Hlen Ht. unfold finish_integer. rewrite max_safe_digits.
  pose proof (trim_zeroes_val ds) as Hval.
  pose proof (trim_start_all (char_is "0") _ _ Hds) as Hall.
  pose proof (slen_trim_start (char_is "0") ds) as Htl.
  destruct (trim_start_spec (char_is "0") ds) as (_ & _ & _ & Hfirst).
  set (r := trim_start (char_is "0") ds) in *. rewrite <- Hval.
  assert (0 < 10 ^ t) by (apply Z.pow_pos_nonneg; lia).
  destruct (String.eqb_spec r EmptyString) as [->|Hne].
  { change (digits_val "") with 0. unfold MAX_SAFE_INTEGER. split; [intros [= <-]|]; [lia|].
    intros [-> _]. f_equal. lia. }
  pose proof (leading_digit_val _ Hall Hne Hfirst) as Hlow.
  pose proof (digits_val_bound _ Hall) as Hup. pose proof (slen_nonneg r).
  assert (1 ≤ slen r) by (destruct r; [done|unfold slen; simpl; lia]).
  assert (10 ^ (slen r - 1 + t) ≤ digits_val r * 10 ^ t) as Hprod.
  { rewrite Z.pow_add_r by lia. nia. }
  in_width. destruct (Z.ltb_spec 16 (slen r + t)) as [Hbig|Hsmall].
  { split; [done|]. intros [-> Habs]. exfalso.
    assert (10 ^ 16 ≤ 10 ^ (slen r - 1 + t)) by (apply Z.pow_le_mono_r; lia).
    unfold MAX_SAFE_INTEGER in Habs. destruct neg; lia. }
  assert (digits_val r * 10 ^ t < 10 ^ 16) as Hub.
  { apply Z.lt_le_trans with (10 ^ (slen r + t)); [|apply Z.pow_le_mono_r; lia].
    rewrite Z.pow_add_r by lia. nia. }
  assert (digits_val r < 10 ^ 16) by nia.
  assert (10 ^ t ≤ 10 ^ 16) by (apply Z.pow_le_mono_r; lia).
  rewrite parse_u64_digits by done.
  in_width. unfold MAX_SAFE_INTEGER in *. destruct (Z.ltb_spec 9007199254740991 (digits_val r * 10 ^ t)).
  { split; [done|]. intros [-> Habs]. destruct neg; lia. }
  in_width. destruct neg; in_width;
    (split; [intros [= <-]; split; lia|intros [-> _]; f_equal; lia]).
Qed.
End finish.

Section scale.
Lemma multiple_below z P m : 0 ≤ m < P → z * P = m → m = 0.
Proof. intros Hm Hz. assert (z = 0 ∨ z < 0 ∨ 0 < z) as [->|[?|?]] by lia; nia. Qed.

Lemma all_zero_digits s : str_all (char_is "0") s = true → str_all is_ascii_digit s = true.
Proof.
  induction s as [|c s IH]; [done|]. simpl. rewrite !andb_true_iff.
  intros [<-%Ascii.eqb_eq Hs]; auto.
Qed.

(** Dropping [scale] digits is a division when they are all zeroes, and the
    text denotes no integer when they are not. *)
Lemma scale_down_spec neg digits scale z :
  str_all is_ascii_digit digits = true → slen digits ≤ i64_max → 0 < scale →
  (if slen digits <? scale then
     if str_all (char_is "0") digits then Some 0 else None
   else
     if negb (str_all (char_is "0") (str_drop (Z.to_nat (slen digits - scale)) digits))
     then None
     else finish_integer neg (str_take (Z.to_nat (slen digits - scale)) digits) 0) = Some z ↔
  z * 10 ^ scale = (if neg then -1 else 1) * digits_val digits ∧ Z.abs z ≤ MAX_SAFE_INTEGER.
Proof.
  intros Hds Hdl Hpos. pose proof (slen_nonneg digits).
  destruct (Z.ltb_spec (slen digits) scale) as [Hshort|Hlong].
  - pose proof (digits_val_bound _ Hds). pose proof (digits_val_zeroes _ Hds) as Hz.
    assert (10 ^ slen digits ≤ 10 ^ scale) by (apply Z.pow_le_mono_r; lia).
    destruct (str_all (char_is "0") digits).
    + rewrite (proj2 Hz) by done. unfold MAX_SAFE_INTEGER.
      split; [intros [= <-]; lia|]. intros (Hden & _). f_equal.
      assert (0 < 10 ^ scale) by (apply Z.pow_pos_nonneg; lia). destruct neg; nia.
    + split; [done|]. intros (Hden & _). exfalso.
      assert (digits_val digits ≠ 0) as Hnz by (intros ?%Hz; done). apply Hnz.
      destruct neg; [apply (multiple_below (- z) (10 ^ scale))
                    |apply (multiple_below z (10 ^ scale))]; lia.
  - set (n := Z.to_nat (slen digits - scale)).
    assert (slen (str_drop n digits) = scale) as Hsd.
    { unfold slen. rewrite length_str_drop. unfold n, slen in *. lia. }
    rewrite <- (str_take_drop n digits), str_all_app in Hds.
    apply andb_true_iff in Hds as [Ht Hd].
    pose proof (digits_val_bound _ Hd) as Hb. rewrite Hsd in Hb.
    pose proof (digits_val_zeroes _ Hd) as Hz.
    rewrite <- (str_take_drop n digits) at 3. rewrite digits_val_app, Hsd.
    assert (0 < 10 ^ scale) by (apply Z.pow_pos_nonneg; lia).
    set (q := digits_val (str_take n digits)) in *.
    set (m := digits_val (str_drop n digits)) in *. set (P := 10 ^ scale) in *.
    destruct (str_all (char_is "0") (str_drop n digits)); simpl.
    + rewrite finish_integer_spec; [|done| |unfold i64_max; lia].
      2: { unfold slen in *. rewrite length_str_take. lia. }
      rewrite (proj2 Hz), Z.pow_0_r by done. fold q.
      destruct neg; (split; intros [Hden ?]; (split; [|done]);
        [subst z; lia|apply (Z.mul_reg_r _ _ P); lia]).
    + split; [done|]. intros (Hden & _). exfalso.
      assert (m ≠ 0) as Hnz by (intros ?%Hz; done). apply Hnz.
      destruct neg; [apply (multiple_below (- z - q) P)|apply (multiple_below (z - q) P)]; lia.
Qed.

Lemma scale_integer_spec lit z :
  str_all is_ascii_digit (lit_whole lit) = true →
  str_all is_ascii_digit (lit_fraction lit) = true →
  slen (lit_whole lit) + slen (lit_fraction lit) ≤ i64_max →
  scale_integer lit = Some z ↔
  scale_fits lit ∧ denotes lit z ∧ Z.abs z ≤ MAX_SAFE_INTEGER.
Proof.
  intros Hw Hf Hlen. destruct lit as [neg whole fraction exponent]; simpl in *.
  unfold scale_integer, scale_fits, denotes, lit_scale; cbn [lit_whole lit_fraction
    lit_exponent lit_negative].
  pose proof (slen_nonneg whole). pose proof (slen_nonneg fraction).
  set (scale := slen fraction - exponent). set (digits := whole +:+ fraction).
  assert (str_all is_ascii_digit digits = true) as Hds.
  { subst digits. by rewrite str_all_app, Hw, Hf. }
  assert (slen digits ≤ i64_max) as Hdl by (subst digits; rewrite slen_app; lia).
  in_width. fold scale. clearbody scale.
  destruct (decide (i64_min ≤ scale ≤ i64_max)) as [Hfit|Hfit].
  2: { rewrite to_i64_out by done. split; [done|]. intros [? _]; lia. }
  rewrite to_i64_in by done; cbn [mbind option_bind].
  destruct (Z.ltb_spec 0 scale) as [Hpos|Hneg].
  - in_width. rewrite scale_down_spec by done. unfold i64_min in *. intuition lia.
  - destruct (decide (scale = i64_min)) as [->|Hmin].
    { rewrite to_i64_out by (unfold i64_min, i64_max; lia). split; [done|]. intros [? _]; lia. }
    in_width. rewrite finish_integer_spec by (done || unfold i64_min, i64_max in *; lia).
    unfold i64_min, i64_max in *. split; [intros [-> ?]|intros (_ & -> & ?)]; split; auto; lia.
Qed.
End scale.

(** ** The lexer *)

Section lexer.
Lemma no_mark_in_digits s :
  str_all is_ascii_digit s = true → str_all (λ c, negb (is_exponent_mark c)) s = true.
Proof.
  induction s as [|c s IH]; [done|]. simpl. rewrite !andb_true_iff. intros [Hc ?].
  split; [|auto]. by destruct c as [[] [] [] [] [] [] [] []].
Qed.
Lemma no_dot_in_digits s :
  str_all is_ascii_digit s = true → str_all (λ c, negb (char_is "." c)) s = true.
Proof.
  induction s as [|c s IH]; [done|]. simpl. rewrite !andb_true_iff. intros [Hc ?].
  split; [|auto]. by destruct c as [[] [] [] [] [] [] [] []].
Qed.

(** What [split_integer_literal] does with the unsigned rest. *)
Definition split_unsigned (negative : bool) (value : string) : option IntegerLiteral :=
  me ← match split_once is_exponent_mark value with
       | Some (mantissa, exponent) => e ← parse_i64 exponent; Some (mantissa, e)
       | None => Some (value, 0)
       end;
  let '(mantissa, exponent) := me : string * Z in
  wf ← match split_once (char_is ".") mantissa with
       | Some (whole, fraction) =>
           if negb (String.eqb fraction EmptyString) then Some (whole, fraction) else None
       | None => Some (mantissa, EmptyString)
       end;
  let '(whole, fraction) := wf : string * string in
  if String.eqb whole EmptyString || negb (str_all is_ascii_digit whole)
     || negb (str_all is_ascii_digit fraction)
  then None
  else Some {| lit_negative := negative; lit_whole := whole;
               lit_fraction := fraction; lit_exponent := exponent |}.

Lemma split_integer_literal_sign s neg sign :
  sign_text neg sign → (sign = EmptyString → ∀ c r, s = String c r → c ≠ "+"%char ∧ c ≠ "-"%char) →
  split_integer_literal (sign +:+ s) = split_unsigned neg s.
Proof.
  intros [] Hs; try done. rewrite app_nil_s. specialize (Hs eq_refl).
  destruct s as [|c s]; [done|]. destruct (Hs c s eq_refl) as [Hp Hm].
  destruct c as [[] [] [] [] [] [] [] []]; done.
Qed.

Lemma split_unsigned_complete neg whole fraction ftext exponent etext :
  whole ≠ EmptyString → str_all is_ascii_digit whole = true →
  fraction_text fraction ftext → str_all is_ascii_digit fraction = true →
  exponent_text exponent etext →
  split_unsigned neg ((whole +:+ ftext) +:+ etext) =
  Some {| lit_negative := neg; lit_whole := whole;
          lit_fraction := fraction; lit_exponent := exponent |}.
Proof.
  intros Hne Hw Hft Hf Het. unfold split_unsigned.
  assert (str_all (λ c, negb (is_exponent_mark c)) (whole +:+ ftext) = true) as Hmark.
  { rewrite str_all_app, no_mark_in_digits by done.
    destruct Hft as [|f ?]; [done|]; simpl. by apply no_mark_in_digits. }
  assert (match split_once is_exponent_mark ((whole +:+ ftext) +:+ etext) with
          | Some (mantissa, exponent) => e ← parse_i64 exponent; Some (mantissa, e)
          | None => Some ((whole +:+ ftext) +:+ etext, 0)
          end = Some (whole +:+ ftext, exponent)) as ->.
  { destruct Het as [|c e x Hc He].
    - rewrite app_empty_r. by rewrite (proj2 (split_once_None _ _)).
    - erewrite (proj2 (split_once_Some _ _ _ _)); [|by exists c]. by rewrite He. }
  cbn [mbind option_bind].
  assert (match split_once (char_is ".") (whole +:+ ftext) with
          | Some (w, f) => if negb (String.eqb f EmptyString) then Some (w, f) else None
          | None => Some (whole +:+ ftext, EmptyString)
          end = Some (whole, fraction)) as ->.
  { pose proof (no_dot_in_digits _ Hw). destruct Hft as [|f Hfne].
    - rewrite app_empty_r. by rewrite (proj2 (split_once_None _ _)).
    - erewrite (proj2 (split_once_Some _ _ _ _)); [|by exists "."%char].
      by destruct (String.eqb_spec f ""). }
  cbn [mbind option_bind]. rewrite Hw, Hf. by destruct (String.eqb_spec whole "").
Qed.

Lemma split_unsigned_sound neg s lit :
  split_unsigned neg s = Some lit →
  ∃ ftext etext,
    s = (lit_whole lit +:+ ftext) +:+ etext ∧ lit_negative lit = neg ∧
    lit_whole lit ≠ EmptyString ∧ str_all is_ascii_digit (lit_whole lit) = true ∧
    fraction_text (lit_fraction lit) ftext ∧
    str_all is_ascii_digit (lit_fraction lit) = true ∧
    exponent_text (lit_exponent lit) etext.
Proof.
  unfold split_unsigned. rewrite bind_Some. intros ([mantissa e] & Hme & Hrest).
  rewrite bind_Some in Hrest. destruct Hrest as ([whole fraction] & Hwf & Hrest).
  destruct (String.eqb_spec whole "") as [|Hne]; [done|]; simpl in Hrest.
  destruct (str_all is_ascii_digit whole) eqn:Hw; [|done]; simpl in Hrest.
  destruct (str_all is_ascii_digit fraction) eqn:Hf; [|done]. simpl in Hrest.
  injection Hrest as <-; simpl.
  assert (∃ etext, s = mantissa +:+ etext ∧ exponent_text e etext) as (etext & -> & Het).
  { destruct (split_once is_exponent_mark s) as [[m x]|] eqn:Hs.
    - apply split_once_Some in Hs as (c & -> & Hc & _).
      apply bind_Some in Hme as (e' & He & [= <- <-]). eexists; split; [done|]. by constructor.
    - injection Hme as <- <-. exists EmptyString. rewrite app_empty_r. by repeat constructor. }
  assert (∃ ftext, mantissa = whole +:+ ftext ∧ fraction_text fraction ftext)
    as (ftext & -> & Hft).
  { destruct (split_once (char_is ".") mantissa) as [[w f]|] eqn:Hs.
    - apply split_once_Some in Hs as (c & -> & Hc & _). apply Ascii.eqb_eq in Hc as <-.
      destruct (String.eqb_spec f ""); simplify_eq/=. eexists; split; [done|]. by constructor.
    - injection Hwf as <- <-. exists EmptyString. rewrite app_empty_r. by repeat constructor. }
  by exists ftext, etext.
Qed.

(** The lexer accepts exactly the grammar. *)
Lemma split_integer_literal_spec s lit :
  split_integer_literal s = Some lit ↔ literal_text lit s.
Proof.
  split.
  - intros Hs. assert (∃ neg sign r, s = sign +:+ r ∧ sign_text neg sign ∧
      split_unsigned neg r = Some lit) as (neg & sign & r & -> & Hsign & Hu).
    { destruct s as [|c r]; [by exists false, EmptyString, EmptyString; repeat constructor|].
      destruct (decide (c = "-"%char)) as [->|Hm]; [by exists true, "-"%string, r; repeat constructor|].
      destruct (decide (c = "+"%char)) as [->|Hp]; [by exists false, "+"%string, r; repeat constructor|].
      exists false, EmptyString, (String c r). split_and!; [done|constructor|].
      rewrite <- (split_integer_literal_sign (String c r) false EmptyString); [done|constructor|].
      intros _ c' r' [= <- <-]. done. }
    apply split_unsigned_sound in Hu as (ftext & etext & -> & <- & ? & ? & ? & ? & ?).
    destruct lit; simpl in *. by constructor.
  - intros [neg sign whole fraction ftext exponent etext Hsign Hne Hw Hft Hf Het].
    rewrite (split_integer_literal_sign _ neg sign); [by apply split_unsigned_complete|done|].
    intros _ c r Heq. destruct whole as [|c' whole]; [done|].
    rewrite !app_cons in Heq. injection Heq as <- _. simpl in Hw.
    apply andb_true_iff in Hw as [Hc _]. by split; intros ->.
Qed.
End lexer.

(** ** Theorems *)

Lemma literal_text_length lit s :
  literal_text lit s → slen (lit_whole lit) + slen (lit_fraction lit) ≤ slen s.
Proof.
  intros [neg sign whole fraction ftext exponent etext _ _ _ Hft _ _]; simpl.
  rewrite !slen_app. pose proof (slen_nonneg sign). pose proof (slen_nonneg etext).
  destruct Hft as [|f _]; unfold slen in *; simpl; lia.
Qed.

Lemma literal_text_digits lit s :
  literal_text lit s →
  str_all is_ascii_digit (lit_whole lit) = true ∧
  str_all is_ascii_digit (lit_fraction lit) = true.
Proof. by intros []. Qed.

(** C22: [parse_integer_header_value] accepts a text exactly when the text is a
    decimal literal whose value is an integer of the safe range (and whose
    exponent arithmetic fits an [i64]), and returns that value; so "4.2e1" is 42
    and "42.1" is refused.  The hypothesis is Rust's bound on a [str]. *)
Theorem parse_integer_header_value_exact (s : string) (z : Z) :
  slen s ≤ i64_max →
  parse_integer_header_value s = Some z ↔
  ∃ lit, literal_text lit s ∧ scale_fits lit ∧ denotes lit z ∧ Z.abs z ≤ MAX_SAFE_INTEGER.
Proof.
  intros Hlen. unfold parse_integer_header_value. rewrite bind_Some.
  f_equiv; intros lit. rewrite split_integer_literal_spec.
  split; intros [Htext Hrest]; (split; [done|]); revert Hrest;
    pose proof (literal_text_length _ _ Htext);
    destruct (literal_text_digits _ _ Htext); rewrite scale_integer_spec by (done || lia); done.
Qed.

Lemma parse_integer_header_value_exact_witness :
  slen "-7.00" ≤ i64_max ∧
  (parse_integer_header_value "-7.00" = Some (-7) ↔
   ∃ lit, literal_text lit "-7.00" ∧ scale_fits lit ∧ denotes lit (-7)
          ∧ Z.abs (-7) ≤ MAX_SAFE_INTEGER).
Proof.
  split; [by vm_compute|]. apply (parse_integer_header_value_exact "-7.00" (-7)).
  by vm_compute.
Defined.

(** The decimal text of a safe integer parses back to it. *)
Lemma parse_print_Z z :
  Z.abs z ≤ MAX_SAFE_INTEGER → parse_integer_header_value (print_Z z) = Some z.
Proof.
  intros Hz. unfold parse_integer_header_value.
  destruct (print_nonneg_digits (Z.abs z) ltac:(lia)) as (Hd & Hv & Hne).
  set (lit := {| lit_negative := z <? 0; lit_whole := print_nonneg (Z.abs z);
                 lit_fraction := EmptyString; lit_exponent := 0 |}).
  assert (split_integer_literal (print_Z z) = Some lit) as ->.
  { apply split_integer_literal_spec. unfold print_Z, lit.
    destruct (Z.ltb_spec z 0).
    - rewrite <- (Z.abs_neq z) by lia.
      rewrite <- (app_empty_r (print_nonneg (Z.abs z))) at 2.
      rewrite <- (app_empty_r (print_nonneg (Z.abs z) +:+ "")).
      apply (literal_text_intro true "-" _ _ EmptyString _ EmptyString); by try constructor.
    - rewrite Z.abs_eq in * by lia.
      rewrite <- (app_empty_r (print_nonneg z)) at 2.
      rewrite <- (app_empty_r (print_nonneg z +:+ "")).
      apply (literal_text_intro false "" _ _ EmptyString _ EmptyString); by try constructor. }
  cbn [mbind option_bind].
  assert (slen (print_nonneg (Z.abs z)) ≤ 53 + 1)
    by (apply print_nonneg_length; unfold MAX_SAFE_INTEGER in Hz; lia).
  apply scale_integer_spec; simpl; [done|done|unfold slen in *; simpl; unfold i64_max; lia|].
  unfold scale_fits, lit_scale, denotes; simpl. rewrite app_empty_r, Hv.
  split; [by vm_compute|]. split; [|done].
  change (10 ^ _) with 1. destruct (Z.ltb_spec z 0); lia.
Qed.

Lemma parameter_value_canonical `{!SerdeFloat} (value : Value) (ty : ParameterType)
    (path : string) (v : ParameterValue) :
  parameter_value value ty path = Ok v → parameter_values_match (display v) v = true.
Proof.
  destruct ty, value; simpl; try done.
  - intros [= <-]. apply String.eqb_refl.
  - intros (z & Hz & [= <-])%result_bind_ok. unfold ok_or, opt_filter in Hz.
    repeat case_match; simplify_eq.
    cbn [parameter_values_match display]. rewrite parse_print_Z; [apply Z.eqb_refl|].
    match goal with H : safe_integer _ = true |- _ =>
      unfold safe_integer, MIN_SAFE_INTEGER in H; apply andb_true_iff in H as [?%Z.leb_le ?%Z.leb_le]
    end. lia.
  - intros [= <-]. apply String.eqb_refl.
Qed.

(** A header that carries the canonical text of a body value matches that
    value, whatever the annotated type: the text a conforming client writes is
    never rejected as a mismatch. *)
Theorem canonical_header_matches `{!SerdeFloat} (value : Value) (ty : ParameterType)
    (path : string) (v : ParameterValue) :
  parameter_value value ty path = Ok v → parameter_values_match (display v) v = true.
Proof. apply parameter_value_canonical. Qed.

Lemma canonical_header_matches_witness :
  parameter_values_match (display (PInteger 42)) (PInteger 42) = true.
Proof.
  apply (canonical_header_matches (H := Concrete.serde_float) (JNumber (PosInt 42)) TInteger "count").
  by vm_compute.
Defined.
