(* ===== verification/SchemaAnnotations.v ===== *)
(** * Schema annotations: the walk against a flat reference

    [visit_schema] interleaves a recursive walk, two accumulators and early
    returns.  Here it is related to three functions without state: [sites], the
    schemas reachable through [properties] only, in visiting order;
    [schema_clean], that nothing outside those sites is annotated; and
    [site_annotation], the annotation one site declares. *)

From S2P Require Import Prelude HttpTypes McpStandardHeaders.

(** No object inside the value has an [x-mcp-header] member. *)
Fixpoint annotation_free (value : Value) : bool :=
  match value with
  | JObject object =>
      negb (assoc_contains ANNOTATION object)
      && forallb (λ kv, let '(_, nested) := kv in annotation_free nested) object
  | JArray array => forallb annotation_free array
  | _ => true
  end.

Definition site : Type := option (list string) * JsonObject.

Fixpoint sites (pp : option (list string)) (schema : Value) : list site :=
  match schema with
  | JObject object =>
      (pp, object) ::
      flat_map (λ kv, let '(keyword, value) := kv in
        if String.eqb keyword "properties" then
          match value with
          | JObject properties =>
              flat_map (λ ps, let '(property, property_schema) := ps in
                sites (Some (path_or_empty pp ++ [property])) property_schema) properties
          | _ => []
          end
        else []) object
  | _ => []
  end.

Fixpoint schema_clean (schema : Value) : bool :=
  match schema with
  | JObject object =>
      forallb (λ kv, let '(keyword, value) := kv in
        if String.eqb keyword "properties" then
          match value with
          | JObject properties =>
              forallb (λ ps, let '(_, property_schema) := ps in
                match property_schema with
                | JObject _ => schema_clean property_schema
                | _ => annotation_free property_schema
                end) properties
          | _ => annotation_free value
          end
        else String.eqb keyword ANNOTATION || annotation_free value) object
  | _ => true
  end.

Definition parameter_type_of (object : JsonObject) : option ParameterType :=
  parameter_type_named (ty ← assoc_get "type" object; as_str ty).

Section reference.
Context `{!RmcpHeaders, !HttpLib}.

(** The annotation of one site, when it is well formed. *)
Definition site_annotation (s : site) : option ParamHeaderAnnotation :=
  let '(pp, object) := s in
  path ← pp;
  raw ← assoc_get ANNOTATION object;
  header ← as_str raw;
  if String.eqb header EmptyString || negb (str_all is_tchar header) then None else
  ty ← parameter_type_of object;
  name ← HeaderName_from_bytes (HEADER_MCP_PARAM_PREFIX +:+ header);
  Some {| header_name := name; header_name_display := HEADER_MCP_PARAM_PREFIX +:+ header;
          parameter_type := ty; property_path := path |}.

Definition site_annotated (s : site) : Prop := is_Some (assoc_get ANNOTATION s.2).

Definition visit_site (st : VisitState) (s : site) : result HeaderError VisitState :=
  match assoc_get ANNOTATION s.2 with
  | Some raw => visit_annotation s.2 "$" s.1 raw st
  | None => Ok st
  end.
End reference.

(** ** The rejecting walk *)

Lemma result_unit_ok {E} (r : result E ()) : is_ok r = true ↔ r = Ok ().
Proof. destruct r as [[]|]; simpl; split; congruence. Qed.

Lemma reject_spec value : ∀ schema_path,
  reject_unreachable_annotations value schema_path = Ok () ↔ annotation_free value = true.
Proof.
  induction value as [| | | |array IH|object IH] using Value_nested_ind; intros sp;
    try (by split).
  - cbn [reject_unreachable_annotations annotation_free]. generalize 0%nat.
    induction IH as [|v l Hv Hl IHl]; intros n; [done|].
    cbn [forallb]. rewrite andb_true_iff, <- (IHl (S n)), <- Hv, result_bind_ok.
    split; [by intros ([] & ? & ?)|intros [? ?]; by exists ()].
  - cbn [reject_unreachable_annotations annotation_free].
    destruct (assoc_contains ANNOTATION object); [done|]; cbn [negb andb].
    induction IH as [|[k v] l Hv Hl IHl]; [done|].
    cbn [forallb snd] in *. rewrite andb_true_iff, <- IHl, <- (Hv (sp +:+ "." +:+ k)), result_bind_ok.
    split; [by intros ([] & ? & ?)|intros [? ?]; by exists ()].
Qed.

(** ** The visiting walk as loops *)

Section walk.
Context `{!RmcpHeaders, !HttpLib}.

Definition visit_property (sp : string) (pp : option (list string)) (st : VisitState)
    (ps : string * Value) : result HeaderError VisitState :=
  let nested_path := path_or_empty pp ++ [ps.1] in
  let nested_schema_path := sp +:+ ".properties." +:+ ps.1 in
  match ps.2 with
  | JObject _ => visit_schema ps.2 nested_schema_path (Some nested_path) st
  | _ => _ ← reject_unreachable_annotations ps.2 nested_schema_path; Ok st
  end.

Definition visit_keyword (sp : string) (pp : option (list string)) (st : VisitState)
    (kv : string * Value) : result HeaderError VisitState :=
  if String.eqb kv.1 "properties" then
    match kv.2 with
    | JObject properties => foldM (visit_property sp pp) properties st
    | _ => _ ← reject_unreachable_annotations kv.2 (sp +:+ ".properties"); Ok st
    end
  else if negb (String.eqb kv.1 ANNOTATION) then
    _ ← reject_unreachable_annotations kv.2 (sp +:+ "." +:+ kv.1); Ok st
  else Ok st.

Lemma visit_schema_object object sp pp st :
  visit_schema (JObject object) sp pp st =
  (st ← match assoc_get ANNOTATION object with
        | Some raw => visit_annotation object sp pp raw st
        | None => Ok st
        end;
   foldM (visit_keyword sp pp) object st).
Proof.
  cbn [visit_schema].
  destruct (match assoc_get _ _ with Some _ => _ | None => _ end) as [st1|]; [|done].
  cbn [mbind result_bind]. clear st. revert st1.
  induction object as [|[keyword value] object IH]; intros st; [done|].
  cbn [foldM]. match goal with |- (?m ≫= _) = (?n ≫= _) => assert (m = n) as ->; [|destruct n] end;
    [clear IH|apply IH|done].
  unfold visit_keyword; cbn [fst snd].
  destruct (String.eqb keyword "properties"); [|done].
  destruct value as [| | | | |properties]; try done. revert st.
  induction properties as [|[p s] ps IH]; intros st; [done|].
  cbn [foldM].
  match goal with |- (?m ≫= _) = (?n ≫= _) => assert (m = n) as ->; [done|destruct n] end;
    [apply IH|done].
Qed.

(** Whether an annotation is accepted does not depend on the schema path, which
    only an error message shows. *)
Lemma visit_annotation_path object sp sp' pp raw st st' :
  visit_annotation object sp pp raw st = Ok st' ↔ visit_annotation object sp' pp raw st = Ok st'.
Proof. unfold visit_annotation. by destruct pp. Qed.
End walk.

Section refinement.
Context `{!RmcpHeaders, !HttpLib}.

Definition visits_sites (value : Value) : Prop := ∀ sp pp st st',
  visit_schema value sp pp st = Ok st' ↔
  schema_clean value = true ∧ foldM visit_site (sites pp value) st = Ok st'.

Lemma visit_site_head object sp pp st st1 :
  match assoc_get ANNOTATION object with
  | Some raw => visit_annotation object sp pp raw st
  | None => Ok st
  end = Ok st1 ↔ visit_site st (pp, object) = Ok st1.
Proof.
  unfold visit_site; cbn [fst snd]. destruct (assoc_get _ _); [|done].
  apply visit_annotation_path.
Qed.

Lemma visit_property_sites sp pp st st' ps :
  visits_sites ps.2 →
  visit_property sp pp st ps = Ok st' ↔
  (match ps.2 with JObject _ => schema_clean ps.2 | _ => annotation_free ps.2 end) = true ∧
  foldM visit_site (sites (Some (path_or_empty pp ++ [ps.1])) ps.2) st = Ok st'.
Proof.
  intros Hv. unfold visit_property. destruct (ps.2) eqn:Heq; [..|apply Hv];
    rewrite result_bind_check by apply reject_spec; simpl; naive_solver.
Qed.

Lemma visits_sites_object object :
  Forall (λ kv, match kv.2 with
                | JObject properties => Forall (λ ps, visits_sites ps.2) properties
                | _ => True
                end) object → visits_sites (JObject object).
Proof.
  intros IH sp pp st st'. rewrite visit_schema_object. cbn [sites foldM].
  rewrite !result_bind_ok.
  assert (∀ st1, foldM (visit_keyword sp pp) object st1 = Ok st' ↔
    schema_clean (JObject object) = true ∧
    foldM visit_site (tail (sites pp (JObject object))) st1 = Ok st') as Hloop.
  { intros st1. cbn [sites schema_clean tail]. apply foldM_flat.
    intros [k v] t t' Hin. rewrite Forall_forall in IH. specialize (IH _ Hin); simpl in IH.
    unfold visit_keyword; cbn [fst snd]. destruct (String.eqb k "properties").
    - destruct v as [| | | | |properties];
        try (rewrite result_bind_check by apply reject_spec; simpl; naive_solver).
      apply foldM_flat. intros [p s] u u' Hps. rewrite Forall_forall in IH.
      apply (visit_property_sites sp pp u u' (p, s)), (IH _ Hps).
    - destruct (String.eqb k ANNOTATION); cbn [negb orb]; [simpl; naive_solver|].
      rewrite result_bind_check by apply reject_spec. simpl; naive_solver. }
  cbn [tail sites] in Hloop. setoid_rewrite Hloop. setoid_rewrite visit_site_head.
  naive_solver.
Qed.

(** The stateful walk succeeds exactly when the reference does. *)
Lemma visit_schema_sites value : visits_sites value.
Proof.
  enough (visits_sites value ∧
    match value with
    | JObject properties => Forall (λ ps, visits_sites ps.2) properties
    | _ => True
    end) as [? _] by done.
  induction value as [| | | | |object IH] using Value_nested_ind;
    try (split; [|done]; intros sp pp st st'; simpl; naive_solver).
  split; [apply visits_sites_object|].
  - eapply Forall_impl; [exact IH|]. by intros ? [].
  - eapply Forall_impl; [exact IH|]. by intros ? [].
Qed.

(** The header name a site's annotation declares, lower-cased. *)
Definition site_header (s : site) : option string :=
  raw ← assoc_get ANNOTATION s.2; header ← as_str raw; Some (to_ascii_lowercase header).

Lemma visit_annotation_spec object sp pp raw st st' :
  assoc_get ANNOTATION object = Some raw →
  visit_annotation object sp pp raw st = Ok st' ↔
  ∃ header a, site_header (pp, object) = Some header ∧ site_annotation (pp, object) = Some a ∧
    (header ∉ seen_headers st) ∧
    st' = {| seen_headers := header :: seen_headers st;
             annotations := annotations st ++ [a] |}.
Proof.
  intros Hraw. unfold visit_annotation, site_annotation, site_header; cbn [snd].
  rewrite Hraw. cbn [mbind option_bind].
  destruct pp as [path|]; [|simpl; naive_solver].
  destruct raw as [| | |header| |]; try (simpl; naive_solver).
  cbn [ok_or mbind result_bind option_bind as_str].
  destruct (String.eqb header ""); [simpl; naive_solver|].
  destruct (str_all is_tchar header); [|simpl; naive_solver]. cbn [negb orb].
  case_bool_decide as Hin; [simpl; naive_solver|].
  unfold parameter_type_of.
  destruct (parameter_type_named _) as [ty|]; [|simpl; naive_solver].
  destruct (HeaderName_from_bytes _) as [name|]; simpl; naive_solver.
Qed.

Definition site_ok (s : site) : Prop := is_Some (site_annotation s) ∨ assoc_get ANNOTATION s.2 = None.

Lemma site_annotation_header s a : site_annotation s = Some a → is_Some (site_header s).
Proof.
  unfold site_annotation, site_header. destruct s as [[pp|] object]; [|done]. simpl.
  destruct (assoc_get _ _) as [raw|]; [|done]. simpl. by destruct (as_str raw).
Qed.

Lemma site_unannotated s : assoc_get ANNOTATION s.2 = None →
  site_annotation s = None ∧ site_header s = None.
Proof. unfold site_annotation, site_header. destruct s as [[] ?]; simpl. all: by intros ->. Qed.

(** The accumulators after the loop over the sites. *)
Lemma foldM_visit_site l : ∀ st st',
  foldM visit_site l st = Ok st' ↔
  Forall site_ok l ∧ NoDup (omap site_header l) ∧
  (∀ h, h ∈ omap site_header l → (h ∉ seen_headers st)) ∧
  st' = {| seen_headers := reverse (omap site_header l) ++ seen_headers st;
           annotations := annotations st ++ omap site_annotation l |}.
Proof.
  induction l as [|s l IH]; intros st st'; cbn [foldM omap list_omap].
  - rewrite reverse_nil, app_nil_r. destruct st; cbn. split.
    + intros [= <-]. split_and!; [done|constructor| |done]. by intros ? ?%elem_of_nil.
    + by intros (_ & _ & _ & ->).
  - rewrite result_bind_ok, Forall_cons. unfold visit_site at 1.
    destruct (assoc_get ANNOTATION s.2) as [raw|] eqn:Hraw.
    + setoid_rewrite (visit_annotation_spec _ _ _ _ _ _ Hraw). setoid_rewrite IH. clear IH.
      unfold site_ok at 2. rewrite Hraw.
      replace (s.1, s.2) with s by (by destruct s).
      destruct (site_annotation s) as [a|] eqn:Ha; [|naive_solver].
      destruct (site_annotation_header _ _ Ha) as [header Hh]; rewrite Hh. cbn [from_option].
      split.
      * intros (st1 & (h & a' & [= <-] & [= <-] & Hn & ->) & Hok & Hnd & Hseen & ->);
          cbn [seen_headers annotations] in *.
        rewrite NoDup_cons. split_and!; [left; eauto|done| |done| |].
        { intros Hin. apply (Hseen _ Hin). by left. }
        { intros x [->|Hin]%elem_of_cons; [done|]. intros Hx. apply (Hseen _ Hin). by right. }
        rewrite reverse_cons, <- !app_assoc. done.
      * intros ([_ Hok] & [Hnh Hnd]%NoDup_cons & Hseen & ->). eexists; split.
        { exists header, a; split_and!; [done..| |done]. apply Hseen. by left. }
        cbn [seen_headers annotations]. split_and!; [done..| |].
        { intros x Hx. intros [->|Hin]%elem_of_cons; [done|].
          eapply Hseen, Hin. by right. }
        rewrite reverse_cons, <- !app_assoc. done.
    + destruct (site_unannotated _ Hraw) as [-> ->]. assert (site_ok s) by (by right).
      split.
      * intros (st1 & [= <-] & (? & ? & ? & ?)%IH). by split_and!.
      * intros ([_ ?] & ? & ? & ?). exists st. split; [done|]. apply IH. by split_and!.
Qed.

Lemma annotations_of_sites schema anns :
  param_header_annotations schema = Ok anns ↔
  schema_clean (JObject schema) = true ∧
  Forall site_ok (sites None (JObject schema)) ∧
  NoDup (omap site_header (sites None (JObject schema))) ∧
  anns = omap site_annotation (sites None (JObject schema)).
Proof.
  unfold param_header_annotations. rewrite result_bind_ok.
  setoid_rewrite (visit_schema_sites (JObject schema) _ _ _ _).
  setoid_rewrite foldM_visit_site. cbn [seen_headers annotations]. split.
  - intros (st & (Hc & Hok & Hnd & _ & ->) & [= <-]). by split_and!.
  - intros (Hc & Hok & Hnd & ->). eexists; split; [split_and!; [done..| |done]|done].
    intros h _ Hin. by apply elem_of_nil in Hin.
Qed.

(** C21: the walk over an input schema accepts it exactly when every
    annotation sits on a property reachable through [properties] alone, each of
    those annotations is well formed, and no two declare the same header up to
    ASCII case; the annotations it returns are then those of the visited sites,
    in visiting order. *)
Theorem param_header_annotations_spec schema anns :
  param_header_annotations schema = Ok anns ↔
  schema_clean (JObject schema) = true ∧
  Forall site_ok (sites None (JObject schema)) ∧
  NoDup (omap site_header (sites None (JObject schema))) ∧
  anns = omap site_annotation (sites None (JObject schema)).
Proof. apply annotations_of_sites. Qed.

Lemma site_annotation_name `{!HttpLibLaws} s a :
  site_annotation s = Some a →
  ∃ h, site_header s = Some h ∧
    header_name a = to_ascii_lowercase HEADER_MCP_PARAM_PREFIX +:+ h.
Proof.
  unfold site_annotation, site_header. destruct s as [[pp|] object]; [|done]. simpl.
  destruct (assoc_get _ _) as [raw|]; [|done]. simpl.
  destruct (as_str raw) as [header|]; [|done]. simpl.
  destruct (_ || _); [done|]. destruct (parameter_type_of _); [|done]. simpl.
  destruct (HeaderName_from_bytes _) as [n|] eqn:Hn; [|done]. intros [= <-].
  apply from_bytes_lower in Hn as ->. eexists; split; [done|].
  apply to_ascii_lowercase_app.
Qed.

Lemma omap_site_names `{!HttpLibLaws} l :
  Forall site_ok l →
  header_name <$> omap site_annotation l =
  (λ h, to_ascii_lowercase HEADER_MCP_PARAM_PREFIX +:+ h) <$> omap site_header l.
Proof.
  induction 1 as [|s l Hs _ IH]; [done|]. cbn [omap list_omap].
  destruct Hs as [[a Ha]|Hs].
  - destruct (site_annotation_name _ _ Ha) as (h & Hh & Hname). rewrite Ha, Hh.
    cbn [fmap list_fmap]. f_equal; [done|apply IH].
  - destruct (site_unannotated _ Hs) as [-> ->]. apply IH.
Qed.

(** Whatever the schema, the annotations of an accepted one name pairwise
    different HTTP headers, so no two parameters read the same header. *)
Theorem param_header_annotations_unique `{!HttpLibLaws} schema anns
    (Haccepted : param_header_annotations schema = Ok anns) :
  NoDup (header_name <$> anns).
Proof.
  apply annotations_of_sites in Haccepted as (_ & Hok & Hnd & ->).
  rewrite omap_site_names by done. apply NoDup_fmap_2; [|done].
  intros h1 h2. apply app_string_inj_l.
Qed.
End refinement.

(** ** A concrete schema *)

Import Concrete.

Definition example_schema : JsonObject :=
  [("type", JString "object");
   ("properties", JObject
     [("region", JObject [("type", JString "string"); ("x-mcp-header", JString "Region")]);
      ("nested", JObject [("properties", JObject
        [("count", JObject [("type", JString "integer"); ("x-mcp-header", JString "Count")])])])])].

Lemma param_header_annotations_unique_witness :
  match param_header_annotations example_schema with
  | Ok anns => NoDup (header_name <$> anns) ∧ length anns = 2%nat
  | Err _ => False
  end.
Proof.
  destruct (param_header_annotations example_schema) as [anns|] eqn:E;
    [|revert E; vm_compute; discriminate].
  split; [exact (param_header_annotations_unique example_schema anns E)|].
  revert E. vm_compute. by intros [= <-].
Defined.
