(* ===== verification/ToolParams.v ===== *)
(** * Header values and tool parameters: what validation accepts

    A specification of [decode_header_value] and [validate_tool_params] without
    control flow, and the round trip of a client that mirrors its arguments. *)

From S2P Require Import Prelude HttpTypes McpStandardHeaders IntegerHeaders SchemaAnnotations.

Section decoding.
Context `{!RmcpHeaders, !Base64}.

(** The sentinel form of a text, and whether a raw value has it. *)
Definition sentinel (inner : string) : string :=
  BASE64_HEADER_PREFIX +:+ (inner +:+ BASE64_HEADER_SUFFIX).
Definition sentinel_inner (raw : string) : option string :=
  inner ← strip_prefix BASE64_HEADER_PREFIX raw; strip_suffix BASE64_HEADER_SUFFIX inner.

(** Visible ASCII, blanks only inside. *)
Definition plain (raw : string) : bool :=
  negb (is_blank (str_first raw)) && negb (is_blank (str_last raw))
  && str_all (λ c, Ascii.eqb c "009" || in_range 32 126 c) raw.

(** How a client writes a value: as it is when the server reads it back so,
    and else through the sentinel. *)
Definition encode_header_value (value : string) : string :=
  if plain value && bool_decide (sentinel_inner value = None) then value
  else sentinel (base64_encode value).

Lemma sentinel_inner_Some raw inner : sentinel_inner raw = Some inner ↔ raw = sentinel inner.
Proof.
  unfold sentinel_inner, sentinel. rewrite bind_Some.
  setoid_rewrite strip_prefix_Some. setoid_rewrite strip_suffix_Some. naive_solver.
Qed.

Lemma str_all_ext f g s : (∀ c, f c = g c) → str_all f s = str_all g s.
Proof. intros Hfg. induction s as [|c s IH]; simpl; [done|]. by rewrite Hfg, IH. Qed.
Lemma str_all_impl f g s : (∀ c, f c = true → g c = true) → str_all f s = true → str_all g s = true.
Proof.
  intros Hfg. induction s as [|c s IH]; simpl; [done|].
  rewrite !andb_true_iff. intros [? ?]; auto.
Qed.

Lemma plain_ascii raw : plain raw = true → str_all (in_range 0 127) raw = true.
Proof.
  unfold plain. rewrite andb_true_iff. intros [_ Hp]. eapply str_all_impl, Hp.
  intros c. by destruct c as [[] [] [] [] [] [] [] []].
Qed.

Lemma decode_plain raw :
  (if is_blank (str_first raw) || is_blank (str_last raw)
   then Err "plain value has leading or trailing whitespace" else
   if str_any (λ c, negb (Ascii.eqb c "009" || in_range 32 126 c)) raw
   then Err "plain value contains characters that require Base64 encoding"
   else Ok raw) =
  if plain raw then Ok raw
  else Err (if is_blank (str_first raw) || is_blank (str_last raw)
            then "plain value has leading or trailing whitespace"
            else "plain value contains characters that require Base64 encoding").
Proof.
  unfold plain, str_any. destruct (is_blank (str_first raw)), (is_blank (str_last raw)); try done.
  cbn [orb andb negb].
  rewrite (str_all_ext _ (λ c, Ascii.eqb c "009" || in_range 32 126 c))
    by (intros; apply negb_involutive).
  by destruct (str_all _ _).
Qed.

(** A header value decodes to [value] exactly when its bytes are UTF-8
    and either it is the sentinel around the base64 of UTF-8 text [value], or it
    does not have the sentinel form, holds only visible ASCII, blanks and tabs,
    has no blank at either end, and is [value] itself. *)
Theorem decode_header_value_spec raw value :
  decode_header_value raw = Ok value ↔
  utf8_valid raw = true ∧
  ((∃ inner, raw = sentinel inner ∧ base64_decode inner = Some value ∧ utf8_valid value = true)
   ∨ ((∀ inner, raw ≠ sentinel inner) ∧ plain raw = true ∧ value = raw)).
Proof.
  unfold decode_header_value. destruct (utf8_valid raw); cbn [negb]; [|naive_solver].
  fold (sentinel_inner raw). destruct (sentinel_inner raw) as [inner|] eqn:Hs.
  - apply sentinel_inner_Some in Hs as Hraw. rewrite result_bind_ok. split.
    + intros (decoded & Hd & Hv). split; [done|]. left. exists inner.
      destruct (base64_decode inner); [|done]. simplify_eq/=. destruct (utf8_valid _) eqn:?; naive_solver.
    + intros [_ [(inner' & Hr & Hd & Hu)|[Hn _]]]; [|by destruct (Hn inner)].
      rewrite Hr in Hs. rewrite (proj2 (sentinel_inner_Some _ inner') eq_refl) in Hs.
      injection Hs as <-. exists value. by rewrite Hd, Hu.
  - rewrite decode_plain. split.
    + destruct (plain raw) eqn:Hp; intros [= <-]. split; [done|]. right. split_and!; [|done..].
      intros inner ->. by rewrite (proj2 (sentinel_inner_Some _ inner) eq_refl) in Hs.
    + intros [_ [(inner & -> & _)|(_ & -> & ->)]]; [|done].
      by rewrite (proj2 (sentinel_inner_Some _ inner) eq_refl) in Hs.
Qed.

Lemma decode_encode `{!Base64Laws, !RmcpHeadersLaws} value :
  utf8_valid value = true → decode_header_value (encode_header_value value) = Ok value.
Proof.
  intros Hu. apply decode_header_value_spec. unfold encode_header_value.
  destruct (plain value) eqn:Hp; [case_bool_decide as Hs|]; cbn [andb].
  - split; [done|]. right. split_and!; [|done..].
    intros inner Hi. apply sentinel_inner_Some in Hi. congruence.
  - split; [|left; exists (base64_encode value); by rewrite base64_decode_encode].
    apply utf8_valid_ascii. unfold sentinel. rewrite !str_all_app.
    by rewrite sentinel_prefix_ascii, sentinel_suffix_ascii, base64_encode_ascii.
  - split; [|left; exists (base64_encode value); by rewrite base64_decode_encode].
    apply utf8_valid_ascii. unfold sentinel. rewrite !str_all_app.
    by rewrite sentinel_prefix_ascii, sentinel_suffix_ascii, base64_encode_ascii.
Qed.
End decoding.

Section calls.
Context `{!RmcpHeaders, !HttpLib, !Base64, !SerdeFloat}.

(** The argument an annotation speaks of; null counts as absent. *)
Definition argument_of (arguments : option JsonObject) (a : ParamHeaderAnnotation)
    : option Value :=
  opt_filter (λ v, negb (is_null v)) (value_at_property_path arguments (property_path a)).

(** A raw header value says the same as the argument. *)
Definition says (expected : ParameterValue) (raw : HeaderValue) : Prop :=
  ∃ decoded, decode_header_value raw = Ok decoded ∧
    match expected with
    | PBoolean b => decoded = print_bool b
    | PInteger z => parse_integer_header_value decoded = Some z
    | PString s => decoded = s
    end.

(** One annotation is honoured by the headers of a call. *)
Definition honoured (headers : HeaderMap) (arguments : option JsonObject)
    (a : ParamHeaderAnnotation) : Prop :=
  match argument_of arguments a with
  | None => assoc_get_all (header_name a) headers = []
  | Some v =>
      assoc_get_all (header_name a) headers ≠ [] ∧
      ∃ expected, (∀ path, parameter_value v (parameter_type a) path = Ok expected) ∧
        Forall (says expected) (assoc_get_all (header_name a) headers)
  end.

Lemma parameter_value_path v ty p p' e :
  parameter_value v ty p = Ok e → parameter_value v ty p' = Ok e.
Proof.
  destruct ty, v; simpl; try done.
  intros (z & Hz & <-)%result_bind_ok. rewrite result_bind_ok. exists z.
  split; [|done]. unfold ok_or in *. by destruct (opt_filter _ _).
Qed.

Lemma parameter_values_match_says decoded e :
  parameter_values_match decoded e = true ↔
  match e with
  | PBoolean b => decoded = print_bool b
  | PInteger z => parse_integer_header_value decoded = Some z
  | PString s => decoded = s
  end.
Proof.
  destruct e; simpl; [apply String.eqb_eq| |apply String.eqb_eq].
  destruct (parse_integer_header_value decoded) as [z'|]; [|by split].
  rewrite Z.eqb_eq. naive_solver.
Qed.

Lemma check_header_value_ok a e raw : check_header_value a e raw = Ok () ↔ says e raw.
Proof.
  unfold check_header_value, says. rewrite result_bind_ok.
  setoid_rewrite <- parameter_values_match_says.
  destruct (decode_header_value raw) as [d|]; simpl; [|naive_solver].
  split; [intros (d' & [= <-] & Hm)|intros (d' & [= <-] & Hm)]; exists d; split; auto.
  - by destruct (parameter_values_match d e).
  - by rewrite Hm.
Qed.

Lemma validate_annotation_ok headers arguments a :
  validate_annotation headers arguments a = Ok () ↔ honoured headers arguments a.
Proof.
  unfold validate_annotation, honoured. fold (argument_of arguments a).
  destruct (assoc_get_all _ _) as [|raw raws], (argument_of arguments a) as [v|];
    try (split; naive_solver).
  rewrite result_bind_ok. setoid_rewrite foldM_all. split.
  - intros (e & He & Hall). split; [done|]. exists e.
    split; [intros p; by eapply parameter_value_path|].
    eapply Forall_impl; [exact Hall|]. intros r. apply check_header_value_ok.
  - intros (_ & e & He & Hall). exists e. split; [apply He|].
    eapply Forall_impl; [exact Hall|]. intros r. apply check_header_value_ok.
Qed.

Lemma validate_calls_honoured headers arguments schema :
  validate_tool_params headers arguments schema = Ok () ↔
  ∃ anns, param_header_annotations schema = Ok anns ∧
    Forall (honoured headers arguments) anns.
Proof.
  unfold validate_tool_params. rewrite result_bind_ok.
  setoid_rewrite foldM_all. by setoid_rewrite validate_annotation_ok.
Qed.

(** C7: a tool call passes header validation exactly when the tool's input
    schema is accepted and each of its annotations is honoured: no header for
    an absent or null argument, and for any other argument at least one header,
    all of whose values decode to what the argument is at the declared type. *)
Theorem validate_tool_params_spec headers arguments schema :
  validate_tool_params headers arguments schema = Ok () ↔
  ∃ anns, param_header_annotations schema = Ok anns ∧
    Forall (honoured headers arguments) anns.
Proof. apply validate_calls_honoured. Qed.

(** A client that mirrors the annotated arguments of a call. *)
Definition mirror_header (arguments : option JsonObject) (a : ParamHeaderAnnotation)
    : option (HeaderName * HeaderValue) :=
  v ← argument_of arguments a;
  e ← result_ok (parameter_value v (parameter_type a) "");
  Some (header_name a, encode_header_value (display e)).
Definition mirror_headers (arguments : option JsonObject)
    (anns : list ParamHeaderAnnotation) : HeaderMap :=
  omap (mirror_header arguments) anns.

(** Every annotated argument has its declared type, and its strings are
    UTF-8, as every Rust string is. *)
Definition well_typed (arguments : option JsonObject) (a : ParamHeaderAnnotation) : Prop :=
  match argument_of arguments a with
  | None => True
  | Some v => ∃ e, parameter_value v (parameter_type a) "" = Ok e ∧
                   utf8_valid (display e) = true
  end.

Lemma mirror_headers_other arguments anns n :
  n ∉ header_name <$> anns → assoc_get_all n (mirror_headers arguments anns) = [].
Proof.
  induction anns as [|a anns IH]; [done|]. cbn [fmap list_fmap]. intros Hn.
  unfold mirror_headers in *; cbn [omap list_omap].
  destruct (mirror_header arguments a) as [[m x]|] eqn:Ha; [|apply IH; set_solver].
  assert (m = header_name a) as ->.
  { unfold mirror_header in Ha. destruct (argument_of _ _); [|done]. simpl in Ha.
    destruct (result_ok _); [|done]. by simplify_eq/=. }
  rewrite assoc_get_all_cons, decide_False by set_solver. apply IH. set_solver.
Qed.

Lemma mirror_headers_get arguments anns a :
  NoDup (header_name <$> anns) → a ∈ anns →
  assoc_get_all (header_name a) (mirror_headers arguments anns) =
  match mirror_header arguments a with Some (_, x) => [x] | None => [] end.
Proof.
  induction anns as [|b anns IH]; [by intros _ ?%elem_of_nil|].
  cbn [fmap list_fmap]. intros [Hb Hnd]%NoDup_cons [->|Hin]%elem_of_cons.
  - pose proof (mirror_headers_other arguments anns _ Hb) as Hrest.
    unfold mirror_headers in *; cbn [omap list_omap].
    destruct (mirror_header arguments b) as [[m x]|] eqn:Hm; [|done].
    unfold mirror_header in Hm. destruct (argument_of _ _); [|done]. simpl in Hm.
    destruct (result_ok _); [|done]. simplify_eq/=.
    by rewrite assoc_get_all_cons, decide_True, Hrest.
  - assert (header_name b ≠ header_name a).
    { intros Heq. apply Hb. rewrite Heq. by apply list_elem_of_fmap_2. }
    rewrite <- IH by done. unfold mirror_headers; cbn [omap list_omap].
    destruct (mirror_header arguments b) as [[m x]|] eqn:Hm; [|done].
    unfold mirror_header in Hm. destruct (argument_of _ _); [|done]. simpl in Hm.
    destruct (result_ok _); [|done]. simplify_eq/=.
    by rewrite assoc_get_all_cons, decide_False.
Qed.

Context `{!Base64Laws, !RmcpHeadersLaws, !HttpLibLaws}.

(** C32: a client that mirrors its annotated arguments (canonical text, through
    the base64 sentinel whenever the text is not plain) is never rejected, for
    any schema the walk accepts and any arguments of the declared types. *)
Theorem mirrored_call_accepted schema arguments anns :
  param_header_annotations schema = Ok anns →
  Forall (well_typed arguments) anns →
  validate_tool_params (mirror_headers arguments anns) arguments schema = Ok ().
Proof.
  intros Hanns Htyped. apply validate_calls_honoured. exists anns. split; [done|].
  assert (NoDup (header_name <$> anns)) as Hnd.
  { apply annotations_of_sites in Hanns as (_ & Hok & Hnd & ->).
    rewrite omap_site_names by done. apply NoDup_fmap_2; [|done].
    intros h1 h2. apply app_string_inj_l. }
  rewrite Forall_forall in *. intros a Ha. specialize (Htyped a Ha).
  unfold honoured. rewrite mirror_headers_get by done. unfold well_typed in Htyped.
  unfold mirror_header. destruct (argument_of arguments a) as [v|]; [|done]. simpl.
  destruct Htyped as (e & He & Hu). rewrite He; simpl. split; [done|].
  exists e. split; [intros p; by eapply parameter_value_path|].
  apply Forall_singleton. exists (display e). split; [by apply decode_encode|].
  apply parameter_values_match_says. by eapply parameter_value_canonical.
Qed.
End calls.

Import Concrete.

Definition example_arguments : JsonObject :=
  [("region", JString " eu-west "); ("nested", JObject [("count", JNumber (PosInt 42))])].

Definition example_annotations : list ParamHeaderAnnotation :=
  [{| header_name := "mcp-param-region"; header_name_display := "Mcp-Param-Region";
      parameter_type := TString; property_path := ["region"] |};
   {| header_name := "mcp-param-count"; header_name_display := "Mcp-Param-Count";
      parameter_type := TInteger; property_path := ["nested"; "count"] |}].

Lemma mirrored_call_accepted_witness :
  validate_tool_params [("mcp-param-region", "=?base64?cagfhfcnhhgfhdheca?=");
                        ("mcp-param-count", "42")]
    (Some example_arguments) example_schema = Ok ().
Proof.
  assert (mirror_headers (Some example_arguments) example_annotations =
    [("mcp-param-region", "=?base64?cagfhfcnhhgfhdheca?="); ("mcp-param-count", "42")]) as <-
    by (vm_compute; reflexivity).
  apply (mirrored_call_accepted example_schema (Some example_arguments) example_annotations).
  - vm_compute. reflexivity.
  - apply Forall_cons; split; [|apply Forall_cons; split; [|constructor]].
    + exists (PString " eu-west "). split; vm_compute; reflexivity.
    + exists (PInteger 42). split; vm_compute; reflexivity.
Defined.
