(* ===== verification/HeaderLimits.v ===== *)
(** * Limits on MCP standard headers ([layers/mcp_header_limits.rs])

    The budget a request's MCP headers must stay within.  The counters are
    machine words that saturate; the theorem shows saturation never changes a
    decision. *)

From S2P Require Import Prelude HttpTypes McpStandardHeaders.

Definition DEFAULT_MCP_STANDARD_HEADER_MAX_COUNT : Z := 32.
Definition DEFAULT_MCP_STANDARD_HEADER_MAX_VALUE_BYTES : Z := 8 * 1024.
Definition DEFAULT_MCP_STANDARD_HEADER_MAX_TOTAL_BYTES : Z := 64 * 1024.

Record StandardHeaderLimits : Type := {
  limit_count : Z;
  limit_value_bytes : Z;
  limit_total_bytes : Z;
}.

Definition configured_or_default (configured default : Z) : Z :=
  if configured =? 0 then default else configured.

(** [From<&Config> for StandardHeaderLimits], from the three settings. *)
Definition limits_from_config (max_count max_value_bytes max_total_bytes : Z)
    : StandardHeaderLimits := {|
  limit_count := configured_or_default max_count DEFAULT_MCP_STANDARD_HEADER_MAX_COUNT;
  limit_value_bytes :=
    configured_or_default max_value_bytes DEFAULT_MCP_STANDARD_HEADER_MAX_VALUE_BYTES;
  limit_total_bytes :=
    configured_or_default max_total_bytes DEFAULT_MCP_STANDARD_HEADER_MAX_TOTAL_BYTES;
|}.

Record StandardHeaderUsage : Type := {
  usage_count : Z;
  usage_value_bytes : Z;
  usage_total_bytes : Z;
}.

Section limits.
Context `{!RmcpHeaders}.

Definition usage_step (usage : StandardHeaderUsage) (header : HeaderName * HeaderValue)
    : StandardHeaderUsage :=
  let '(name, value) := header in
  let value_bytes := slen value in
  {| usage_count := usize_saturating_add (usage_count usage) 1;
     usage_value_bytes := Z.max (usage_value_bytes usage) value_bytes;
     usage_total_bytes :=
       usize_saturating_add (usize_saturating_add (usage_total_bytes usage) (slen name))
         value_bytes |}.

Definition mcp_standard_header_usage (headers : HeaderMap) : StandardHeaderUsage :=
  foldl usage_step {| usage_count := 0; usage_value_bytes := 0; usage_total_bytes := 0 |}
    (filter (λ h, is_limited h.1 = true) headers).

Definition exceeds (usage : StandardHeaderUsage) (limits : StandardHeaderLimits) : bool :=
  (limit_count limits <? usage_count usage)
  || (limit_value_bytes limits <? usage_value_bytes usage)
  || (limit_total_bytes limits <? usage_total_bytes usage).

Definition exceeded_limits (headers : HeaderMap) (limits : StandardHeaderLimits)
    : option StandardHeaderUsage :=
  let usage := mcp_standard_header_usage headers in
  if exceeds usage limits then Some usage else None.

(** ** Exact accounting *)

Definition limited_headers (headers : HeaderMap) : HeaderMap :=
  filter (λ h, is_limited h.1 = true) headers.
Definition total_bytes (headers : HeaderMap) : Z :=
  foldr (λ h acc, slen h.1 + slen h.2 + acc) 0 headers.
Definition largest_value (headers : HeaderMap) : Z :=
  foldr (λ h acc, Z.max (slen h.2) acc) 0 headers.

Lemma total_bytes_nonneg hs : 0 ≤ total_bytes hs.
Proof.
  induction hs as [|h hs IH]; simpl; [lia|].
  pose proof (slen_nonneg h.1). pose proof (slen_nonneg h.2). lia.
Qed.

Lemma usage_fold_exact hs : ∀ u,
  0 ≤ usage_count u ≤ usize_max → 0 ≤ usage_value_bytes u →
  0 ≤ usage_total_bytes u ≤ usize_max →
  foldl usage_step u hs =
  {| usage_count := Z.min usize_max (usage_count u + Z.of_nat (length hs));
     usage_value_bytes := Z.max (usage_value_bytes u) (largest_value hs);
     usage_total_bytes := Z.min usize_max (usage_total_bytes u + total_bytes hs) |}.
Proof.
  induction hs as [|[n v] hs IH]; intros [c m t] Hc Hm Ht; simpl in *.
  { f_equal; lia. }
  pose proof (slen_nonneg n). pose proof (slen_nonneg v). pose proof (total_bytes_nonneg hs).
  unfold usize_saturating_add. rewrite IH; cbn [usage_count usage_value_bytes usage_total_bytes].
  - f_equal; lia.
  - lia.
  - lia.
  - lia.
Qed.

Lemma mcp_standard_header_usage_exact headers :
  mcp_standard_header_usage headers =
  {| usage_count := Z.min usize_max (Z.of_nat (length (limited_headers headers)));
     usage_value_bytes := largest_value (limited_headers headers);
     usage_total_bytes := Z.min usize_max (total_bytes (limited_headers headers)) |}.
Proof.
  unfold mcp_standard_header_usage. rewrite usage_fold_exact by (cbn; unfold usize_max; lia).
  cbn [usage_count usage_value_bytes usage_total_bytes]. f_equal.
  assert (∀ l, 0 ≤ largest_value l) as Hl by (induction l as [|h l IH]; simpl; lia).
  specialize (Hl (limited_headers headers)). fold (limited_headers headers). lia.
Qed.

Lemma largest_value_le hs b : 0 ≤ b →
  largest_value hs ≤ b ↔ Forall (λ h, slen h.2 ≤ b) hs.
Proof.
  intros Hb. induction hs as [|h hs IH]; simpl; [split; [constructor|done]|].
  rewrite Forall_cons, <- IH. lia.
Qed.

(** C31: a request is let through exactly when the number of its MCP standard
    headers, the length of each of their values and the sum of their name and
    value lengths are within the three limits.  The machine counters saturate;
    for any limits below the largest [usize] that never changes a decision,
    however many headers there are. *)
Theorem exceeded_limits_exact headers limits
    (Hcount : 0 ≤ limit_count limits < usize_max)
    (Hvalue : 0 ≤ limit_value_bytes limits)
    (Htotal : 0 ≤ limit_total_bytes limits < usize_max) :
  exceeded_limits headers limits = None ↔
  Z.of_nat (length (limited_headers headers)) ≤ limit_count limits ∧
  Forall (λ h, slen h.2 ≤ limit_value_bytes limits) (limited_headers headers) ∧
  total_bytes (limited_headers headers) ≤ limit_total_bytes limits.
Proof.
  rewrite <- largest_value_le by done.
  unfold exceeded_limits, exceeds. rewrite mcp_standard_header_usage_exact.
  cbn [usage_count usage_value_bytes usage_total_bytes].
  destruct (_ || _) eqn:E.
  - split; [done|]. rewrite !orb_true_iff, !Z.ltb_lt in E. lia.
  - split; [|done]. rewrite !orb_false_iff, !Z.ltb_ge in E. lia.
Qed.
End limits.

(** ** At concrete values *)

Import Concrete.

Lemma exceeded_limits_exact_witness :
  let headers := [("mcp-name", "search"); ("x-other", "ignored"); ("mcp-param-region", "eu")] in
  let limits := limits_from_config 2 0 0 in
  exceeded_limits headers limits = None ∧
  Z.of_nat (length (limited_headers headers)) ≤ limit_count limits.
Proof.
  intros headers limits.
  assert (exceeded_limits headers limits = None) as H by (vm_compute; reflexivity).
  split; [exact H|].
  apply (exceeded_limits_exact headers limits);
    [vm_compute; split; [discriminate|reflexivity]|vm_compute; discriminate
    |vm_compute; split; [discriminate|reflexivity]|exact H].
Defined.
