(* ===== verification/ConfigStore.v ===== *)
(** * The configuration store ([config_stores/])

    [RedisStore]: an in-process cache in front of Redis.  The operations are the
    three phases the code runs between its suspension points (cache lookup,
    Redis round trip, cache insertion); the step relation interleaves the phases
    of any number of requests.  Redis, MessagePack and the LRU cache are
    parameters. *)

From S2P Require Import Prelude HttpTypes Apis.

Inductive ConfigStoreError : Type :=
| InvalidConnection
| NoDataForKey
| DataWrongFormat
| DataEncoding
| CantWriteData
| InvalidConfiguration (e : string).

#[export] Instance ConfigStoreError_eq_dec : EqDecision ConfigStoreError.
Proof. solve_decision. Defined.

Definition LRU_CACHE_ENTRIES : Z := 50000.

(** A moment and a length of time, in nanoseconds. *)
Abbreviation Instant := Z (only parsing).
Abbreviation Duration := Z (only parsing).

Record CachedEntry (V : Type) : Type := { inserted_at : Instant; config : V }.
Arguments inserted_at {V}.
Arguments config {V}.

(** [CachedEntry::new], [CachedEntry::is_fresh] ([elapsed] saturates at zero). *)
Definition CachedEntry_new {V} (now : Instant) (c : V) : CachedEntry V :=
  {| inserted_at := now; config := c |}.
Definition is_fresh {V} (now : Instant) (entry : CachedEntry V) (expiry : Duration) : bool :=
  Z.max 0 (now - inserted_at entry) <? expiry.

(** [lru_time_cache::LruCache].  [get_mut] refreshes an entry's own time stamp,
    so a cache may keep an entry that is used often for as long as it likes. *)
Class LruLib := {
  LruCache : Type → Type;
  lru_new {V} : Duration → Z → LruCache V;
  lru_get_mut {V} : Instant → string → LruCache V → option V * LruCache V;
  lru_peek {V} : Instant → string → LruCache V → option V;
  lru_insert {V} : Instant → string → V → LruCache V → LruCache V;
}.

(** What a lookup can return was inserted last under that key; entries
    may disappear at any time. *)
Class LruLibLaws `{LruLib} := {
  lru_holds {V} : LruCache V → string → V → Prop;
  lru_holds_new V d n k (v : V) : ¬ lru_holds (lru_new d n) k v;
  lru_holds_get_mut V now k (c : LruCache V) v c' :
    lru_get_mut now k c = (Some v, c') → lru_holds c k v;
  lru_holds_after_get_mut V now k (c : LruCache V) r c' k' v' :
    lru_get_mut now k c = (r, c') → lru_holds c' k' v' → lru_holds c k' v';
  lru_holds_peek V now k (c : LruCache V) v : lru_peek now k c = Some v → lru_holds c k v;
  lru_holds_insert V now k (v : V) c k' v' :
    lru_holds (lru_insert now k v c) k' v' → (k' = k ∧ v' = v) ∨ (k' ≠ k ∧ lru_holds c k' v');
}.

(** [rmp_serde] on one type, and a Redis connection whose state is [W]. *)
Class MessagePack (A : Type) := {
  mp_to_vec : A → option string;
  mp_from_slice : string → option A;
}.
Class Redis (W : Type) := {
  redis_get : string → W → result string (option string) * W;
  redis_set : string → string → W → result string () * W;
}.

(** The [Key] trait. *)
Class Key (K : Type) := { key_of : K → string }.
#[export] Instance User_key_instance : Key User := {| key_of := user_key |}.

(** The [ConfigStore] trait, over the state [S] its operations act on. *)
Class ConfigStore (S K V : Type) := {
  get_config : K → S → result ConfigStoreError V * S;
  set_config : K → V → S → result ConfigStoreError () * S;
}.

Record RedisStore `{LruLib} (V : Type) : Type := {
  cache : option (LruCache (CachedEntry V));
  cache_expiry : Duration;
}.
Arguments cache {_ V}.
Arguments cache_expiry {_ V}.

Section store.
Context `{!LruLib} {W : Type} `{!Redis W} {K V : Type} `{!Key K, !MessagePack K, !MessagePack V}.
Implicit Types (store : RedisStore V) (key : K).

(** [RedisStore::new], once connected: no cache for a zero expiry. *)
Definition RedisStore_new (expiry : Duration) : RedisStore V := {|
  cache := if expiry =? 0 then None else Some (lru_new expiry LRU_CACHE_ENTRIES);
  cache_expiry := expiry;
|}.

(** [get_config] up to its first Redis access. *)
Definition cache_lookup (now : Instant) (subject : string) store : option V * RedisStore V :=
  match cache store with
  | Some c =>
      let '(entry, c) := lru_get_mut now subject c in
      let store := {| cache := Some c; cache_expiry := cache_expiry store |} in
      match entry with
      | Some entry =>
          if is_fresh now entry (cache_expiry store)
          then (Some (config entry), store) else (None, store)
      | None => (None, store)
      end
  | None => (None, store)
  end.

(** The insertion both operations end with. *)
Definition cache_store (now : Instant) (subject : string) (c : V) store : RedisStore V :=
  match cache store with
  | Some lru =>
      {| cache := Some (lru_insert now subject (CachedEntry_new now c) lru);
         cache_expiry := cache_expiry store |}
  | None => store
  end.

(** The Redis round trip of [get_config]: a Redis failure is reported as a
    missing key. *)
Definition fetch_config key (w : W) : result ConfigStoreError V * W :=
  match mp_to_vec key with
  | None => (Err DataEncoding, w)
  | Some encoded =>
      let '(maybe_user_config, w) := redis_get encoded w in
      match maybe_user_config with
      | Ok (Some user_config) => (ok_or (mp_from_slice user_config) DataWrongFormat, w)
      | Ok None => (Err NoDataForKey, w)
      | Err _ => (Err NoDataForKey, w)
      end
  end.

(** The Redis round trip of [set_config]. *)
Definition store_config key (c : V) (w : W) : result ConfigStoreError () * W :=
  match mp_to_vec key with
  | None => (Err DataEncoding, w)
  | Some encoded_key =>
      match mp_to_vec c with
      | None => (Err DataEncoding, w)
      | Some encoded =>
          let '(r, w) := redis_set encoded_key encoded w in
          (map_err (λ _, CantWriteData) r, w)
      end
  end.

(** The whole operations, when nothing else runs in between. *)
Definition RedisStore_get_config (now now' : Instant) key (s : RedisStore V * W)
    : result ConfigStoreError V * (RedisStore V * W) :=
  let '(store, w) := s in
  let '(hit, store) := cache_lookup now (key_of key) store in
  match hit with
  | Some c => (Ok c, (store, w))
  | None =>
      let '(r, w) := fetch_config key w in
      match r with
      | Ok c => (Ok c, (cache_store now' (key_of key) c store, w))
      | Err e => (Err e, (store, w))
      end
  end.
Definition RedisStore_set_config (now' : Instant) key (c : V) (s : RedisStore V * W)
    : result ConfigStoreError () * (RedisStore V * W) :=
  let '(store, w) := s in
  let '(r, w) := store_config key c w in
  match r with
  | Ok _ => (Ok (), (cache_store now' (key_of key) c store, w))
  | Err e => (Err e, (store, w))
  end.
End store.

(** ** Interleaved requests

    Between its suspension points a request runs one phase; any other request, a
    write by this process or by the control plane, and the passing of time may
    come in between.  [history] is a ghost: what Redis answered to this process,
    or acknowledged to it, and when.  [missed] are the keys of the requests that found
    nothing fresh in the cache and have yet to hear from Redis; [in_flight] what Redis
    told requests that have yet to insert it.  [latency] bounds how long a request may stay
    between the answer of Redis and the cache insertion. *)

Section system.
Context `{!LruLib} {W : Type} `{!Redis W} {K V : Type} `{!Key K, !MessagePack K, !MessagePack V}.
Context (latency : Duration).

Record Observation : Type := { obs_at : Instant; obs_subject : string; obs_config : V }.

Record System : Type := {
  now : Instant;
  store : RedisStore V;
  world : W;
  missed : list K;
  in_flight : list Observation;
  history : list Observation;
  returned : list Observation;
}.

Definition set_store (s : System) (st : RedisStore V) : System := {|
  now := now s; store := st; world := world s; missed := missed s; in_flight := in_flight s;
  history := history s; returned := returned s |}.
Definition observe (s : System) (w : W) (subject : string) (c : V) : System :=
  let o := {| obs_at := now s; obs_subject := subject; obs_config := c |} in {|
  now := now s; store := store s; world := w; missed := missed s; in_flight := o :: in_flight s;
  history := o :: history s; returned := returned s |}.
Definition return_config (s : System) (subject : string) (c : V) : System := {|
  now := now s; store := store s; world := world s; missed := missed s;
  in_flight := in_flight s; history := history s;
  returned := {| obs_at := now s; obs_subject := subject; obs_config := c |} :: returned s |}.

Definition set_pending (s : System) (w : W) (keys : list K) : System := {|
  now := now s; store := store s; world := w; missed := keys; in_flight := in_flight s;
  history := history s; returned := returned s |}.

Inductive step : System → System → Prop :=
| step_time s d :
    0 ≤ d →
    Forall (λ o, now s + d - obs_at o ≤ latency) (in_flight s) →
    step s {| now := now s + d; store := store s; world := world s; missed := missed s;
              in_flight := in_flight s; history := history s; returned := returned s |}
| step_world s w :
    step s (set_pending s w (missed s))
| step_hit s key c st :
    cache_lookup (now s) (key_of key) (store s) = (Some c, st) →
    step s (return_config (set_store s st) (key_of key) c)
| step_miss s key st :
    cache_lookup (now s) (key_of key) (store s) = (None, st) →
    step s (set_pending (set_store s st) (world s) (key :: missed s))
| step_fetch s before key after r w :
    missed s = before ++ key :: after →
    fetch_config key (world s) = (r, w) →
    step s (let s := set_pending s w (before ++ after) in
            match r with Ok c => observe s w (key_of key) c | Err _ => s end)
| step_set s key c w :
    store_config key c (world s) = (Ok (), w) →
    step s (observe s w (key_of key) c)
| step_finish s o before after :
    in_flight s = before ++ o :: after →
    step s (return_config
      {| now := now s; store := cache_store (now s) (obs_subject o) (obs_config o) (store s);
         world := world s; missed := missed s; in_flight := before ++ after; history := history s;
         returned := returned s |} (obs_subject o) (obs_config o)).

Context (init_store : RedisStore V) (init_world : W).
Definition init : System := {|
  now := 0; store := init_store; world := init_world; missed := [];
  in_flight := []; history := []; returned := [] |}.
Definition reachable : System → Prop := rtc step init.

(** Redis vouched for [c] under [subject] at some time in [[lo, hi]]. *)
Definition vouched (s : System) (subject : string) (c : V) (lo hi : Instant) : Prop :=
  ∃ o, o ∈ history s ∧ obs_subject o = subject ∧ obs_config o = c ∧ lo ≤ obs_at o ≤ hi.

Context `{!LruLibLaws}.

Definition held (st : RedisStore V) (subject : string) (e : CachedEntry V) : Prop :=
  match cache st with Some c => lru_holds c subject e | None => False end.

Record store_inv (s : System) : Prop := {
  inv_expiry : cache_expiry (store s) = cache_expiry init_store;
  inv_in_flight : ∀ o, o ∈ in_flight s →
    o ∈ history s ∧ now s - latency ≤ obs_at o ≤ now s;
  inv_held : ∀ subject e, held (store s) subject e →
    inserted_at e ≤ now s ∧
    vouched s subject (config e) (inserted_at e - latency) (inserted_at e);
  inv_returned : ∀ o, o ∈ returned s →
    vouched s (obs_subject o) (obs_config o)
      (obs_at o - (Z.max 0 (cache_expiry init_store) + latency)) (obs_at o);
}.

Lemma vouched_weaken (s s' : System) subject c lo hi lo' hi' :
  vouched s subject c lo hi → history s ⊆ history s' → lo' ≤ lo → hi ≤ hi' →
  vouched s' subject c lo' hi'.
Proof. intros (o & ? & ? & ? & ?) Hsub ??. exists o. split_and!; auto; lia. Qed.

Lemma cache_lookup_held t subject (st : RedisStore V) r st' :
  cache_lookup t subject st = (r, st') →
  cache_expiry st' = cache_expiry st ∧
  (∀ k e, held st' k e → held st k e) ∧
  (∀ c, r = Some c → ∃ e, held st subject e ∧ config e = c ∧
     Z.max 0 (t - inserted_at e) < cache_expiry st).
Proof.
  unfold cache_lookup, held. destruct (cache st) as [lru|] eqn:Hc.
  - destruct (lru_get_mut t subject lru) as [entry lru'] eqn:Hget.
    destruct entry as [entry|]; cbn [cache_expiry]; [destruct (is_fresh _ _ _) eqn:Hf|];
      intros [= <- <-]; cbn [cache cache_expiry]; split_and!; try done;
      try (intros; by eapply lru_holds_after_get_mut).
    intros c [= <-]. exists entry. split_and!; [by eapply lru_holds_get_mut|done|].
    unfold is_fresh in Hf. by apply Z.ltb_lt in Hf.
  - intros [= <- <-]. rewrite Hc. by split_and!.
Qed.

Lemma cache_store_held t subject c (st : RedisStore V) k e :
  held (cache_store t subject c st) k e →
  (k = subject ∧ e = CachedEntry_new t c) ∨ (k ≠ subject ∧ held st k e).
Proof.
  unfold cache_store, held. destruct (cache st) as [lru|] eqn:Hc; simpl; [|by rewrite Hc].
  apply lru_holds_insert.
Qed.
Lemma cache_store_expiry t subject (c : V) st : cache_expiry (cache_store t subject c st) = cache_expiry st.
Proof. unfold cache_store. by destruct (cache st). Qed.

Lemma store_inv_set_store s (st : RedisStore V) :
  store_inv s → cache_expiry st = cache_expiry (store s) →
  (∀ k e, held st k e → held (store s) k e) → store_inv (set_store s st).
Proof. intros [] He Hh. split; cbn; [congruence|done| |done].
  intros k e Hk. by apply inv_held0, Hh. Qed.

Lemma store_inv_pending s w keys : store_inv s → store_inv (set_pending s w keys).
Proof. by intros []; split. Qed.

Lemma store_inv_return s subject c :
  store_inv s →
  vouched s subject c (now s - (Z.max 0 (cache_expiry init_store) + latency)) (now s) →
  store_inv (return_config s subject c).
Proof.
  intros [] Hv. split; cbn; [done..|].
  intros o [->|Ho]%elem_of_cons; [done|]. by apply inv_returned0.
Qed.

Lemma store_inv_observe s w subject c : 0 ≤ latency → store_inv s → store_inv (observe s w subject c).
Proof.
  intros HL [He Hf Hh Hr].
  assert (history s ⊆ history (observe s w subject c)) as Hsub by (intros ??; by right).
  split; cbn [observe now store in_flight returned]; [done|..].
  - intros o [->|Ho]%elem_of_cons; cbn.
    + split; [by left|lia].
    + destruct (Hf o Ho). split; [by right|done].
  - intros k e Hk. destruct (Hh k e Hk) as [? Hv]. split; [done|].
    by eapply vouched_weaken.
  - intros o Ho. by eapply vouched_weaken; [apply Hr|..].
Qed.

Lemma step_preserves s s' : 0 ≤ latency → store_inv s → step s s' → store_inv s'.
Proof.
  intros HL Hinv Hstep. destruct Hstep as
    [s d Hd Hlat|s w|s key c st Hl|s key st Hl|s before key after r w Hin Hf|s key c w Hset
    |s o before after Hin].
  - destruct Hinv as [He Hfl Hh Hr]. split; cbn; [done| | |done].
    + intros o Ho. destruct (Hfl o Ho). rewrite Forall_forall in Hlat.
      specialize (Hlat o Ho). split; [done|]. simpl in *. lia.
    + intros k e Hk. destruct (Hh k e Hk). split; [lia|done].
  - by apply store_inv_pending.
  - destruct (cache_lookup_held _ _ _ _ _ Hl) as (He & Hst & Hhit).
    destruct (Hhit c eq_refl) as (e & Hheld & <- & Hfresh).
    apply store_inv_return; [by apply store_inv_set_store|].
    destruct Hinv as [Hexp _ Hh _]. destruct (Hh _ _ Hheld) as [Hle Hv]. rewrite Hexp in Hfresh.
    eapply vouched_weaken; [exact Hv|done|cbn; lia..].
  - destruct (cache_lookup_held _ _ _ _ _ Hl) as (He & Hst & _).
    apply store_inv_pending. by apply store_inv_set_store.
  - destruct r; [apply store_inv_observe; [done|]|]; by apply store_inv_pending.
  - by apply store_inv_observe.
  - destruct Hinv as [He Hfl Hh Hr].
    destruct (Hfl o ltac:(rewrite Hin; set_solver)) as [Ho Hb].
    apply store_inv_return; [split; cbn [now store in_flight history returned]|].
    + by rewrite cache_store_expiry.
    + intros o' Ho'. apply Hfl. rewrite Hin. set_solver.
    + intros k e [[-> ->]|[_ Hk]]%cache_store_held; [|by destruct (Hh k e Hk)].
      cbn. split; [done|]. exists o. split_and!; try done; lia.
    + intros o' Ho'. by apply Hr.
    + exists o. split_and!; try done; cbn; lia.
Qed.

(** C4: bounded staleness under any interleaving.  Whatever [get_config]
    returns, Redis itself gave or acknowledged that very configuration for that
    subject at most cache expiry plus request latency before: a cache that keeps
    refreshing an entry it is asked for cannot make it older, and no request
    gets another subject's configuration. *)
Theorem get_config_bounded_staleness s o
    (Hlatency : 0 ≤ latency)
    (Hempty : ∀ subject e, ¬ held init_store subject e)
    (Hreach : reachable s) (Hreturned : o ∈ returned s) :
  ∃ h, h ∈ history s ∧ obs_subject h = obs_subject o ∧ obs_config h = obs_config o ∧
    obs_at o - (Z.max 0 (cache_expiry init_store) + latency) ≤ obs_at h ≤ obs_at o.
Proof.
  enough (store_inv s) as Hinv by (by apply (inv_returned s Hinv o)).
  clear Hreturned. revert s Hreach. apply rtc_ind_r.
  - split; cbn; [done|by intros ? ?%elem_of_nil| |by intros ? ?%elem_of_nil].
    intros subject e He. by destruct (Hempty subject e).
  - intros s s' _ Hstep Hinv. by eapply step_preserves.
Qed.
End system.

(** ** Sequential use *)

Section sequential.
Context `{!LruLib, !LruLibLaws} {W : Type} `{!Redis W} {K V : Type}.
Context `{!Key K, !MessagePack K, !MessagePack V}.

(** MessagePack decodes what it encodes; Redis answers a [GET], if at all, with
    the last acknowledged [SET]. *)
Context (mp_round_trip : ∀ (c : V) b, mp_to_vec c = Some b → mp_from_slice b = Some c).
Context (redis_get_set : ∀ k b (w w1 w2 : W) r,
  redis_set k b w = (Ok (), w1) → redis_get k w1 = (Ok r, w2) → r = Some b).

(** Once [set_config] has succeeded, an undisturbed [get_config] returns
    nothing but the configuration just written, from the cache or from Redis,
    however old the entry it replaces. *)
Theorem get_config_reads_write t t1 t2 (k : K) (c c' : V) (s s' s'' : RedisStore V * W)
    (Hset : RedisStore_set_config t k c s = (Ok (), s'))
    (Hget : RedisStore_get_config t1 t2 k s' = (Ok c', s'')) :
  c' = c.
Proof.
  destruct s as [st w]. unfold RedisStore_set_config, store_config in Hset.
  destruct (mp_to_vec k) as [bk|] eqn:Hk; [|done].
  destruct (mp_to_vec c) as [b|] eqn:Hb; [|done].
  destruct (redis_set bk b w) as [[[]|] w1] eqn:Hw; simplify_eq/=.
  destruct (cache_lookup t1 _ _) as [hit st2] eqn:Hl.
  destruct (cache_lookup_held _ _ _ _ _ Hl) as (_ & _ & Hhit). destruct hit as [c0|].
  - simplify_eq/=. destruct (Hhit c' eq_refl) as (e & He & <- & _).
    by apply cache_store_held in He as [[_ ->]|[Hne _]].
  - unfold fetch_config in Hget. rewrite Hk in Hget.
    destruct (redis_get bk w1) as [[r|] w2] eqn:Hg; [|by simplify_eq/=].
    rewrite (redis_get_set _ _ _ _ _ _ Hw Hg), (mp_round_trip _ _ Hb) in Hget. by simplify_eq/=.
Qed.
End sequential.

(** ** A concrete store

    The cache is a map that forgets nothing; Redis is a map that always answers. *)

Module ConcreteStore.
#[export] Instance lru_lib : LruLib := {|
  LruCache V := list (string * V);
  lru_new _ _ _ := [];
  lru_get_mut _ _ k c := (assoc_get k c, c);
  lru_peek _ _ k c := assoc_get k c;
  lru_insert _ _ k v c := assoc_insert k v c;
|}.
#[export] Instance lru_lib_laws : LruLibLaws.
Proof.
  refine {| lru_holds V (c : LruCache V) k v := assoc_get k c = Some v |}.
  - by intros.
  - by intros V now k c v c' [= ? <-].
  - by intros V now k c r c' k' v' [= _ <-].
  - by intros.
  - intros V now k v c k' v'. cbn. rewrite assoc_get_insert.
    destruct (String.eqb_spec k' k); [intros [= ->]; by left|by right].
Defined.
#[export] Instance mp_string : MessagePack string :=
  {| mp_to_vec := Some; mp_from_slice := Some |}.
#[export] Instance mp_user : MessagePack User :=
  {| mp_to_vec u := Some (user_key u); mp_from_slice k := Some (User_new k) |}.
#[export] Instance redis : Redis (list (string * string)) := {|
  redis_get k w := (Ok (assoc_get k w), w);
  redis_set k v w := (Ok (), assoc_insert k v w);
|}.
End ConcreteStore.

Import ConcreteStore.

Definition example_store : RedisStore string := RedisStore_new 100.
Definition alice : User := User_new "alice".

Lemma get_config_reads_write_witness :
  match RedisStore_get_config 5 6 alice
          (RedisStore_set_config 1 alice "config" (example_store, [])).2 with
  | (Ok c, _) => c = "config"
  | _ => False
  end.
Proof.
  destruct (RedisStore_get_config 5 6 alice
    (RedisStore_set_config 1 alice "config" (example_store, [])).2) as [[c|] s''] eqn:E;
    [|revert E; vm_compute; discriminate].
  refine (get_config_reads_write _ _ 1 5 6 alice "config" c (example_store, []) _ _ _ E).
  - by intros c0 b [= <-].
  - intros k b w w1 w2 r [= <-] [= <- _]. rewrite assoc_get_insert. by rewrite String.eqb_refl.
  - vm_compute. reflexivity.
Defined.

Lemma get_config_bounded_staleness_witness :
  let s0 := init (K := User) (W := list (string * string)) example_store [("alice", "v1")] in
  ∃ s o, reachable (K := User) 7 example_store [("alice", "v1")] s ∧ o ∈ returned s ∧
    ∃ h, h ∈ history s ∧ obs_config h = "v1" ∧ obs_at o - 107 ≤ obs_at h ≤ obs_at o.
Proof.
  intros s0.
  set (o := {| obs_at := 0; obs_subject := "alice"; obs_config := "v1" |}).
  set (s1 := {| now := 0; store := example_store; world := [("alice", "v1")]; missed := @nil User;
                in_flight := [o]; history := [o]; returned := [] |}).
  set (s2 := return_config {| now := 0; store := cache_store 0 "alice" "v1" example_store;
                              world := [("alice", "v1")]; missed := @nil User; in_flight := []; history := [o];
                              returned := [] |} "alice" "v1").
  assert (reachable (K := User) 7 example_store [("alice", "v1")] s2) as Hr.
  { eapply rtc_l; [exact (step_miss 7 s0 alice example_store eq_refl)|].
    eapply rtc_l; [exact (step_fetch 7 (set_pending s0 [("alice", "v1")] [alice]) [] alice []
                            (Ok "v1") [("alice", "v1")] eq_refl eq_refl)|].
    eapply rtc_l; [exact (step_finish 7 s1 o [] [] eq_refl)|]. apply rtc_refl. }
  exists s2, o. split_and!; [exact Hr|left|].
  destruct (get_config_bounded_staleness 7 example_store [("alice", "v1")] s2 o) as
    (h & Hh & _ & Hc & Hb).
  - lia.
  - intros subject e He. exact (eq_ind None (λ x, match x with None => True | _ => False end) I _ He).
  - exact Hr.
  - left.
  - exists h. split_and!; [exact Hh|exact Hc|exact (proj1 Hb)|exact (proj2 Hb)].
Defined.
