(* ===== verification/Authorization.v ===== *)
(** * Principals ([authorization/mod.rs], [authorization/principal_extractor/])

    Claims, the principal they are mapped to, and the two extractors behind the
    [PrincipalExtractor] interface. *)

From S2P Require Import Prelude HttpTypes Apis.

Record AuthorizationClaims : Type := { claims_value : Value }.

Record AuthorizedPrincipal : Type := {
  user_id : string;
  tenant_id : string;
  scopes : list string;
}.

(** [From<&AuthorizedPrincipal> for User]. *)
Definition user_of_principal (p : AuthorizedPrincipal) : User := User_new (user_id p).

(** The [AuthorizationService] trait, over the state [S] an implementation
    keeps, and the [PrincipalExtractor] trait. *)
Class AuthorizationService (S : Type) := {
  authorize : HeaderValue → S → option AuthorizationClaims * S;
}.
Class PrincipalExtractor (E : Type) := {
  extract : E → Value → result string AuthorizedPrincipal;
}.

(** [Iterator::find_map] over a list. *)
Fixpoint find_map {A B} (f : A → option B) (l : list A) : option B :=
  match l with
  | [] => None
  | a :: l => match f a with Some b => Some b | None => find_map f l end
  end.

(** ** The default extractor *)

Record DefaultPrincipalExtractor : Type := {}.

Definition default_extract (claims : Value) : result string AuthorizedPrincipal :=
  let user_id :=
    (v ← find_map (λ claim, value_get claim claims) ["sub"; "user_id"; "UserId"]; as_str v) in
  let tenant_id :=
    (v ← find_map (λ claim, value_get claim claims) ["tenantId"; "tenant_id"]; as_str v) in
  match user_id, tenant_id with
  | Some user_id, Some tenant_id =>
      Ok {| user_id := user_id; tenant_id := tenant_id; scopes := [] |}
  | _, _ => Err "Can't create principal"
  end.

#[export] Instance default_extractor : PrincipalExtractor DefaultPrincipalExtractor :=
  {| extract _ := default_extract |}.

(** ** The CEL extractor *)

Inductive CelPrincipalExtractorError : Type :=
| FileReadError (e : string)
| CompilationError (e : string)
| EvaluationError (e : string)
| InvalidReturnType.

(** The [cel] crate: programs, values, what [cel::Value] the code looks at. *)
Class Cel := {
  CelProgram : Type;
  CelValue : Type;
  cel_compile : string → result string CelProgram;
  cel_add_variable : string → Value → result string ();
  cel_execute : CelProgram → list (string * Value) → result string CelValue;
  cel_map_get : CelValue → option (string → option CelValue);
  cel_as_string : CelValue → option string;
}.

Section cel.
Context `{!Cel}.

Record CelPrincipalExtractor : Type := { program : CelProgram }.

Definition from_expression (expression : string)
    : result CelPrincipalExtractorError CelPrincipalExtractor :=
  program ← map_err CompilationError (cel_compile expression);
  Ok {| program := program |}.

(** [from_file], given what [fs::read_to_string] gives. *)
Definition from_file (read : result string string)
    : result CelPrincipalExtractorError CelPrincipalExtractor :=
  expression ← map_err FileReadError read;
  from_expression expression.

(** [TryFrom<cel::Value> for AuthorizedPrincipal]. *)
Definition principal_of_cel (value : CelValue)
    : result CelPrincipalExtractorError AuthorizedPrincipal :=
  match cel_map_get value with
  | Some get =>
      match (v ← get "user_id"; cel_as_string v), (v ← get "tenant_id"; cel_as_string v) with
      | Some user_id, Some tenant_id =>
          Ok {| user_id := user_id; tenant_id := tenant_id; scopes := [] |}
      | _, _ => Err InvalidReturnType
      end
  | None => Err InvalidReturnType
  end.

Definition cel_extract (self : CelPrincipalExtractor) (claims : Value)
    : result CelPrincipalExtractorError AuthorizedPrincipal :=
  _ ← map_err EvaluationError (cel_add_variable "claims" claims);
  value ← map_err EvaluationError (cel_execute (program self) [("claims", claims)]);
  principal_of_cel value.

#[export] Instance cel_extractor : PrincipalExtractor CelPrincipalExtractor :=
  {| extract self claims :=
       map_err (λ e, match e with
                     | FileReadError e | CompilationError e | EvaluationError e => e
                     | InvalidReturnType => "CEL expression did not return a map"
                     end) (cel_extract self claims) |}.
End cel.

(** ** Theorems *)

Lemma find_map_Some {A B} (f : A → option B) l b :
  find_map f l = Some b ↔
  ∃ before a after, l = before ++ a :: after ∧ f a = Some b ∧ Forall (λ x, f x = None) before.
Proof.
  induction l as [|a l IH]; simpl.
  - split; [done|]. by intros ([] & ? & ? & ? & ?).
  - destruct (f a) as [b'|] eqn:Ha.
    + split; [intros [= ->]; by exists [], a, l|].
      intros (before & x & after & Heq & Hx & Hb). destruct before as [|y before]; simplify_eq/=.
      * congruence.
      * inversion Hb; congruence.
    + rewrite IH. split.
      * intros (before & x & after & -> & ? & ?). exists (a :: before), x, after. auto.
      * intros (before & x & after & Heq & ? & Hb). destruct before as [|y before]; simplify_eq/=.
        inversion Hb; subst. by exists before, x, after.
Qed.

(** The first of the listed claims that the token has, whatever its type. *)
Definition first_claim (names : list string) (claims v : Value) : Prop :=
  ∃ before n after, names = before ++ n :: after ∧ value_get n claims = Some v ∧
    Forall (λ m, value_get m claims = None) before.

(** The default extractor maps claims to a principal exactly when the first
    of [sub], [user_id], [UserId] the token has and the first of [tenantId],
    [tenant_id] it has are both strings; those two are the principal, which never
    has a scope.  A present claim of another type is not skipped. *)
Theorem default_extract_spec claims p :
  default_extract claims = Ok p ↔
  first_claim ["sub"; "user_id"; "UserId"] claims (JString (user_id p)) ∧
  first_claim ["tenantId"; "tenant_id"] claims (JString (tenant_id p)) ∧
  scopes p = [].
Proof.
  unfold first_claim. rewrite <- !(find_map_Some (λ claim, value_get claim claims)).
  unfold default_extract.
  destruct (find_map _ ["sub"; _; _]) as [u|]; [|naive_solver].
  destruct (find_map _ ["tenantId"; _]) as [t|]; [|cbn; destruct (as_str u); naive_solver].
  cbn [mbind option_bind]. destruct u as [| | |u| |], t as [| | |t| |]; try (cbn; naive_solver).
  cbn [as_str]. destruct p as [u' t' sc]; cbn. naive_solver.
Qed.

(** Whatever the CEL program, a principal it yields has the very [user_id]
    and [tenant_id] strings of the map the program returned on the claims, and
    never a scope. *)
Theorem cel_extract_spec `{!Cel} self claims p :
  cel_extract self claims = Ok p ↔
  cel_add_variable "claims" claims = Ok () ∧
  ∃ value get uv tv, cel_execute (program self) [("claims", claims)] = Ok value ∧
    cel_map_get value = Some get ∧
    get "user_id" = Some uv ∧ cel_as_string uv = Some (user_id p) ∧
    get "tenant_id" = Some tv ∧ cel_as_string tv = Some (tenant_id p) ∧
    scopes p = [].
Proof.
  unfold cel_extract. destruct (cel_add_variable _ _) as [[]|]; [|simpl; naive_solver].
  destruct (cel_execute _ _) as [value|]; [|simpl; naive_solver].
  cbn [map_err mbind result_bind]. unfold principal_of_cel.
  destruct (cel_map_get value) as [get|] eqn:Hget; [|naive_solver].
  destruct (get "user_id") as [uv|] eqn:Hu; [|simpl; naive_solver].
  destruct (get "tenant_id") as [tv|] eqn:Ht; cbn [mbind option_bind];
    [|destruct (cel_as_string uv); naive_solver].
  destruct (cel_as_string uv) eqn:Hus, (cel_as_string tv) eqn:Hts; try naive_solver.
  destruct p as [u' t' sc]; cbn. split; [intros [= <- <- <-]|naive_solver].
  split; [done|]. by exists value, get, uv, tv.
Qed.
