(* ===== verification/Jwks.v ===== *)
(** * Token verification against a remote key set ([authorization/jwks/])

    Fetching, filtering and caching the JWKS, and checking a bearer token with
    it.  JWT decoding, the HTTP client and the LRU cache are parameters. *)

From S2P Require Import Prelude HttpTypes Apis ConfigStore Authorization.

Inductive AuthorizationError : Type :=
| NoSupportedKeys
| InvalidJson (e : string)
| InvalidKey (e : string)
| InsecureJwksUrl
| JwksRequest (e : string)
| ReadJwksCaCertificate (path source : string)
| InvalidJwksCaCertificate (path source : string)
| EmptyJwksCaCertificate (path : string)
| JwksResponseTooLarge.

(** [jsonwebtoken]: algorithms and their families, keys, validation settings. *)
Class JwtLib := {
  Algorithm : Type;
  AlgorithmFamily : Type;
  family_eq_dec :: EqDecision AlgorithmFamily;
  FamilyRsa : AlgorithmFamily;
  FamilyEc : AlgorithmFamily;
  alg_family : Algorithm → AlgorithmFamily;
  DecodingKey : Type;
  key_family : DecodingKey → AlgorithmFamily;
  PublicKeyUse : Type;
  use_eq_dec :: EqDecision PublicKeyUse;
  Signature : PublicKeyUse;
  KeyOperations : Type;
  operations_eq_dec :: EqDecision KeyOperations;
  Verify : KeyOperations;
  Jwk : Type;
  jwk_public_key_use : Jwk → option PublicKeyUse;
  jwk_key_operations : Jwk → option (list KeyOperations);
  jwk_key_id : Jwk → option string;
  decoding_key_from_jwk : Jwk → result string DecodingKey;
  parse_jwk_set : string → result string (list Jwk);
}.

Record Header `{JwtLib} : Type := { alg : Algorithm; kid : option string }.

(** [jsonwebtoken::Validation]: the fields the code sets. *)
Record Validation `{JwtLib} : Type := {
  validation_algorithm : Algorithm;
  required_spec_claims : list string;
  validate_aud : bool;
  validate_exp : bool;
  validate_nbf : bool;
}.

Class JwtDecode `{JwtLib} := {
  decode_header : string → option Header;
  decode : string → DecodingKey → Validation → option Value;
  (** the [required_spec_claims] a new [Validation] starts with *)
  default_required_claims : list string;
}.

(** [reqwest]: what [send] answers, its body a stream of chunks that may break. *)
Record HttpResponse : Type := {
  http_status : Z;
  content_length : option Z;
  chunks : list (result string string);
}.
Class HttpClient (W : Type) := { http_get : Url → W → result string HttpResponse * W }.

(** [reqwest::Response::error_for_status]. *)
Definition error_for_status (r : HttpResponse) : result string HttpResponse :=
  if (400 <=? http_status r) && (http_status r <? 600) then Err "status" else Ok r.

Definition JWKS_MAX_RESPONSE_BYTES : Z := 1024 * 1024.
Definition JWKS_CACHE_TTL : Duration := 5 * 60 * 10 ^ 9.
Definition JWKS_CACHE_KEY : string := "jwks".

Section jwks.
Context `{!JwtLib, !JwtDecode, !LruLib} {W : Type} `{!HttpClient W}.

Record VerificationKey : Type := { key_id : option string; decoding_key : DecodingKey }.

(** [VerificationKey::from_jwk]. *)
Definition from_jwk (jwk : Jwk) : result AuthorizationError (option VerificationKey) :=
  if match jwk_public_key_use jwk with
     | Some key_use => negb (bool_decide (key_use = Signature)) | None => false end
     || match jwk_key_operations jwk with
        | Some operations => negb (bool_decide (Verify ∈ operations)) | None => false end
  then Ok None else
  decoding_key ← map_err InvalidKey (decoding_key_from_jwk jwk);
  if negb (bool_decide (key_family decoding_key = FamilyRsa)
           || bool_decide (key_family decoding_key = FamilyEc))
  then Ok None
  else Ok (Some {| key_id := jwk_key_id jwk; decoding_key := decoding_key |}).

(** [VerificationKey::matches]. *)
Definition matches (key : VerificationKey) (header : Header) : bool :=
  bool_decide (key_family (decoding_key key) = alg_family (alg header))
  && match kid header with
     | None => true
     | Some header_key_id =>
         match key_id key with
         | None => true
         | Some key_id => String.eqb key_id header_key_id
         end
     end.

Definition validated_json_web_keys (jwks : list Jwk)
    : result AuthorizationError (list VerificationKey) :=
  keys ← foldM (λ keys jwk, key ← from_jwk jwk;
                  Ok (match key with Some key => keys ++ [key] | None => keys end)) jwks [];
  match keys with [] => Err NoSupportedKeys | _ => Ok keys end.

(** The loop that collects the body. *)
Definition read_chunk (body : string) (chunk : result string string)
    : result AuthorizationError string :=
  chunk ← map_err JwksRequest chunk;
  if Z.max 0 (JWKS_MAX_RESPONSE_BYTES - slen body) <? slen chunk
  then Err JwksResponseTooLarge else Ok (body +:+ chunk).

Definition read_body (response : HttpResponse) : result AuthorizationError string :=
  if match content_length response with
     | Some length => JWKS_MAX_RESPONSE_BYTES <? length | None => false end
  then Err JwksResponseTooLarge
  else foldM read_chunk (chunks response) EmptyString.

Definition fetch_jwks (url : Url) (w : W)
    : result AuthorizationError (list VerificationKey) * W :=
  let '(response, w) := http_get url w in
  (response ← map_err JwksRequest (response ≫= error_for_status);
   body ← read_body response;
   jwks ← map_err InvalidJson (parse_jwk_set body);
   match jwks with [] => Ok [] | _ => validated_json_web_keys jwks end, w).

Record Jwks : Type := {
  jwks_url : Url;
  jwks_cache : LruCache (list VerificationKey);
  validate_audience : bool;
  validate_expiry : bool;
  validate_not_before : bool;
}.

(** The builder with its defaults. *)
Definition Jwks_new (url : Url) : Jwks := {|
  jwks_url := url;
  jwks_cache := lru_new JWKS_CACHE_TTL (2 ^ 64 - 1);
  validate_audience := false; validate_expiry := true; validate_not_before := true |}.

Definition validation (self : Jwks) (alg : Algorithm) : Validation := {|
  validation_algorithm := alg;
  required_spec_claims := [];
  validate_aud := validate_audience self;
  validate_exp := validate_expiry self;
  validate_nbf := validate_not_before self |}.

Definition validate_and_decode_claims (token : string) (key : DecodingKey) (v : Validation)
    : option AuthorizationClaims :=
  claims ← decode token key v; Some {| claims_value := claims |}.

Definition validate_with_keys (keys : list VerificationKey) (token : string) (header : Header)
    (v : Validation) : option AuthorizationClaims :=
  find_map (λ key, validate_and_decode_claims token (decoding_key key) v)
    (filter (λ key, matches key header = true) keys).

Definition set_keys (now : Instant) (keys : list VerificationKey) (self : Jwks) : Jwks := {|
  jwks_url := jwks_url self;
  jwks_cache := lru_insert now JWKS_CACHE_KEY keys (jwks_cache self);
  validate_audience := validate_audience self;
  validate_expiry := validate_expiry self;
  validate_not_before := validate_not_before self |}.

(** [Jwks::validate] up to its request for the key set: whether the cached keys
    decide the token. *)
Definition validate_cached (now : Instant) (token : string) (header : Header) (self : Jwks)
    : option (option AuthorizationClaims) :=
  match lru_peek now JWKS_CACHE_KEY (jwks_cache self) with
  | Some keys =>
      if existsb (λ key, matches key header) keys
      then Some (validate_with_keys keys token header (validation self (alg header))) else None
  | None => None
  end.

(** [Jwks::validate], when nothing else runs in between. *)
Definition validate (now : Instant) (token : string) (header : Header) (s : Jwks * W)
    : option AuthorizationClaims * (Jwks * W) :=
  let '(self, w) := s in
  match validate_cached now token header self with
  | Some claims => (claims, (self, w))
  | None =>
      let '(fetched, w) := fetch_jwks (jwks_url self) w in
      match fetched with
      | Ok keys =>
          let claims := validate_with_keys keys token header (validation self (alg header)) in
          (claims, (set_keys now keys self, w))
      | Err _ => (None, (self, w))
      end
  end.

Definition authorize_token (now : Instant) (token : string) (s : Jwks * W)
    : option AuthorizationClaims * (Jwks * W) :=
  match decode_header token with
  | Some header => validate now token header s
  | None => (None, s)
  end.

(** [JwtAuthorizationService::authorize]. *)
Definition jwt_authorize (now : Instant) (authorization_token : HeaderValue) (s : Jwks * W)
    : option AuthorizationClaims * (Jwks * W) :=
  match strip_prefix "Bearer " authorization_token with
  | Some token => if utf8_valid token then authorize_token now token s else (None, s)
  | None => (None, s)
  end.
End jwks.

(** ** Setting the service up *)

Class UrlLib := {
  url_scheme : Url → string;
  url_host_str : Url → option string;
  url_origin_ascii : Url → string;
  (** [host.parse::<IpAddr>()] followed by [is_loopback] *)
  parse_ip_is_loopback : string → option bool;
}.

(** Reading a file and the certificates of a PEM bundle. *)
Class CertificateFiles := {
  read_file : string → result string string;
  Certificate : Type;
  from_pem_bundle : string → result string (list Certificate);
}.

Section setup.
Context `{!UrlLib, !CertificateFiles}.

Definition is_loopback_host (host : string) : bool :=
  eq_ignore_ascii_case host "localhost"
  || match parse_ip_is_loopback host with Some b => b | None => false end.

Definition parse_jwks_url (url : Url) : result AuthorizationError Url :=
  let secure := String.eqb (url_scheme url) "https" in
  let local_http := String.eqb (url_scheme url) "http"
    && match url_host_str url with Some host => is_loopback_host host | None => false end in
  if negb secure && negb local_http then Err InsecureJwksUrl else Ok url.

Definition load_ca_certificates (path : string)
    : result AuthorizationError (list Certificate) :=
  pem ← map_err (ReadJwksCaCertificate path) (read_file path);
  certificates ← map_err (InvalidJwksCaCertificate path) (from_pem_bundle pem);
  match certificates with
  | [] => Err (EmptyJwksCaCertificate path)
  | _ => Ok certificates
  end.

(** The version of the workspace, which ends the user agent. *)
Definition CARGO_PKG_VERSION : string := "0.1.0".

(** What the code asks of [reqwest::Client::builder]; building it is the
    library's. *)
Record JwksClient : Type := {
  tls_backend_rustls : bool;
  connect_timeout : Duration;
  read_timeout : Duration;
  timeout : Duration;
  follow_redirects : bool;
  user_agent : string;
  tls_certs_only : option (list Certificate);
}.

Definition from_jwks_url (build : JwksClient → result string ()) (jwks_url : Url)
    (ca_cert_path : option string) : result AuthorizationError (JwksClient * Url) :=
  url ← parse_jwks_url jwks_url;
  certs ← match ca_cert_path with
          | Some path => c ← load_ca_certificates path; Ok (Some c)
          | None => Ok None
          end;
  let client := {| tls_backend_rustls := true;
                   connect_timeout := 5 * 10 ^ 9; read_timeout := 5 * 10 ^ 9;
                   timeout := 10 * 10 ^ 9; follow_redirects := false;
                   user_agent := "mcp-ops/" +:+ CARGO_PKG_VERSION;
                   tls_certs_only := certs |} in
  _ ← map_err JwksRequest (build client);
  Ok (client, url).
End setup.

(** ** Fetching is bounded *)

Section fetching.

Definition concat_strings (l : list string) : string := foldr (λ a b, a +:+ b) EmptyString l.

Lemma read_chunks_ok cs : ∀ body body',
  slen body ≤ JWKS_MAX_RESPONSE_BYTES →
  foldM read_chunk cs body = Ok body' ↔
  ∃ parts, cs = Ok <$> parts ∧ body' = body +:+ concat_strings parts ∧
    slen body' ≤ JWKS_MAX_RESPONSE_BYTES.
Proof.
  induction cs as [|c cs IH]; intros body body' Hlen; cbn [foldM].
  - split; [intros [= <-]; exists []; by rewrite app_empty_r|].
    intros ([|] & [=] & -> & _). by rewrite app_empty_r.
  - rewrite result_bind_ok. unfold read_chunk at 1. pose proof (slen_nonneg body).
    destruct c as [c|e]; [|split; [by intros (?&?&?)|by intros ([|] & [=] & _)]].
    cbn [map_err mbind result_bind]. destruct (_ <? _) eqn:Hfit.
    + apply Z.ltb_lt in Hfit. split; [by intros (? & ? & _)|].
      intros ([|c' parts] & [=] & -> & Hle); simplify_eq/=.
      rewrite !slen_app in Hle. pose proof (slen_nonneg (concat_strings parts)). lia.
    + apply Z.ltb_ge in Hfit. split.
      * intros (b & [= <-] & Hl). apply IH in Hl as (parts & -> & -> & Hle); [|rewrite slen_app; lia].
        exists (c :: parts). split_and!; [done| |done].
        unfold concat_strings; cbn [foldr]. by rewrite app_assoc_s.
      * intros ([|c' parts] & [=] & -> & Hle); simplify_eq/=. eexists; split; [done|].
        apply IH; [rewrite slen_app; lia|]. exists parts.
        split_and!; [done|by rewrite app_assoc_s|done].
Qed.

Lemma read_body_ok response body :
  read_body response = Ok body ↔
  (∀ n, content_length response = Some n → n ≤ JWKS_MAX_RESPONSE_BYTES) ∧
  ∃ parts, chunks response = Ok <$> parts ∧ body = concat_strings parts ∧
    slen body ≤ JWKS_MAX_RESPONSE_BYTES.
Proof.
  unfold read_body.
  destruct (match content_length response with Some _ => _ | None => _ end) eqn:Hl.
  - split; [done|]. intros [Hn _]. destruct (content_length response); [|done].
    apply Z.ltb_lt in Hl. specialize (Hn _ eq_refl). lia.
  - rewrite read_chunks_ok by done. split.
    + intros (parts & -> & -> & ?). split; [|by exists parts].
      intros n Hn. rewrite Hn in Hl. by apply Z.ltb_ge in Hl.
    + intros (_ & parts & -> & -> & ?). by exists parts.
Qed.

(** The body of a JWKS response is read exactly when its announced
    length, if any, and its actual length are at most one MiB and the stream does
    not break; what is read is all the chunks in order. *)
Theorem read_body_exact response body :
  read_body response = Ok body ↔
  (∀ n, content_length response = Some n → n ≤ JWKS_MAX_RESPONSE_BYTES) ∧
  ∃ parts, chunks response = Ok <$> parts ∧ body = concat_strings parts ∧
    slen body ≤ JWKS_MAX_RESPONSE_BYTES.
Proof. apply read_body_ok. Qed.
End fetching.

(** ** Which tokens are accepted *)

Section soundness.
Context `{!JwtLib, !JwtDecode, !LruLib, !LruLibLaws} {W : Type} `{!HttpClient W}.

(** The key set the server at [url] has for a request made in the state [w] of the
    network: what the body of its successful and complete response says, if that is
    no longer than a key set may be. *)
Definition published (url : Url) (w : W) (jwks : list Jwk) : Prop :=
  ∃ response w' parts, http_get url w = (Ok response, w') ∧
    ¬ (400 ≤ http_status response < 600) ∧
    (∀ n, content_length response = Some n → n ≤ JWKS_MAX_RESPONSE_BYTES) ∧
    chunks response = Ok <$> parts ∧ slen (concat_strings parts) ≤ JWKS_MAX_RESPONSE_BYTES ∧
    parse_jwk_set (concat_strings parts) = Ok jwks.

(** Where a verification key comes from: a key meant for checking signatures, of
    an asymmetric family, in a key set published at [url] when it was [asked] for. *)
Record trusted (url : Url) (asked : W → Prop) (key : VerificationKey) : Prop := {
  trusted_origin : ∃ w jwks jwk, asked w ∧ published url w jwks ∧ jwk ∈ jwks ∧
    decoding_key_from_jwk jwk = Ok (decoding_key key) ∧ jwk_key_id jwk = key_id key ∧
    (∀ u, jwk_public_key_use jwk = Some u → u = Signature) ∧
    (∀ ops, jwk_key_operations jwk = Some ops → Verify ∈ ops);
  trusted_family : key_family (decoding_key key) = FamilyRsa ∨
                   key_family (decoding_key key) = FamilyEc;
}.
Lemma trusted_mono url (asked asked' : W → Prop) key :
  (∀ w, asked w → asked' w) → trusted url asked key → trusted url asked' key.
Proof. intros Hsub [(w & jwks & jwk & Hw & Hk) Hf]. split; [|done]. exists w, jwks, jwk. auto. Qed.

Definition keys_trusted (url : Url) (asked : W → Prop) (self : Jwks) : Prop :=
  jwks_url self = url ∧
  ∀ k keys, lru_holds (jwks_cache self) k keys → Forall (trusted url asked) keys.

Lemma from_jwk_Some jwk key :
  from_jwk jwk = Ok (Some key) →
  decoding_key_from_jwk jwk = Ok (decoding_key key) ∧ jwk_key_id jwk = key_id key ∧
  (∀ u, jwk_public_key_use jwk = Some u → u = Signature) ∧
  (∀ ops, jwk_key_operations jwk = Some ops → Verify ∈ ops) ∧
  (key_family (decoding_key key) = FamilyRsa ∨ key_family (decoding_key key) = FamilyEc).
Proof.
  unfold from_jwk. destruct (_ || _) eqn:Huse; [done|].
  apply orb_false_iff in Huse as [Hu Ho].
  destruct (decoding_key_from_jwk jwk) as [dk|]; [|done]. cbn [map_err mbind result_bind].
  destruct (negb _) eqn:Hfam; [done|]. intros [= <-]. cbn.
  apply negb_false_iff, orb_true_iff in Hfam. rewrite !bool_decide_eq_true in Hfam.
  split_and!; [done..| | |done].
  - intros u Hs. rewrite Hs in Hu. by apply negb_false_iff, bool_decide_eq_true in Hu.
  - intros ops Hs. rewrite Hs in Ho. by apply negb_false_iff, bool_decide_eq_true in Ho.
Qed.

Lemma validated_keys_trusted url (asked : W → Prop) w jwks keys :
  asked w → published url w jwks → validated_json_web_keys jwks = Ok keys →
  Forall (trusted url asked) keys.
Proof.
  intros Hw Hpub. unfold validated_json_web_keys. rewrite result_bind_ok.
  intros (keys' & Hfold & Hne). assert (keys' = keys) as -> by (destruct keys'; naive_solver).
  clear Hne.
  assert (∀ l acc out, l ⊆ jwks → Forall (trusted url asked) acc →
    foldM (λ keys jwk, key ← from_jwk jwk;
             Ok (match key with Some key => keys ++ [key] | None => keys end)) l acc = Ok out →
    Forall (trusted url asked) out) as Hloop.
  { induction l as [|j l IH]; intros acc out Hsub Hacc; cbn [foldM]; [by intros [= <-]|].
    rewrite result_bind_ok. intros (acc' & Hj & Hl).
    eapply (IH acc'); [set_solver| |done].
    apply result_bind_ok in Hj as (key & Hkey & [= <-]). destruct key as [key|]; [|done].
    apply Forall_app; split; [done|]. apply Forall_singleton.
    destruct (from_jwk_Some _ _ Hkey) as (? & ? & ? & ? & ?).
    split; [|done]. exists w, jwks, j. split_and!; try done. set_solver. }
  by eapply Hloop; [| |exact Hfold].
Qed.

Lemma fetch_jwks_trusted url (asked : W → Prop) w keys w' :
  asked w → fetch_jwks url w = (Ok keys, w') → Forall (trusted url asked) keys.
Proof.
  intros Hw. unfold fetch_jwks. destruct (http_get url w) as [response w1] eqn:Hget.
  intros [= Hr _]. apply result_bind_ok in Hr as (r & Hstatus & Hr).
  apply result_bind_ok in Hr as (body & Hbody & Hr).
  apply result_bind_ok in Hr as (jwks & Hparse & Hr).
  assert (response = Ok r ∧ ¬ (400 ≤ http_status r < 600)) as [-> Hok].
  { destruct response as [r0|]; [|done]. cbn in Hstatus. unfold error_for_status in Hstatus.
    destruct (_ && _) eqn:Hb; [done|]. injection Hstatus as ->. split; [done|].
    rewrite andb_false_iff, Z.leb_gt, Z.ltb_ge in Hb. lia. }
  assert (published url w jwks) as Hpub.
  { apply read_body_ok in Hbody as (Hlen & parts & Hc & -> & Hle).
    exists r, w1, parts. split_and!; try done. by destruct (parse_jwk_set _); simplify_eq/=. }
  destruct jwks as [|j js]; [by simplify_eq/=|]. by eapply validated_keys_trusted.
Qed.

Lemma validate_with_keys_Some keys token header v claims :
  validate_with_keys keys token header v = Some claims →
  ∃ key, key ∈ keys ∧ matches key header = true ∧
    decode token (decoding_key key) v = Some (claims_value claims).
Proof.
  unfold validate_with_keys. rewrite find_map_Some.
  intros (before & key & after & Hf & Hk & _). exists key.
  assert (key ∈ filter (λ key, matches key header = true) keys) as Hin by (rewrite Hf; set_solver).
  apply list_elem_of_filter in Hin as [? ?]. split_and!; [done..|].
  unfold validate_and_decode_claims in Hk. by destruct (decode _ _ _); simplify_eq/=.
Qed.

(** What is known of an accepted token. *)
Definition verified (asked : W → Prop) (self : Jwks) (token : string) (claims : AuthorizationClaims)
    : Prop :=
  ∃ header key, decode_header token = Some header ∧ trusted (jwks_url self) asked key ∧
    key_family (decoding_key key) = alg_family (alg header) ∧
    (∀ h k, kid header = Some h → key_id key = Some k → h = k) ∧
    decode token (decoding_key key) (validation self (alg header)) = Some (claims_value claims).

Lemma matches_true key header :
  matches key header = true →
  key_family (decoding_key key) = alg_family (alg header) ∧
  (∀ h k, kid header = Some h → key_id key = Some k → h = k).
Proof.
  unfold matches. rewrite andb_true_iff, bool_decide_eq_true. intros [? Hk]. split; [done|].
  intros h k Hh Hkk. rewrite Hh, Hkk in Hk. by apply String.eqb_eq in Hk.
Qed.

Lemma validate_with_keys_verified asked self keys token header c :
  Forall (trusted (jwks_url self) asked) keys → decode_header token = Some header →
  validate_with_keys keys token header (validation self (alg header)) = Some c →
  verified asked self token c.
Proof.
  intros Hkeys Hh (key & Hin & Hm & Hd)%validate_with_keys_Some.
  rewrite Forall_forall in Hkeys. apply matches_true in Hm as [? ?].
  exists header, key. split_and!; auto.
Qed.
Lemma validate_cached_verified url asked now self token header c :
  keys_trusted url asked self → decode_header token = Some header →
  validate_cached now token header self = Some (Some c) → verified asked self token c.
Proof.
  intros [Hurl Hinv] Hh. unfold validate_cached.
  destruct (lru_peek _ _ _) as [keys|] eqn:Hpeek; [|done].
  destruct (existsb _ _); [|done]. intros [= Hc]. subst url.
  by eapply validate_with_keys_verified; [eapply Hinv, lru_holds_peek| |].
Qed.
Lemma set_keys_trusted url asked now keys self :
  Forall (trusted url asked) keys → keys_trusted url asked self →
  keys_trusted url asked (set_keys now keys self).
Proof.
  intros Hkeys [Hurl Hinv]. split; [exact Hurl|].
  intros k ks [[-> ->]|[_ Hk]]%lru_holds_insert; [done|by eapply Hinv].
Qed.
Lemma new_keys_trusted url asked : keys_trusted url asked (Jwks_new url).
Proof. split; [done|]. intros k keys Hk. by apply lru_holds_new in Hk. Qed.

Lemma validate_verified url (asked : W → Prop) now token header self w claims self' w' :
  keys_trusted url asked self → asked w → decode_header token = Some header →
  validate now token header (self, w) = (claims, (self', w')) →
  keys_trusted url asked self' ∧ validation self' = validation self ∧
  ∀ c, claims = Some c → verified asked self token c.
Proof.
  intros Hinv Hw Hheader. unfold validate.
  destruct (validate_cached now token header self) as [cached|] eqn:Hcached.
  { intros [= <- <- _]. split_and!; [done..|]. intros c ->. by eapply validate_cached_verified. }
  destruct (fetch_jwks (jwks_url self) w) as [[fetched|] w1] eqn:Hfetch;
    intros [= <- <- _]; [|by split_and!].
  eapply fetch_jwks_trusted in Hfetch; [|exact Hw].
  split_and!; [|done|].
  - apply set_keys_trusted; [|done]. by destruct Hinv as [<- _].
  - intros c Hc. by eapply validate_with_keys_verified.
Qed.

Lemma jwt_authorize_verified url (asked : W → Prop) now h self w claims self' w' :
  keys_trusted url asked self → asked w → jwt_authorize now h (self, w) = (claims, (self', w')) →
  keys_trusted url asked self' ∧ validation self' = validation self ∧
  ∀ c, claims = Some c → ∃ token, h = "Bearer " +:+ token ∧ verified asked self token c.
Proof.
  intros Hinv Hw. unfold jwt_authorize, authorize_token.
  destruct (strip_prefix "Bearer " h) as [token|] eqn:Hs; [|by intros [= <- <- <-]].
  destruct (utf8_valid token); [|by intros [= <- <- <-]].
  destruct (decode_header token) as [header|] eqn:Hh; [|by intros [= <- <- <-]].
  intros Hv. destruct (validate_verified _ _ _ _ _ _ _ _ _ _ Hinv Hw Hh Hv) as (? & ? & Hc).
  split_and!; [done..|]. intros c Hcl. exists token.
  split; [by apply strip_prefix_Some|by apply Hc].
Qed.

(** A run of the service: the requests it saw, with their times. *)
Definition serve (requests : list (Instant * HeaderValue)) (s : Jwks * W) : Jwks * W :=
  foldl (λ s r, (jwt_authorize r.1 r.2 s).2) s requests.
(** The states of the network in which a request of the run, or the next one, was
    handled. *)
Definition network_states (requests : list (Instant * HeaderValue)) (s : Jwks * W) (w : W) : Prop :=
  ∃ before, before `prefix_of` requests ∧ w = (serve before s).2.

Lemma network_states_cons r requests s w :
  network_states requests (jwt_authorize r.1 r.2 s).2 w → network_states (r :: requests) s w.
Proof. intros (before & Hp & ->). exists (r :: before). split; [by apply prefix_cons|done]. Qed.
Lemma network_states_now requests s : network_states requests s s.2.
Proof. exists []. split; [apply prefix_nil|done]. Qed.
Lemma network_states_end requests s : network_states requests s (serve requests s).2.
Proof. by exists requests. Qed.

Lemma serve_trusted url (asked : W → Prop) requests : ∀ self w self' w',
  keys_trusted url asked self → (∀ w1, network_states requests (self, w) w1 → asked w1) →
  serve requests (self, w) = (self', w') →
  keys_trusted url asked self' ∧ validation self' = validation self.
Proof.
  induction requests as [|[t h] rs IH]; intros self w self' w' Hinv Hasked; cbn [serve foldl].
  { by intros [= <- _]. }
  pose proof (network_states_cons (t, h) rs (self, w)) as Hcons. cbn [fst snd] in Hcons |- *.
  destruct (jwt_authorize t h (self, w)) as [claims [self1 w1]] eqn:Ha. cbn [snd] in Hcons |- *.
  destruct (jwt_authorize_verified url asked _ _ _ _ _ _ _ Hinv
              (Hasked _ (network_states_now _ (self, w))) Ha) as (Hinv1 & Hv1 & _).
  intros Hs. destruct (IH self1 w1 self' w' Hinv1) as [? Hv]; [auto|exact Hs|]. by rewrite Hv, Hv1.
Qed.

(** C3: after any run of the service, whatever the key server answered, a
    token is accepted only as a bearer token whose signature and claims the JWT
    library verified, expiry and not-before checked, with an RSA or EC signature
    key of the very algorithm family the token names and with its key id when both
    have one; and that key was in the key set, of at most one MiB, that the
    configured URL served with success to a request made while this token or an
    earlier one was handled.  No token is ever verified with a symmetric key, with
    one it brings along, or with one from elsewhere. *)
Theorem jwt_authorize_sound url requests w0 self w now h claims s'
    (Hrun : serve requests (Jwks_new url, w0) = (self, w))
    (Haccept : jwt_authorize now h (self, w) = (Some claims, s')) :
  ∃ token header key, h = "Bearer " +:+ token ∧ decode_header token = Some header ∧
    trusted url (network_states requests (Jwks_new url, w0)) key ∧
    key_family (decoding_key key) = alg_family (alg header) ∧
    (∀ i k, kid header = Some i → key_id key = Some k → i = k) ∧
    decode token (decoding_key key)
      {| validation_algorithm := alg header; required_spec_claims := [];
         validate_aud := false; validate_exp := true; validate_nbf := true |}
    = Some (claims_value claims).
Proof.
  set (asked := network_states requests (Jwks_new url, w0)).
  destruct (serve_trusted url asked _ _ _ _ _ (new_keys_trusted url asked) (λ _ H, H) Hrun) as [Hinv Hv].
  destruct s' as [self' w'].
  assert (asked w) as Hw.
  { pose proof (network_states_end requests (Jwks_new url, w0)) as Hw. by rewrite Hrun in Hw. }
  destruct (jwt_authorize_verified _ _ _ _ _ _ _ _ _ Hinv Hw Haccept) as (_ & _ & Hc).
  destruct (Hc claims eq_refl) as (token & -> & header & key & ? & Ht & ? & ? & Hd).
  rewrite Hv in Hd. destruct Hinv as [Hurl _]. rewrite Hurl in Ht. by exists token, header, key.
Qed.
End soundness.

Section transport.
Context `{!UrlLib, !CertificateFiles}.

(** C34: the service can be set up only for an https URL, or for an http URL
    whose host is localhost or a loopback address; its client never follows a
    redirect, always has time limits, and with a CA bundle configured trusts
    exactly the certificates of that bundle, of which there is at least one. *)
Theorem from_jwks_url_secure build jwks_url ca client url
    (Hsetup : from_jwks_url build jwks_url ca = Ok (client, url)) :
  url = jwks_url ∧
  (url_scheme url = "https" ∨
   (url_scheme url = "http" ∧ ∃ host, url_host_str url = Some host ∧
      (eq_ignore_ascii_case host "localhost" = true ∨ parse_ip_is_loopback host = Some true))) ∧
  follow_redirects client = false ∧ timeout client = 10 * 10 ^ 9 ∧
  match ca with
  | None => tls_certs_only client = None
  | Some path => ∃ pem certs, read_file path = Ok pem ∧ from_pem_bundle pem = Ok certs ∧
      certs ≠ [] ∧ tls_certs_only client = Some certs
  end.
Proof.
  unfold from_jwks_url in Hsetup.
  apply result_bind_ok in Hsetup as (url' & Hurl & Hsetup).
  apply result_bind_ok in Hsetup as (certs & Hcerts & Hsetup).
  apply result_bind_ok in Hsetup as ([] & _ & [= <- <-]).
  unfold parse_jwks_url in Hurl. destruct (_ && _) eqn:Hsec in Hurl; simplify_eq.
  split; [done|]. split; [|split_and!; [done..|]].
  - apply andb_false_iff in Hsec as [Hsec|Hsec]; apply negb_false_iff in Hsec.
    { left. by apply String.eqb_eq. }
    right. apply andb_true_iff in Hsec as [Hs Hl]. split; [by apply String.eqb_eq|].
    destruct (url_host_str url') as [host|]; [|done]. exists host. split; [done|].
    unfold is_loopback_host in Hl. apply orb_true_iff in Hl as [?|Hl]; [by left|right].
    by destruct (parse_ip_is_loopback host) as [[]|].
  - destruct ca as [path|]; [|by simplify_eq/=].
    apply result_bind_ok in Hcerts as (c & Hc & [= <-]).
    unfold load_ca_certificates in Hc.
    destruct (read_file path) as [pem|]; simplify_eq/=.
    destruct (from_pem_bundle pem) as [cs|] eqn:?; simplify_eq/=.
    destruct cs; simplify_eq/=. by eexists _, _.
Qed.
End transport.

(** ** A concrete key server

    One RSA key published under a body "keys", and a token "tok" it signed. *)

Module ConcreteJwt.
#[export] Instance jwt_lib : JwtLib := {|
  Algorithm := string; AlgorithmFamily := string; FamilyRsa := "RSA"; FamilyEc := "EC";
  alg_family a := if String.eqb a "RS256" then "RSA" else "HMAC";
  DecodingKey := string * string; key_family := fst;
  PublicKeyUse := string; Signature := "sig"; KeyOperations := string; Verify := "verify";
  Jwk := string * (string * string);
  jwk_public_key_use _ := Some "sig"; jwk_key_operations _ := None;
  jwk_key_id j := Some j.1; decoding_key_from_jwk j := Ok j.2;
  parse_jwk_set body :=
    if String.eqb body "keys" then Ok [("k1", ("RSA", "good"))] else Err "parse";
|}.
#[export] Instance jwt_decode : JwtDecode := {|
  decode_header t :=
    if String.eqb t "tok" then Some {| alg := "RS256" : Algorithm; kid := Some "k1" |} else None;
  decode t key v :=
    if String.eqb t "tok" && String.eqb (key : string * string).2 "good"
    then Some (JObject [("sub", JString "alice")]) else None;
  default_required_claims := ["exp"];
|}.
(** The key server answers every request alike and counts them. *)
#[export] Instance key_server : HttpClient Z := {|
  http_get _ n :=
    (Ok {| http_status := 200; content_length := Some 4; chunks := [Ok "ke"; Ok "ys"] |}, n + 1);
|}.
#[export] Instance url_lib : UrlLib := {|
  url_scheme u := if starts_with "https:" u then "https" else "http";
  url_host_str u := if starts_with "http://127.0.0.1" u then Some "127.0.0.1" else Some "example.com";
  url_origin_ascii u := u;
  parse_ip_is_loopback h := if String.eqb h "127.0.0.1" then Some true else None;
|}.
#[export] Instance certificate_files : CertificateFiles := {|
  read_file p := if String.eqb p "ca.pem" then Ok "PEM" else Err "missing";
  Certificate := string;
  from_pem_bundle pem := if String.eqb pem "PEM" then Ok ["cert"] else Ok [];
|}.
End ConcreteJwt.

Import ConcreteStore ConcreteJwt.

Definition served : Jwks * Z := (jwt_authorize 0 "Bearer tok" (Jwks_new "https://keys", 0)).2.

Lemma jwt_authorize_sound_witness :
  (** the second request is answered from the cache *)
  served.2 = 1 ∧ (jwt_authorize 1 "Bearer tok" served).2.2 = 1 ∧
  ∃ token header key, "Bearer tok" = "Bearer " +:+ token ∧
    decode_header token = Some header ∧ key_family (decoding_key key) = "RSA" ∧
    trusted "https://keys" (network_states [(0, "Bearer tok")] (Jwks_new "https://keys", 0)) key.
Proof.
  split; [vm_compute; reflexivity|]. split; [vm_compute; reflexivity|].
  destruct (jwt_authorize_sound (W := Z) "https://keys" [(0, "Bearer tok")] 0 served.1 served.2 1
    "Bearer tok" {| claims_value := JObject [("sub", JString "alice")] |}
    (jwt_authorize 1 "Bearer tok" served).2) as (token & header & key & Ht & Hh & Htrusted & Hf & _).
  - vm_compute. reflexivity.
  - vm_compute. reflexivity.
  - exists token, header, key. split; [exact Ht|]. split; [exact Hh|]. split; [|exact Htrusted].
    rewrite Hf. revert Hh. cbn. destruct (String.eqb token "tok"); [|discriminate].
    intros [= <-]. reflexivity.
Defined.

Lemma from_jwks_url_secure_witness :
  from_jwks_url (λ _, Ok ()) "http://127.0.0.1:8080/jwks" (Some "ca.pem") =
    Ok ({| tls_backend_rustls := true; connect_timeout := 5 * 10 ^ 9; read_timeout := 5 * 10 ^ 9;
           timeout := 10 * 10 ^ 9;
           follow_redirects := false; user_agent := "mcp-ops/0.1.0"; tls_certs_only := Some ["cert"] |},
        "http://127.0.0.1:8080/jwks") ∧
  from_jwks_url (λ _, Ok ()) "http://keys/jwks" None = Err InsecureJwksUrl ∧
  is_loopback_host "127.0.0.1" = true.
Proof.
  assert (from_jwks_url (λ _, Ok ()) "http://127.0.0.1:8080/jwks" (Some "ca.pem") =
    Ok ({| tls_backend_rustls := true; connect_timeout := 5 * 10 ^ 9; read_timeout := 5 * 10 ^ 9;
           timeout := 10 * 10 ^ 9;
           follow_redirects := false; user_agent := "mcp-ops/0.1.0"; tls_certs_only := Some ["cert" : Certificate] |},
        "http://127.0.0.1:8080/jwks")) as H by (vm_compute; reflexivity).
  split; [exact H|]. split; [vm_compute; reflexivity|].
  destruct (from_jwks_url_secure _ _ _ _ _ H) as (_ & [Hs|(_ & host & Hh & Hl)] & _).
  - vm_compute in Hs. discriminate.
  - vm_compute. reflexivity.
Defined.
