(* ===== verification/Rmcp.v ===== *)
(** * MCP model types ([rmcp::model])

    The error values and the parameters and results of the MCP calls the data
    plane routes, as far as its code names their fields and variants.  A field
    no code of the data plane looks at is part of an opaque rest. *)

From S2P Require Import Prelude HttpTypes.

(** [ErrorCode] is a number; the constants the code uses by name and any other. *)
Inductive ErrorCode : Type :=
| INTERNAL_ERROR | INVALID_REQUEST | INVALID_PARAMS | RESOURCE_NOT_FOUND | METHOD_NOT_FOUND
| HEADER_MISMATCH | OtherCode (code : Z).
Record ErrorData : Type := {
  error_code : ErrorCode;
  error_message : string;
  error_data : option Value;
}.
Definition error (code : ErrorCode) (message : string) : ErrorData :=
  {| error_code := code; error_message := message; error_data := None |}.

Definition invalid_params : string → ErrorData := error INVALID_PARAMS.
Definition invalid_request : string → ErrorData := error INVALID_REQUEST.
Definition internal_error : string → ErrorData := error INTERNAL_ERROR.
Definition header_mismatch : string → ErrorData := error HEADER_MISMATCH.

(** Opaque parts of the library's types. *)
Class RmcpTypes := {
  Annotations : Type;
  MetaObject : Type;
  ToolResultRest : Type;
  RequestRest : Type;
  OtherBlock : Type;
  LinkRest : Type;
}.

Inductive McpRole : Type := McpAssistant | McpUser.

(** [ResourceContents] and [ContentBlock] are non-exhaustive enums. *)
Inductive ResourceContents `{RmcpTypes} : Type :=
| TextResourceContents (uri : string) (mime_type : option string) (text : string)
    (meta : option MetaObject)
| BlobResourceContents (uri : string) (mime_type : option string) (blob : string)
    (meta : option MetaObject)
| OtherResourceContents (rest : OtherBlock).

Inductive ContentBlock `{RmcpTypes} : Type :=
| BText (text : string) (annotations : option Annotations) (meta : option MetaObject)
| BImage (data mime_type : string) (annotations : option Annotations) (meta : option MetaObject)
| BAudio (data mime_type : string) (annotations : option Annotations) (meta : option MetaObject)
| BResource (resource : ResourceContents) (annotations : option Annotations)
    (meta : option MetaObject)
| BResourceLink (uri name : string) (rest : option LinkRest)
| BOther (rest : OtherBlock).

Record PromptMessage `{RmcpTypes} : Type := { pm_role : McpRole; pm_content : ContentBlock }.

Record GetPromptResult `{RmcpTypes} : Type := {
  prompt_messages : list PromptMessage;
  prompt_rest : ToolResultRest;
}.

Record ReadResourceResult `{RmcpTypes} : Type := {
  contents : list ResourceContents;
  resource_rest : ToolResultRest;
}.

Record CallToolResult `{RmcpTypes} : Type := {
  tool_content : list ContentBlock;
  is_error : option bool;
  tool_rest : ToolResultRest;
}.

Record CallToolRequestParams `{RmcpTypes} : Type := {
  tool_request_name : string;
  tool_request_arguments : option JsonObject;
  tool_request_rest : RequestRest;
}.
Record GetPromptRequestParams `{RmcpTypes} : Type := {
  prompt_request_name : string;
  prompt_request_args : option JsonObject;
  prompt_request_rest : RequestRest;
}.
Record ReadResourceRequestParams `{RmcpTypes} : Type := {
  resource_request_uri : string;
  resource_request_rest : RequestRest;
}.

(** [Reference] of a completion request. *)
Inductive Reference `{RmcpTypes} : Type :=
| RefPrompt (name : string) (rest : RequestRest)
| RefResource (uri : string)
| RefOther (rest : RequestRest).
Record CompleteRequestParams `{RmcpTypes} : Type := {
  complete_ref : Reference;
  complete_rest : RequestRest;
}.

(** [rmcp::service::ServiceError]. *)
Inductive ServiceError : Type :=
| McpError (e : ErrorData)
| TransportClosed
| UnexpectedResponse
| Cancelled (reason : option string)
| OtherServiceError.

(** One opaque type for all of them, for witnesses. *)
Module ConcreteRmcp.
#[export] Instance rmcp_types : RmcpTypes := {|
  Annotations := string; MetaObject := string; ToolResultRest := string;
  RequestRest := string; OtherBlock := string; LinkRest := string |}.
End ConcreteRmcp.
