(* ===== verification/Layers.v ===== *)
(** * The middleware stack ([layers/], [lib.rs], [gateway/mcp_call_validator.rs])

    Every layer of the gateway's router as a transformer of request handlers
    over the state of the authorization service and the configuration store,
    composed in the order [Gateway::into_router] nests them.  The CORS layer,
    tracing, metrics and route matching around them are axum's and tower's. *)

From S2P Require Import Prelude HttpTypes Apis McpStandardHeaders HeaderLimits.
From S2P Require Import Rmcp ConfigStore Authorization.

(** A computation that may panic; the release profile then aborts the
    process. *)
Inductive outcome (A : Type) : Type :=
| Returns (a : A)
| Panics.
Arguments Returns {A} a.
Arguments Panics {A}.

#[export] Instance outcome_bind : MBind outcome := λ A B k m,
  match m with Returns a => k a | Panics => Panics end.

(** The types the layers put into a request's extensions. *)
Record Extensions : Type := {
  ext_virtual_host_id : option string;
  ext_claims : option AuthorizationClaims;
  ext_principal : option AuthorizedPrincipal;
  ext_user_config : option UserConfig;
}.

Record Request : Type := {
  request_path : string;
  request_headers : HeaderMap;
  extensions : Extensions;
}.

Definition with_extensions (e : Extensions) (r : Request) : Request :=
  {| request_path := request_path r; request_headers := request_headers r; extensions := e |}.
Definition insert_virtual_host_id (id : string) (r : Request) : Request :=
  with_extensions {| ext_virtual_host_id := Some id; ext_claims := ext_claims (extensions r);
                     ext_principal := ext_principal (extensions r);
                     ext_user_config := ext_user_config (extensions r) |} r.
Definition insert_claims (c : AuthorizationClaims) (r : Request) : Request :=
  with_extensions {| ext_virtual_host_id := ext_virtual_host_id (extensions r);
                     ext_claims := Some c; ext_principal := ext_principal (extensions r);
                     ext_user_config := ext_user_config (extensions r) |} r.
Definition insert_principal (p : AuthorizedPrincipal) (r : Request) : Request :=
  with_extensions {| ext_virtual_host_id := ext_virtual_host_id (extensions r);
                     ext_claims := ext_claims (extensions r); ext_principal := Some p;
                     ext_user_config := ext_user_config (extensions r) |} r.
Definition insert_user_config (c : UserConfig) (r : Request) : Request :=
  with_extensions {| ext_virtual_host_id := ext_virtual_host_id (extensions r);
                     ext_claims := ext_claims (extensions r);
                     ext_principal := ext_principal (extensions r);
                     ext_user_config := Some c |} r.

(** ** Virtual host ids *)

(** [&s[l1..l2]] on ASCII boundaries. *)
Definition str_slice (l1 l2 : Z) (s : string) : outcome string :=
  if (0 <=? l1) && (l1 <=? l2) && (l2 <=? slen s)
  then Returns (str_take (Z.to_nat (l2 - l1)) (str_drop (Z.to_nat l1) s)) else Panics.

Definition extract_virtual_host_id (path : string) : outcome (option string) :=
  if starts_with "/servers/" path then
    if ends_with "/mcp" path then
      let l1 := slen "/servers/" in
      let l2 := slen path - slen "/mcp" in
      vh ← str_slice l1 l2 path;
      Returns (Some vh)
    else Returns None
  else Returns None.

(** ** The layers *)

Definition SERVER_NOT_FOUND_BODY : string :=
  "{" +:+ String "034" "detail" +:+ String "034" ":" +:+ String "034" "Server not found"
  +:+ String "034" "}".

Definition server_not_found_response : Response := {|
  response_status := 404; response_content_type := "application/json";
  response_body := SERVER_NOT_FOUND_BODY |}.

Definition has_virtual_host (user_config : UserConfig) (id : string) : bool :=
  bool_decide (is_Some (virtual_hosts user_config !! id)).

Section layers.
Context `{!RmcpHeaders} {S : Type} `{!AuthorizationService S, !ConfigStore S User UserConfig}.
Context {E : Type} `{!PrincipalExtractor E}.

Definition Handler : Type := Request → S → outcome (Response * S).

Definition mcp_header_limits_layer (limits : StandardHeaderLimits) (next : Handler) : Handler :=
  λ request s,
    match exceeded_limits (request_headers request) limits with
    | Some _ => Returns (custom_error 431 "MCP standard header limits exceeded", s)
    | None => next request s
    end.

Definition virtual_host_id_layer (next : Handler) : Handler := λ request s,
  virtual_host_id ← extract_virtual_host_id (request_path request);
  match virtual_host_id with
  | Some virtual_host_id => next (insert_virtual_host_id virtual_host_id request) s
  | None => Returns (bad_request "Problem occured retrieving the configuration", s)
  end.

Definition claims_layer (next : Handler) : Handler := λ request s,
  match assoc_get (to_ascii_lowercase "Authorization") (request_headers request) with
  | None => Returns (unauthorized_response "No header", s)
  | Some authorization =>
      let '(claims, s) := authorize authorization s in
      match claims with
      | None => Returns (unauthorized_response "Invalid token", s)
      | Some claims => next (insert_claims claims request) s
      end
  end.

Definition principal_extractor_layer (principal_extractor : E) (next : Handler) : Handler :=
  λ request s,
    match ext_claims (extensions request) with
    | Some claims =>
        match extract principal_extractor (claims_value claims) with
        | Ok principal => next (insert_principal principal request) s
        | Err _ =>
            Returns (unauthorized_response
              "Invalid token. Unable to extract the principal from claims", s)
        end
    | None =>
        Returns (unauthorized_response
          "Invalid token. Unable to extract the principal from claims", s)
    end.

Definition user_config_store_layer (next : Handler) : Handler := λ request s,
  match ext_principal (extensions request) with
  | Some principal =>
      let user := user_of_principal principal in
      let '(r, s) := get_config user s in
      match r with
      | Ok user_config => next (insert_user_config user_config request) s
      | Err NoDataForKey =>
          Returns (bad_request "Problem occurred retrieving the configuration", s)
      | Err _ =>
          Returns (internal_server_error "Problem occurred retrieving the configuration", s)
      end
  | None => Returns (bad_request "No claims in the token", s)
  end.

Definition virtual_host_config_layer (next : Handler) : Handler := λ request s,
  match ext_virtual_host_id (extensions request), ext_user_config (extensions request) with
  | Some virtual_host_id, Some user_config =>
      if negb (has_virtual_host user_config virtual_host_id)
      then Returns (server_not_found_response, s)
      else next request s
  | _, _ => next request s
  end.

(** [Gateway::into_router]: each [layer] call wraps what is there. *)
Definition into_router (limits : StandardHeaderLimits) (extractor : E) (mcp_service : Handler)
    : Handler :=
  let app := virtual_host_config_layer mcp_service in
  let app := user_config_store_layer app in
  let app := principal_extractor_layer extractor app in
  let app := claims_layer app in
  let app := virtual_host_id_layer app in
  mcp_header_limits_layer limits app.
End layers.

(** ** The validator of every MCP call *)

(** [validate_stateless], on the extensions of the HTTP request parts, if the
    context has any. *)
Definition validate_stateless (parts : option Extensions)
    : result ErrorData (VirtualHost * AuthorizationClaims) :=
  let maybe_user_config := parts ≫= ext_user_config in
  let maybe_claims := parts ≫= ext_claims in
  let maybe_virtual_host_id := parts ≫= ext_virtual_host_id in
  user_config ← ok_or maybe_user_config
    (error INTERNAL_ERROR "Routing problem... user config not found");
  virtual_host_id ← ok_or maybe_virtual_host_id
    (error INTERNAL_ERROR "Routing problem... virtual host not known");
  virtual_host ← ok_or (virtual_hosts user_config !! virtual_host_id)
    (error RESOURCE_NOT_FOUND "No configuration");
  claims ← ok_or maybe_claims (error INTERNAL_ERROR "Routing problem... claims not found");
  Ok (virtual_host, claims).

(** ** Theorems *)

Lemma str_slice_middle p q s : str_slice (slen p) (slen p + slen q) (p +:+ q +:+ s) = Returns q.
Proof.
  unfold str_slice. rewrite !slen_app. pose proof (slen_nonneg p). pose proof (slen_nonneg q).
  pose proof (slen_nonneg s).
  destruct (_ && _) eqn:Hb; [|rewrite !andb_false_iff, !Z.leb_gt in Hb; lia].
  replace (slen p + slen q - slen p) with (slen q) by lia.
  unfold slen; rewrite !Nat2Z.id. by rewrite str_drop_app, str_take_app.
Qed.

Lemma server_path_cases path :
  starts_with "/servers/" path = true → ends_with "/mcp" path = true →
  path = "/servers/mcp" ∨ ∃ id, path = "/servers/" +:+ id +:+ "/mcp".
Proof.
  intros (q & ->)%starts_with_true (q' & Hq')%ends_with_true.
  destruct (Nat.lt_ge_cases (String.length q) 4) as [Hlt|Hge].
  - left. destruct q as [|a [|b [|c [|d q]]]]; [..|simpl in Hlt; lia].
    all: repeat (destruct q' as [|? q']; simplify_eq/=); done.
  - right. exists (str_take (String.length q - 4) q).
    pose proof (str_take_drop (String.length q - 4) q) as Hq.
    pose proof (length_str_drop (String.length q - 4) q) as Hlen.
    set (id := str_take _ q) in *. set (rest := str_drop _ q) in *.
    rewrite <- Hq, app_assoc_s in Hq'. apply app_string_inj_r in Hq' as [_ Hrest];
      [|simpl; lia].
    by rewrite <- Hq, Hrest.
Qed.

Lemma extract_server_path id :
  extract_virtual_host_id ("/servers/" +:+ id +:+ "/mcp") = Returns (Some id).
Proof.
  unfold extract_virtual_host_id.
  rewrite (proj2 (starts_with_true _ _)) by (by eexists).
  rewrite (proj2 (ends_with_true _ _)) by (exists ("/servers/" +:+ id); by rewrite app_assoc_s).
  replace (slen _ - slen "/mcp") with (slen "/servers/" + slen id) by (rewrite !slen_app; lia).
  by rewrite str_slice_middle.
Qed.

Lemma extract_virtual_host_id_sound path id :
  extract_virtual_host_id path = Returns (Some id) → path = "/servers/" +:+ id +:+ "/mcp".
Proof.
  intros Hx. unfold extract_virtual_host_id in Hx.
  destruct (starts_with _ path) eqn:Hs; [|done]. destruct (ends_with _ path) eqn:He; [|done].
  destruct (server_path_cases path Hs He) as [->|[id' ->]]; [done|].
  fold (extract_virtual_host_id ("/servers/" +:+ id' +:+ "/mcp")) in Hx.
  pose proof (extract_server_path id') as Hid.
  unfold extract_virtual_host_id in Hid. rewrite Hs, He in Hid. congruence.
Qed.

(** A path names a virtual host exactly when it is /servers/<id>/mcp, and
    the id is what stands between; on the one path /servers/mcp, where prefix and
    suffix share a slash, the extraction panics; every other path is refused. *)
Theorem extract_virtual_host_id_spec path :
  (∀ id, extract_virtual_host_id path = Returns (Some id) ↔
    path = "/servers/" +:+ id +:+ "/mcp") ∧
  (extract_virtual_host_id path = Panics ↔ path = "/servers/mcp").
Proof.
  destruct (starts_with "/servers/" path) eqn:Hs; [destruct (ends_with "/mcp" path) eqn:He|].
  - destruct (server_path_cases path Hs He) as [->|[id ->]].
    + split; [|done]. intros id. split; [done|].
      intros Hl%(f_equal String.length). rewrite !length_app_s in Hl. simpl in Hl. lia.
    + rewrite extract_server_path. split; [|split; [done|]].
      * intros id'. split; [by intros [= ->]|].
        intros Heq%app_string_inj_l. by apply app_string_inj_r in Heq as [-> _].
      * intros Hl%(f_equal String.length). rewrite !length_app_s in Hl. simpl in Hl. lia.
  - unfold extract_virtual_host_id. rewrite Hs, He. split; [intros id|]; split; try done;
      intros ->; [|done].
    rewrite (proj2 (ends_with_true _ _)) in He; [done|].
    exists ("/servers/" +:+ id); by rewrite app_assoc_s.
  - unfold extract_virtual_host_id. rewrite Hs. split; [intros id|]; split; try done;
      intros ->; [|done].
    rewrite (proj2 (starts_with_true _ _)) in Hs; [done|]. by eexists.
Qed.

Section stack.
Context `{!RmcpHeaders} {S : Type} `{!AuthorizationService S, !ConfigStore S User UserConfig}.
Context {E : Type} `{!PrincipalExtractor E}.

(** What the stack promises, as one straight-line computation: the extensions
    a request is admitted with, or the response it is refused with. *)
Definition admission (limits : StandardHeaderLimits) (extractor : E) (request : Request) (s : S)
    : outcome (result Response Extensions * S) :=
  match exceeded_limits (request_headers request) limits with
  | Some _ => Returns (Err (custom_error 431 "MCP standard header limits exceeded"), s)
  | None =>
      id ← extract_virtual_host_id (request_path request);
      match id with
      | None => Returns (Err (bad_request "Problem occured retrieving the configuration"), s)
      | Some id =>
          match assoc_get "authorization" (request_headers request) with
          | None => Returns (Err (unauthorized_response "No header"), s)
          | Some token =>
              let '(claims, s) := authorize token s in
              match claims with
              | None => Returns (Err (unauthorized_response "Invalid token"), s)
              | Some claims =>
                  match extract extractor (claims_value claims) with
                  | Err _ =>
                      Returns (Err (unauthorized_response
                        "Invalid token. Unable to extract the principal from claims"), s)
                  | Ok principal =>
                      let '(config, s) := get_config (User_new (user_id principal)) s in
                      match config with
                      | Err NoDataForKey =>
                          Returns (Err (bad_request
                            "Problem occurred retrieving the configuration"), s)
                      | Err _ =>
                          Returns (Err (internal_server_error
                            "Problem occurred retrieving the configuration"), s)
                      | Ok config =>
                          match virtual_hosts config !! id with
                          | None => Returns (Err server_not_found_response, s)
                          | Some _ =>
                              Returns (Ok {| ext_virtual_host_id := Some id;
                                             ext_claims := Some claims;
                                             ext_principal := Some principal;
                                             ext_user_config := Some config |}, s)
                          end
                      end
                  end
              end
          end
      end
  end.

Lemma into_router_admission limits extractor (mcp_service : Handler (S := S)) request s :
  into_router limits extractor mcp_service request s =
  (r ← admission limits extractor request s;
   match r with
   | (Ok e, s) => mcp_service (with_extensions e request) s
   | (Err response, s) => Returns (response, s)
   end).
Proof.
  unfold into_router, admission, mcp_header_limits_layer, virtual_host_id_layer, claims_layer,
    principal_extractor_layer, user_config_store_layer, virtual_host_config_layer.
  destruct (exceeded_limits _ _); [done|].
  destruct (extract_virtual_host_id _) as [[id|]|]; [|done|done].
  cbn [mbind outcome_bind request_headers insert_virtual_host_id with_extensions].
  change (to_ascii_lowercase "Authorization") with "authorization".
  destruct (assoc_get _ _) as [token|]; [|done].
  destruct (authorize token s) as [[claims|] s1]; [|done]. cbn [extensions ext_claims insert_claims
    with_extensions]. destruct (extract _ _) as [principal|]; [|done].
  cbn [extensions ext_principal insert_principal with_extensions]. unfold user_of_principal.
  destruct (get_config _ s1) as [[config|[]] s2]; try done.
  cbn. unfold has_virtual_host. by destruct (virtual_hosts config !! id).
Qed.

(** C1: the nested middleware stack is the straight-line admission followed by
    the MCP service: header limits, virtual host, token, principal, configuration
    and virtual host configuration are checked in this order, each refusal has
    the given status and leaves every later check undone (over-long headers cost
    neither a key fetch nor a configuration read), and the service sees the
    request with exactly the extensions of the admission. *)
Theorem into_router_refines_admission limits extractor (mcp_service : Handler (S := S)) request s :
  into_router limits extractor mcp_service request s =
  (r ← admission limits extractor request s;
   match r with
   | (Ok e, s) => mcp_service (with_extensions e request) s
   | (Err response, s) => Returns (response, s)
   end).
Proof. apply into_router_admission. Qed.

Lemma admission_validates limits extractor request s e s'
    (Hadmitted : admission limits extractor request s = Returns (Ok e, s')) :
  ∃ id token claims principal config vh,
    request_path request = "/servers/" +:+ id +:+ "/mcp" ∧
    assoc_get "authorization" (request_headers request) = Some token ∧
    (authorize token s).1 = Some claims ∧
    extract extractor (claims_value claims) = Ok principal ∧
    (get_config (User_new (user_id principal)) (authorize token s).2).1 = Ok config ∧
    virtual_hosts config !! id = Some vh ∧
    validate_stateless (Some e) = Ok (vh, claims) ∧
    s' = (get_config (User_new (user_id principal)) (authorize token s).2).2.
Proof.
  unfold admission in Hadmitted. destruct (exceeded_limits _ _); [done|].
  destruct (extract_virtual_host_id _) as [[id|]|] eqn:Hid; try done.
  apply extract_virtual_host_id_sound in Hid. cbn [mbind outcome_bind] in Hadmitted.
  destruct (assoc_get _ _) as [token|]; [|done].
  destruct (authorize token s) as [[claims|] s1] eqn:Ha; [|done].
  destruct (extract _ _) as [principal|] eqn:Hx; [|done].
  destruct (get_config _ s1) as [[config|[]] s2] eqn:Hg; try done.
  destruct (virtual_hosts config !! id) as [vh|] eqn:Hvh; [|done].
  injection Hadmitted as <- <-. exists id, token, claims, principal, config, vh.
  cbn. rewrite Ha; cbn. rewrite Hg. split_and!; try done. unfold validate_stateless; cbn.
  by rewrite Hvh.
Qed.

(** Behind the stack the validator of MCP calls cannot fail: on an admitted
    request it returns the virtual host the path names, from the configuration
    the store returned for the token's principal, and that token's claims. *)
Theorem admitted_request_validates limits extractor request s e s'
    (Hadmitted : admission limits extractor request s = Returns (Ok e, s')) :
  ∃ id token claims principal config vh,
    request_path request = "/servers/" +:+ id +:+ "/mcp" ∧
    assoc_get "authorization" (request_headers request) = Some token ∧
    (authorize token s).1 = Some claims ∧
    extract extractor (claims_value claims) = Ok principal ∧
    (get_config (User_new (user_id principal)) (authorize token s).2).1 = Ok config ∧
    virtual_hosts config !! id = Some vh ∧
    validate_stateless (Some e) = Ok (vh, claims).
Proof.
  destruct (admission_validates _ _ _ _ _ _ Hadmitted)
    as (id & token & claims & principal & config & vh & Hv).
  exists id, token, claims, principal, config, vh. tauto.
Qed.
End stack.

(** ** A concrete deployment

    One token, one principal, one configured virtual host. *)

Module ConcreteGateway.
#[export] Instance authorization : AuthorizationService () := {|
  authorize token s :=
    (if String.eqb token "Bearer tok"
     then Some {| claims_value := JObject [("sub", JString "alice"); ("tenant_id", JString "t")] |}
     else None, s) |}.
Definition empty_host : VirtualHost :=
  {| backends := ∅; tools := ∅; resources := ∅; resource_templates := ∅; prompts := ∅ |}.
#[export] Instance config_store : ConfigStore () User UserConfig := {|
  get_config u s :=
    (if String.eqb (user_key u) "alice"
     then Ok {| virtual_hosts := {["vh" := empty_host]} |} else Err NoDataForKey, s);
  set_config _ _ s := (Ok (), s) |}.
Definition request : Request := {|
  request_path := "/servers/vh/mcp";
  request_headers := [("authorization", "Bearer tok"); ("mcp-method", "tools/call")];
  extensions := {| ext_virtual_host_id := None; ext_claims := None; ext_principal := None;
                   ext_user_config := None |} |}.
End ConcreteGateway.

Import Concrete ConcreteGateway.

Lemma admitted_request_validates_witness :
  match admission (limits_from_config 0 0 0) Build_DefaultPrincipalExtractor request () with
  | Returns (Ok e, _) => ∃ vh claims, validate_stateless (Some e) = Ok (vh, claims)
  | _ => False
  end.
Proof.
  destruct (admission (limits_from_config 0 0 0) Build_DefaultPrincipalExtractor request ()) as [[[e|] s']|] eqn:E;
    [|revert E; vm_compute; discriminate..].
  destruct (admitted_request_validates _ _ _ _ _ _ E) as
    (id & token & claims & principal & config & vh & _ & _ & _ & _ & _ & _ & H).
  exists vh, claims. exact H.
Defined.
