(* ===== verification/UpstreamHeaders.v ===== *)
(** * Connecting a backend ([gateway/mcp_service/initialization.rs])

    The header map of an upstream connection: backend configuration applied over
    the gateway's own headers and the downstream request, and the parameters of
    the connection.  [add_headers] is a [HashMap]: the list of its entries in the
    order the map happens to iterate is an argument. *)

From S2P Require Import Prelude HttpTypes Apis McpStandardHeaders.

(** [HashMap<HeaderName, HeaderValue>]. *)
Abbreviation UpstreamHeaders := (gmap string string) (only parsing).

Definition PROTECTED : list string :=
  ["host"; "content-length"; "content-type"; "connection"; "keep-alive"; "proxy-authenticate";
   "proxy-authorization"; "te"; "trailer"; "trailers"; "transfer-encoding"; "upgrade";
   "proxy-connection"; "mcp-session-id"; "accept"; "last-event-id"].

Section headers.
Context `{!RmcpHeaders, !HttpLib}.

Definition is_protected_header (name : HeaderName) : bool :=
  existsb (λ p, eq_ignore_ascii_case name p) PROTECTED || is_computed name.

(** The bodies of the four loops. *)
Definition passthrough_step (downstream : HeaderMap) (headers : UpstreamHeaders) (name : string)
    : UpstreamHeaders :=
  match HeaderName_from_bytes name with
  | None => headers
  | Some name =>
      if is_protected_header name then headers else
      match assoc_get name downstream with
      | Some value => <[name := value]> headers
      | None => headers
      end
  end.

Definition forward_step (headers : UpstreamHeaders) (header : HeaderName * HeaderValue)
    : UpstreamHeaders :=
  if is_param header.1 then <[header.1 := header.2]> headers else headers.

Definition add_step (headers : UpstreamHeaders) (entry : string * string) : UpstreamHeaders :=
  match HeaderName_from_bytes entry.1, HeaderValue_from_str entry.2 with
  | Some name, Some value =>
      if is_protected_header name then headers else <[name := value]> headers
  | _, _ => headers
  end.

Definition remove_step (headers : UpstreamHeaders) (name : string) : UpstreamHeaders :=
  match HeaderName_from_bytes name with
  | None => headers
  | Some name => if is_protected_header name then headers else delete name headers
  end.

Definition apply_header_config (headers : UpstreamHeaders) (backend : BackendMCPGateway)
    (added : list (string * string)) (downstream : option HeaderMap) : UpstreamHeaders :=
  let headers :=
    match downstream with
    | Some downstream =>
        foldl forward_step
          (foldl (passthrough_step downstream) headers (passthrough_headers backend)) downstream
    | None => headers
    end in
  let headers := foldl add_step headers added in
  foldl remove_step headers (remove_headers backend).
End headers.

(** [url::Url] as far as the connection looks at it. *)
Class UrlParts := {
  upstream_scheme : Url → string;
  upstream_host_str : Url → option string;
  upstream_port : Url → option Z;
}.
(** [inject_current_context]: the trace context's headers, added last. *)
Class TraceContext := { inject_current_context : UpstreamHeaders → UpstreamHeaders }.

Record ConnectRequest : Type := {
  connect_uri : string;
  custom_headers : UpstreamHeaders;
  connect_protocol_version : ProtocolVersion;
  preferred_versions : list ProtocolVersion;
  legacy_version : option ProtocolVersion;
}.

Section connect.
Context `{!RmcpHeaders, !HttpLib, !UrlParts, !TraceContext}.

Definition host_header (backend : BackendMCPGateway) : UpstreamHeaders :=
  match upstream_host_str (url backend) with
  | Some host =>
      if String.eqb (upstream_scheme (url backend)) "https" then
        let authority :=
          match upstream_port (url backend) with
          | Some port => host +:+ ":" +:+ print_Z port
          | None => host
          end in
        match HeaderValue_from_str authority with
        | Some value => {["host" := value]}
        | None => ∅
        end
      else ∅
  | None => ∅
  end.

(** [connect_backend_for_request], up to the library call that connects. *)
Definition connect_request (backend : BackendMCPGateway) (added : list (string * string))
    (downstream_headers : option HeaderMap) : ConnectRequest :=
  let headers := apply_header_config (host_header backend) backend added downstream_headers in
  {| connect_uri := url backend;
     custom_headers := inject_current_context headers;
     connect_protocol_version := mcp_protocol_version backend;
     preferred_versions := [mcp_protocol_version backend];
     legacy_version := Some (mcp_protocol_version backend) |}.
End connect.

(** ** What ends up under a header name *)

Section lookup.
Context `{!RmcpHeaders, !HttpLib}.
Implicit Types (headers : UpstreamHeaders) (n : HeaderName).

(** The last downstream value of a parameter header. *)
Definition forwarded (downstream : HeaderMap) n : option HeaderValue :=
  if is_param n then last (assoc_get_all n downstream) else None.

Definition passed_through (backend : BackendMCPGateway) (downstream : HeaderMap) n : bool :=
  existsb (λ name, bool_decide (HeaderName_from_bytes name = Some n)) (passthrough_headers backend)
  && bool_decide (is_Some (assoc_get n downstream)).

(** The values the entries of [add_headers] give a name, in iteration order. *)
Definition added_values (added : list (string * string)) n : list HeaderValue :=
  omap (λ entry, name ← HeaderName_from_bytes entry.1; value ← HeaderValue_from_str entry.2;
                 if bool_decide (name = n) then Some value else None) added.

Definition removed (backend : BackendMCPGateway) n : bool :=
  existsb (λ name, bool_decide (HeaderName_from_bytes name = Some n)) (remove_headers backend).

Lemma passthrough_lookup names downstream n : ∀ headers,
  foldl (passthrough_step downstream) headers names !! n =
  (if is_protected_header n then headers !! n else
   if existsb (λ name, bool_decide (HeaderName_from_bytes name = Some n)) names
   then match assoc_get n downstream with Some v => Some v | None => headers !! n end
   else headers !! n).
Proof.
  induction names as [|name names IH]; intros headers; cbn [foldl existsb].
  { by destruct (is_protected_header n). }
  rewrite IH. unfold passthrough_step. destruct (HeaderName_from_bytes name) as [m|];
    [|by rewrite bool_decide_eq_false_2].
  destruct (decide (m = n)) as [->|Hne].
  - rewrite bool_decide_eq_true_2 by done. cbn [orb].
    destruct (is_protected_header n); [done|].
    destruct (assoc_get n downstream) as [v|]; rewrite ?lookup_insert_eq; by destruct (existsb _ _).
  - rewrite bool_decide_eq_false_2 by congruence. cbn [orb].
    destruct (is_protected_header m); [done|]. destruct (assoc_get m downstream); [|done].
    by rewrite lookup_insert_ne.
Qed.

Lemma forward_lookup downstream n : ∀ headers,
  foldl forward_step headers downstream !! n =
  match forwarded downstream n with Some v => Some v | None => headers !! n end.
Proof.
  unfold forwarded. induction downstream as [|[m v] hs IH]; intros headers; cbn [foldl].
  { by destruct (is_param n). }
  rewrite IH, assoc_get_all_cons. unfold forward_step; cbn [fst snd].
  destruct (is_param n) eqn:Hn.
  - case_decide as Hm; [subst m; rewrite Hn|].
    + rewrite last_cons, lookup_insert_eq. by destruct (last _).
    + destruct (is_param m); [|done]. by rewrite lookup_insert_ne.
  - destruct (is_param m) eqn:Hm; [|done]. rewrite lookup_insert_ne; [done|congruence].
Qed.

Lemma add_lookup added n : ∀ headers,
  foldl add_step headers added !! n =
  (if is_protected_header n then headers !! n else
   match last (added_values added n) with Some v => Some v | None => headers !! n end).
Proof.
  unfold added_values. induction added as [|[k x] added IH]; intros headers; cbn [foldl omap list_omap].
  { by destruct (is_protected_header n). }
  rewrite IH. unfold add_step; cbn [fst snd].
  destruct (HeaderName_from_bytes k) as [m|]; [|done]. cbn [mbind option_bind].
  destruct (HeaderValue_from_str x) as [v|]; [|done]. cbn [mbind option_bind].
  destruct (is_protected_header n) eqn:Hn.
  - destruct (is_protected_header m) eqn:Hm; [done|].
    rewrite lookup_insert_ne; [done|congruence].
  - case_bool_decide as Hm; [subst m; rewrite Hn|].
    + rewrite last_cons, lookup_insert_eq. by destruct (last _).
    + destruct (is_protected_header m); [done|]. by rewrite lookup_insert_ne.
Qed.

Lemma remove_lookup names n : ∀ headers,
  foldl remove_step headers names !! n =
  (if is_protected_header n then headers !! n else
   if existsb (λ name, bool_decide (HeaderName_from_bytes name = Some n)) names
   then None else headers !! n).
Proof.
  induction names as [|name names IH]; intros headers; cbn [foldl existsb].
  { by destruct (is_protected_header n). }
  rewrite IH. unfold remove_step. destruct (HeaderName_from_bytes name) as [m|];
    [|by rewrite bool_decide_eq_false_2].
  destruct (decide (m = n)) as [->|Hne].
  - rewrite bool_decide_eq_true_2 by done. cbn [orb].
    destruct (is_protected_header n); [done|]. rewrite lookup_delete_eq. by destruct (existsb _ _).
  - rewrite bool_decide_eq_false_2 by congruence. cbn [orb].
    destruct (is_protected_header m); [done|]. by rewrite lookup_delete_ne.
Qed.

Lemma param_protected n : is_param n = true → is_protected_header n = true.
Proof.
  intros Hp. unfold is_protected_header, is_computed. rewrite Hp. by rewrite !orb_true_r.
Qed.

Lemma upstream_header_lookup headers backend added downstream n :
  apply_header_config headers backend added downstream !! n =
  if is_protected_header n then
    match downstream ≫= (λ d, forwarded d n) with Some v => Some v | None => headers !! n end
  else if removed backend n then None
  else match last (added_values added n) with
       | Some v => Some v
       | None =>
           match (d ← downstream; if passed_through backend d n then assoc_get n d else None) with
           | Some v => Some v
           | None => headers !! n
           end
       end.
Proof.
  unfold apply_header_config. rewrite remove_lookup, add_lookup. fold (removed backend n).
  destruct downstream as [d|]; cbn [mbind option_bind]; [rewrite forward_lookup, passthrough_lookup|];
    [|by destruct (is_protected_header n)].
  unfold passed_through. destruct (is_protected_header n) eqn:Hn; [done|].
  destruct (removed backend n); [done|]. destruct (last (added_values added n)); [done|].
  assert (is_param n = false) as Hp.
  { destruct (is_param n) eqn:Hp; [|done]. apply param_protected in Hp. congruence. }
  unfold forwarded. rewrite Hp.
  destruct (existsb _ _), (assoc_get n d) eqn:Hd; cbn [andb];
    rewrite ?bool_decide_eq_true_2 by eauto; try done; by destruct (bool_decide _).
Qed.

(** C23: the upstream headers, name by name.  A protected name keeps what the
    gateway itself set, except that the parameter headers of the request are
    forwarded (the last value of each): no configuration reaches either.  Any
    other name is absent if the backend removes it, else has the value the
    configuration adds, else, if it is passed through and the request has it, the
    request's first value, else what the gateway set. *)
Theorem apply_header_config_lookup headers backend added downstream n :
  apply_header_config headers backend added downstream !! n =
  if is_protected_header n then
    match downstream ≫= (λ d, forwarded d n) with Some v => Some v | None => headers !! n end
  else if removed backend n then None
  else match last (added_values added n) with
       | Some v => Some v
       | None =>
           match (d ← downstream; if passed_through backend d n then assoc_get n d else None) with
           | Some v => Some v
           | None => headers !! n
           end
       end.
Proof. apply upstream_header_lookup. Qed.

(** [HashMap] iteration: any order of the map's entries. *)
Definition iteration_of (m : gmap string string) (entries : list (string * string)) : Prop :=
  entries ≡ₚ map_to_list m.

(** No two configured names differ only in case. *)
Definition unambiguous (m : gmap string string) : Prop :=
  ∀ k1 k2 v1 v2 n, m !! k1 = Some v1 → m !! k2 = Some v2 →
    HeaderName_from_bytes k1 = Some n → HeaderName_from_bytes k2 = Some n → k1 = k2.

Lemma added_values_unique m entries n v :
  iteration_of m entries → unambiguous m → v ∈ added_values entries n →
  added_values entries n = [v].
Proof.
  intros Hit Hun Hv. unfold added_values in *.
  assert (NoDup entries) as Hnd by (rewrite Hit; apply NoDup_map_to_list).
  assert (∀ k w, (k, w) ∈ entries → m !! k = Some w) as Hin.
  { intros k w Hkw. by rewrite <- elem_of_map_to_list, <- Hit. }
  clear Hit. revert Hnd Hin Hv.
  set (f := λ entry : string * string, _). intros Hnd Hin Hv.
  apply list_elem_of_omap in Hv as ([k w] & Hkw & Hf).
  apply list_elem_of_split in Hkw as (l1 & l2 & ->).
  assert (∀ e, e ∈ l1 ++ l2 → f e = None) as Hnone.
  { intros [k' w'] He. destruct (f (k', w')) as [v'|] eqn:Hf'; [exfalso|done].
    assert ((k', w') ∈ l1 ++ (k, w) :: l2) as He' by set_solver.
    assert (k' = k) as ->.
    { unfold f in Hf, Hf'; cbn [fst snd] in *.
      destruct (HeaderName_from_bytes k) as [n1|] eqn:Hn1; [|done].
      destruct (HeaderName_from_bytes k') as [n2|] eqn:Hn2; [|done]. cbn in Hf, Hf'.
      destruct (HeaderValue_from_str w); [|done]. destruct (HeaderValue_from_str w'); [|done].
      cbn in Hf, Hf'. case_bool_decide; [|done]. case_bool_decide; [|done]. subst.
      eapply (Hun k' k w' w n); [apply Hin; set_solver|apply Hin; set_solver|done..]. }
    assert (w' = w) as ->.
    { apply Hin in He'. assert (m !! k = Some w) by (apply Hin; set_solver). congruence. }
    apply NoDup_app in Hnd as (_ & Hd & Hnd2). apply NoDup_cons in Hnd2 as [Hn2 _].
    apply elem_of_app in He as [He|He]; [|done]. apply (Hd _ He). by left. }
  rewrite omap_app. cbn [omap list_omap]. rewrite Hf.
  assert (∀ l, (∀ e, e ∈ l → f e = None) → omap f l = []) as Hempty.
  { induction l as [|e l IH]; [done|]. intros Hl. cbn [omap list_omap].
    rewrite Hl by left. apply IH. set_solver. }
  rewrite !Hempty by set_solver. done.
Qed.

(** C40: the order in which the [HashMap] of added headers is iterated does not
    matter, unless the configuration has two names that differ only in case. *)
Theorem apply_header_config_order headers backend downstream e1 e2
    (Horder1 : iteration_of (add_headers backend) e1)
    (Horder2 : iteration_of (add_headers backend) e2)
    (Hunambiguous : unambiguous (add_headers backend)) :
  apply_header_config headers backend e1 downstream =
  apply_header_config headers backend e2 downstream.
Proof.
  apply map_eq. intros n. rewrite !upstream_header_lookup.
  assert (added_values e1 n = added_values e2 n) as ->; [|done].
  assert (added_values e1 n ≡ₚ added_values e2 n) as Hperm.
  { unfold added_values. apply omap_Permutation. by rewrite Horder1, Horder2. }
  destruct (added_values e1 n) as [|v l] eqn:H1.
  { by apply Permutation_nil_l in Hperm as ->. }
  rewrite <- H1 in *.
  assert (v ∈ added_values e1 n) as Hv1 by (rewrite H1; left).
  assert (v ∈ added_values e2 n) as Hv2 by (by rewrite <- Hperm).
  rewrite (added_values_unique _ _ _ v Horder1 Hunambiguous Hv1).
  by rewrite (added_values_unique _ _ _ v Horder2 Hunambiguous Hv2).
Qed.
End lookup.

(** ** A concrete backend *)

Import Concrete.

Definition example_backend : BackendMCPGateway := {|
  backend_display_name := "weather"; url := "https://weather/mcp";
  mcp_protocol_version := "2025-11-25";
  passthrough_headers := ["X-Trace"; "Host"];
  add_headers := {["X-A" := "1"; "Mcp-Param-Region" := "evil"]};
  remove_headers := ["X-Trace"; "mcp-method"];
  completion_config := ∅; tool_schemas := ∅ |}.

Definition example_downstream : HeaderMap :=
  [("x-trace", "t"); ("host", "attacker"); ("mcp-param-region", "eu"); ("mcp-param-region", "us")].

Lemma apply_header_config_order_witness :
  let e1 := [("X-A", "1"); ("Mcp-Param-Region", "evil")] in
  let e2 := [("Mcp-Param-Region", "evil"); ("X-A", "1")] in
  apply_header_config ∅ example_backend e1 (Some example_downstream) =
  apply_header_config ∅ example_backend e2 (Some example_downstream) ∧
  apply_header_config ∅ example_backend e1 (Some example_downstream) =
    {["x-a" := "1"; "mcp-param-region" := "us"]}.
Proof.
  intros e1 e2.
  assert (iteration_of (add_headers example_backend) e1 ∨
          iteration_of (add_headers example_backend) e2) as Hor.
  { unfold iteration_of. vm_compute. first [left; reflexivity|right; reflexivity]. }
  assert (e1 ≡ₚ e2) as Hperm by apply Permutation_swap.
  split.
  - apply apply_header_config_order.
    + unfold iteration_of in *. destruct Hor as [H|H]; [exact H|by rewrite Hperm].
    + unfold iteration_of in *. destruct Hor as [H|H]; [by rewrite <- Hperm|exact H].
    + intros k1 k2 v1 v2 n H1 H2. cbn [add_headers example_backend] in H1, H2.
      apply lookup_insert_Some in H1 as [[<- <-]|[_ H1]];
        [|apply lookup_singleton_Some in H1 as [<- <-]];
        (apply lookup_insert_Some in H2 as [[<- <-]|[_ H2]];
         [|apply lookup_singleton_Some in H2 as [<- <-]]);
        vm_compute; congruence.
  - vm_compute. reflexivity.
Defined.
