(* ===== verification/Cmf.v ===== *)
(** * CMF payloads ([contextforge-data-plane-cpex]: [cmf.rs], [hooks.rs], [error.rs])

    The plugin framework's message types as far as the gateway's literals and
    patterns show them, and the gateway's own envelopes, hook results and errors. *)

From S2P Require Import Prelude HttpTypes Rmcp.

(** ** [cpex::cpex_core::cmf] *)

Inductive Role : Type := RoleAssistant | RoleUser | RoleTool | RoleOther.
Inductive ResourceType : Type := RTUri | RTOther.

#[export] Instance Role_eq_dec : EqDecision Role.
Proof. solve_decision. Defined.

(** A [HashMap] of arguments: its entries in the order the map yields them. *)
Abbreviation Arguments := (list (string * Value)) (only parsing).

Record ToolCall : Type := {
  tool_call_id : string;
  tool_call_name : string;
  tool_call_args : Arguments;
  namespace : option string;
}.
Record ToolResult : Type := {
  result_tool_call_id : string;
  result_tool_name : string;
  result_content : Value;
  result_is_error : bool;
}.
Record PromptRequest : Type := {
  prompt_request_id : string;
  requested_name : string;
  requested_arguments : Arguments;
  server_id : option string;
}.
Record MediaSource : Type := {
  source_type : string;
  media_data : string;
  media_type : option string;
  duration_ms : option Z;
}.
Record CmfResource : Type := {
  resource_request_id : string;
  resource_uri : string;
  resource_name : option string;
  resource_description : option string;
  resource_type : ResourceType;
  resource_content : option string;
  resource_blob : option string;
  resource_mime_type : option string;
  resource_size_bytes : option Z;
  resource_annotations : Arguments;
  resource_version : option string;
}.
Record ResourceReference : Type := {
  ref_request_id : string;
  ref_uri : string;
  ref_name : option string;
  ref_type : ResourceType;
  range_start : option Z;
  range_end : option Z;
  selector : option string;
}.

Inductive ContentPart : Type :=
| PText (text : string)
| PImage (content : MediaSource)
| PAudio (content : MediaSource)
| PToolCall (content : ToolCall)
| PToolResult (content : ToolResult)
| PPromptRequest (content : PromptRequest)
| PPromptResult (prompt_request_id prompt_name : string) (messages : list Message)
    (content : option string) (is_error : bool) (error_message : option string)
| PResource (content : CmfResource)
| PResourceRef (content : ResourceReference)
| POther (tag : string)
with Message : Type :=
| MkMessage (schema_version : string) (role : Role) (content : list ContentPart)
    (channel : option string).

Definition message_role (m : Message) : Role := let '(MkMessage _ role _ _) := m in role.
Definition message_content (m : Message) : list ContentPart :=
  let '(MkMessage _ _ content _) := m in content.

(** [MessagePayload] wraps one message. *)
Abbreviation MessagePayload := Message (only parsing).

Record PromptResult : Type := {
  pr_request_id : string;
  pr_name : string;
  pr_messages : list Message;
  pr_content : option string;
  pr_is_error : bool;
  pr_error_message : option string;
}.

(** The accessors of [Message]. *)
Class CmfMessages := {
  get_prompt_requests : Message → list PromptRequest;
  get_prompt_results : Message → list PromptResult;
  get_tool_results : Message → list ToolResult;
  get_tool_calls : Message → list ToolCall;
  get_text_content : Message → string;
}.
(** A message of one part has that part, and no text unless it is a text. *)
Class CmfMessagesLaws `{CmfMessages} : Prop := {
  tool_results_singleton v role r c : get_tool_results (MkMessage v role [PToolResult r] c) = [r];
  text_content_singleton v role r c : get_text_content (MkMessage v role [PToolResult r] c) = "";
  prompt_requests_singleton v role r c :
    get_prompt_requests (MkMessage v role [PPromptRequest r] c) = [r];
  prompt_results_singleton v role id name ms content e err c :
    get_prompt_results (MkMessage v role [PPromptResult id name ms content e err] c) =
    [{| pr_request_id := id; pr_name := name; pr_messages := ms; pr_content := content;
        pr_is_error := e; pr_error_message := err |}];
  tool_calls_singleton v role t c : get_tool_calls (MkMessage v role [PToolCall t] c) = [t];
}.

Record Violation : Type := {
  violation_code : string;
  violation_plugin_name : option string;
  proto_error_code : option Z;
}.

(** [modified_payload] is of any payload type; only a message can be used. *)
Inductive PluginPayload : Type :=
| MessageOf (payload : MessagePayload)
| OtherPayload.

Record PipelineResult (Context : Type) : Type := {
  denied : bool;
  violation : option Violation;
  modified_payload : option PluginPayload;
  context_table : Context;
}.
Arguments denied {Context}.
Arguments violation {Context}.
Arguments modified_payload {Context}.
Arguments context_table {Context}.

(** Hook names and the schema version of the framework. *)
Class CmfConstants := {
  TOOL_PRE_INVOKE : string; TOOL_POST_INVOKE : string;
  PROMPT_PRE_FETCH : string; PROMPT_POST_FETCH : string;
  RESOURCE_PRE_FETCH : string; RESOURCE_POST_FETCH : string;
  SCHEMA_VERSION : string;
}.

(** ** [cmf.rs] *)

Inductive Operation : Type := OTool | OPrompt | OResource.
#[export] Instance Operation_eq_dec : EqDecision Operation.
Proof. solve_decision. Defined.

Definition Operation_ALL : list Operation := [OTool; OPrompt; OResource].

Definition hooks_of `{!CmfConstants} (operation : Operation) : string * string :=
  match operation with
  | OTool => (TOOL_PRE_INVOKE, TOOL_POST_INVOKE)
  | OPrompt => (PROMPT_PRE_FETCH, PROMPT_POST_FETCH)
  | OResource => (RESOURCE_PRE_FETCH, RESOURCE_POST_FETCH)
  end.

Definition subject (operation : Operation) : string :=
  match operation with OTool => "tool call" | OPrompt => "prompt" | OResource => "resource" end.

Definition id_prefix (operation : Operation) : string :=
  match operation with
  | OTool => "gateway-tool-call"
  | OPrompt => "gateway-prompt-request"
  | OResource => "gateway-resource-request"
  end.

(** The [CmfResponse] trait. *)
Class CmfResponse (T : Type) := {
  OPERATION : Operation;
  to_payload : T → string → string → result ErrorData MessagePayload;
  apply_payload : T → MessagePayload → string → string → result ErrorData T;
}.
Arguments OPERATION T {_}.

Definition message_payload `{!CmfConstants} (role : Role) (content : list ContentPart)
    : MessagePayload := MkMessage SCHEMA_VERSION role content None.

Definition modified_message_payload {Context} (result : PipelineResult Context)
    : option MessagePayload :=
  match modified_payload result with
  | Some (MessageOf payload) => Some payload
  | _ => None
  end.

Definition plugin_denied_error {Context} (subject : string) (result : PipelineResult Context)
    : ErrorData :=
  let code :=
    match (violation ← violation result; code ← proto_error_code violation; to_i32 code) with
    | Some code => OtherCode code
    | None => INVALID_REQUEST
    end in
  error code ("Plugin denied " +:+ subject).

(** ** [hooks.rs] *)

Inductive ArgumentsUpdate : Type :=
| Unchanged
| Replace (replacement : option JsonObject).

Definition from_modified (original : option JsonObject) (modified : JsonObject)
    : ArgumentsUpdate :=
  if match original with Some o => object_eqb o modified | None => false end
     || match original, modified with None, [] => true | _, _ => false end
  then Unchanged else Replace (Some modified).

Definition apply_to (update : ArgumentsUpdate) (arguments : option JsonObject)
    : option JsonObject :=
  match update with Replace replacement => replacement | Unchanged => arguments end.

Record PreHookResult (S : Type) : Type := { pre_arguments : ArgumentsUpdate; pre_state : option S }.
Arguments pre_arguments {S}.
Arguments pre_state {S}.

Definition PreHookResult_default {S} : PreHookResult S :=
  {| pre_arguments := Unchanged; pre_state := None |}.

(** ** [error.rs] *)

Inductive GatewayPluginRuntimeError : Type :=
| Configuration (hook source : string)
| Initialization (source : string)
| ConfigStoreUnavailable
| ConfigWrongFormat
| ConfigMissing
| ConfigUnsupported
| FactoryRegistryShared.

Definition runtime_error_to_string (e : GatewayPluginRuntimeError) : string :=
  match e with
  | Configuration hook _ => "failed to register runtime " +:+ hook +:+ " hook"
  | Initialization _ => "failed to initialize plugin runtime"
  | ConfigStoreUnavailable => "runtime plugin config store disconnected"
  | ConfigWrongFormat => "runtime plugin config is in wrong format"
  | ConfigMissing => "runtime plugin config is missing"
  | ConfigUnsupported => "runtime plugin config is unsupported"
  | FactoryRegistryShared => "runtime plugin factories are already shared"
  end.

(** ** Theorems on hook results *)

(** Values equal up to the order of members, as [serde_json] compares them. *)
Definition same_object (a b : JsonObject) : Prop := object_eqb a b = true.

(** An argument edit is never lost and never invented: after the update the
    call's arguments are the modified ones, unless those are (up to member order)
    the original ones or both are empty, and then the arguments are untouched. *)
Theorem arguments_update_spec original modified :
  apply_to (from_modified original modified) original = Some modified ∨
  (apply_to (from_modified original modified) original = original ∧
   match original with Some o => same_object o modified | None => modified = [] end).
Proof.
  unfold from_modified, same_object. destruct original as [o|].
  - rewrite orb_false_r. destruct (object_eqb o modified); [right|left]; done.
  - destruct modified; [right|left]; done.
Qed.
