(* ===== verification/CpexRuntime.v ===== *)
(** * The plugin runtime ([runtime.rs], [factory.rs])

    Which plugin configurations the gateway accepts, and the pre and post
    execution path every operation shares.  The plugin manager and the plugins
    behind it are a parameter: an invocation is a function of their state. *)

From S2P Require Import Prelude HttpTypes Rmcp Cmf.

(** [CpexConfig] as far as the gateway looks at it. *)
Record PluginConfig : Type := {
  plugin_name : string;
  plugin_kind : string;
  plugin_hooks : list string;
  plugin_conditions : list string;
}.
Record CpexConfig : Type := {
  routing_enabled : bool;
  fail_on_plugin_error : bool;
  routes : list string;
  plugin_dirs : list string;
  global_policies : list string;
  global_defaults : list string;
  plugins : list PluginConfig;
}.

(** [PluginManager], on the state [P] of its plugins. *)
Class CpexManager (P : Type) := {
  Manager : Type;
  Factories : Type;
  Context : Type;
  context_default : Context;
  manager_default : Manager;
  manager_from_config : CpexConfig → Factories → result string Manager;
  manager_initialize : Manager → P → result string () * P;
  invoke_named : Manager → string → MessagePayload → option Context → P →
                 PipelineResult Context * P;
}.

(** The process: its correlation counter and the plugins' state. *)
Record World (P : Type) : Type := { CORRELATION_ID : Z; plugin_state : P }.
Arguments CORRELATION_ID {P}.
Arguments plugin_state {P}.

Record HookPair : Type := { pre : bool; post : bool }.

Section factory.
Context `{!CmfConstants}.

Definition all_hooks : list string :=
  flat_map (λ operation, let '(a, b) := hooks_of operation in [a; b]) Operation_ALL.

Definition supported_cmf_hook_name (hook : string) : option string :=
  head (filter (λ name, name = hook) all_hooks).

(** [CmfPluginFactory::create]: the hooks a plugin gets a handler for. *)
Definition factory_create (config : PluginConfig) : result string (list string) :=
  match omap supported_cmf_hook_name (plugin_hooks config) with
  | [] => Err ("plugin '" +:+ plugin_name config +:+ "' does not declare supported CMF hooks")
  | handlers => Ok handlers
  end.

(** ** Accepted configurations *)

Definition declares (config : CpexConfig) (hook_name : string) : bool :=
  existsb (λ plugin, existsb (String.eqb hook_name) (plugin_hooks plugin)) (plugins config).

Definition is_empty {A} (l : list A) : bool := match l with [] => true | _ => false end.

Definition validate_plugin (plugin : PluginConfig) : result GatewayPluginRuntimeError () :=
  if negb (is_empty (plugin_conditions plugin)) then Err ConfigUnsupported else
  if existsb (λ hook, match supported_cmf_hook_name hook with None => true | Some _ => false end)
       (plugin_hooks plugin)
  then Err ConfigUnsupported else Ok ().

Definition validate_gateway_supported_config (config : CpexConfig)
    : result GatewayPluginRuntimeError () :=
  if routing_enabled config || fail_on_plugin_error config || negb (is_empty (routes config))
     || negb (is_empty (plugin_dirs config)) || negb (is_empty (global_policies config))
     || negb (is_empty (global_defaults config))
  then Err ConfigUnsupported
  else foldM (λ _ plugin, validate_plugin plugin) (plugins config) ().
End factory.

Section runtime.
Context `{!CmfConstants} {P : Type} `{!CpexManager P}.

(** [hooks] is indexed by the operation. *)
Record GatewayPluginRuntime : Type := {
  manager : Manager;
  hooks : Operation → HookPair;
}.

Definition GatewayPluginRuntime_default : GatewayPluginRuntime :=
  {| manager := manager_default; hooks _ := {| pre := false; post := false |} |}.

Definition from_config (config : CpexConfig) (factories : Factories) (w : World P)
    : result GatewayPluginRuntimeError GatewayPluginRuntime * World P :=
  match validate_gateway_supported_config config with
  | Err e => (Err e, w)
  | Ok _ =>
      let hooks operation :=
        let '(a, b) := hooks_of operation in
        {| pre := declares config a; post := declares config b |} in
      match manager_from_config config factories with
      | Err source => (Err (Configuration "config" source), w)
      | Ok manager =>
          let '(r, p) := manager_initialize manager (plugin_state w) in
          let w := {| CORRELATION_ID := CORRELATION_ID w; plugin_state := p |} in
          match r with
          | Err source => (Err (Initialization source), w)
          | Ok _ => (Ok {| manager := manager; hooks := hooks |}, w)
          end
      end
  end.

Record CallState : Type := {
  call_runtime : GatewayPluginRuntime;
  call_context : Context;
  call_name : string;
  call_id : string;
}.

Definition invoke (runtime : GatewayPluginRuntime) (hook : string) (payload : MessagePayload)
    (context : option Context) (w : World P) : PipelineResult Context * World P :=
  let '(result, p) := invoke_named (manager runtime) hook payload context (plugin_state w) in
  (result, {| CORRELATION_ID := CORRELATION_ID w; plugin_state := p |}).

(** [AtomicU64::fetch_add(1)]. *)
Definition next_correlation_id (w : World P) : Z * World P :=
  (CORRELATION_ID w,
   {| CORRELATION_ID := (CORRELATION_ID w + 1) mod 2 ^ 64; plugin_state := plugin_state w |}).

Definition correlation_name (operation : Operation) (n : Z) : string :=
  id_prefix operation +:+ "-" +:+ print_Z n.

(** [GatewayPluginRuntime::before]. *)
Definition before {U} (default : U) (self : GatewayPluginRuntime) (operation : Operation)
    (name : string) (payload : string → MessagePayload)
    (update : MessagePayload → string → result ErrorData U) (w : World P)
    : result ErrorData (U * option CallState) * World P :=
  let pair := hooks self operation in
  if negb (pre pair) && negb (post pair) then (Ok (default, None), w) else
  let '(n, w) := next_correlation_id w in
  let id := correlation_name operation n in
  let '(r, w) :=
    if pre pair then
      let '(res, w) := invoke self (hooks_of operation).1 (payload id) None w in
      (if denied res then Err (plugin_denied_error (subject operation) res) else
       updated ← match modified_message_payload res with
                 | Some payload => update payload id
                 | None => Ok default
                 end;
       Ok (updated, context_table res), w)
    else (Ok (default, context_default), w) in
  (updated_context ← r;
   let '(updated, context) := updated_context : U * Context in
   Ok (updated,
       if post pair
       then Some {| call_runtime := self; call_context := context; call_name := name; call_id := id |}
       else None), w).

(** [CallState::invoke], which keeps the context of an allowed invocation. *)
Definition call_invoke {T} `{!CmfResponse T} (self : CallState) (response : T) (w : World P)
    : result ErrorData (PipelineResult Context) * CallState * World P :=
  match to_payload response (call_name self) (call_id self) with
  | Err e => (Err e, self, w)
  | Ok payload =>
      let '(res, w) := invoke (call_runtime self) (hooks_of (OPERATION T)).2 payload
                            (Some (call_context self)) w in
      let self :=
        if denied res then self
        else {| call_runtime := call_runtime self; call_context := context_table res;
                call_name := call_name self; call_id := call_id self |} in
      (Ok res, self, w)
  end.

(** [CallState::apply]. *)
Definition call_apply {T} `{!CmfResponse T} (self : CallState) (response : T)
    (res : PipelineResult Context) : result ErrorData T :=
  match modified_message_payload res with
  | Some payload => apply_payload response payload (call_name self) (call_id self)
  | None => Ok response
  end.

(** [CallState::after]. *)
Definition after {T} `{!CmfResponse T} (self : CallState) (response : T) (w : World P)
    : result ErrorData T * CallState * World P :=
  let '(r, self, w) := call_invoke self response w in
  (match r with
   | Err e => Err e
   | Ok res =>
       if denied res then Err (plugin_denied_error (subject (OPERATION T)) res)
       else call_apply self response res
   end, self, w).
End runtime.

(** ** Theorems *)

Section accepted.
Context `{!CmfConstants} {P : Type} `{!CpexManager P}.

Lemma supported_hook hook : supported_cmf_hook_name hook = if bool_decide (hook ∈ all_hooks) then Some hook else None.
Proof.
  unfold supported_cmf_hook_name. induction all_hooks as [|h l IH]; [done|].
  rewrite filter_cons. destruct (decide (h = hook)) as [->|Hne]; cbn [head].
  - by rewrite bool_decide_eq_true_2 by left.
  - rewrite IH. destruct (decide (hook ∈ l)).
    + by rewrite !bool_decide_eq_true_2 by (try done; by right).
    + rewrite !bool_decide_eq_false_2; [done|set_solver|done].
Qed.

Lemma is_empty_true {A} (l : list A) : is_empty l = true ↔ l = [].
Proof. by destruct l. Qed.

Lemma validate_plugin_ok plugin :
  validate_plugin plugin = Ok () ↔ plugin_conditions plugin = [] ∧ plugin_hooks plugin ⊆ all_hooks.
Proof.
  unfold validate_plugin. rewrite <- is_empty_true.
  destruct (is_empty (plugin_conditions plugin)); cbn [negb]; [|naive_solver].
  destruct (existsb _ _) eqn:He.
  - split; [done|]. intros [_ Hsub]. apply existsb_exists in He as (hook & Hin & Hh).
    rewrite supported_hook in Hh. rewrite bool_decide_eq_true_2 in Hh; [done|].
    by apply Hsub, list_elem_of_In.
  - split; [|done]. intros _. split; [done|]. intros hook Hin.
    destruct (decide (hook ∈ all_hooks)) as [|Hn]; [done|].
    assert (existsb (λ hook, match supported_cmf_hook_name hook with None => true | Some _ => false end)
       (plugin_hooks plugin) = true); [|congruence].
    apply existsb_exists. exists hook. split; [by apply list_elem_of_In|].
    by rewrite supported_hook, bool_decide_eq_false_2.
Qed.

(** A configuration the gateway can run: the framework's own routing, policies
    and conditional plugins are not used, and every hook is one it invokes. *)
Definition supported (config : CpexConfig) : Prop :=
  routing_enabled config = false ∧ fail_on_plugin_error config = false ∧ routes config = [] ∧
  plugin_dirs config = [] ∧ global_policies config = [] ∧ global_defaults config = [] ∧
  Forall (λ p, plugin_conditions p = [] ∧ plugin_hooks p ⊆ all_hooks) (plugins config).

Lemma validate_supported config :
  validate_gateway_supported_config config = Ok () ↔ supported config.
Proof.
  unfold validate_gateway_supported_config, supported.
  destruct (_ || _) eqn:Hb.
  - split; [done|]. intros (H1 & H2 & H3 & H4 & H5 & H6 & _).
    by rewrite H1, H2, H3, H4, H5, H6 in Hb.
  - rewrite !orb_false_iff, !negb_false_iff, !is_empty_true in Hb.
    rewrite foldM_all. setoid_rewrite validate_plugin_ok. naive_solver.
Qed.

(** A runtime exists only for a supported configuration, and then it invokes
    the hook of an operation's phase exactly if some plugin declares it: every hook
    a plugin declares is one the gateway invokes, so no plugin is configured and
    silently skipped, and an unsupported configuration never reaches the plugin
    manager. *)
Theorem from_config_spec config factories w runtime w'
    (Hbuilt : from_config config factories w = (Ok runtime, w')) :
  supported config ∧ manager_from_config config factories = Ok (manager runtime) ∧
  ∀ plugin hook, plugin ∈ plugins config → hook ∈ plugin_hooks plugin →
    ∃ operation, (hook = (hooks_of operation).1 ∧ pre (hooks runtime operation) = true) ∨
                 (hook = (hooks_of operation).2 ∧ post (hooks runtime operation) = true).
Proof.
  unfold from_config in Hbuilt.
  destruct (validate_gateway_supported_config config) as [[]|] eqn:Hv; [|done].
  apply validate_supported in Hv.
  destruct (manager_from_config config factories) as [m|] eqn:Hm; [|done].
  destruct (manager_initialize m _) as [[[]|] p]; [|done]. injection Hbuilt as <- _.
  split; [done|]. split; [done|]. intros plugin hook Hp Hh.
  destruct Hv as (_ & _ & _ & _ & _ & _ & Hall). rewrite Forall_forall in Hall.
  destruct (Hall plugin Hp) as [_ Hsub]. specialize (Hsub hook Hh).
  assert (declares config hook = true) as Hd.
  { unfold declares. apply existsb_exists. exists plugin. split; [by apply list_elem_of_In|].
    apply existsb_exists. exists hook. split; [by apply list_elem_of_In|apply String.eqb_refl]. }
  unfold all_hooks in Hsub; cbn in Hsub. cbn [hooks].
  repeat (apply elem_of_cons in Hsub as [->|Hsub]); [..|by apply elem_of_nil in Hsub].
  - exists OTool. by left.
  - exists OTool. by right.
  - exists OPrompt. by left.
  - exists OPrompt. by right.
  - exists OResource. by left.
  - exists OResource. by right.
Qed.
End accepted.

(** ** Correlation ids *)

Section correlation.
Context `{!CmfConstants} {P : Type} `{!CpexManager P}.

(** One step of the process as far as the counter sees it: a [before] or an
    invocation of a call in progress, by whichever request. *)
Inductive world_step : World P → World P → Prop :=
| step_before {U} (d : U) self operation name payload update w r w' :
    before d self operation name payload update w = (r, w') → world_step w w'
| step_after {T} `{!CmfResponse T} self (response : T) w r self' w' :
    after self response w = (r, self', w') → world_step w w'.

Lemma invoke_counter self hook payload context (w : World P) r w' :
  invoke self hook payload context w = (r, w') → CORRELATION_ID w' = CORRELATION_ID w.
Proof. unfold invoke. destruct (invoke_named _ _ _ _ _). by intros [= _ <-]. Qed.

(** [before] takes at most one id, and a state it returns carries it. *)
Lemma before_counter {U} (d : U) self operation name payload update (w : World P) r w' :
  before d self operation name payload update w = (r, w') →
  (CORRELATION_ID w' = CORRELATION_ID w ∨ CORRELATION_ID w' = (CORRELATION_ID w + 1) mod 2 ^ 64) ∧
  ∀ u state, r = Ok (u, Some state) →
    call_id state = correlation_name operation (CORRELATION_ID w) ∧
    CORRELATION_ID w' = (CORRELATION_ID w + 1) mod 2 ^ 64.
Proof.
  unfold before. destruct (_ && _) eqn:Hneither.
  { intros [= <- <-]. split; [by left|]. done. }
  cbn [next_correlation_id]. destruct (pre (hooks self operation)).
  - destruct (invoke _ _ _ _ _) as [res w1] eqn:Hi. apply invoke_counter in Hi.
    cbn [CORRELATION_ID] in Hi. intros [= <- <-]. split; [by right|].
    intros u state. destruct (denied res); [done|].
    destruct (match modified_message_payload res with Some _ => _ | None => _ end); [|done].
    cbn. destruct (post _); intros [=]; by subst.
  - intros [= <- <-]. split; [by right|]. intros u state. cbn.
    destruct (post _); intros [=]; by subst.
Qed.

Lemma after_counter {T} `{!CmfResponse T} self (response : T) (w : World P) r self' w' :
  after self response w = (r, self', w') → CORRELATION_ID w' = CORRELATION_ID w.
Proof.
  unfold after, call_invoke. destruct (to_payload _ _ _); [|by intros [= _ _ <-]].
  destruct (invoke _ _ _ _ _) as [res w1] eqn:Hi. intros [= _ _ <-]. by eapply invoke_counter.
Qed.

Lemma steps_counter n (w w' : World P) :
  nsteps world_step n w w' → 0 ≤ CORRELATION_ID w < 2 ^ 64 →
  ∃ k, 0 ≤ k ≤ Z.of_nat n ∧ CORRELATION_ID w' = (CORRELATION_ID w + k) mod 2 ^ 64.
Proof.
  induction 1 as [w|n w w1 w' Hstep _ IH]; intros Hw.
  { exists 0. split; [lia|]. rewrite Z.add_0_r, Z.mod_small; lia. }
  assert (∃ j, 0 ≤ j ≤ 1 ∧ CORRELATION_ID w1 = (CORRELATION_ID w + j) mod 2 ^ 64) as (j & Hj & Hw1).
  { destruct Hstep as [U d self op name payload update w r w1 Hb|T ? self resp w r self' w1 Ha].
    - apply before_counter in Hb as [[->| ->] _].
      + exists 0. split; [lia|]. rewrite Z.add_0_r, Z.mod_small; lia.
      + by exists 1.
    - apply after_counter in Ha as ->. exists 0. split; [lia|]. rewrite Z.add_0_r, Z.mod_small; lia. }
  destruct IH as (k & Hk & ->).
  { rewrite Hw1. apply Z.mod_pos_bound. lia. }
  exists (j + k). split; [lia|]. rewrite Hw1, Zplus_mod_idemp_l. f_equal. lia.
Qed.

Lemma print_Z_inj a b : 0 ≤ a → 0 ≤ b → print_Z a = print_Z b → a = b.
Proof.
  intros Ha Hb. unfold print_Z. rewrite !(proj2 (Z.ltb_ge _ 0)) by lia. intros Heq.
  destruct (print_nonneg_digits a Ha) as (_ & <- & _).
  destruct (print_nonneg_digits b Hb) as (_ & <- & _). by rewrite Heq.
Qed.

(** Two calls of the same operation never share a correlation id while both
    are in progress: whatever requests and hook invocations run in between, the
    ids can coincide only after 2^64 of them. *)
Theorem correlation_ids_distinct {U1 U2} (d1 : U1) (d2 : U2) self1 self2 operation name1 name2
    payload1 payload2 update1 update2 w1 w1' w2 w2' u1 u2 state1 state2 n
    (Hcounter : 0 ≤ CORRELATION_ID w1 < 2 ^ 64)
    (Hfirst : before d1 self1 operation name1 payload1 update1 w1 = (Ok (u1, Some state1), w1'))
    (Hbetween : nsteps world_step n w1' w2) (Hn : Z.of_nat n < 2 ^ 64 - 1)
    (Hsecond : before d2 self2 operation name2 payload2 update2 w2 = (Ok (u2, Some state2), w2')) :
  call_id state1 ≠ call_id state2.
Proof.
  apply before_counter in Hfirst as [_ Hf]. destruct (Hf _ _ eq_refl) as [-> Hw1'].
  apply before_counter in Hsecond as [_ Hs]. destruct (Hs _ _ eq_refl) as [-> _].
  apply steps_counter in Hbetween as (k & Hk & ->);
    [|rewrite Hw1'; apply Z.mod_pos_bound; lia].
  rewrite Hw1', Zplus_mod_idemp_l. unfold correlation_name.
  intros Heq%app_string_inj_l%app_string_inj_l.
  set (c := CORRELATION_ID w1) in *.
  apply print_Z_inj in Heq; [|lia|apply Z.mod_pos_bound; lia].
  destruct (Z.le_gt_cases (2 ^ 64) (c + 1 + k)).
  - rewrite <- (Z.mod_unique_pos (c + 1 + k) (2 ^ 64) 1 (c + 1 + k - 2 ^ 64)) in Heq; lia.
  - rewrite Z.mod_small in Heq; lia.
Qed.
End correlation.

(** ** A concrete plugin framework

    One plugin that allows everything; hook names of the framework's shape. *)

Module ConcreteCpex.
#[export] Instance constants : CmfConstants := {|
  TOOL_PRE_INVOKE := "cmf.tool_pre_invoke"; TOOL_POST_INVOKE := "cmf.tool_post_invoke";
  PROMPT_PRE_FETCH := "cmf.prompt_pre_fetch"; PROMPT_POST_FETCH := "cmf.prompt_post_fetch";
  RESOURCE_PRE_FETCH := "cmf.resource_pre_fetch"; RESOURCE_POST_FETCH := "cmf.resource_post_fetch";
  SCHEMA_VERSION := "2.0" |}.
#[export] Instance manager : CpexManager Z := {|
  Manager := string; Factories := (); Context := list string; context_default := [];
  manager_default := "none"; manager_from_config _ _ := Ok "configured";
  manager_initialize _ p := (Ok (), p);
  invoke_named _ hook _ context p :=
    ({| denied := false; violation := None; modified_payload := None;
        context_table := default [] context ++ [hook] |}, p + 1) |}.
Definition config : CpexConfig := {|
  routing_enabled := false; fail_on_plugin_error := false; routes := []; plugin_dirs := [];
  global_policies := []; global_defaults := [];
  plugins := [{| plugin_name := "audit"; plugin_kind := "audit";
                 plugin_hooks := ["cmf.tool_pre_invoke"; "cmf.tool_post_invoke"];
                 plugin_conditions := [] |}] |}.
Definition world : World Z := {| CORRELATION_ID := 1; plugin_state := 0 |}.
End ConcreteCpex.

Import ConcreteCpex.

Lemma from_config_spec_witness :
  match from_config (P := Z) config (() : @Factories Z ConcreteCpex.manager) world with
  | (Ok runtime, _) => supported config ∧ pre (hooks runtime OTool) = true
  | _ => False
  end.
Proof.
  destruct (from_config (P := Z) config (() : @Factories Z ConcreteCpex.manager) world) as [[runtime|] w'] eqn:E;
    [|revert E; vm_compute; discriminate].
  destruct (from_config_spec _ _ _ _ _ E) as (Hs & _ & Hd). split; [exact Hs|].
  revert E. vm_compute. intros [= <- _]. reflexivity.
Defined.

Definition example_runtime : GatewayPluginRuntime (P := Z) :=
  match (from_config (P := Z) config (() : @Factories Z ConcreteCpex.manager) world).1 with Ok r => r | Err _ => GatewayPluginRuntime_default end.
Definition begin_call (w : World Z) :=
  before Unchanged example_runtime OTool "search" (λ id, message_payload RoleAssistant [PText id])
    (λ _ _, Ok Unchanged) w.

Definition example_state (id : string) : CallState (P := Z) :=
  {| call_runtime := example_runtime; call_context := ["cmf.tool_pre_invoke"];
     call_name := "search"; call_id := id |}.
Definition world_after (n p : Z) : World Z := {| CORRELATION_ID := n; plugin_state := p |}.

Lemma correlation_ids_distinct_witness :
  begin_call world = (Ok (Unchanged, Some (example_state "gateway-tool-call-1")), world_after 2 1) ∧
  call_id (example_state "gateway-tool-call-1") ≠ call_id (example_state "gateway-tool-call-2").
Proof.
  assert (begin_call world =
    (Ok (Unchanged, Some (example_state "gateway-tool-call-1")), world_after 2 1)) as E1
    by (vm_compute; reflexivity).
  assert (begin_call (world_after 2 1) =
    (Ok (Unchanged, Some (example_state "gateway-tool-call-2")), world_after 3 2)) as E2
    by (vm_compute; reflexivity).
  split; [exact E1|].
  refine (correlation_ids_distinct _ _ _ _ _ _ _ _ _ _ _ world (world_after 2 1) (world_after 2 1)
    (world_after 3 2) Unchanged Unchanged _ _ 0 _ E1 (nsteps_O _ _) _ E2).
  - vm_compute. split; [discriminate|reflexivity].
  - reflexivity.
Defined.
