(* ===== verification/CpexPrompts.v ===== *)
(** * Prompts as CMF messages ([prompts/mod.rs])

    The projection of a prompt request and result into CMF, and the application
    of what a plugin returns.  JSON serialisation and the constructors of the MCP
    library are parameters. *)

From S2P Require Import Prelude HttpTypes Rmcp Cmf CpexRuntime.

(** [serde_json::to_value] on a CMF message. *)
Class CmfSerde := { message_to_value : Message → option Value }.
(** It does not fail, and a JSON value equals itself. *)
Class CmfSerdeLaws `{CmfSerde} : Prop := {
  message_to_value_total m : ∃ v, message_to_value m = Some v ∧ value_eqb v v = true;
}.

(** [ContentBlock::text] and the other constructor functions of [rmcp]. *)
Class RmcpConstructors `{RmcpTypes} := {
  block_text : string → ContentBlock;
  block_image : string → string → ContentBlock;
  block_audio : string → string → ContentBlock;
  block_resource : ResourceContents → ContentBlock;
  resource_link_new : string → string → ContentBlock;
}.

Section prompts.
Context `{!CmfConstants, !RmcpTypes, !RmcpConstructors, !CmfMessages, !CmfSerde}.

(** As in [CpexTools.tool_call_payload], the arguments' [HashMap] is modelled
    by the entries in the order of the request's map. *)
Definition prompt_request_payload (request : GetPromptRequestParams)
    (prompt_name backend_name id : string) : MessagePayload :=
  message_payload RoleUser
    [PPromptRequest {| prompt_request_id := id; requested_name := prompt_name;
                       requested_arguments := default [] (prompt_request_args request);
                       server_id := Some backend_name |}].

Definition prompt_request_arguments (payload : MessagePayload) (prompt_name backend_name id : string)
    : option JsonObject :=
  match get_prompt_requests payload with
  | [request] =>
      if negb (String.eqb (requested_name request) prompt_name)
         || negb (String.eqb (prompt_request_id request) id)
         || negb (bool_decide (server_id request = Some backend_name))
      then None
      else Some (requested_arguments request)
  | _ => None
  end.

Definition cmf_media (data mime_type : string) : MediaSource :=
  {| source_type := "base64"; media_data := data; media_type := Some mime_type;
     duration_ms := None |}.

Definition cmf_content_part (block : ContentBlock) (id : string) : option ContentPart :=
  match block with
  | BText text _ _ => Some (PText text)
  | BImage data mime_type _ _ => Some (PImage (cmf_media data mime_type))
  | BAudio data mime_type _ _ => Some (PAudio (cmf_media data mime_type))
  | BResource resource _ _ =>
      ucm ← match resource with
            | TextResourceContents uri mime_type text _ => Some (uri, mime_type, Some text)
            | BlobResourceContents uri mime_type _ _ => Some (uri, mime_type, None)
            | OtherResourceContents _ => None
            end;
      let '(uri, mime_type, content) := ucm : string * option string * option string in
      Some (PResource {|
        resource_request_id := id; resource_uri := uri; resource_name := None;
        resource_description := None; resource_type := RTUri; resource_content := content;
        resource_blob := None; resource_mime_type := mime_type; resource_size_bytes := None;
        resource_annotations := []; resource_version := None |})
  | BResourceLink uri name _ =>
      Some (PResourceRef {|
        ref_request_id := id; ref_uri := uri; ref_name := Some name; ref_type := RTUri;
        range_start := None; range_end := None; selector := None |})
  | BOther _ => None
  end.

Definition cmf_prompt_message (message : PromptMessage) (id : string) : Message :=
  MkMessage "2.0"
    (match pm_role message with McpAssistant => RoleAssistant | McpUser => RoleUser end)
    (option_list (cmf_content_part (pm_content message) id)) None.

Definition prompt_result_payload (response : GetPromptResult) (prompt_name id : string)
    : MessagePayload :=
  message_payload RoleAssistant
    [PPromptResult id prompt_name
       (map (λ message, cmf_prompt_message message id) (prompt_messages response))
       None false None].

Definition prompt_result (payload : MessagePayload) : option PromptResult :=
  match get_prompt_results payload with [res] => Some res | _ => None end.

Definition prompt_result_rejection (payload : MessagePayload) : option string :=
  res ← prompt_result payload;
  if pr_is_error res
  then Some (default "Plugin rejected the rendered prompt" (pr_error_message res)) else None.

Definition inline_media_data (source_type data : string) : option string :=
  if String.eqb source_type "base64" then Some data else None.

Definition mcp_prompt_message (message : Message) : option PromptMessage :=
  role ← match message_role message with
         | RoleAssistant => Some McpAssistant
         | RoleUser => Some McpUser
         | _ => None
         end;
  part ← match message_content message with [part] => Some part | _ => None end;
  content ← match part with
            | PText text => Some (block_text text)
            | PImage content =>
                data ← inline_media_data (source_type content) (media_data content);
                mime_type ← media_type content;
                Some (block_image data mime_type)
            | PAudio content =>
                data ← inline_media_data (source_type content) (media_data content);
                mime_type ← media_type content;
                Some (block_audio data mime_type)
            | PResource content =>
                text ← resource_content content;
                Some (block_resource (TextResourceContents (resource_uri content)
                                        (resource_mime_type content) text None))
            | PResourceRef content =>
                name ← ref_name content;
                Some (resource_link_new (ref_uri content) name)
            | _ => None
            end;
  Some {| pm_role := role; pm_content := content |}.

(** [to_value(a).ok()? == to_value(b).ok()?]. *)
Definition json_same (a b : Message) : option bool :=
  va ← message_to_value a; vb ← message_to_value b; Some (value_eqb va vb).

(** The body of the loop over the messages. *)
Definition edit_message (id : string) (message : PromptMessage) (edited : Message)
    : option PromptMessage :=
  unchanged ← json_same (cmf_prompt_message message id) edited;
  if unchanged : bool then Some message else
  rebuilt ← mcp_prompt_message edited;
  faithful ← json_same (cmf_prompt_message rebuilt id) edited;
  if faithful : bool then Some rebuilt else None.

Fixpoint edit_messages (id : string) (originals : list PromptMessage) (edited : list Message)
    : option (list PromptMessage) :=
  match originals, edited with
  | message :: originals, e :: edited =>
      m ← edit_message id message e; ms ← edit_messages id originals edited; Some (m :: ms)
  | originals, _ => Some originals
  end.

Definition prompt_result_response (original : GetPromptResult) (payload : MessagePayload)
    (prompt_name id : string) : option GetPromptResult :=
  res ← prompt_result payload;
  if negb (String.eqb (pr_name res) prompt_name) || negb (String.eqb (pr_request_id res) id)
     || bool_decide (is_Some (pr_content res)) || bool_decide (is_Some (pr_error_message res))
  then None else
  if negb (Nat.eqb (length (pr_messages res)) (length (prompt_messages original))) then None else
  messages ← edit_messages id (prompt_messages original) (pr_messages res);
  Some {| prompt_messages := messages; prompt_rest := prompt_rest original |}.

#[export] Instance GetPromptResult_cmf : CmfResponse GetPromptResult := {|
  OPERATION := OPrompt;
  to_payload self name id := Ok (prompt_result_payload self name id);
  apply_payload self payload name id :=
    match prompt_result_rejection payload with
    | Some message => Err (invalid_request message)
    | None =>
        ok_or (prompt_result_response self payload name id)
          (internal_error "Plugin returned a prompt result the gateway cannot apply")
    end |}.

(** [GatewayPluginRuntimeHandle::before_get_prompt], on the runtime that is current. *)
Definition before_get_prompt {P} `{!CpexManager P} (runtime : GatewayPluginRuntime)
    (request : GetPromptRequestParams) (prompt_name backend_name : string) (w : World P)
    : result ErrorData (PreHookResult CallState) * World P :=
  let '(r, w) :=
    before Unchanged runtime OPrompt prompt_name
      (λ id, prompt_request_payload request prompt_name backend_name id)
      (λ payload id,
         arguments ← ok_or (prompt_request_arguments payload prompt_name backend_name id)
           (invalid_params "Plugin returned a prompt request the gateway cannot apply");
         Ok (from_modified (prompt_request_args request) arguments)) w in
  (match r with
   | Ok (arguments, state) => Ok {| pre_arguments := arguments; pre_state := state |}
   | Err e => Err e
   end, w).

(** ** Theorems *)

Context `{!CmfMessagesLaws, !CmfSerdeLaws}.

Lemma json_same_refl m : json_same m m = Some true.
Proof.
  destruct (message_to_value_total m) as (v & Hv & Hr). unfold json_same. by rewrite Hv; simpl; rewrite Hr.
Qed.

(** A plugin that returns the rendered prompt as it got it changes nothing:
    the response comes back identical, annotations, metadata and content CMF cannot
    express included. *)
Theorem prompt_unmodified_identity (response : GetPromptResult) name id :
  apply_payload response (prompt_result_payload response name id) name id = Ok response.
Proof.
  cbn [apply_payload GetPromptResult_cmf].
  unfold prompt_result_rejection, prompt_result_response, prompt_result, prompt_result_payload,
    message_payload. rewrite prompt_results_singleton. cbn -[String.eqb].
  rewrite !String.eqb_refl, length_map, Nat.eqb_refl. cbn.
  assert (edit_messages id (prompt_messages response)
    (map (λ message, cmf_prompt_message message id) (prompt_messages response))
    = Some (prompt_messages response)) as ->; [|by destruct response].
  induction (prompt_messages response) as [|m ms IH]; [done|]. cbn [map edit_messages].
  unfold edit_message. rewrite json_same_refl. cbn. by rewrite IH.
Qed.

(** A message says what the plugin's edit says. *)
Definition shows (id : string) (m : PromptMessage) (edited : Message) : Prop :=
  ∃ a b, message_to_value (cmf_prompt_message m id) = Some a ∧ message_to_value edited = Some b ∧
    value_eqb a b = true.

Lemma json_same_true a b : json_same a b = Some true →
  ∃ x y, message_to_value a = Some x ∧ message_to_value b = Some y ∧ value_eqb x y = true.
Proof.
  unfold json_same. destruct (message_to_value a) as [x|]; [|done].
  destruct (message_to_value b) as [y|]; [|done]. simpl. intros [= ?]. by exists x, y.
Qed.

Lemma edit_message_shows id m e m' :
  edit_message id m e = Some m' →
  shows id m' e ∧ (shows id m e → m' = m).
Proof.
  unfold edit_message. destruct (json_same (cmf_prompt_message m id) e) as [[]|] eqn:Hs; [| |done].
  - intros [= <-]. apply json_same_true in Hs as Hsh. by split.
  - cbn. destruct (mcp_prompt_message e) as [r|]; [|done]. cbn.
    destruct (json_same (cmf_prompt_message r id) e) as [[]|] eqn:Hr; [|done|done].
    intros [= <-]. split; [by apply json_same_true|].
    intros (a & b & Ha & Hb & Hab). unfold json_same in Hs. rewrite Ha, Hb in Hs. cbn in Hs. congruence.
Qed.

Lemma edit_messages_shows id originals : ∀ edited ms,
  length edited = length originals → edit_messages id originals edited = Some ms →
  length ms = length originals ∧ Forall2 (shows id) ms edited ∧
  ∀ i m e, originals !! i = Some m → edited !! i = Some e → shows id m e → ms !! i = Some m.
Proof.
  induction originals as [|m l IH]; intros [|e es] ms Hlen Hms; try done; cbn in Hms.
  - injection Hms as <-. split_and!; [done|constructor|by intros [|]].
  - destruct (edit_message id m e) as [m'|] eqn:Hm; [|done]; cbn in Hms.
    destruct (edit_messages id l es) as [ms'|] eqn:Hl; [|done]; injection Hms as <-.
    apply edit_message_shows in Hm as [Hsh Hkeep]. simplify_eq/=.
    destruct (IH es ms' Hlen Hl) as (? & ? & Hrest). split_and!; [congruence|by constructor|].
    intros [|i] m0 e0 Hm0 He0 Hs; simplify_eq/=; [by rewrite Hkeep|]. by eapply Hrest.
Qed.

(** C27: a plugin's edit of a rendered prompt is applied or refused, never
    dropped: a response that comes back has, message by message, exactly the content
    the plugin returned (as JSON) for this prompt and request, a message the plugin
    did not touch is the backend's original, and a result marked as an error, with
    another identity or with another number of messages is refused. *)
Theorem prompt_edits_applied (original response : GetPromptResult) payload name id :
  apply_payload original payload name id = Ok response →
  ∃ res, get_prompt_results payload = [res] ∧ pr_name res = name ∧ pr_request_id res = id ∧
    pr_is_error res = false ∧ pr_content res = None ∧ pr_error_message res = None ∧
    prompt_rest response = prompt_rest original ∧
    length (prompt_messages response) = length (prompt_messages original) ∧
    Forall2 (shows id) (prompt_messages response) (pr_messages res) ∧
    ∀ i m e, prompt_messages original !! i = Some m → pr_messages res !! i = Some e →
      shows id m e → prompt_messages response !! i = Some m.
Proof.
  cbn [apply_payload GetPromptResult_cmf]. intros Happly.
  destruct (prompt_result_rejection payload) eqn:Hrej; [done|].
  destruct (prompt_result_response original payload name id) as [r|] eqn:Hresp; [|done].
  injection Happly as ->. unfold prompt_result_response, prompt_result_rejection, prompt_result in *.
  destruct (get_prompt_results payload) as [|res [|]] eqn:Hres; try done.
  exists res. cbn [mbind option_bind] in Hresp, Hrej.
  destruct (_ || _) eqn:Hchk in Hresp; [done|]. rewrite !orb_false_iff in Hchk.
  destruct Hchk as [[[Hn Hi] Hc] He].
  apply negb_false_iff, String.eqb_eq in Hn, Hi.
  destruct (pr_content res); [by rewrite bool_decide_eq_true_2 in Hc|].
  destruct (pr_error_message res); [by rewrite bool_decide_eq_true_2 in He|].
  destruct (pr_is_error res); [done|].
  destruct (negb _) eqn:Hlen in Hresp; [done|]. apply negb_false_iff, Nat.eqb_eq in Hlen.
  destruct (edit_messages id _ _) as [ms|] eqn:Hms; [|done]. injection Hresp as <-.
  destruct (edit_messages_shows _ _ _ _ Hlen Hms) as (? & ? & ?).
  by split_and!.
Qed.
End prompts.

(** ** A concrete prompt

    Accessors that filter the parts of a message, and a serialisation that keeps
    the role and the texts. *)

Module ConcretePrompts.
#[export] Instance messages : CmfMessages := {|
  get_prompt_requests m :=
    omap (λ p, match p with PPromptRequest r => Some r | _ => None end) (message_content m);
  get_prompt_results m :=
    omap (λ p, match p with
               | PPromptResult id name ms c e err =>
                   Some {| pr_request_id := id; pr_name := name; pr_messages := ms; pr_content := c;
                           pr_is_error := e; pr_error_message := err |}
               | _ => None end) (message_content m);
  get_tool_results m :=
    omap (λ p, match p with PToolResult r => Some r | _ => None end) (message_content m);
  get_tool_calls m :=
    omap (λ p, match p with PToolCall r => Some r | _ => None end) (message_content m);
  get_text_content m :=
    foldr (λ p acc, match p with PText t => t +:+ acc | _ => acc end) "" (message_content m);
|}.
#[export] Instance messages_laws : CmfMessagesLaws.
Proof. by split. Qed.
#[export] Instance serde : CmfSerde := {|
  message_to_value m :=
    Some (JArray [JBool (bool_decide (message_role m = RoleUser)); JString (get_text_content m)]) |}.
#[export] Instance serde_laws : CmfSerdeLaws.
Proof.
  split. intros m. eexists; split; [reflexivity|]. cbn.
  by destruct (bool_decide _); cbn; rewrite String.eqb_refl.
Qed.
Import ConcreteRmcp.
#[export] Instance constructors : RmcpConstructors := {|
  block_text t := BText t None None; block_image d m := BImage d m None None;
  block_audio d m := BAudio d m None None; block_resource r := BResource r None None;
  resource_link_new u n := BResourceLink u n None |}.
End ConcretePrompts.

Import ConcreteRmcp ConcreteCpex ConcretePrompts.

Definition example_prompt : GetPromptResult := {|
  prompt_messages := [{| pm_role := McpUser; pm_content := BText "hello" (Some "note") None |};
                      {| pm_role := McpAssistant; pm_content := BOther "video" |}];
  prompt_rest := "description" |}.

Lemma prompt_unmodified_identity_witness :
  apply_payload example_prompt (prompt_result_payload example_prompt "greet" "id") "greet" "id"
    = Ok example_prompt.
Proof. exact (prompt_unmodified_identity example_prompt "greet" "id"). Defined.

Lemma prompt_edits_applied_witness :
  let payload := message_payload RoleAssistant
    [PPromptResult "id" "greet" [MkMessage "2.0" RoleUser [PText "[redacted]"] None;
                                 MkMessage "2.0" RoleAssistant [] None] None false None] in
  match apply_payload example_prompt payload "greet" "id" with
  | Ok response =>
      length (prompt_messages response) = 2%nat ∧
      prompt_messages response !! 0%nat =
        Some {| pm_role := McpUser; pm_content := BText "[redacted]" None None |}
  | Err _ => False
  end.
Proof.
  intros payload. destruct (apply_payload example_prompt payload "greet" "id") as [response|] eqn:E;
    [|revert E; vm_compute; discriminate].
  destruct (prompt_edits_applied example_prompt response payload "greet" "id" E) as
    (res & _ & _ & _ & _ & _ & _ & _ & Hlen & _). split; [exact Hlen|].
  revert E. vm_compute. intros [= <-]. reflexivity.
Defined.
