(* ===== verification/CpexResources.v ===== *)
(** * Resources as CMF messages ([resources/mod.rs])

    The projection of resource contents into CMF parts, text as text and blobs
    as bytes, and the application of what a plugin returns. *)

From S2P Require Import Prelude HttpTypes Rmcp Cmf CpexRuntime.

Section resources.
Context `{!CmfConstants, !RmcpTypes, !Base64}.

Definition resource_request_payload (uri id : string) : MessagePayload :=
  message_payload RoleUser
    [PResourceRef {| ref_request_id := id; ref_uri := uri; ref_name := None; ref_type := RTUri;
                     range_start := None; range_end := None; selector := None |}].

Definition cmf_resource_content (content : ResourceContents) (id : string) : option CmfResource :=
  umtb ← match content with
         | TextResourceContents uri mime_type text _ => Some (uri, mime_type, Some text, None)
         | BlobResourceContents uri mime_type blob _ =>
             bytes ← base64_decode blob; Some (uri, mime_type, None, Some bytes)
         | OtherResourceContents _ => None
         end;
  let '(uri, mime_type, text, blob) :=
    umtb : string * option string * option string * option string in
  Some {|
    resource_request_id := id; resource_uri := uri; resource_name := None;
    resource_description := None; resource_type := RTUri; resource_content := text;
    resource_blob := blob; resource_mime_type := mime_type; resource_size_bytes := None;
    resource_annotations := []; resource_version := None |}.

Definition resource_result_payload (response : ReadResourceResult) (id : string)
    : option MessagePayload :=
  content ← mapM (λ content, PResource <$> cmf_resource_content content id) (contents response);
  Some (message_payload RoleAssistant content).

(** The body of the loop of [resource_result_response]. *)
Definition edit_resource (original : ResourceContents) (modified : ContentPart)
    : option ResourceContents :=
  content ← match modified with PResource content => Some content | _ => None end;
  meta ← match original with
         | TextResourceContents _ _ _ meta | BlobResourceContents _ _ _ meta => Some meta
         | OtherResourceContents _ => None
         end;
  match resource_content content, resource_blob content with
  | Some text, _ =>
      Some (TextResourceContents (resource_uri content) (resource_mime_type content) text meta)
  | None, Some bytes =>
      let blob :=
        match original with
        | BlobResourceContents _ _ blob _ =>
            if bool_decide (base64_decode blob = Some bytes) then blob else base64_encode bytes
        | _ => base64_encode bytes
        end in
      Some (BlobResourceContents (resource_uri content) (resource_mime_type content) blob meta)
  | None, None => None
  end.

Fixpoint edit_resources (originals : list ResourceContents) (modified : list ContentPart)
    : option (list ResourceContents) :=
  match originals, modified with
  | original :: originals, m :: modified =>
      r ← edit_resource original m; rs ← edit_resources originals modified; Some (r :: rs)
  | originals, _ => Some originals
  end.

Definition resource_result_response (original : ReadResourceResult) (payload : MessagePayload)
    : option ReadResourceResult :=
  if negb (Nat.eqb (length (message_content payload)) (length (contents original))) then None else
  cs ← edit_resources (contents original) (message_content payload);
  Some {| contents := cs; resource_rest := resource_rest original |}.

#[export] Instance ReadResourceResult_cmf : CmfResponse ReadResourceResult := {|
  OPERATION := OResource;
  to_payload self _ id :=
    ok_or (resource_result_payload self id)
      (internal_error "Resource response contains an unsupported content type");
  apply_payload self payload _ _ :=
    ok_or (resource_result_response self payload)
      (internal_error "Plugin returned a resource result the gateway cannot apply") |}.

Context {P : Type} `{!CpexManager P}.

Record ResourceHookState : Type := {
  rewritten_uri : option string;
  call : option (CallState (P := P));
}.

(** [GatewayPluginRuntimeHandle::before_read_resource]. *)
Definition before_read_resource (runtime : GatewayPluginRuntime) (resource_uri : string)
    (w : World P) : result ErrorData ResourceHookState * World P :=
  let '(r, w) :=
    before None runtime OResource resource_uri
      (λ id, resource_request_payload resource_uri id)
      (λ payload _,
         match message_content payload with
         | [PResourceRef content] => Ok (Some (ref_uri content))
         | _ => Err (internal_error "Plugin returned an invalid resource request")
         end) w in
  (match r with
   | Ok (uri, state) => Ok {| rewritten_uri := uri; call := state |}
   | Err e => Err e
   end, w).

Definition after_read_resource (self : ResourceHookState) (response : ReadResourceResult)
    (w : World P) : result ErrorData ReadResourceResult * World P :=
  match call self with
  | Some state => let '(r, _, w) := after state response w in (r, w)
  | None => (Ok response, w)
  end.
End resources.

(** ** Theorems *)

Section theorems.
Context `{!CmfConstants, !RmcpTypes, !Base64}.

Lemma edit_resource_identity c id r :
  cmf_resource_content c id = Some r → edit_resource c (PResource r) = Some c.
Proof.
  unfold cmf_resource_content, edit_resource. destruct c as [u m t meta|u m b meta|]; [| |done].
  - intros [= <-]. done.
  - cbn. destruct (base64_decode b) as [bytes|] eqn:Hb; [|done]. intros [= <-]. cbn.
    by rewrite bool_decide_eq_true_2.
Qed.

(** Whenever a resource result can be shown to a plugin at all (every
    content is text or decodable base64), a plugin that returns it as it got it
    changes nothing: the very same contents come back, blobs with their original
    base64 text and metadata included. *)
Theorem resource_unmodified_identity (response : ReadResourceResult) name id payload
    (Hshown : to_payload response name id = Ok payload) :
  apply_payload response payload name id = Ok response.
Proof.
  cbn [to_payload apply_payload ReadResourceResult_cmf] in *.
  destruct (resource_result_payload response id) as [p|] eqn:Hp; [|done]. injection Hshown as ->.
  unfold resource_result_payload in Hp.
  destruct (mapM _ _) as [parts|] eqn:Hm; [|done]. injection Hp as <-.
  unfold resource_result_response, message_payload; cbn [message_content].
  apply mapM_Some in Hm. rewrite (Forall2_length _ _ _ Hm), Nat.eqb_refl. cbn.
  assert (edit_resources (contents response) parts = Some (contents response)) as ->;
    [|by destruct response].
  induction Hm as [|c part cs parts Hc _ IH]; [done|]. cbn [edit_resources].
  destruct (cmf_resource_content c id) as [r|] eqn:Hr; simplify_eq/=.
  rewrite (edit_resource_identity _ _ _ Hr). cbn. by rewrite IH.
Qed.

Definition meta_of (c : ResourceContents) : option (option MetaObject) :=
  match c with
  | TextResourceContents _ _ _ meta | BlobResourceContents _ _ _ meta => Some meta
  | OtherResourceContents _ => None
  end.

(** What a response content owes to the part the plugin returned. *)
Definition applied (original c : ResourceContents) (part : ContentPart) : Prop :=
  ∃ content, part = PResource content ∧ meta_of c = meta_of original ∧
    match c with
    | TextResourceContents uri mime text _ =>
        uri = resource_uri content ∧ mime = resource_mime_type content ∧
        resource_content content = Some text
    | BlobResourceContents uri mime blob _ =>
        uri = resource_uri content ∧ mime = resource_mime_type content ∧
        resource_content content = None ∧
        resource_blob content = base64_decode blob ∧ is_Some (base64_decode blob)
    | OtherResourceContents _ => False
    end.

Context `{!Base64Laws}.

Lemma edit_resource_applied original part c :
  edit_resource original part = Some c → applied original c part.
Proof.
  unfold edit_resource. destruct part as [| | | | | | |content| |]; try done. cbn.
  destruct original as [u m t meta|u m b meta|]; [| |done]; cbn;
    destruct (resource_content content) as [text|] eqn:Ht.
  1, 3: intros [= <-]; by exists content.
  all: destruct (resource_blob content) as [bytes|] eqn:Hb; [|done]; intros [= <-];
    exists content; split_and!; cbn; try done.
  - by rewrite base64_decode_encode.
  - rewrite base64_decode_encode. done.
  - case_bool_decide as Hd; [by rewrite Hd|by rewrite base64_decode_encode].
  - case_bool_decide as Hd; [by rewrite Hd|by rewrite base64_decode_encode].
Qed.

(** A plugin's edit of a resource is applied in full or refused: content by
    content, the response has the plugin's URI, media type and text, or base64 that
    decodes to exactly the plugin's bytes; metadata is the backend's, and an edit
    that adds or drops contents is refused. *)
Theorem resource_edits_applied (original response : ReadResourceResult) payload name id
    (Happly : apply_payload original payload name id = Ok response) :
  resource_rest response = resource_rest original ∧
  length (contents response) = length (message_content payload) ∧
  ∀ i o c part, contents original !! i = Some o → contents response !! i = Some c →
    message_content payload !! i = Some part → applied o c part.
Proof.
  cbn [apply_payload ReadResourceResult_cmf] in Happly. unfold resource_result_response in Happly.
  destruct (negb _) eqn:Hlen in Happly; [done|]. apply negb_false_iff, Nat.eqb_eq in Hlen.
  destruct (edit_resources _ _) as [cs|] eqn:Hcs; [|done]. injection Happly as <-.
  cbn [contents resource_rest]. split; [done|]. revert cs Hlen Hcs.
  generalize (message_content payload) as parts.
  induction (contents original) as [|o os IH]; intros [|part parts] cs Hlen Hcs; try done; cbn in Hcs.
  { injection Hcs as <-. split; [done|]. by intros [|]. }
  destruct (edit_resource o part) as [c|] eqn:Hc; [|done]; cbn in Hcs.
  destruct (edit_resources os parts) as [cs'|] eqn:Hcs'; [|done]. injection Hcs as <-.
  injection Hlen as Hlen. destruct (IH parts cs' Hlen Hcs') as [Hl Happ].
  split; [by cbn; rewrite Hl|]. intros [|i] o' c' part' ? ? ?; simplify_eq/=.
  - by apply edit_resource_applied.
  - by eapply Happ.
Qed.
End theorems.

Import Concrete ConcreteRmcp ConcreteCpex.

Definition example_resource : ReadResourceResult := {|
  contents := [TextResourceContents "file:///a" (Some "text/plain") "hello" (Some "meta");
               BlobResourceContents "file:///b" None "gb" None];
  resource_rest := "" |}.

Lemma resource_unmodified_identity_witness :
  match to_payload example_resource "a" "id" with
  | Ok payload => apply_payload example_resource payload "a" "id" = Ok example_resource
  | Err _ => False
  end.
Proof.
  destruct (to_payload example_resource "a" "id") as [payload|] eqn:E;
    [|revert E; vm_compute; discriminate].
  exact (resource_unmodified_identity example_resource "a" "id" payload E).
Defined.

Definition example_edit : MessagePayload :=
  MkMessage "2.0" RoleAssistant
    (map (λ blob, PResource {|
       resource_request_id := "id"; resource_uri := "file:///a"; resource_name := None;
       resource_description := None; resource_type := RTUri; resource_content := None;
       resource_blob := Some blob; resource_mime_type := None; resource_size_bytes := None;
       resource_annotations := []; resource_version := None |}) ["x"; "y"]) None.

Lemma resource_edits_applied_witness :
  match apply_payload example_resource example_edit "a" "id" with
  | Ok response =>
      length (contents response) = 2%nat ∧
      contents response !! 0%nat = Some (BlobResourceContents "file:///a" None "hi" (Some "meta"))
  | Err _ => False
  end.
Proof.
  destruct (apply_payload example_resource example_edit "a" "id") as [response|] eqn:E;
    [|revert E; vm_compute; discriminate].
  destruct (resource_edits_applied _ _ _ _ _ E) as (_ & Hlen & _). split; [exact Hlen|].
  revert E. vm_compute. intros [= <-]. reflexivity.
Defined.
