(* ===== verification/CpexTools.v ===== *)
(** * Tool calls as CMF messages ([tools/mod.rs])

    The projection of tool calls, results and stream events into CMF, and the
    application of what a plugin returns.  Serialisation of the MCP types and the
    constructors of [CallToolResult] are parameters. *)

From S2P Require Import Prelude HttpTypes Rmcp Cmf CpexRuntime CpexPrompts.

(** [serde_json::to_value] and [from_value] on one type. *)
Class SerdeValue (T : Type) := {
  to_value : T → option Value;
  from_value : Value → result string T;
}.

(** [ContentBlock::text] and the constructors of [CallToolResult]. *)
Class ToolConstructors `{RmcpTypes} := {
  tool_text : string → ContentBlock;
  result_success : list ContentBlock → CallToolResult;
  result_error : list ContentBlock → CallToolResult;
  result_structured : Value → CallToolResult;
  result_structured_error : Value → CallToolResult;
}.

Section tools.
Context `{!CmfConstants, !RmcpTypes, !ToolConstructors, !CmfMessages}.
Context `{!SerdeValue CallToolResult}.

(** The arguments are collected into a [HashMap], whose iteration order is not
    specified.  The model keeps the entries in the order of the request's map: it
    says which entries a plugin is shown, and in one of the possible orders. *)
Definition tool_call_payload (request : CallToolRequestParams) (tool_name backend_name id : string)
    : MessagePayload :=
  message_payload RoleAssistant
    [PToolCall {| tool_call_id := id; tool_call_name := tool_name;
                  tool_call_args := default [] (tool_request_arguments request);
                  namespace := Some backend_name |}].

Definition tool_json_result_payload (tool_name : string) (content : Value) (is_error : bool)
    (id : string) : MessagePayload :=
  message_payload RoleTool
    [PToolResult {| result_tool_call_id := id; result_tool_name := tool_name;
                    result_content := content; result_is_error := is_error |}].

Definition tool_result_payload (tool_name : string) (response : CallToolResult) (id : string)
    : MessagePayload :=
  tool_json_result_payload tool_name (default JNull (to_value response))
    (default false (is_error response)) id.

Definition tool_result_content (payload : MessagePayload) : option Value :=
  result_content <$> head (get_tool_results payload).

Definition tool_call_arguments (payload : MessagePayload) : option JsonObject :=
  tool_call_args <$> head (get_tool_calls payload).

Definition raw_tool_result (value : Value) (is_error : bool) : CallToolResult :=
  match value, is_error with
  | JString text, false => result_success [tool_text text]
  | JString text, true => result_error [tool_text text]
  | value, false => result_structured value
  | value, true => result_structured_error value
  end.

Definition set_is_error (e : option bool) (r : CallToolResult) : CallToolResult :=
  {| tool_content := tool_content r; is_error := e; tool_rest := tool_rest r |}.
Definition push_content (c : ContentBlock) (r : CallToolResult) : CallToolResult :=
  {| tool_content := tool_content r ++ [c]; is_error := is_error r; tool_rest := tool_rest r |}.

Definition tool_result_response (original : CallToolResult) (payload : MessagePayload)
    : CallToolResult :=
  let res :=
    match head (get_tool_results payload) with
    | None => original
    | Some tool_result =>
        match from_value (result_content tool_result) with
        | Ok res => set_is_error (Some (result_is_error tool_result)) res
        | Err _ => raw_tool_result (result_content tool_result) (result_is_error tool_result)
        end
    end in
  let text := get_text_content payload in
  if String.eqb text EmptyString then res else push_content (tool_text text) res.

#[export] Instance CallToolResult_cmf : CmfResponse CallToolResult := {|
  OPERATION := OTool;
  to_payload self name id := Ok (tool_result_payload name self id);
  apply_payload self payload _ _ := Ok (tool_result_response self payload) |}.

(** A progress or logging notification shown to the tool's post hook. *)
Record ToolEvent (T : Type) : Type := { event : T }.
Arguments event {T}.

#[export] Instance ToolEvent_cmf {T} `{!SerdeValue T} : CmfResponse (ToolEvent T) := {|
  OPERATION := OTool;
  to_payload self name id :=
    Ok (tool_json_result_payload name (default JNull (to_value (event self))) false id);
  apply_payload self payload _ _ :=
    content ← ok_or (tool_result_content payload)
      (invalid_params "Plugin modified stream event payload without a tool result");
    e ← map_err (λ error, invalid_params
          ("Plugin modified stream event payload with invalid JSON: " +:+ error))
        (from_value content);
    Ok {| event := e |} |}.

Context {P : Type} `{!CpexManager P}.

(** [GatewayPluginRuntimeHandle::before_tool_call]. *)
Definition before_tool_call (runtime : GatewayPluginRuntime) (request : CallToolRequestParams)
    (tool_name backend_name : string) (w : World P)
    : result ErrorData (PreHookResult CallState) * World P :=
  let '(r, w) :=
    before Unchanged runtime OTool tool_name
      (λ id, tool_call_payload request tool_name backend_name id)
      (λ payload _,
         arguments ← ok_or (tool_call_arguments payload)
           (invalid_params "Plugin modified tool payload without a tool call");
         Ok (from_modified (tool_request_arguments request) arguments)) w in
  (match r with
   | Ok (arguments, state) => Ok {| pre_arguments := arguments; pre_state := state |}
   | Err e => Err e
   end, w).

(** [ToolHookState::after_tool_call]; the state is shared, so the new one is
    returned. *)
Definition after_tool_call (self : CallState) (response : CallToolResult) (w : World P)
    : result ErrorData CallToolResult * CallState * World P := after self response w.

(** [ToolHookState::after_stream_event]: a denial drops the event and is no error. *)
Definition after_stream_event {T} `{!SerdeValue T} (self : CallState) (e : T) (w : World P)
    : result ErrorData (option T) * CallState * World P :=
  let '(r, self, w) := call_invoke self {| event := e |} w in
  (res ← r;
   if denied res then Ok None else
   e ← call_apply self {| event := e |} res;
   Ok (Some (event e)), self, w).
End tools.

(** ** Theorems *)

Section theorems.
Context `{!CmfConstants, !RmcpTypes, !ToolConstructors, !CmfMessages, !CmfMessagesLaws}.
Context `{!SerdeValue CallToolResult}.

(** A plugin that returns a tool result as it got it changes at most an
    absent error flag, which becomes an explicit false: content and every other
    field come back as the backend sent them, if the result survives JSON. *)
Theorem tool_unmodified_identity (response : CallToolResult) name id v
    (Hto : to_value response = Some v) (Hfrom : from_value v = Ok response) :
  apply_payload response (tool_result_payload name response id) name id
    = Ok (set_is_error (Some (default false (is_error response))) response).
Proof.
  cbn [apply_payload CallToolResult_cmf]. unfold tool_result_response, tool_result_payload,
    tool_json_result_payload, message_payload.
  rewrite tool_results_singleton, text_content_singleton. cbn [head result_content result_is_error].
  rewrite Hto; simpl. by rewrite Hfrom.
Qed.

Context {P : Type} `{!CpexManager P} {T : Type} `{!SerdeValue T}.

(** A notification is forwarded only if the tool's post hook, invoked with
    it under the call's name, id and plugin context, allowed it; it is then the
    backend's own, untouched, or exactly what the plugin's result decodes to, and
    the context the plugin left is the one the next event or the response sees. *)
Theorem after_stream_event_spec (self : CallState (P := P)) (e e' : T) w self' w'
    (Hforward : after_stream_event self e w = (Ok (Some e'), self', w')) :
  ∃ res p, invoke_named (manager (call_runtime self)) TOOL_POST_INVOKE
      (tool_json_result_payload (call_name self) (default JNull (to_value e)) false (call_id self))
      (Some (call_context self)) (plugin_state w) = (res, p) ∧
    denied res = false ∧ call_context self' = context_table res ∧
    call_id self' = call_id self ∧ plugin_state w' = p ∧
    match modified_message_payload res with
    | None => e' = e
    | Some payload => ∃ content, tool_result_content payload = Some content ∧
                                 from_value content = Ok e'
    end.
Proof.
  unfold after_stream_event, call_invoke, invoke in Hforward.
  cbn [to_payload ToolEvent_cmf OPERATION event hooks_of snd] in Hforward.
  destruct (invoke_named _ _ _ _ _) as [res p] eqn:Hi. exists res, p. split; [done|].
  cbn [mbind result_bind] in Hforward. destruct (denied res) eqn:Hd; [by simplify_eq|].
  split; [done|]. cbn -[apply_payload] in Hforward. unfold call_apply in Hforward.
  injection Hforward as Hr <- <-. cbn. split_and!; try done.
  destruct (modified_message_payload res) as [payload|]; [|by simplify_eq/=].
  cbn in Hr. destruct (tool_result_content payload) as [content|]; [|done]. cbn in Hr.
  destruct (from_value content) as [x|] eqn:Hx; [|done]. simplify_eq/=. by exists content.
Qed.
End theorems.

(** ** A concrete tool *)

Module ConcreteTools.
Import ConcreteRmcp.
#[export] Instance tool_constructors : ToolConstructors := {|
  tool_text t := BText t None None;
  result_success c := {| tool_content := c; is_error := Some false; tool_rest := "" |};
  result_error c := {| tool_content := c; is_error := Some true; tool_rest := "" |};
  result_structured _ := {| tool_content := []; is_error := Some false; tool_rest := "structured" |};
  result_structured_error _ :=
    {| tool_content := []; is_error := Some true; tool_rest := "structured" |} |}.
(** Results of one text; events are strings. *)
#[export] Instance serde_result : SerdeValue CallToolResult := {|
  to_value r :=
    match tool_content r with [BText t _ _] => Some (JObject [("text", JString t)]) | _ => None end;
  from_value v :=
    match v with
    | JObject [(_, JString t)] =>
        Ok {| tool_content := [BText t None None]; is_error := None; tool_rest := "" |}
    | _ => Err "not a tool result"
    end |}.
#[export] Instance serde_event : SerdeValue string := {|
  to_value s := Some (JString s);
  from_value v := match v with JString s => Ok s | _ => Err "not a string" end |}.
End ConcreteTools.

Import ConcreteRmcp ConcreteCpex ConcretePrompts ConcreteTools.

Lemma tool_unmodified_identity_witness :
  let r := {| tool_content := [BText "42" None None]; is_error := None; tool_rest := "" |} in
  apply_payload r (tool_result_payload "add" r "id") "add" "id" = Ok (set_is_error (Some false) r).
Proof.
  intros r. apply (tool_unmodified_identity r "add" "id" (JObject [("text", JString "42")]));
    vm_compute; reflexivity.
Defined.

Lemma after_stream_event_spec_witness :
  let '(r, self, w) := after_stream_event (example_state "id") "50%" world in
  r = Ok (Some "50%") ∧ call_id self = "id".
Proof.
  destruct (after_stream_event (example_state "id") "50%" world) as [[r self] w] eqn:E.
  assert (r = Ok (Some "50%")) as Hr by (revert E; vm_compute; by intros [= <- _ _]).
  split; [exact Hr|]. rewrite Hr in E.
  destruct (after_stream_event_spec _ _ _ _ _ _ E) as (res & p & _ & _ & _ & Hid & _).
  exact Hid.
Defined.
