(* ===== verification/CpexRegistry.v ===== *)
(** * The runtime registry ([registry/mod.rs], [config.rs])

    The plugin runtime requests use, replaced by reloads: on request, and by a
    watcher that polls the configuration store.  What the store answers is an
    argument of each step, so every sequence of answers is covered. *)

From S2P Require Import Prelude HttpTypes Rmcp Cmf CpexRuntime.

(** [RuntimePluginConfigDocument] and its version ([runtime_plugin_config.rs]). *)
Record RuntimePluginConfigDocument : Type := { version : Z; cpex : CpexConfig }.
Definition RUNTIME_PLUGIN_CONFIG_KEY : string := "ContextForgeGatewayRuntimePluginConfig".
Definition RUNTIME_PLUGIN_CONFIG_VERSION : Z := 1.

Record LoadedRuntimePluginConfig : Type := {
  document : RuntimePluginConfigDocument;
  fingerprint : string;
}.

(** [serde_json] and [rmp_serde] on a document. *)
Class DocumentFormats := {
  document_from_json : string → option RuntimePluginConfigDocument;
  document_from_messagepack : string → option RuntimePluginConfigDocument;
}.

Section config.
Context `{!DocumentFormats}.

Definition decode_config_document (config : string)
    : result GatewayPluginRuntimeError RuntimePluginConfigDocument :=
  match document_from_json config with
  | Some d => Ok d
  | None => ok_or (document_from_messagepack config) ConfigWrongFormat
  end.

Definition decode_loaded (config : string)
    : result GatewayPluginRuntimeError LoadedRuntimePluginConfig :=
  document ← decode_config_document config;
  Ok {| document := document; fingerprint := config |}.

Definition cpex_config (document : RuntimePluginConfigDocument)
    : result GatewayPluginRuntimeError CpexConfig :=
  if negb (version document =? RUNTIME_PLUGIN_CONFIG_VERSION) then Err ConfigWrongFormat
  else Ok (cpex document).

(** [RedisRuntimePluginConfigStore]: the connection is opened on first use and
    kept; [connect] and [get] are what Redis answers. *)
Definition store_get_config (connected : bool) (connect : result string ())
    (get : string → result string (option string))
    : result GatewayPluginRuntimeError (option LoadedRuntimePluginConfig) * bool :=
  match (if connected then Ok () else map_err (λ _, ConfigStoreUnavailable) connect) with
  | Err e => (Err e, connected)
  | Ok _ =>
      (maybe ← map_err (λ _, ConfigStoreUnavailable) (get RUNTIME_PLUGIN_CONFIG_KEY);
       match maybe with
       | None => Ok None
       | Some config => loaded ← decode_loaded config; Ok (Some loaded)
       end, true)
  end.
End config.

Section registry.
Context `{!CmfConstants} {P : Type} `{!CpexManager P}.

Inductive RuntimeState : Type :=
| Active (runtime : GatewayPluginRuntime (P := P))
| Failed (error : string).

(** The registry: the swappable runtime, the factories, whether the watcher runs
    (it shares the factories) and what it applied last. *)
Record CpexRuntimeRegistry : Type := {
  runtime : RuntimeState;
  has_store : bool;
  factories : Factories;
  watcher_started : bool;
  last_applied_config : option string;
}.

Definition set_runtime (s : RuntimeState) (r : CpexRuntimeRegistry) : CpexRuntimeRegistry := {|
  runtime := s; has_store := has_store r; factories := factories r;
  watcher_started := watcher_started r; last_applied_config := last_applied_config r |}.
Definition set_last (l : option string) (r : CpexRuntimeRegistry) : CpexRuntimeRegistry := {|
  runtime := runtime r; has_store := has_store r; factories := factories r;
  watcher_started := watcher_started r; last_applied_config := l |}.

(** What the configuration store answers to one [get_config]. *)
Definition Answer : Type := result GatewayPluginRuntimeError (option LoadedRuntimePluginConfig).

Definition apply_runtime_config (config : option CpexConfig) (r : CpexRuntimeRegistry) (w : World P)
    : result GatewayPluginRuntimeError () * CpexRuntimeRegistry * World P :=
  match config with
  | None => (Ok (), set_runtime (Active GatewayPluginRuntime_default) r, w)
  | Some config =>
      let '(built, w) := from_config config (factories r) w in
      match built with
      | Ok runtime => (Ok (), set_runtime (Active runtime) r, w)
      | Err e => (Err e, r, w)
      end
  end.

Definition set_runtime_failed (e : GatewayPluginRuntimeError) (r : CpexRuntimeRegistry)
    : CpexRuntimeRegistry := set_runtime (Failed (runtime_error_to_string e)) r.

(** The [async] block of [reload_runtime]. *)
Definition reload_attempt (answer : Answer) (last : option string) (r : CpexRuntimeRegistry)
    (w : World P)
    : result GatewayPluginRuntimeError (option string) * CpexRuntimeRegistry * World P :=
  match (loaded ← answer; ok_or loaded ConfigMissing) with
  | Err e => (Err e, r, w)
  | Ok config =>
      if bool_decide (last = Some (fingerprint config)) then (Ok None, r, w) else
      match cpex_config (document config) with
      | Err e => (Err e, r, w)
      | Ok cpex =>
          let '(applied, r, w) := apply_runtime_config (Some cpex) r w in
          (match applied with Ok _ => Ok (Some (fingerprint config)) | Err e => Err e end, r, w)
      end
  end.

Definition reload_runtime (answer : Answer) (last : option string) (r : CpexRuntimeRegistry)
    (w : World P)
    : result GatewayPluginRuntimeError (option string) * CpexRuntimeRegistry * World P :=
  if negb (has_store r) then (Ok None, r, w) else
  let '(res, r, w) := reload_attempt answer last r w in
  match res with
  | Err e => (Err e, set_runtime_failed e r, w)
  | Ok fp => (Ok fp, r, w)
  end.

Definition reload (answer : Answer) (r : CpexRuntimeRegistry) (w : World P)
    : result GatewayPluginRuntimeError () * CpexRuntimeRegistry * World P :=
  let '(res, r, w) := reload_runtime answer None r w in
  (match res with Ok _ => Ok () | Err e => Err e end, r, w).

(** [apply_config]: unlike [reload], a failure leaves the runtime as it is. *)
Definition apply_config (config : option CpexConfig) (r : CpexRuntimeRegistry) (w : World P)
    : result GatewayPluginRuntimeError () * CpexRuntimeRegistry * World P :=
  apply_runtime_config config r w.

(** [start_config_watcher]. *)
Definition start_config_watcher (initial_config : option string) (r : CpexRuntimeRegistry)
    : CpexRuntimeRegistry :=
  if negb (has_store r) || watcher_started r then r else
  {| runtime := runtime r; has_store := has_store r; factories := factories r;
     watcher_started := true; last_applied_config := initial_config |}.

(** One turn of the watcher's loop. *)
Definition watcher_turn (answer : Answer) (r : CpexRuntimeRegistry) (w : World P)
    : CpexRuntimeRegistry * World P :=
  let '(res, r, w) := reload_runtime answer (last_applied_config r) r w in
  (match res with
   | Ok (Some fingerprint) => set_last (Some fingerprint) r
   | Ok None => r
   | Err _ => set_last None r
   end, w).

Definition initialize (answer : Answer) (r : CpexRuntimeRegistry) (w : World P)
    : result GatewayPluginRuntimeError () * CpexRuntimeRegistry * World P :=
  let '(res, r, w) := reload_runtime answer None r w in
  match res with
  | Err e => (Err e, r, w)
  | Ok initial => (Ok (), start_config_watcher initial r, w)
  end.

(** [register_factory]: [Arc::get_mut] needs the factories unshared. *)
Definition register_factory (register : Factories → Factories) (r : CpexRuntimeRegistry)
    : result GatewayPluginRuntimeError CpexRuntimeRegistry :=
  if watcher_started r then Err FactoryRegistryShared else
  Ok {| runtime := runtime r; has_store := has_store r; factories := register (factories r);
        watcher_started := watcher_started r; last_applied_config := last_applied_config r |}.

(** [GatewayPluginRuntimeHandle::current]: a failed runtime rejects the call. *)
Definition current (s : RuntimeState) : result ErrorData GatewayPluginRuntime :=
  match s with
  | Active runtime => Ok runtime
  | Failed _ => Err (error INTERNAL_ERROR "Runtime plugin reload failed")
  end.
End registry.
Arguments RuntimeState P {_}.
Arguments CpexRuntimeRegistry P {_}.

(** ** Theorems *)

Section watching.
Context `{!CmfConstants} {P : Type} `{!CpexManager P}.
Implicit Types (r : CpexRuntimeRegistry P) (w : World P).

(** A runtime was built from a configuration, at some moment. *)
Definition built_from (f : Factories) (config : CpexConfig) (rt : GatewayPluginRuntime (P := P)) : Prop :=
  ∃ w w', from_config config f w = (Ok rt, w').

(** The configuration an answer asks for. *)
Definition wanted (answer : Answer) : option (CpexConfig * string) :=
  match answer with
  | Ok (Some loaded) =>
      match cpex_config (document loaded) with
      | Ok config => Some (config, fingerprint loaded)
      | Err _ => None
      end
  | _ => None
  end.

(** The answers are read from one store: equal bytes decode to equal documents. *)
Definition consistent (decoded : string → option CpexConfig) (answer : Answer) : Prop :=
  ∀ loaded, answer = Ok (Some loaded) →
    decoded (fingerprint loaded) = result_ok (cpex_config (document loaded)).

(** Between turns the watcher's memory is right: what it applied last is what
    runs, and if it remembers nothing the runtime is failed. *)
Definition watcher_inv (decoded : string → option CpexConfig) r : Prop :=
  has_store r = true ∧
  match last_applied_config r with
  | Some fp => ∃ rt config, runtime r = Active rt ∧ decoded fp = Some config ∧
                            built_from (factories r) config rt
  | None => ∃ e, runtime r = Failed e
  end.

Lemma watcher_turn_spec decoded answer r w r' w' :
  watcher_inv decoded r → consistent decoded answer → watcher_turn answer r w = (r', w') →
  watcher_inv decoded r' ∧ factories r' = factories r ∧
  match runtime r' with
  | Active rt => ∃ config fp, wanted answer = Some (config, fp) ∧
                              built_from (factories r) config rt
  | Failed _ => ∀ config fp, wanted answer = Some (config, fp) →
                  ∃ e w0 w1, from_config config (factories r) w0 = (Err e, w1)
  end.
Proof.
  intros [Hstore Hinv] Hcons. unfold watcher_turn, reload_runtime. rewrite Hstore; cbn [negb].
  unfold reload_attempt, wanted.
  destruct answer as [[loaded|]|e]; cbn [mbind result_bind ok_or];
    [|intros [= <- <-]; split_and!; [by split; [|eexists]|done|done]..].
  specialize (Hcons loaded eq_refl). case_bool_decide as Hlast.
  - intros [= <- <-]. split_and!; [done|done|].
    rewrite Hlast in Hinv. destruct Hinv as (rt & config & Hrt & Hdec & Hbuilt). rewrite Hrt.
    rewrite Hcons in Hdec. destruct (cpex_config (document loaded)); [|done]. simplify_eq/=.
    by exists config, (fingerprint loaded).
  - destruct (cpex_config (document loaded)) as [config|] eqn:Hconfig;
      [|intros [= <- <-]; split_and!; [by split; [|eexists]|done|done]].
    unfold apply_runtime_config.
    destruct (from_config config (factories r) w) as [[rt|e] w1] eqn:Hb; intros [= <- <-].
    + split_and!; [split; [done|]|done|].
      * exists rt, config. split_and!; [done|done|by eexists _, _].
      * exists config, (fingerprint loaded). split; [done|by eexists _, _].
    + split_and!; [by split; [|eexists]|done|].
      intros config' fp' [= <- _]. by exists e, w, w1.
Qed.

(** The turns of the watcher, alone on the registry. *)
Fixpoint watch (answers : list Answer) r w : CpexRuntimeRegistry P * World P :=
  match answers with
  | [] => (r, w)
  | answer :: answers => let '(r, w) := watcher_turn answer r w in watch answers r w
  end.

Lemma watch_inv decoded answers : ∀ r w r' w',
  watcher_inv decoded r → Forall (consistent decoded) answers → watch answers r w = (r', w') →
  watcher_inv decoded r' ∧ factories r' = factories r.
Proof.
  induction answers as [|answer answers IH]; intros r w r' w' Hinv Hall; cbn [watch].
  { by intros [= <- _]. }
  apply Forall_cons in Hall as [Hc Hall].
  destruct (watcher_turn answer r w) as [r1 w1] eqn:Ht. intros Hw.
  destruct (watcher_turn_spec _ _ _ _ _ _ Hinv Hc Ht) as (Hinv1 & Hf & _).
  destruct (IH _ _ _ _ Hinv1 Hall Hw) as [? ->]. done.
Qed.

Lemma watch_app a1 a2 r w :
  watch (a1 ++ a2) r w = (let '(r, w) := watch a1 r w in watch a2 r w).
Proof.
  revert r w; induction a1 as [|a a1 IH]; intros r w; cbn [app watch]; [done|].
  destruct (watcher_turn a r w). apply IH.
Qed.

Lemma initialize_inv decoded answer r w r' w' :
  has_store r = true → watcher_started r = false → consistent decoded answer →
  initialize answer r w = (Ok (), r', w') → watcher_inv decoded r' ∧ factories r' = factories r.
Proof.
  intros Hstore Hnew Hcons. unfold initialize, reload_runtime. rewrite Hstore; cbn [negb].
  unfold reload_attempt. destruct answer as [[loaded|]|e]; try done. cbn [mbind result_bind ok_or].
  specialize (Hcons loaded eq_refl). rewrite bool_decide_eq_false_2 by done.
  destruct (cpex_config (document loaded)) as [config|]; [|done]. unfold apply_runtime_config.
  destruct (from_config config (factories r) w) as [[rt|e] w1] eqn:Hb; [|done].
  unfold start_config_watcher. cbn. rewrite Hstore, Hnew. intros [= <- <-].
  split; [split; [done|]|done]. exists rt, config. cbn. split_and!; [done|done|by eexists _, _].
Qed.

(** C19: the watcher keeps requests on the stored configuration.  Once the
    registry has started with a store and whatever answers came since, right after
    a turn the runtime is active only if the last answer was a valid document, and
    is then one built from exactly that document's configuration; it has failed,
    and every call is rejected, only if the store could not give a valid document
    or the configuration could not be built: a bad configuration never leaves an
    older one running, and one turn with a good one recovers. *)
Theorem watcher_tracks_store decoded r0 w0 first r1 w1 answers last r2 w2
    (Hstore : has_store r0 = true) (Hnew : watcher_started r0 = false)
    (Hstart : initialize first r0 w0 = (Ok (), r1, w1))
    (Hconsistent : Forall (consistent decoded) (first :: answers ++ [last]))
    (Hrun : watch (answers ++ [last]) r1 w1 = (r2, w2)) :
  match runtime r2 with
  | Active rt =>
      ∃ config fp, wanted last = Some (config, fp) ∧ built_from (factories r0) config rt
  | Failed e =>
      current (runtime r2) = Err (error INTERNAL_ERROR "Runtime plugin reload failed") ∧
      ∀ config fp, wanted last = Some (config, fp) →
        ∃ e w w', from_config config (factories r0) w = (Err e, w')
  end.
Proof.
  apply Forall_cons in Hconsistent as [Hfirst Hrest]. apply Forall_app in Hrest as [Hall Hlast].
  apply Forall_cons in Hlast as [Hlast _].
  destruct (initialize_inv _ _ _ _ _ _ Hstore Hnew Hfirst Hstart) as [Hinv1 Hf1].
  rewrite watch_app in Hrun. destruct (watch answers r1 w1) as [ra wa] eqn:Ha.
  destruct (watch_inv _ _ _ _ _ _ Hinv1 Hall Ha) as [Hinv Hfa]. cbn [watch] in Hrun.
  destruct (watcher_turn last ra wa) as [rb wb] eqn:Hb. injection Hrun as <- <-.
  destruct (watcher_turn_spec _ _ _ _ _ _ Hinv Hlast Hb) as (_ & _ & Hres).
  rewrite Hfa, Hf1 in Hres. by destruct (runtime rb).
Qed.

(** C35: a failed reload from outside is not undone by the watcher: after an
    explicit [reload] fails while the watcher remembers the stored bytes, every turn
    that reads the same bytes again leaves the runtime failed, however often, so
    calls are rejected until the stored configuration changes. *)
Theorem external_failure_sticks loaded answer answers r w r1 w1 r2 w2 e
    (Hstore : has_store r = true)
    (Hremembers : last_applied_config r = Some (fingerprint loaded))
    (Hfails : reload answer r w = (Err e, r1, w1))
    (Hsame : Forall (λ a, a = Ok (Some loaded)) answers)
    (Hrun : watch answers r1 w1 = (r2, w2)) :
  runtime r2 = Failed (runtime_error_to_string e) ∧ w2 = w1.
Proof.
  assert (has_store r1 = true ∧ last_applied_config r1 = Some (fingerprint loaded) ∧
          runtime r1 = Failed (runtime_error_to_string e)) as Hinv.
  { unfold reload, reload_runtime in Hfails. rewrite Hstore in Hfails; cbn [negb] in Hfails.
    destruct (reload_attempt answer None r w) as [[res ra] wa] eqn:Ha.
    assert (has_store ra = true ∧ last_applied_config ra = Some (fingerprint loaded)) as [Hs Hl].
    { unfold reload_attempt, apply_runtime_config in Ha.
      repeat (case_match || simplify_eq/=); done. }
    destruct res as [fp|e']; [done|]. injection Hfails as -> <- _. by split_and!. }
  clear Hfails Hstore Hremembers. revert r1 w1 Hinv Hrun.
  induction Hsame as [|a answers -> _ IH]; intros r1 w1 (Hs & Hl & Hr); cbn [watch].
  { by intros [= <- <-]. }
  assert (watcher_turn (Ok (Some loaded)) r1 w1 = (r1, w1)) as ->; [|by apply IH].
  unfold watcher_turn, reload_runtime, reload_attempt. rewrite Hs, Hl; cbn.
  by rewrite bool_decide_eq_true_2.
Qed.
End watching.

(** ** A concrete registry *)

Import ConcreteCpex.

Definition example_registry : CpexRuntimeRegistry Z := {|
  runtime := Active GatewayPluginRuntime_default; has_store := true;
  factories := (() : @Factories Z ConcreteCpex.manager); watcher_started := false;
  last_applied_config := None |}.
Definition example_loaded : LoadedRuntimePluginConfig :=
  {| document := {| version := 1; cpex := config |}; fingerprint := "v1" |}.
Definition example_decoded (fp : string) : option CpexConfig :=
  if String.eqb fp "v1" then Some config else None.
Definition started : CpexRuntimeRegistry Z :=
  (initialize (Ok (Some example_loaded)) example_registry world).1.2.
Definition started_world : World Z :=
  (initialize (Ok (Some example_loaded)) example_registry world).2.

Lemma watcher_tracks_store_witness :
  match runtime (watch [Err ConfigStoreUnavailable; Ok (Some example_loaded)]
                   started started_world).1 with
  | Active rt => ∃ c fp, wanted (Ok (Some example_loaded)) = Some (c, fp) ∧ built_from () c rt
  | Failed _ => False
  end.
Proof.
  pose proof (watcher_tracks_store example_decoded example_registry world
    (Ok (Some example_loaded)) started started_world [Err ConfigStoreUnavailable]
    (Ok (Some example_loaded))
    (watch [Err ConfigStoreUnavailable; Ok (Some example_loaded)] started started_world).1
    (watch [Err ConfigStoreUnavailable; Ok (Some example_loaded)] started started_world).2) as H.
  destruct (runtime (watch _ started started_world).1) eqn:E; [|revert E; vm_compute; discriminate].
  apply H.
  - reflexivity.
  - reflexivity.
  - vm_compute. reflexivity.
  - repeat (apply Forall_cons; split); [..|constructor]; intros loaded; try discriminate;
      intros [= <-]; reflexivity.
  - cbn [app]. by destruct (watch _ started started_world).
Defined.

Lemma external_failure_sticks_witness :
  let '(_, r1, w1) := reload (Err ConfigStoreUnavailable) started started_world in
  runtime (watch [Ok (Some example_loaded); Ok (Some example_loaded)] r1 w1).1
    = Failed "runtime plugin config store disconnected".
Proof.
  destruct (reload (Err ConfigStoreUnavailable) started started_world) as [[r r1] w1] eqn:E.
  assert (r = Err ConfigStoreUnavailable) as Hr by (revert E; vm_compute; by intros [= <- _ _]).
  rewrite Hr in E.
  destruct (watch [Ok (Some example_loaded); Ok (Some example_loaded)] r1 w1) as [r2 w2] eqn:Hw.
  destruct (external_failure_sticks example_loaded (Err ConfigStoreUnavailable)
    [Ok (Some example_loaded); Ok (Some example_loaded)] started started_world r1 w1 r2 w2
    ConfigStoreUnavailable) as [Hf _].
  - reflexivity.
  - vm_compute. reflexivity.
  - exact E.
  - repeat constructor.
  - exact Hw.
  - exact Hf.
Defined.
