(* ===== verification/PluginLifetimes.v ===== *)
(** * The lifetime of plugin runtimes ([cpex]: [registry/mod.rs], [runtime.rs])

    Reloads replace the runtime while calls use the one they loaded.  A runtime is
    shared: by the state the registry's [ArcSwap] holds, by a call that is running
    its first hook, and by the hook state that a tool call shares with its progress
    relay.  The last owner drops it, and dropping it shuts its plugin manager down.
    The model keeps the strong count of every [Arc] that is involved and lets the
    operations of calls, reloads, handles and watcher interleave at will. *)

From S2P Require Import Prelude.
#[local] Open Scope nat_scope.

(** ** The heap of shared values *)

(** A [RuntimeState] is active, and then owns the runtime of the same number, or
    failed. *)
Inductive StateKind : Type := ActiveState | FailedState.
Record Heap : Type := {
  states : gmap nat (nat * StateKind);
  runtimes : gmap nat nat;
  (** dropped runtimes, and whether their managers were shut down *)
  ended : list (nat * bool);
}.
Definition set_states (m : gmap nat (nat * StateKind)) (h : Heap) : Heap :=
  {| states := m; runtimes := runtimes h; ended := ended h |}.
Definition set_runtimes (m : gmap nat nat) (h : Heap) : Heap :=
  {| states := states h; runtimes := m; ended := ended h |}.

(** [Drop for GatewayPluginRuntime]: [tokio] says whether it runs in a Tokio
    context, where the manager's shutdown can be spawned. *)
Definition drop_GatewayPluginRuntime (tokio : bool) (r : nat) (h : Heap) : Heap :=
  {| states := states h; runtimes := delete r (runtimes h); ended := (r, tokio) :: ended h |}.

(** [Arc::clone] and the drop of one [Arc]. *)
Definition clone_runtime (r : nat) (h : Heap) : Heap :=
  set_runtimes (alter S r (runtimes h)) h.
Definition drop_runtime (tokio : bool) (r : nat) (h : Heap) : Heap :=
  match runtimes h !! r with
  | Some 1 => drop_GatewayPluginRuntime tokio r h
  | _ => set_runtimes (alter pred r (runtimes h)) h
  end.
Definition clone_state (i : nat) (h : Heap) : Heap :=
  set_states (alter (λ '(n, k), (S n, k)) i (states h)) h.
Definition drop_state (tokio : bool) (i : nat) (h : Heap) : Heap :=
  match states h !! i with
  | Some (1, k) =>
      let h := set_states (delete i (states h)) h in
      match k with ActiveState => drop_runtime tokio i h | FailedState => h end
  | _ => set_states (alter (λ '(n, k), (pred n, k)) i (states h)) h
  end.

(** [Arc::new(RuntimeState::Active(Arc::new(runtime)))], or of [Failed]. *)
Definition new_state (i : nat) (k : StateKind) (h : Heap) : Heap := {|
  states := <[i := (1, k)]> (states h);
  runtimes := match k with ActiveState => <[i := 1]> (runtimes h) | FailedState => runtimes h end;
  ended := ended h |}.

(** ** The system *)

(** What a call owns: the guard of the loaded state; the runtime, until its pre hook
    is done; the hook state, shared by [shares] owners. *)
Inductive CallPhase : Type :=
| Guarded (i : nat)
| Before (r : nat)
| Called (r : nat) (shares : nat).
Inductive WatcherPhase : Type := NotStarted | Sleeping | Turning | Stopped.

(** [handles] is the strong count of the [ArcSwap] itself, of the registry, the
    handles and the watcher's turn.  [created] is a ghost. *)
Record Lifetimes : Type := {
  handles : nat;
  watcher : WatcherPhase;
  slot : nat;
  heap : Heap;
  calls : gmap nat CallPhase;
  created : list nat;
  next : nat;
}.
Definition set_heap (h : Heap) (s : Lifetimes) : Lifetimes := {|
  handles := handles s; watcher := watcher s; slot := slot s; heap := h; calls := calls s;
  created := created s; next := next s |}.
Definition set_calls (m : gmap nat CallPhase) (s : Lifetimes) : Lifetimes := {|
  handles := handles s; watcher := watcher s; slot := slot s; heap := heap s; calls := m;
  created := created s; next := next s |}.
Definition set_handles (n : nat) (s : Lifetimes) : Lifetimes := {|
  handles := n; watcher := watcher s; slot := slot s; heap := heap s; calls := calls s;
  created := created s; next := next s |}.
Definition set_watcher (p : WatcherPhase) (s : Lifetimes) : Lifetimes := {|
  handles := handles s; watcher := p; slot := slot s; heap := heap s; calls := calls s;
  created := created s; next := next s |}.

(** [CpexRuntimeRegistry::default]. *)
Definition registry_start : Lifetimes := {|
  handles := 1; watcher := NotStarted; slot := 0;
  heap := new_state 0 ActiveState {| states := ∅; runtimes := ∅; ended := [] |};
  calls := ∅; created := [0]; next := 1 |}.

(** [drop(runtime.swap(..))]. *)
Definition swap (tokio : bool) (k : StateKind) (s : Lifetimes) : Lifetimes := {|
  handles := handles s; watcher := watcher s; slot := next s;
  heap := drop_state tokio (slot s) (new_state (next s) k (heap s));
  calls := calls s;
  created := match k with ActiveState => next s :: created s | FailedState => created s end;
  next := S (next s) |}.

(** The drop of an [Arc<ArcSwap<..>>]; the last one drops the state in the slot. *)
Definition drop_handle (tokio : bool) (s : Lifetimes) : Lifetimes :=
  let s := set_handles (pred (handles s)) s in
  if handles s =? 0 then set_heap (drop_state tokio (slot s) (heap s)) s else s.

Inductive Event : Type :=
(* the registry, its handles and reloads *)
| CloneHandle | DropHandle | Swap (k : StateKind)
(* the watcher *)
| StartWatcher | WatcherWakes | WatcherTurned
(* [GatewayPluginRuntimeHandle::current] *)
| Load (c : nat) | CloneLoaded (c : nat)
(* [before]: a hook state is kept, or there is none and the call goes on alone *)
| KeepState (c : nat) | LeaveBefore (c : nat)
(* the hook state *)
| ShareState (c : nat) | ReleaseState (c : nat).

(** [None] where the code cannot take the step. *)
Definition step (e : Event) (tokio : bool) (s : Lifetimes) : option Lifetimes :=
  match e with
  | CloneHandle => guard (0 < handles s);; Some (set_handles (S (handles s)) s)
  | DropHandle =>
      guard (match watcher s with Turning => 1 | _ => 0 end < handles s);;
      Some (drop_handle tokio s)
  | Swap k => guard (0 < handles s);; Some (swap tokio k s)
  | StartWatcher =>
      match watcher s with
      | NotStarted => guard (0 < handles s);; Some (set_watcher Sleeping s)
      | _ => None
      end
  | WatcherWakes =>
      match watcher s with
      | Sleeping =>
          Some (if handles s =? 0 then set_watcher Stopped s
                else set_watcher Turning (set_handles (S (handles s)) s))
      | _ => None
      end
  | WatcherTurned =>
      match watcher s with
      | Turning => Some (set_watcher Sleeping (drop_handle tokio s))
      | _ => None
      end
  | Load c =>
      guard (0 < handles s ∧ calls s !! c = None);;
      Some (set_calls (<[c := Guarded (slot s)]> (calls s))
              (set_heap (clone_state (slot s) (heap s)) s))
  | CloneLoaded c =>
      match calls s !! c with
      | Some (Guarded i) =>
          match states (heap s) !! i with
          | Some (_, ActiveState) =>
              Some (set_calls (<[c := Before i]> (calls s))
                      (set_heap (drop_state tokio i (clone_runtime i (heap s))) s))
          | _ =>
              Some (set_calls (delete c (calls s)) (set_heap (drop_state tokio i (heap s)) s))
          end
      | _ => None
      end
  | KeepState c =>
      match calls s !! c with
      | Some (Before r) =>
          Some (set_calls (<[c := Called r 1]> (calls s))
                  (set_heap (drop_runtime tokio r (clone_runtime r (heap s))) s))
      | _ => None
      end
  | LeaveBefore c =>
      match calls s !! c with
      | Some (Before r) =>
          Some (set_calls (delete c (calls s)) (set_heap (drop_runtime tokio r (heap s)) s))
      | _ => None
      end
  | ShareState c =>
      match calls s !! c with
      | Some (Called r n) => Some (set_calls (<[c := Called r (S n)]> (calls s)) s)
      | _ => None
      end
  | ReleaseState c =>
      match calls s !! c with
      | Some (Called r (S (S n))) => Some (set_calls (<[c := Called r (S n)]> (calls s)) s)
      | Some (Called r _) =>
          Some (set_calls (delete c (calls s)) (set_heap (drop_runtime tokio r (heap s)) s))
      | _ => None
      end
  end.
Definition run (events : list (Event * bool)) (s : Lifetimes) : option Lifetimes :=
  foldl (λ s e, s ← s; step e.1 e.2 s) (Some s) events.

(** The runtime a call's hooks run on: the one it loaded, from the first hook to the
    last. *)
Definition phase_on (p : option CallPhase) : option nat :=
  match p with Some (Before r) | Some (Called r _) => Some r | _ => None end.
Definition hooks_on (s : Lifetimes) (c : nat) : option nat := phase_on (calls s !! c).

(** ** Counting owners *)

Definition total {A} (f : A → nat) (m : gmap nat A) : nat :=
  sum_list_with (f ∘ snd) (map_to_list m).
Section totals.
Context {A : Type} (f : A → nat).
Implicit Types (m : gmap nat A).

Lemma total_empty : total f ∅ = 0.
Proof. unfold total. by rewrite map_to_list_empty. Qed.
Lemma total_insert m c p : m !! c = None → total f (<[c := p]> m) = f p + total f m.
Proof. intros Hc. unfold total. by rewrite map_to_list_insert. Qed.
Lemma total_delete m c p : m !! c = Some p → total f m = f p + total f (delete c m).
Proof. intros Hc. unfold total. by rewrite <- (map_to_list_delete _ _ _ Hc). Qed.
Lemma total_update m c p q :
  m !! c = Some p → total f (<[c := q]> m) + f p = total f m + f q.
Proof.
  intros Hc. rewrite <- insert_delete_eq, total_insert by apply lookup_delete_eq.
  rewrite (total_delete m c p Hc). lia.
Qed.
Lemma total_pos m c p : m !! c = Some p → f p ≤ total f m.
Proof. intros Hc. rewrite (total_delete _ _ _ Hc). lia. Qed.
Lemma total_zero m : (∀ c p, m !! c = Some p → f p = 0) → total f m = 0.
Proof.
  intros Hf. unfold total. assert (∀ x, x ∈ map_to_list m → f x.2 = 0) as Hl.
  { intros [c p] Hx%elem_of_map_to_list. by eapply Hf. }
  induction (map_to_list m) as [|x l IH]; cbn; [done|].
  rewrite IH by set_solver. rewrite (Hl x) by set_solver. done.
Qed.
Lemma total_pos_inv m : 0 < total f m → ∃ c p, m !! c = Some p ∧ 0 < f p.
Proof.
  unfold total. intros H.
  assert (∃ x, x ∈ map_to_list m ∧ 0 < f x.2) as ([c p] & Hx & Hp).
  { induction (map_to_list m) as [|x l IH]; cbn in H; [lia|].
    destruct (Nat.eq_0_gt_0_cases (f x.2)) as [Hz|Hpos].
    - destruct IH as (y & ? & ?); [lia|]. exists y. split; [by right|done].
    - exists x. split; [by left|lia]. }
  exists c, p. split; [by apply elem_of_map_to_list|done].
Qed.
End totals.

Definition one (b : bool) : nat := if b then 1 else 0.
(** What a call owns of the state [i], and of the runtime [r]. *)
Definition guards (i : nat) (p : CallPhase) : nat :=
  match p with Guarded j => one (i =? j) | _ => 0 end.
Definition uses (r : nat) (p : CallPhase) : nat :=
  match p with Before j | Called j _ => one (r =? j) | _ => 0 end.

(** ** The heap against its owners

    [fs] and [fr] count the owners of each state and, the states apart, of each
    runtime. *)
Definition active (h : Heap) (r : nat) : nat :=
  match states h !! r with Some (_, ActiveState) => 1 | _ => 0 end.
Record heap_ok (h : Heap) (fs fr : nat → nat) : Prop := {
  ok_states i : match states h !! i with Some (n, _) => n = fs i ∧ 0 < n | None => fs i = 0 end;
  ok_runtimes r :
    match runtimes h !! r with
    | Some n => n = fr r + active h r ∧ 0 < n ∧ r ∉ (ended h).*1
    | None => fr r + active h r = 0
    end;
  ok_ended : NoDup (ended h).*1;
}.
Definition more (i : nat) (f : nat → nat) : nat → nat := λ j, one (j =? i) + f j.

Lemma heap_ok_ext h fs fr fs' fr' :
  heap_ok h fs fr → (∀ i, fs i = fs' i) → (∀ r, fr r = fr' r) → heap_ok h fs' fr'.
Proof.
  intros [Hs Hr He] Hfs Hfr. split; [|intros r|done].
  - intros i. rewrite <- Hfs. apply Hs.
  - rewrite <- Hfr. apply Hr.
Qed.

Ltac at_index i j :=
  destruct (Nat.eq_dec i j) as [->|];
  rewrite ?Nat.eqb_refl, ?lookup_alter_eq, ?lookup_delete_eq, ?lookup_insert_eq,
    ?lookup_alter_ne, ?lookup_delete_ne, ?lookup_insert_ne by done.

Lemma one_ne i j : i ≠ j → one (i =? j) = 0.
Proof. intros H. by rewrite (proj2 (Nat.eqb_neq i j) H). Qed.

Lemma clone_runtime_ok h fs fr r : heap_ok h fs fr → is_Some (runtimes h !! r) →
  heap_ok (clone_runtime r h) fs (more r fr).
Proof.
  intros [Hs Hr He] [n Hn]. split; [exact Hs| |exact He]. intros j. specialize (Hr j).
  unfold clone_runtime, active, more in *. cbn in *. at_index j r.
  - rewrite Hn in *. cbn. destruct Hr as (-> & ? & ?). split_and!; [lia|lia|done].
  - rewrite one_ne by done. apply Hr.
Qed.
Lemma drop_runtime_ok h fs fr r tokio : heap_ok h fs (more r fr) →
  heap_ok (drop_runtime tokio r h) fs fr.
Proof.
  intros [Hs Hr He]. unfold drop_runtime.
  pose proof (Hr r) as Hrr. unfold more in Hrr. rewrite Nat.eqb_refl in Hrr. cbn [one] in Hrr.
  destruct (runtimes h !! r) as [n|] eqn:Hn; [|lia]. destruct Hrr as (Heq & Hpos & Hend).
  assert (n = 1 ∨ 1 < n) as [->|Hmore] by lia.
  - split; [exact Hs| |].
    + intros j. specialize (Hr j). unfold more in Hr. unfold active in *. cbn. at_index j r.
      * lia.
      * rewrite one_ne in Hr by done. destruct (runtimes h !! j); [|done].
        destruct Hr as (? & ? & ?). split_and!; [done..|]. set_solver.
    + cbn. constructor; done.
  - replace (match n with 1 => _ | _ => _ end)
      with (set_runtimes (alter pred r (runtimes h)) h) by (destruct n as [|[|]]; [lia..|done]).
    split; [exact Hs| |exact He]. intros j. specialize (Hr j). unfold more in Hr.
    unfold active in *. cbn. at_index j r.
    + rewrite Hn. cbn. split_and!; [lia|lia|done].
    + rewrite one_ne in Hr by done. apply Hr.
Qed.
Lemma clone_state_ok h fs fr i : heap_ok h fs fr → is_Some (states h !! i) →
  heap_ok (clone_state i h) (more i fs) fr.
Proof.
  intros [Hs Hr He] [[n k] Hn].
  assert (∀ r, active (clone_state i h) r = active h r) as Hact.
  { intros r. unfold active, clone_state; cbn. at_index r i; [by rewrite Hn|done]. }
  split; [| |exact He].
  - intros j. specialize (Hs j). unfold clone_state, more; cbn. at_index j i.
    + rewrite Hn in *. cbn. lia.
    + rewrite one_ne by done. apply Hs.
  - intros r. rewrite Hact. apply Hr.
Qed.
Lemma drop_state_ok h fs fr i tokio : heap_ok h (more i fs) fr →
  heap_ok (drop_state tokio i h) fs fr.
Proof.
  intros [Hs Hr He]. unfold drop_state.
  pose proof (Hs i) as Hi. unfold more in Hi. rewrite Nat.eqb_refl in Hi. cbn [one] in Hi.
  destruct (states h !! i) as [[n k]|] eqn:Hn; [|lia]. destruct Hi as [Heq Hpos].
  assert (∀ j, j ≠ i → match states h !! j with
                        | Some (n, _) => n = fs j ∧ 0 < n | None => fs j = 0 end) as Hother.
  { intros j Hj. specialize (Hs j). unfold more in Hs. by rewrite one_ne in Hs. }
  assert (n = 1 ∨ 1 < n) as [->|Hmore] by lia.
  - set (h' := set_states (delete i (states h)) h).
    enough (heap_ok h' fs (λ r, one (match k with ActiveState => r =? i | FailedState => false end)
                                + fr r)) as Hok.
    { destruct k; [by apply drop_runtime_ok|]. eapply heap_ok_ext; [exact Hok|done|done]. }
    split; [| |exact He].
    + intros j. unfold h'; cbn. at_index j i; [lia|by apply Hother].
    + intros r. specialize (Hr r). unfold active, h' in *; cbn. at_index r i.
      * rewrite Hn in Hr. destruct k; cbn [one];
          destruct (runtimes h !! i); try done; try lia; destruct Hr as (? & ? & ?);
          (split_and!; [lia|lia|done]).
      * destruct k; rewrite ?one_ne by done; exact Hr.
  - replace (match n with 1 => _ | _ => _ end)
      with (set_states (alter (λ '(n, k), (pred n, k)) i (states h)) h)
      by (destruct n as [|[|]]; [lia..|done]).
    split; [| |exact He].
    + intros j. cbn. at_index j i; [rewrite Hn; cbn; lia|by apply Hother].
    + intros r. specialize (Hr r). unfold active in *; cbn. at_index r i.
      * rewrite Hn in *. exact Hr.
      * exact Hr.
Qed.
Lemma new_state_ok h fs fr i k : heap_ok h fs fr →
  states h !! i = None → runtimes h !! i = None → i ∉ (ended h).*1 →
  heap_ok (new_state i k h) (more i fs) fr.
Proof.
  intros [Hs Hr He] Hi Hri Hend. split; [| |exact He].
  - intros j. specialize (Hs j). unfold more; cbn. at_index j i.
    + rewrite Hi in Hs. cbn [one]. lia.
    + rewrite one_ne by done. exact Hs.
  - intros r. specialize (Hr r). unfold active in *; cbn. at_index r i.
    + rewrite Hi, Hri in *. destruct k; [rewrite lookup_insert_eq|rewrite Hri]; [|lia].
      split_and!; [lia|lia|done].
    + destruct k; [rewrite lookup_insert_ne by done|]; exact Hr.
Qed.

(** ** Which runtimes there have been *)

Definition known (h : Heap) (r : nat) : Prop := is_Some (runtimes h !! r) ∨ r ∈ (ended h).*1.
(** An operation on the heap that makes no state and forgets no runtime. *)
Definition keeps_known (h h' : Heap) : Prop :=
  (∀ r, known h' r ↔ known h r) ∧ 
  (∀ i n k, states h' !! i = Some (n, k) → ∃ n', states h !! i = Some (n', k)).

#[export] Instance keeps_known_preorder : PreOrder keeps_known.
Proof.
  split; [intros h; split; [done|by eauto]|]. intros h1 h2 h3 [Hk1 Hs1] [Hk2 Hs2].
  split; [intros r; by rewrite Hk2|]. intros i n k [n' Hn]%Hs2. eauto.
Qed.
Lemma clone_runtime_known r h : keeps_known h (clone_runtime r h).
Proof. split; [|by eauto]. intros j. unfold known; cbn. at_index j r; by rewrite ?fmap_is_Some. Qed.
Lemma drop_runtime_known tokio r h : keeps_known h (drop_runtime tokio r h).
Proof.
  unfold drop_runtime. destruct (runtimes h !! r) as [[|[|n]]|] eqn:Hn;
    (split; [intros j; unfold known; cbn; at_index j r; rewrite ?Hn, ?fmap_is_Some|by eauto]); try done.
  - split; [intros _; left; by eexists|intros _; right; by left].
  - split; (intros [?|?]; [by left|right]); set_solver.
Qed.
Lemma clone_state_known i h : keeps_known h (clone_state i h).
Proof.
  split; [done|]. intros j n k. cbn. at_index j i; [|by eauto].
  rewrite fmap_Some. intros ([n' k'] & ? & [= _ <-]). by eexists.
Qed.
Lemma drop_state_known tokio i h : keeps_known h (drop_state tokio i h).
Proof.
  assert (∀ m, (∀ j n k, m !! j = Some (n, k) → ∃ n', states h !! j = Some (n', k)) →
          keeps_known h (set_states m h)) as Hset by done.
  assert (keeps_known h (set_states (alter (λ '(n, k), (pred n, k)) i (states h)) h)) as Halter.
  { apply Hset. intros j n k. at_index j i; [|by eauto].
    rewrite fmap_Some. intros ([n' k'] & ? & [= _ <-]). by eexists. }
  assert (keeps_known h (set_states (delete i (states h)) h)) as Hdelete.
  { apply Hset. intros j n k. at_index j i; [done|by eauto]. }
  unfold drop_state. destruct (states h !! i) as [[[|[|n]] []]|]; try done.
  etrans; [exact Hdelete|apply drop_runtime_known].
Qed.

(** ** The invariant *)

Definition in_slot (s : Lifetimes) (i : nat) : nat :=
  if handles s =? 0 then 0 else one (i =? slot s).
Record lifetimes_ok (s : Lifetimes) : Prop := {
  ok_heap : heap_ok (heap s) (λ i, in_slot s i + total (guards i) (calls s))
                    (λ r, total (uses r) (calls s));
  ok_fresh i : is_Some (states (heap s) !! i) ∨ known (heap s) i → i < next s;
  ok_created r : r ∈ created s ↔ known (heap s) r;
  ok_failed i n : states (heap s) !! i = Some (n, FailedState) → ¬ known (heap s) i;
  ok_turning : watcher s = Turning → 0 < handles s;
}.

(** Only the heap and the calls change. *)
Lemma calls_ok s h m : lifetimes_ok s → keeps_known (heap s) h →
  heap_ok h (λ i, in_slot s i + total (guards i) m) (λ r, total (uses r) m) →
  lifetimes_ok (set_calls m (set_heap h s)).
Proof.
  intros [_ Hf Hc Hn Ht] [Hk Hs] Hok. split; cbn; [exact Hok| | | |done].
  - intros i [[[n k] (n' & Hi)%Hs]|?%Hk]; apply Hf; [left; by eexists|by right].
  - intros r. by rewrite Hc, Hk.
  - intros i n (n' & Hi)%Hs. rewrite Hk. by eapply Hn.
Qed.

Lemma owned_state s i : lifetimes_ok s → 0 < in_slot s i + total (guards i) (calls s) →
  is_Some (states (heap s) !! i).
Proof.
  intros Hok Hpos. pose proof (ok_states _ _ _ (ok_heap _ Hok) i) as Hi.
  destruct (states (heap s) !! i); [by eexists|]. cbn in Hi. lia.
Qed.
Lemma owned_runtime s r : lifetimes_ok s →
  0 < total (uses r) (calls s) + active (heap s) r → is_Some (runtimes (heap s) !! r).
Proof.
  intros Hok Hpos. pose proof (ok_runtimes _ _ _ (ok_heap _ Hok) r) as Hr.
  destruct (runtimes (heap s) !! r); [by eexists|]. cbn in Hr. lia.
Qed.

Lemma swap_ok tokio k s : 0 < handles s → lifetimes_ok s → lifetimes_ok (swap tokio k s).
Proof.
  intros Hh [Hok Hf Hc Hn Ht].
  assert (∀ i, is_Some (states (heap s) !! i) ∨ known (heap s) i → i ≠ next s) as Hne.
  { intros i Hi. specialize (Hf i Hi). lia. }
  destruct (drop_state_known tokio (slot s) (new_state (next s) k (heap s))) as [Hk Hst].
  split; cbn.
  - apply drop_state_ok. eapply heap_ok_ext; [apply new_state_ok; [exact Hok|..]| |done].
    + apply eq_None_not_Some. intros H. by apply (Hne (next s)); [left|].
    + apply eq_None_not_Some. intros H. by apply (Hne (next s)); [right; left|].
    + intros H. by apply (Hne (next s)); [right; right|].
    + intros i. unfold more, in_slot; cbn. destruct (handles s); [lia|]. cbn. lia.
  - intros i [[[n kd] (n' & Hi)%Hst]|Hi%Hk].
    + cbn in Hi. at_index i (next s); [lia|]. rewrite lookup_insert_ne in Hi by done.
      enough (i < next s) by lia. apply Hf. left. by eexists.
    + unfold known in Hi; cbn in Hi. at_index i (next s); [lia|].
      enough (i < next s) by lia. apply Hf. right.
      destruct k; [rewrite lookup_insert_ne in Hi by done|]; exact Hi.
  - intros r. rewrite Hk. unfold known; cbn. destruct k; cbn.
    + rewrite elem_of_cons, Hc. at_index r (next s); [naive_solver|]. unfold known. naive_solver.
    + apply Hc.
  - intros i n (n' & Hi)%Hst. rewrite Hk. cbn in Hi. unfold known; cbn. at_index i (next s).
    + rewrite lookup_insert_eq in Hi. injection Hi as _ ->. intros H. by apply (Hne (next s)); [right|].
    + rewrite lookup_insert_ne in Hi by done.
      destruct k; [rewrite lookup_insert_ne by done|]; by eapply Hn.
  - exact Ht.
Qed.
Lemma drop_handle_ok tokio s : 0 < handles s → (watcher s = Turning → 1 < handles s) →
  lifetimes_ok s → lifetimes_ok (drop_handle tokio s).
Proof.
  intros Hh Ht [Hok Hf Hc Hnk _]. unfold drop_handle. cbn [handles set_handles].
  destruct (handles s) as [|[|n]] eqn:Hn; [lia|..]; cbn.
  - destruct (drop_state_known tokio (slot s) (heap s)) as [Hk Hst]. split; cbn.
    + apply drop_state_ok. eapply heap_ok_ext; [exact Hok| |done].
      intros i. unfold more, in_slot; cbn. rewrite Hn. cbn. lia.
    + intros i [[[n k] (n' & Hi)%Hst]|?%Hk]; apply Hf; [left; by eexists|by right].
    + intros r. by rewrite Hk.
    + intros i n (n' & Hi)%Hst. rewrite Hk. by eapply Hnk.
    + intros Hw. specialize (Ht Hw). lia.
  - split; cbn; [|done|done|done|lia]. eapply heap_ok_ext; [exact Hok| |done].
    intros i. unfold in_slot; cbn. by rewrite Hn.
Qed.

(** A call's entry appears, changes or goes, and the owners with it. *)
Ltac counted :=
  let i := fresh "i" in
  intros i; unfold more;
  repeat match goal with
  | H : calls _ !! ?c = None |- context [total ?f (<[?c := ?q]> _)] =>
      rewrite (total_insert f _ c q H)
  | H : calls _ !! ?c = Some ?p |- context [total ?f (delete ?c _)] =>
      rewrite (total_delete f _ c p H)
  end;
  try match goal with
  | H : calls _ !! ?c = Some ?p |- context [total ?f (<[?c := ?q]> _)] =>
      pose proof (total_update f _ c p q H)
  end;
  cbn [guards uses] in *; lia.

Lemma call_step_ok s h c q :
  lifetimes_ok s → keeps_known (heap s) h →
  heap_ok h (λ i, in_slot s i + total (guards i) (<[c := q]> (calls s)))
    (λ r, total (uses r) (<[c := q]> (calls s))) →
  lifetimes_ok (set_calls (<[c := q]> (calls s)) (set_heap h s)).
Proof. apply calls_ok. Qed.

Lemma leave_ok tokio s c p r : lifetimes_ok s → calls s !! c = Some p →
  (p = Before r ∨ ∃ n, p = Called r n) →
  lifetimes_ok (set_calls (delete c (calls s)) (set_heap (drop_runtime tokio r (heap s)) s)).
Proof.
  intros Hok Hc Hp. apply calls_ok; [done|apply drop_runtime_known|]. apply drop_runtime_ok.
  eapply heap_ok_ext; [apply Hok|..]; destruct Hp as [->|[n ->]]; counted.
Qed.
Lemma owner_only_ok s c p q : lifetimes_ok s → calls s !! c = Some p →
  (∀ i, guards i p = guards i q ∧ uses i p = uses i q) →
  lifetimes_ok (set_calls (<[c := q]> (calls s)) s).
Proof.
  intros Hok Hc Hpq. destruct s as [n w sl h m cr nx]. refine (calls_ok _ h _ Hok _ _); [done|].
  eapply heap_ok_ext; [apply Hok|..]; cbn in *; intros i;
    [pose proof (total_update (guards i) m c p q Hc)|pose proof (total_update (uses i) m c p q Hc)];
    destruct (Hpq i); lia.
Qed.

Lemma step_ok e tokio s s' : lifetimes_ok s → step e tokio s = Some s' → lifetimes_ok s'.
Proof.
  intros Hok. pose proof Hok as [Hheap Hf Hc Hk Ht].
  destruct e as [| |k| | | |c|c|c|c|c|c]; cbn [step].
  - (* CloneHandle *)
    case_guard as Hh; [|done]. intros [= <-]. split; cbn; [|done|done|done|lia].
    eapply heap_ok_ext; [exact Hheap| |done]. intros i. unfold in_slot; cbn.
    destruct (handles s); [lia|done].
  - (* DropHandle *)
    case_guard as Hh; [|done]. intros [= <-].
    apply drop_handle_ok; [destruct (watcher s); lia|intros Hw; by rewrite Hw in Hh|done].
  - (* Swap *)
    case_guard as Hh; [|done]. intros [= <-]. by apply swap_ok.
  - (* StartWatcher *)
    destruct (watcher s); [|done..]. case_guard; [|done]. intros [= <-]. by split.
  - (* WatcherWakes *)
    destruct (watcher s); try done. destruct (handles s =? 0) eqn:Hh; intros [= <-]; [by split|].
    split; cbn; [|done|done|done|lia]. eapply heap_ok_ext; [exact Hheap| |done].
    intros i. unfold in_slot; cbn. by rewrite Hh.
  - (* WatcherTurned *)
    destruct (watcher s) eqn:Hw; try done. intros [= <-].
    replace (set_watcher Sleeping (drop_handle tokio s))
      with (drop_handle tokio (set_watcher Sleeping s))
      by (unfold drop_handle; cbn; by destruct (pred (handles s) =? 0)).
    apply drop_handle_ok; [by apply Ht|done|by split].
  - (* Load *)
    case_guard as Hh; [|done]. destruct Hh as [Hh Hn]. intros [= <-].
    apply call_step_ok; [done|apply clone_state_known|].
    eapply heap_ok_ext; [apply clone_state_ok; [exact Hheap|]|..]; [|counted..].
    apply owned_state; [done|]. unfold in_slot. destruct (handles s); [lia|].
    cbn. rewrite Nat.eqb_refl. cbn. lia.
  - (* CloneLoaded *)
    destruct (calls s !! c) as [[i| |]|] eqn:Hp; try done.
    destruct (states (heap s) !! i) as [[n []]|] eqn:Hi; intros [= <-].
    + apply call_step_ok; [done|etrans; [apply clone_runtime_known|apply drop_state_known]|].
      apply drop_state_ok. eapply heap_ok_ext; [apply clone_runtime_ok; [exact Hheap|]|..];
        [|counted..].
      apply owned_runtime; [done|]. unfold active. rewrite Hi. lia.
    + apply calls_ok; [done|apply drop_state_known|]. apply drop_state_ok.
      eapply heap_ok_ext; [exact Hheap|..]; counted.
    + apply calls_ok; [done|apply drop_state_known|]. apply drop_state_ok.
      eapply heap_ok_ext; [exact Hheap|..]; counted.
  - (* KeepState *)
    destruct (calls s !! c) as [[|r|]|] eqn:Hp; try done. intros [= <-].
    apply call_step_ok; [done|etrans; [apply clone_runtime_known|apply drop_runtime_known]|].
    apply drop_runtime_ok. eapply heap_ok_ext; [apply clone_runtime_ok; [exact Hheap|]|..];
      [|counted..].
    apply owned_runtime; [done|]. pose proof (total_pos (uses r) _ _ _ Hp) as Hpos.
    cbn in Hpos. rewrite Nat.eqb_refl in Hpos. cbn in Hpos. lia.
  - (* LeaveBefore *)
    destruct (calls s !! c) as [[|r|]|] eqn:Hp; try done. intros [= <-].
    by eapply leave_ok; [..|left].
  - (* ShareState *)
    destruct (calls s !! c) as [[| |r n]|] eqn:Hp; try done. intros [= <-].
    by eapply owner_only_ok.
  - (* ReleaseState *)
    destruct (calls s !! c) as [[| |r [|[|n]]]|] eqn:Hp; try done; intros [= <-].
    1, 2: by eapply leave_ok; [..|right; eexists].
    by eapply owner_only_ok.
Qed.

Lemma registry_start_ok : lifetimes_ok registry_start.
Proof.
  split.
  - change (heap registry_start)
      with (new_state 0 ActiveState {| states := ∅; runtimes := ∅; ended := [] |}).
    eapply heap_ok_ext; [apply (new_state_ok _ (λ _, 0) (λ _, 0))|..]; try done.
    + split; [intros i|intros r; unfold active|constructor];
        cbn [states runtimes ended]; by rewrite !lookup_empty.
    + apply not_elem_of_nil.
  - intros i [[x Hi]|[[x Hi]|Hi]]; [..|by apply elem_of_nil in Hi];
      cbn in Hi; by apply lookup_singleton_Some in Hi as [<- _]; apply Nat.lt_0_1.
  - intros r. cbn [created registry_start]. rewrite list_elem_of_singleton. split.
    + intros ->. left. by eexists.
    + intros [[x Hi]|Hi]; [|by apply elem_of_nil in Hi].
      cbn in Hi. by apply lookup_singleton_Some in Hi as [<- _].
  - intros i n Hi. cbn in Hi. by apply lookup_singleton_Some in Hi as [_ ?].
  - done.
Qed.
Lemma run_snoc events e s : run (events ++ [e]) s = (s ← run events s; step e.1 e.2 s).
Proof. unfold run. by rewrite foldl_app. Qed.
Lemma run_ok events s : run events registry_start = Some s → lifetimes_ok s.
Proof.
  revert s. induction events as [|e events IH] using rev_ind; intros s.
  { intros [= <-]. apply registry_start_ok. }
  rewrite run_snoc. destruct (run events registry_start) as [s0|]; [|done].
  cbn. eauto using step_ok.
Qed.

(** ** Theorems *)

Definition dropped (h : Heap) : list nat := (ended h).*1.
(** The runtime is the current one, or a call uses it or is about to. *)
Definition needed (s : Lifetimes) (r : nat) : Prop :=
  (handles s ≠ 0 ∧ slot s = r) ∨
  ∃ c p, calls s !! c = Some p ∧ (p = Guarded r ∨ p = Before r ∨ ∃ n, p = Called r n).

Lemma one_pos b : 0 < one b ↔ b = true.
Proof. destruct b; cbn; split; (done || lia). Qed.

Lemma alive_needed s r : lifetimes_ok s → is_Some (runtimes (heap s) !! r) → needed s r.
Proof.
  intros [Hheap _ _ _ _] [n Hn]. pose proof (ok_runtimes _ _ _ Hheap r) as Hr.
  rewrite Hn in Hr. cbn in Hr. destruct Hr as (-> & Hpos & _).
  destruct (Nat.eq_0_gt_0_cases (total (uses r) (calls s))) as [Hz|Hu].
  - pose proof (ok_states _ _ _ Hheap r) as Hs. unfold active in Hpos.
    destruct (states (heap s) !! r) as [[m k]|]; [|lia]. cbn in Hs. destruct Hs as [-> Hm].
    destruct (Nat.eq_0_gt_0_cases (in_slot s r)) as [Hz'|Hslot].
    + destruct (total_pos_inv (guards r) (calls s)) as (c & p & Hp & Hg); [lia|].
      right. exists c, p. split; [done|]. destruct p as [i| |]; cbn in Hg; [|lia..].
      apply one_pos, Nat.eqb_eq in Hg as ->. by left.
    + left. unfold in_slot in Hslot. destruct (handles s); cbn in Hslot; [lia|].
      apply one_pos, Nat.eqb_eq in Hslot. done.
  - destruct (total_pos_inv _ _ Hu) as (c & p & Hp & Hg).
    right. exists c, p. split; [done|]. right.
    destruct p as [|j|j m]; cbn in Hg; [lia|..]; apply one_pos, Nat.eqb_eq in Hg as ->;
      [by left|right; by eexists].
Qed.
Lemma needed_alive s r : lifetimes_ok s → r ∈ created s → needed s r →
  is_Some (runtimes (heap s) !! r).
Proof.
  intros Hok Hr Hneed. apply owned_runtime; [done|].
  assert (0 < in_slot s r + total (guards r) (calls s) → 0 < active (heap s) r) as Hstate.
  { intros Hpos. destruct (owned_state _ _ Hok Hpos) as [[n k] Hn]. unfold active. rewrite Hn.
    destruct k; [lia|]. destruct (ok_failed _ Hok _ _ Hn). by apply (ok_created _ Hok). }
  destruct Hneed as [[Hh <-]|(c & p & Hp & [->|Hu])].
  - specialize (Hstate). unfold in_slot in Hstate. destruct (handles s); [done|].
    cbn in Hstate. rewrite Nat.eqb_refl in Hstate. cbn in Hstate. lia.
  - pose proof (total_pos (guards r) _ _ _ Hp) as Hpos. cbn in Hpos.
    rewrite Nat.eqb_refl in Hpos. cbn in Hpos. lia.
  - pose proof (total_pos (uses r) _ _ _ Hp) as Hpos.
    destruct Hu as [->|[n ->]]; cbn in Hpos; rewrite Nat.eqb_refl in Hpos; cbn in Hpos; lia.
Qed.

(** Where all drops happen in a Tokio context, every dropped manager is shut down. *)
Definition all_shut_down (h : Heap) : Prop := Forall (λ x, x.2 = true) (ended h).
Lemma drop_runtime_shuts_down r h : all_shut_down h → all_shut_down (drop_runtime true r h).
Proof.
  intros H. unfold drop_runtime. destruct (runtimes h !! r) as [[|[|]]|]; try done.
  by constructor.
Qed.
Lemma drop_state_shuts_down i h : all_shut_down h → all_shut_down (drop_state true i h).
Proof.
  intros H. unfold drop_state. destruct (states h !! i) as [[[|[|]] []]|]; try done.
  by apply drop_runtime_shuts_down.
Qed.
Lemma drop_handle_shuts_down s :
  all_shut_down (heap s) → all_shut_down (heap (drop_handle true s)).
Proof.
  intros H. unfold drop_handle. destruct (_ =? 0); [|done]. by apply drop_state_shuts_down.
Qed.
#[local] Hint Resolve drop_runtime_shuts_down drop_state_shuts_down drop_handle_shuts_down : core.
Lemma step_shuts_down e s s' :
  step e true s = Some s' → all_shut_down (heap s) → all_shut_down (heap s').
Proof.
  destruct e; cbn [step]; repeat case_match; try case_guard; intros [= <-] ?; cbn; try done; auto.
Qed.

(** A call keeps its runtime from step to step, until it has ended. *)
Lemma step_hooks e tokio s s' c r : step e tokio s = Some s' → hooks_on s c = Some r →
  hooks_on s' c = Some r ∨ calls s' !! c = None.
Proof.
  unfold hooks_on. intros Hstep Hc.
  assert (calls (drop_handle tokio s) = calls s) as Hdrop.
  { unfold drop_handle. by destruct (_ =? 0). }
  assert (∀ c' p q, calls s !! c' = Some p → phase_on (Some p) = phase_on (Some q) ∨
            phase_on (Some p) = None → phase_on (<[c':=q]> (calls s) !! c) = Some r) as Hins.
  { intros c' p q Hp Hpq. at_index c' c; [|done]. rewrite Hp in Hc. destruct Hpq; congruence. }
  assert (∀ c', phase_on (delete c' (calls s) !! c) = Some r ∨ delete c' (calls s) !! c = None)
    as Hdel.
  { intros c'. destruct (Nat.eq_dec c' c) as [->|]; [right; apply lookup_delete_eq|].
    left. by rewrite lookup_delete_ne. }
  destruct e as [| |k| | | |c'|c'|c'|c'|c'|c']; cbn [step] in Hstep;
    repeat (case_match; try done); try case_guard as Hguard; try done; injection Hstep as <-;
    cbn -[phase_on]; rewrite ?Hdrop; auto; left; try (eapply Hins; [eassumption|by auto]).
  destruct (Nat.eq_dec c' c) as [->|Hne]; [|by rewrite lookup_insert_ne].
  by rewrite (proj2 Hguard) in Hc.
Qed.

Lemma phase_on_needed s c r : hooks_on s c = Some r → needed s r.
Proof.
  unfold hooks_on. intros Hc. right.
  destruct (calls s !! c) as [p|] eqn:Hp; [|done]. exists c, p. split; [done|]. right.
  destruct p as [|j|j n]; [done|..]; injection Hc as ->; [by left|right; by eexists].
Qed.
Lemma hooks_created s c r : lifetimes_ok s → hooks_on s c = Some r → r ∈ created s.
Proof.
  intros Hok. unfold hooks_on. destruct (calls s !! c) as [p|] eqn:Hp; [|done]. intros Hc.
  apply (ok_created _ Hok). left. apply owned_runtime; [done|].
  pose proof (total_pos (uses r) _ _ _ Hp) as Hpos.
  destruct p as [|j|j n]; [done|..]; injection Hc as ->; cbn in Hpos;
    rewrite Nat.eqb_refl in Hpos; cbn in Hpos; lia.
Qed.

(** C20: the life of a plugin runtime, however calls, reloads, handles and the watcher
    interleave.  No runtime is dropped twice.  One that was created has been dropped
    exactly if it is neither the current runtime nor loaded or used by any call: a
    reload never takes a runtime from under a call that runs on it, and none is
    leaked.  A call's hooks run, from the first to the last, on one runtime, which
    has not been dropped.  And where everything runs inside Tokio, every dropped
    runtime has been shut down. *)
Theorem runtime_lifetimes events s (Hrun : run events registry_start = Some s) :
  NoDup (dropped (heap s)) ∧
  (∀ r, r ∈ created s → (r ∈ dropped (heap s) ↔ ¬ needed s r)) ∧
  (∀ c r, hooks_on s c = Some r → r ∈ created s ∧ (r ∉ dropped (heap s)) ∧
     (∀ e tokio s', step e tokio s = Some s' → hooks_on s' c = Some r ∨ calls s' !! c = None)) ∧
  (Forall (λ e, e.2 = true) events → Forall (λ x, x.2 = true) (ended (heap s))).
Proof.
  pose proof (run_ok _ _ Hrun) as Hok.
  assert (∀ r, r ∈ created s → needed s r → r ∉ (ended (heap s)).*1) as Hlive.
  { intros r Hr [n Hn]%needed_alive; [|done..].
    pose proof (ok_runtimes _ _ _ (ok_heap _ Hok) r) as H. rewrite Hn in H. apply H. }
  split_and!.
  - apply (ok_ended _ _ _ (ok_heap _ Hok)).
  - intros r Hr. split; [intros He Hn; by apply (Hlive r)|]. intros Hn.
    apply (ok_created _ Hok) in Hr as [Ha|]; [|done]. by destruct Hn; apply alive_needed.
  - intros c r Hc. assert (r ∈ created s) as Hr by by apply (hooks_created s c).
    split_and!; [done|by apply Hlive; [|eapply phase_on_needed]|]. intros. by eapply step_hooks.
  - clear Hok Hlive. revert s Hrun. induction events as [|e events IH] using rev_ind; intros s.
    { intros [= <-] _. constructor. }
    rewrite run_snoc. destruct (run events registry_start) as [s0|]; [|done]. cbn.
    intros Hstep [Hall He]%Forall_app. rewrite Forall_singleton in He. destruct e as [e tokio].
    cbn [snd] in He. rewrite He in Hstep.
    eapply step_shuts_down; [exact Hstep|by apply IH].
Qed.


(** ** A concrete run

    A call loads the first runtime and keeps its hook state; a reload replaces the
    runtime; a second call, another reload, and a failed one follow.  The first
    runtime is shut down when the first call ends, the second at once. *)
Definition example_events : list (Event * bool) :=
  (λ e, (e, true)) <$>
  [StartWatcher; Load 7; CloneLoaded 7; KeepState 7; ShareState 7;
   WatcherWakes; Swap ActiveState; WatcherTurned; Swap ActiveState;
   Load 8; CloneLoaded 8; Swap FailedState; ReleaseState 7; ReleaseState 7].

Lemma runtime_lifetimes_witness :
  match run example_events registry_start with
  | Some s => ended (heap s) = [(0, true); (1, true)] ∧ hooks_on s 8 = Some 2 ∧
              (2 ∉ dropped (heap s)) ∧ ¬ needed s 0
  | None => False
  end.
Proof.
  destruct (run example_events registry_start) as [s|] eqn:Hrun; [|discriminate Hrun].
  assert (ended (heap s) = [(0, true); (1, true)] ∧ hooks_on s 8 = Some 2 ∧ 0 ∈ created s)
    as (He & Hh & H0).
  { revert Hrun. vm_compute. intros [= <-]. split_and!; [reflexivity..|].
    repeat (left || right). }
  destruct (runtime_lifetimes _ _ Hrun) as (_ & Hended & Hcalls & _).
  split; [exact He|]. split; [exact Hh|]. split; [apply (Hcalls _ _ Hh)|].
  apply (Hended 0 H0). unfold dropped. rewrite He. left.
Defined.
