(* ===== verification/Gateway.v ===== *)
(** * The MCP handlers ([gateway/mcp_service/], [gateway/backend_client.rs],
    [gateway/routing_error.rs])

    Each handler is a computation over the outside world, in a monad that ends at
    the first error, as [?] does, and records every action on a backend or a plugin
    in the order it happens.  Backends, plugins and the iteration order of hash
    maps are parameters, so a theorem covers every behaviour of theirs. *)

From S2P Require Import Prelude HttpTypes Apis McpStandardHeaders Rmcp Cmf.
From S2P Require Import UpstreamHeaders Authorization Layers.

Abbreviation ProgressToken := string (only parsing).

(** The request parts and the rest of [RequestContext] a handler looks at. *)
Record Parts : Type := { parts_headers : HeaderMap; parts_extensions : Extensions }.
Record RequestContext : Type := {
  cx_parts : option Parts;
  cx_protocol_version : option ProtocolVersion;
  cx_progress_token : option ProgressToken;
}.

(** [version >= ProtocolVersion::STANDARD_HEADERS]; [ProtocolVersion::V_2026_07_28]. *)
Class ProtocolVersions := {
  has_standard_headers : ProtocolVersion → bool;
  V_2026_07_28 : ProtocolVersion;
}.

Inductive ServerResult `{RmcpTypes} : Type :=
| SRCallTool (r : CallToolResult)
| SROther.

(** What ends the wait for a response: the response channel, which may be
    closed, or the downstream client's cancellation. *)
Inductive Waited `{RmcpTypes} : Type :=
| WResponse (r : result () (result ServiceError ServerResult))
| WCancelled.

Record CompleteResult `{RmcpTypes} : Type := { completion_values : list string;
                                               completion_rest : ToolResultRest }.

(** A backend connection, as actions on the outside world [E]. *)
Class Backends (E : Type) `{RmcpTypes} := {
  be_connect : string → ConnectRequest → E → result () () * E;
  be_send : CallToolRequestParams → E → result ServiceError ProgressToken * E;
  be_wait : ProgressToken → E → Waited * E;
  be_cancel : ProgressToken → string → E → result () () * E;
  be_get_prompt : GetPromptRequestParams → E → result ServiceError GetPromptResult * E;
  be_read_resource : ReadResourceRequestParams → E → result ServiceError ReadResourceResult * E;
  be_complete : CompleteRequestParams → E → result ServiceError CompleteResult * E;
  be_close : E → result () () * E;
}.

(** What the plugin runtime promises the handlers: a pre hook per operation that
    may refuse or edit the call, and the state its post hook needs. *)
Class PluginHooks (E : Type) `{RmcpTypes} := {
  HookState : Type;
  HookResource : Type;
  hook_before_tool : CallToolRequestParams → string → string → E →
                     result ErrorData (PreHookResult HookState) * E;
  hook_after_tool : HookState → CallToolResult → E → result ErrorData CallToolResult * E;
  hook_before_prompt : GetPromptRequestParams → string → string → E →
                       result ErrorData (PreHookResult HookState) * E;
  hook_after_prompt : HookState → GetPromptResult → E → result ErrorData GetPromptResult * E;
  hook_before_resource : string → E → result ErrorData HookResource * E;
  hook_rewritten_uri : HookResource → option string;
  hook_after_resource : HookResource → ReadResourceResult → E →
                        result ErrorData ReadResourceResult * E;
}.

Section gateway.
Context `{!RmcpHeaders, !HttpLib, !Base64, !SerdeFloat, !UrlParts, !TraceContext}.
Context `{!HashIter, !RmcpTypes, !ProtocolVersions} {E : Type} `{!Backends E, !PluginHooks E}.
(** The header error messages, which only a client reads. *)
Context (header_error_text : HeaderError → string).

Inductive Event : Type :=
| EPre (target : string)
| EConnect (backend_name : string) (request : ConnectRequest)
| ESend (request : CallToolRequestParams)
| ECancel (reason : string)
| EUntrack (token : ProgressToken)
| EGetPrompt (request : GetPromptRequestParams)
| EReadResource (request : ReadResourceRequestParams)
| EComplete (request : CompleteRequestParams)
| EClose
| EPost.

(** The world, the backend client's calls in flight (backend token to downstream
    token) and the actions so far. *)
Record GState : Type := {
  env : E;
  in_flight_calls : gmap string ProgressToken;
  trace : list Event;
}.

Definition G (A : Type) : Type := GState → result ErrorData A * GState.
#[export] Instance G_ret : MRet G := λ A a s, (Ok a, s).
#[export] Instance G_bind : MBind G := λ A B k m s,
  let '(r, s) := m s in match r with Ok a => k a s | Err e => (Err e, s) end.

Definition lift {A} (r : result ErrorData A) : G A := λ s, (r, s).

(** An action on the world, recorded. *)
Definition act {A} (event : Event) (f : E → A * E) : G A := λ s,
  let '(a, e) := f (env s) in
  (Ok a, {| env := e; in_flight_calls := in_flight_calls s; trace := trace s ++ [event] |}).
Definition track (token downstream : ProgressToken) : G () := λ s,
  (Ok (), {| env := env s; in_flight_calls := <[token := downstream]> (in_flight_calls s);
             trace := trace s |}).
Definition untrack (token : ProgressToken) : G () := λ s,
  (Ok (), {| env := env s; in_flight_calls := delete token (in_flight_calls s);
             trace := trace s ++ [EUntrack token] |}).

(** The [InitializeResult] of a server without capabilities: its name and version,
    and its instructions. *)
Record InitializeResult : Type := {
  server_info : string * string;
  instructions : option string;
}.

Record McpService : Type := { plugin_runtime : bool }.

(** [validate_stateless] on a context. *)
Definition validate_call (cx : RequestContext) : G (VirtualHost * AuthorizationClaims) :=
  lift (validate_stateless (parts_extensions <$> cx_parts cx)).

(** [backend_forward_error]. *)
Definition backend_forward_error (e : ServiceError) : ErrorData :=
  match e with
  | McpError mcp_error => mcp_error
  | _ => error INTERNAL_ERROR "Routing problem... got no responses from backends"
  end.

(** [initialize]: no capabilities, only the gateway's name. *)
Definition initialize (protocol_version : ProtocolVersion) : result ErrorData InitializeResult :=
  if String.eqb protocol_version V_2026_07_28
  then Err (invalid_request "Initialize not supported by this dataplane")
  else Ok {| server_info := ("contextforge-dataplane-gateway", "0.1.0");
             instructions := Some "contextforge-dataplane-gateway" |}.

(** [connect_backend_for_request]. *)
Definition connect_backend_for_request (backend_name : string) (backend : BackendMCPGateway)
    (cx : RequestContext) : G () :=
  let request := connect_request backend (hash_entries (add_headers backend))
                   (parts_headers <$> cx_parts cx) in
  r ← act (EConnect backend_name request) (be_connect backend_name request);
  lift (map_err (λ _, error INTERNAL_ERROR "Routing problem... backend unavailable") r).

(** [close] and its warning, which no one sees. *)
Definition close_backend : G () := _ ← act EClose be_close; mret ().

(** ** [backend_client.rs] *)

Definition start_tool_call (request : CallToolRequestParams)
    (downstream_progress_token : option ProgressToken) : G (result ServiceError ProgressToken) :=
  match downstream_progress_token with
  | None => act (ESend request) (be_send request)
  | Some downstream =>
      r ← act (ESend request) (be_send request);
      match r with
      | Err e => mret (Err e)
      | Ok token => _ ← track token downstream; mret (Ok token)
      end
  end.

Definition CANCEL_REASON : string := "tool call cancelled by the downstream client".

(** The response channel's content, down to the tool result. *)
Definition tool_response (response : result () (result ServiceError ServerResult))
    : result ServiceError CallToolResult :=
  response ← map_err (λ _, TransportClosed) response;
  response ← response;
  match response with
  | SRCallTool r => Ok r
  | SROther => Err UnexpectedResponse
  end.

Definition call_backend_tool (token : ProgressToken) : G (result ServiceError CallToolResult) :=
  λ s,
    let '(waited, e) := be_wait token (env s) in
    let s := {| env := e; in_flight_calls := in_flight_calls s; trace := trace s |} in
    match waited with
    | WCancelled =>
        (_ ← act (ECancel CANCEL_REASON) (be_cancel token CANCEL_REASON);
         mret (Err (Cancelled (Some CANCEL_REASON)))) s
    | WResponse response => (Ok (tool_response response), s)
    end.

Definition stop_tracking_tool_call (token : ProgressToken) : G () := untrack token.

(** ** [tools.rs] *)

(** The checks that need no action: the published route, its backend and the
    parameter headers. *)
Definition resolve_tool (request : CallToolRequestParams) (cx : RequestContext) (vh : VirtualHost)
    : result ErrorData (ServiceRoute * BackendMCPGateway) :=
  route ← ok_or (tools vh !! tool_request_name request)
            (error INVALID_PARAMS "Routing problem... tool not found");
  backend ← ok_or (backends vh !! backend_name route)
              (error INVALID_PARAMS "Routing problem... backend not found");
  _ ← (if match cx_protocol_version cx with Some v => has_standard_headers v | None => false end
       then match tool_schemas backend !! upstream_name route with
            | Some tool_schema =>
                downstream_headers ← ok_or (parts_headers <$> cx_parts cx)
                  (internal_error "Routing problem... request headers not found");
                map_err (λ e, header_mismatch (header_error_text e))
                  (validate_tool_params downstream_headers (tool_request_arguments request)
                     tool_schema)
            | None => Ok ()
            end
       else Ok ());
  Ok (route, backend).

Definition routed_tool (request : CallToolRequestParams) (route : ServiceRoute)
    (update : ArgumentsUpdate) : CallToolRequestParams := {|
  tool_request_name := upstream_name route;
  tool_request_arguments := apply_to update (tool_request_arguments request);
  tool_request_rest := tool_request_rest request |}.

Definition call_tool (mcp_service : McpService) (request : CallToolRequestParams)
    (cx : RequestContext) : G CallToolResult :=
  vc ← validate_call cx;
  rb ← lift (resolve_tool request cx vc.1);
  let '(route, backend) := rb : ServiceRoute * BackendMCPGateway in
  let name := backend_name route in
  let tool_name := upstream_name route in
  pre_result ←
    (if plugin_runtime mcp_service then
       r ← act (EPre tool_name) (hook_before_tool request tool_name name); lift r
     else mret PreHookResult_default);
  _ ← connect_backend_for_request name backend cx;
  let post_state := pre_state pre_result in
  let routed_request := routed_tool request route (pre_arguments pre_result) in
  handle ← start_tool_call routed_request (cx_progress_token cx);
  token ← lift (map_err backend_forward_error handle);
  response ← call_backend_tool token;
  _ ← stop_tracking_tool_call token;
  _ ← close_backend;
  response ← lift (map_err backend_forward_error response);
  match post_state with
  | Some state => r ← act EPost (hook_after_tool state response); lift r
  | None => mret response
  end.

(** ** [prompts.rs] *)

Definition get_prompt (mcp_service : McpService) (request : GetPromptRequestParams)
    (cx : RequestContext) : G GetPromptResult :=
  vc ← validate_call cx;
  route ← lift (ok_or (prompts vc.1 !! prompt_request_name request)
                  (error INVALID_PARAMS "Routing problem... prompt not found"));
  let name := backend_name route in
  let prompt_name := upstream_name route in
  backend ← lift (ok_or (backends vc.1 !! name)
                    (error INVALID_PARAMS "Routing problem... backend not found"));
  pre_result ←
    (if plugin_runtime mcp_service then
       r ← act (EPre prompt_name) (hook_before_prompt request prompt_name name); lift r
     else mret PreHookResult_default);
  _ ← connect_backend_for_request name backend cx;
  let routed_request := {|
    prompt_request_name := prompt_name;
    prompt_request_args := apply_to (pre_arguments pre_result) (prompt_request_args request);
    prompt_request_rest := prompt_request_rest request |} in
  response ← act (EGetPrompt routed_request) (be_get_prompt routed_request);
  _ ← close_backend;
  response ← lift (map_err backend_forward_error response);
  match pre_state pre_result with
  | Some state => r ← act EPost (hook_after_prompt state response); lift r
  | None => mret response
  end.

(** ** [resources.rs] *)

(** Where a plugin's rewritten URI leads: a resource the virtual host publishes,
    on one backend only. *)
Definition rewrite_target (vh : VirtualHost) (route : ServiceRoute) (uri : option string)
    : result ErrorData ServiceRoute :=
  match uri with
  | Some uri =>
      if String.eqb uri (upstream_name route) then Ok route else
      match filter (λ candidate, upstream_name candidate = uri)
              (map snd (hash_entries (resources vh))) with
      | [] => Err (invalid_params "Plugin resource target is not available in this virtual host")
      | rewritten :: candidates =>
          if existsb (λ candidate, negb (String.eqb (backend_name candidate)
                                           (backend_name rewritten))) candidates
          then Err (invalid_params "Plugin resource target is ambiguous")
          else Ok rewritten
      end
  | None => Ok route
  end.

Definition read_resource (mcp_service : McpService) (request : ReadResourceRequestParams)
    (cx : RequestContext) : G ReadResourceResult :=
  vc ← validate_call cx;
  route ← lift (ok_or (resources vc.1 !! resource_request_uri request)
                  (error INVALID_PARAMS "Routing problem... resource not found"));
  resource_hook ←
    (if plugin_runtime mcp_service then
       r ← act (EPre (upstream_name route)) (hook_before_resource (upstream_name route));
       h ← lift r; mret (Some h)
     else mret None);
  route ← lift (rewrite_target vc.1 route (resource_hook ≫= hook_rewritten_uri));
  let name := backend_name route in
  backend ← lift (ok_or (backends vc.1 !! name)
                    (error INVALID_PARAMS "Routing problem... backend not found"));
  _ ← connect_backend_for_request name backend cx;
  let routed_request := {| resource_request_uri := upstream_name route;
                           resource_request_rest := resource_request_rest request |} in
  response ← act (EReadResource routed_request) (be_read_resource routed_request);
  _ ← close_backend;
  response ← lift (map_err backend_forward_error response);
  match resource_hook with
  | Some hook => r ← act EPost (hook_after_resource hook response); lift r
  | None => mret response
  end.

(** Listing and subscribing need a fan-out the gateway does not do. *)
Definition fan_out_not_supported {A} : result ErrorData A :=
  Err (error INVALID_REQUEST "Fan out not supported at the moment. Go to control plane").
Definition subscribe : result ErrorData () := fan_out_not_supported.
Definition unsubscribe : result ErrorData () := fan_out_not_supported.

(** ** [completion.rs] *)

Definition completion_route (vh : VirtualHost) (ref : Reference) : option ServiceRoute :=
  match ref with
  | RefPrompt name _ => prompts vh !! name
  | RefResource uri => or_else (resource_templates vh !! uri) (resources vh !! uri)
  | RefOther _ => None
  end.

Definition rename_reference (ref : Reference) (completion_name : string) : Reference :=
  match ref with
  | RefPrompt _ rest => RefPrompt completion_name rest
  | RefResource _ => RefResource completion_name
  | RefOther rest => RefOther rest
  end.

Definition complete (request : CompleteRequestParams) (cx : RequestContext) : G CompleteResult :=
  vc ← validate_call cx;
  route ← lift (ok_or (completion_route vc.1 (complete_ref request))
                  (error INVALID_PARAMS "Routing problem... completion not found"));
  let name := backend_name route in
  backend ← lift (ok_or (backends vc.1 !! name)
                    (error INVALID_PARAMS "Routing problem... backend not found"));
  _ ← connect_backend_for_request name backend cx;
  let routed_request := {|
    complete_ref := rename_reference (complete_ref request) (upstream_name route);
    complete_rest := complete_rest request |} in
  response ← act (EComplete routed_request) (be_complete routed_request);
  _ ← close_backend;
  lift (map_err backend_forward_error response).
End gateway.

(** ** Inverting runs *)

Section runs.
Context `{!RmcpHeaders, !HttpLib, !Base64, !SerdeFloat, !UrlParts, !TraceContext}.
Context `{!HashIter, !RmcpTypes, !ProtocolVersions} {E : Type} `{!Backends E, !PluginHooks E}.
Context (header_error_text : HeaderError → string).
Implicit Types (s : GState (E := E)).

Lemma G_bind_inv {A B} (m : G A) (k : A → G B) s r s' :
  (m ≫= k) s = (r, s') →
  (∃ e, m s = (Err e, s') ∧ r = Err e) ∨ (∃ a s1, m s = (Ok a, s1) ∧ k a s1 = (r, s')).
Proof.
  unfold mbind, G_bind. destruct (m s) as [[a|e] s1]; [by right; exists a, s1|].
  intros [= <- <-]. left. by exists e.
Qed.

Lemma act_inv {A} event (f : E → A * E) s r s' :
  act event f s = (r, s') →
  ∃ a e, f (env s) = (a, e) ∧ r = Ok a ∧
    s' = {| env := e; in_flight_calls := in_flight_calls s; trace := trace s ++ [event] |}.
Proof. unfold act. destruct (f (env s)) as [a e]. intros [= <- <-]. by exists a, e. Qed.

Lemma lift_inv {A} (m : result ErrorData A) s r s' :
  lift m s = (r, s') → r = m ∧ s' = s.
Proof. by intros [= <- <-]. Qed.

Lemma mret_inv {A} (a : A) s r s' : (mret a : G A) s = (r, s') → r = Ok a ∧ s' = s.
Proof. by intros [= <- <-]. Qed.
End runs.

(** Case analysis on a run: the first action fails, or it succeeds and the run
    goes on. *)
Ltac run_step H :=
  let e := fresh "e" in let a := fresh "a" in let s1 := fresh "s1" in let Hm := fresh "Hrun" in
  apply G_bind_inv in H as [(e & Hm & ->)|(a & s1 & Hm & H)].
(** Drop an impossible failure, and name what an action did. *)
Ltac run_act H :=
  let a := fresh "a" in let e := fresh "env" in let Heq := fresh "Hact" in
  apply act_inv in H as (a & e & Heq & ? & ?); simplify_eq.

Section outcomes.
Context `{!RmcpHeaders, !HttpLib, !Base64, !SerdeFloat, !UrlParts, !TraceContext}.
Context `{!HashIter, !RmcpTypes, !ProtocolVersions} {E : Type} `{!Backends E, !PluginHooks E}.
Context (header_error_text : HeaderError → string).
Implicit Types (s : GState (E := E)) (svc : McpService) (cx : RequestContext).

Definition UNAVAILABLE : ErrorData := error INTERNAL_ERROR "Routing problem... backend unavailable".

(** The connection a handler may open for a backend. *)
Definition connection cx (backend : BackendMCPGateway) : ConnectRequest :=
  connect_request backend (hash_entries (add_headers backend)) (parts_headers <$> cx_parts cx).

Definition pre_events svc (target : string) : list Event :=
  if plugin_runtime svc then [EPre target] else [].

Lemma connect_run bname backend cx s r s' :
  connect_backend_for_request bname backend cx s = (r, s') →
  trace s' = trace s ++ [EConnect bname (connection cx backend)] ∧
  in_flight_calls s' = in_flight_calls s ∧ (r = Ok () ∨ r = Err UNAVAILABLE).
Proof.
  unfold connect_backend_for_request, mbind, G_bind, act, lift, connection.
  destruct (be_connect _ _ _) as [[[]|[]] e]; intros [= <- <-]; split_and!; auto.
Qed.

Lemma close_run s r s' :
  close_backend s = (r, s') →
  r = Ok () ∧ trace s' = trace s ++ [EClose] ∧ in_flight_calls s' = in_flight_calls s.
Proof.
  unfold close_backend, mbind, G_bind, act, mret, G_ret.
  destruct (be_close _) as [c e]. by intros [= <- <-].
Qed.

(** How a run over one backend connection ends, once the checks have passed:
    [pre] are the actions before it, [requests] the ones that carry the call,
    [answers] says what the backend may have answered, and [post] is the hook the
    answer goes through, if any. *)
Inductive ended {A} (pre : list Event) (bname : string) (connection : ConnectRequest)
    (requests : list Event) (answers : result ServiceError A → Prop)
    (post : option (A → E → result ErrorData A * E)) : result ErrorData A → list Event → Prop :=
| ended_unreachable :
    ended pre bname connection requests answers post
      (Err UNAVAILABLE) (pre ++ [EConnect bname connection])
| ended_failed e : answers (Err e) →
    ended pre bname connection requests answers post (Err (backend_forward_error e))
      (pre ++ [EConnect bname connection] ++ requests ++ [EClose])
| ended_answered a : answers (Ok a) → post = None →
    ended pre bname connection requests answers post (Ok a)
      (pre ++ [EConnect bname connection] ++ requests ++ [EClose])
| ended_post_hook a hook w : answers (Ok a) → post = Some hook →
    ended pre bname connection requests answers post (hook a w).1
      (pre ++ [EConnect bname connection] ++ requests ++ [EClose; EPost]).

(** The backend, in some state of the world, answers [ask] with [x]. *)
Definition answer_to {A} (ask : E → result ServiceError A * E) (x : result ServiceError A) : Prop :=
  ∃ w, (ask w).1 = x.

(** What comes after the request: close, and the post hook on a success. *)
Definition finish {A} (response : result ServiceError A)
    (post : option (A → E → result ErrorData A * E)) : G A :=
  _ ← close_backend;
  response ← lift (map_err backend_forward_error response);
  match post with
  | Some post => r ← act EPost (post response); lift r
  | None => mret response
  end.

Lemma finish_run {A} pre bname conn requests (answers : result ServiceError A → Prop)
    (response : result ServiceError A) post s r s' :
  finish response post s = (r, s') → answers response →
  trace s = pre ++ [EConnect bname conn] ++ requests →
  ended pre bname conn requests answers post r (trace s') ∧
  in_flight_calls s' = in_flight_calls s.
Proof.
  unfold finish, close_backend, mbind, G_bind, act, mret, G_ret, lift. intros Hgo Ha Ht. revert Hgo.
  destruct (be_close _) as [c e1]; cbn [env trace in_flight_calls]. rewrite Ht.
  destruct response as [x|x]; cbn [map_err env trace in_flight_calls].
  - destruct post as [post|]; cbn [env trace in_flight_calls].
    + destruct (post x e1) as [y e2] eqn:Hp; cbn [env trace in_flight_calls]. intros [= <- <-].
      cbn [trace in_flight_calls]. split; [|done]. rewrite <- !app_assoc; cbn [app].
      pose proof (ended_post_hook pre bname conn requests answers (Some post) x post e1 Ha eq_refl)
        as Hend. by rewrite Hp in Hend.
    + intros [= <- <-]. split; [|done]. cbn [trace]. rewrite <- !app_assoc. by apply ended_answered.
  - intros [= <- <-]. split; [|done]. cbn [trace]. rewrite <- !app_assoc. by apply ended_failed.
Qed.

(** The tail all handlers but [call_tool] share: connect, ask, close, post hook. *)
Lemma ask_run {A} pre bname backend cx event (ask : E → result ServiceError A * E)
    (post : option (A → E → result ErrorData A * E)) s r s' :
  (_ ← connect_backend_for_request bname backend cx;
   response ← act event ask;
   finish response post) s = (r, s') →
  trace s = pre →
  ended pre bname (connection cx backend) [event] (answer_to ask) post r (trace s') ∧
  in_flight_calls s' = in_flight_calls s.
Proof.
  intros Hgo <-. run_step Hgo; apply connect_run in Hrun as (Ht & Hf & Hr).
  { destruct Hr as [Hr|[= ->]]; [done|]. rewrite Ht, Hf. split; [constructor|done]. }
  rewrite <- Hf. apply G_bind_inv in Hgo as [(e & Hact & _)|(response & s2 & Hact & Hgo)];
    apply act_inv in Hact as (x & e' & Hask & Hx & ->); [done|]. injection Hx as <-.
  apply (finish_run (trace s) bname (connection cx backend) [event] (answer_to ask)) in Hgo;
    [exact Hgo| |].
  - exists (env s1). by rewrite Hask.
  - cbn [trace]. by rewrite Ht, <- app_assoc.
Qed.

Lemma validate_run cx s r s' : validate_call cx s = (r, s') →
  r = validate_stateless (parts_extensions <$> cx_parts cx) ∧ s' = s.
Proof. apply lift_inv. Qed.

(** What the pre hook of a handler returned, with or without a plugin runtime. *)
Definition pre_ran {A} svc (hook : E → result ErrorData A * E) (none : A) s
    (r : result ErrorData A) : Prop :=
  r = if plugin_runtime svc then (hook (env s)).1 else Ok none.

Lemma pre_run {A} svc target (hook : E → result ErrorData A * E) (none : A) s r s' :
  (if plugin_runtime svc then r ← act (EPre target) hook; lift r else mret none) s = (r, s') →
  in_flight_calls s' = in_flight_calls s ∧ trace s' = trace s ++ pre_events svc target ∧
  pre_ran svc hook none s r.
Proof.
  unfold pre_events, pre_ran. destruct (plugin_runtime svc).
  - unfold mbind, G_bind, act, lift. destruct (hook (env s)) as [x e]. by intros [= <- <-].
  - intros [-> ->]%mret_inv. by rewrite app_nil_r.
Qed.

(** The resource handler's hook, which is absent without a plugin runtime. *)
Definition resource_hook (route : ServiceRoute) (w : E) : result ErrorData (option HookResource) * E :=
  let '(r, w) := hook_before_resource (upstream_name route) w in (Some <$> r, w).

Lemma hook_run svc route s r s' :
  (if plugin_runtime svc
   then r ← act (EPre (upstream_name route)) (hook_before_resource (upstream_name route));
        h ← lift r; mret (Some h)
   else mret None) s = (r, s') →
  in_flight_calls s' = in_flight_calls s ∧
  trace s' = trace s ++ pre_events svc (upstream_name route) ∧
  pre_ran svc (resource_hook route) None s r.
Proof.
  unfold pre_events, pre_ran, resource_hook. destruct (plugin_runtime svc).
  - unfold mbind, G_bind, act, lift, mret, G_ret.
    destruct (hook_before_resource _ (env s)) as [[x|x] e]; by intros [= <- <-].
  - intros [-> ->]%mret_inv. by rewrite app_nil_r.
Qed.

(** *** Prompts *)

Definition prompt_checks (request : GetPromptRequestParams) cx
    : result ErrorData (ServiceRoute * BackendMCPGateway) :=
  vc ← validate_stateless (parts_extensions <$> cx_parts cx);
  route ← ok_or (prompts vc.1 !! prompt_request_name request)
            (error INVALID_PARAMS "Routing problem... prompt not found");
  backend ← ok_or (backends vc.1 !! backend_name route)
              (error INVALID_PARAMS "Routing problem... backend not found");
  Ok (route, backend).

(** The request [get_prompt] routes. *)
Definition routed_prompt (request : GetPromptRequestParams) (route : ServiceRoute)
    (update : ArgumentsUpdate) : GetPromptRequestParams := {|
  prompt_request_name := upstream_name route;
  prompt_request_args := apply_to update (prompt_request_args request);
  prompt_request_rest := prompt_request_rest request |}.

(** Every run of [get_prompt].  If the call does not validate or its prompt
    or backend is not published, that error is returned and nothing is contacted.
    Else the plugins see it first and may refuse it, again with no backend
    contacted; then exactly one connection is opened, to the published backend, one
    request is sent on it, with the backend's own prompt name and the client's
    arguments or the plugin's, the connection is closed whether or not the request
    succeeded, and only then the post hook of the call runs on the backend's
    answer.  The result is the backend's answer, its forwarded error, or what the
    post hook made of it. *)
Theorem get_prompt_run svc request cx s r s'
    (Hrun : get_prompt svc request cx s = (r, s')) (Hfresh : trace s = []) :
  match prompt_checks request cx with
  | Err e => r = Err e ∧ s' = s
  | Ok (route, backend) =>
      in_flight_calls s' = in_flight_calls s ∧
      let hook := hook_before_prompt request (upstream_name route) (backend_name route) in
      let pre := pre_events svc (upstream_name route) in
      ((∃ e, pre_ran svc hook PreHookResult_default s (Err e) ∧ r = Err e ∧ trace s' = pre) ∨
       ∃ result, pre_ran svc hook PreHookResult_default s (Ok result) ∧
         let sent := routed_prompt request route (pre_arguments result) in
         ended pre (backend_name route) (connection cx backend) [EGetPrompt sent]
           (answer_to (be_get_prompt sent)) (hook_after_prompt <$> pre_state result) r (trace s'))
  end.
Proof.
  unfold get_prompt in Hrun. unfold prompt_checks.
  run_step Hrun; apply validate_run in Hrun0 as [Hv ->]; rewrite <- Hv; [done|].
  cbn [mbind result_bind]. run_step Hrun; apply lift_inv in Hrun0 as [Hp ->].
  { destruct (prompts a.1 !! _); cbn in Hp |- *; [done|]. by injection Hp as ->. }
  destruct (prompts a.1 !! _) as [route|]; [|done]. injection Hp as ->.
  cbn [ok_or mbind result_bind]. run_step Hrun; apply lift_inv in Hrun0 as [Hb ->].
  { destruct (backends a.1 !! _); cbn in Hb |- *; [done|]. by injection Hb as ->. }
  destruct (backends a.1 !! _) as [backend|]; [|done]. injection Hb as ->. cbn [ok_or mbind result_bind].
  run_step Hrun; apply pre_run in Hrun0 as (Hf & Ht & Hpre); rewrite Hfresh in Ht; cbn [app] in Ht.
  { split; [done|]. left. by exists e. }
  rewrite <- Hf. set (sent := routed_prompt request route (pre_arguments a0)).
  assert (ended (pre_events svc (upstream_name route)) (backend_name route) (connection cx backend)
    [EGetPrompt sent] (answer_to (be_get_prompt sent)) (hook_after_prompt <$> pre_state a0) r
    (trace s') ∧ in_flight_calls s' = in_flight_calls s1) as [Hend Hf2].
  { destruct (pre_state a0) as [state|].
    - exact (ask_run _ _ _ _ _ _ (Some (hook_after_prompt state)) _ _ _ Hrun Ht).
    - exact (ask_run _ _ _ _ _ _ None _ _ _ Hrun Ht). }
  split; [done|]. right. by exists a0.
Qed.

(** *** Resources *)

Definition resource_checks (request : ReadResourceRequestParams) cx
    : result ErrorData (VirtualHost * ServiceRoute) :=
  vc ← validate_stateless (parts_extensions <$> cx_parts cx);
  route ← ok_or (resources vc.1 !! resource_request_uri request)
            (error INVALID_PARAMS "Routing problem... resource not found");
  Ok (vc.1, route).

(** The resources a virtual host publishes under a backend's own URI. *)
Definition published (vh : VirtualHost) (route : ServiceRoute) : Prop :=
  ∃ name, resources vh !! name = Some route.

Context `{!HashIterLaws}.

Lemma hash_values_published vh route :
  route ∈ map snd (hash_entries (resources vh)) ↔ published vh route.
Proof.
  change (map snd) with (fmap (M := list) (snd (A := string) (B := ServiceRoute))).
  rewrite hash_entries_perm, list_elem_of_fmap. unfold published. split.
  - intros ([name r] & -> & Hin). exists name. by apply elem_of_map_to_list.
  - intros [name Hin]. exists (name, route). split; [done|]. by apply elem_of_map_to_list.
Qed.

Lemma rewrite_target_target vh route uri target :
  rewrite_target vh route uri = Ok target ↔
  match uri with
  | None => target = route
  | Some u =>
      (u = upstream_name route ∧ target = route) ∨
      (u ≠ upstream_name route ∧ upstream_name target = u ∧ published vh target ∧
       ∀ other, published vh other → upstream_name other = u → other = target)
  end.
Proof.
  unfold rewrite_target. destruct uri as [u|]; [|naive_solver].
  destruct (String.eqb_spec u (upstream_name route)) as [->|Hne]; [naive_solver|].
  set (l := filter _ _).
  assert (∀ x, x ∈ l ↔ published vh x ∧ upstream_name x = u) as Hl.
  { intros x. unfold l. rewrite list_elem_of_filter, hash_values_published. naive_solver. }
  clearbody l. destruct l as [|x l].
  - split; [done|]. intros [[? _]|(_ & Hu & Hp & _)]; [done|].
    assert (target ∈ []) as Hin by (by apply Hl). by apply elem_of_nil in Hin.
  - destruct (proj1 (Hl x) ltac:(left)) as [Hpx Hux].
    destruct (existsb _ l) eqn:Hex.
    + split; [done|]. intros [[? _]|(_ & Hu & Hp & Huniq)]; [done|]. exfalso.
      apply existsb_exists in Hex as (y & Hy%list_elem_of_In & Hb).
      apply negb_true_iff, String.eqb_neq in Hb. apply Hb.
      destruct (proj1 (Hl y) ltac:(by right)) as [Hpy Huy].
      by rewrite (Huniq y Hpy Huy), (Huniq x Hpx Hux).
    + split.
      * intros [= <-]. right. split_and!; [done..|]. intros other Hpo Huo.
        assert (other ∈ x :: l) as [->|Hin]%elem_of_cons by (by apply Hl); [done|].
        destruct (String.eqb_spec (backend_name other) (backend_name x)) as [Hb|Hb].
        { destruct other, x; cbn in *; by subst. }
        assert (existsb (λ candidate, negb (String.eqb (backend_name candidate) (backend_name x))) l = true);
          [|congruence].
        apply existsb_exists. exists other. split; [by apply list_elem_of_In|].
        by apply negb_true_iff, String.eqb_neq.
      * intros [[? _]|(_ & Hu & Hp & Huniq)]; [done|]. by rewrite (Huniq x Hpx Hux).
Qed.

(** A plugin's rewritten URI selects a route exactly when some published
    resource has that URI on its backend and all published resources with it are on
    one backend; it is then that one route, in whatever order the hash map iterates.
    A URI nobody publishes, or published on two backends, is refused. *)
Theorem rewrite_target_spec vh route uri target :
  rewrite_target vh route uri = Ok target ↔
  match uri with
  | None => target = route
  | Some u =>
      (u = upstream_name route ∧ target = route) ∨
      (u ≠ upstream_name route ∧ upstream_name target = u ∧ published vh target ∧
       ∀ other, published vh other → upstream_name other = u → other = target)
  end.
Proof. apply rewrite_target_target. Qed.

(** Where the request goes once the pre hook answered: the route named or the one
    the rewritten URI selects, and its backend. *)
Definition resource_target vh (route : ServiceRoute) (uri : option string)
    : result ErrorData (ServiceRoute * BackendMCPGateway) :=
  target ← rewrite_target vh route uri;
  backend ← ok_or (backends vh !! backend_name target)
              (error INVALID_PARAMS "Routing problem... backend not found");
  Ok (target, backend).

Lemma resource_target_published vh name route uri target backend :
  resources vh !! name = Some route →
  resource_target vh route uri = Ok (target, backend) → published vh target.
Proof.
  intros Hroute. unfold resource_target. destruct (rewrite_target _ _ _) as [t|] eqn:Ht; [|done].
  cbn. destruct (backends vh !! _); [|done]. intros [= -> ->].
  apply rewrite_target_target in Ht. destruct uri; [|subst; by eexists].
  destruct Ht as [[_ ->]|(_ & _ & ? & _)]; [by eexists|done].
Qed.

(** C26: every run of [read_resource].  A call that does not validate or names no
    published resource contacts nothing; after the pre hook the request goes, once
    and on one connection, to a resource the virtual host publishes: the one named,
    or the single one a plugin's rewritten URI selects; any other rewriting is
    refused with no backend contacted.  The connection is closed before the post
    hook sees the contents, and the result is the backend's answer, its forwarded
    error, or what the post hook made of it. *)
Theorem read_resource_run svc request cx s r s'
    (Hrun : read_resource svc request cx s = (r, s')) (Hfresh : trace s = []) :
  match resource_checks request cx with
  | Err e => r = Err e ∧ s' = s
  | Ok (vh, route) =>
      in_flight_calls s' = in_flight_calls s ∧
      let pre := pre_events svc (upstream_name route) in
      ((∃ e, pre_ran svc (resource_hook route) None s (Err e) ∧ r = Err e ∧ trace s' = pre) ∨
       ∃ hook, pre_ran svc (resource_hook route) None s (Ok hook) ∧
         match resource_target vh route (hook ≫= hook_rewritten_uri) with
         | Err e => r = Err e ∧ trace s' = pre
         | Ok (target, backend) =>
             published vh target ∧
             let sent := {| resource_request_uri := upstream_name target;
                            resource_request_rest := resource_request_rest request |} in
             ended pre (backend_name target) (connection cx backend) [EReadResource sent]
               (answer_to (be_read_resource sent)) (hook_after_resource <$> hook) r (trace s')
         end)
  end.
Proof.
  unfold read_resource in Hrun. unfold resource_checks.
  run_step Hrun; apply validate_run in Hrun0 as [Hv ->]; rewrite <- Hv; [done|].
  cbn [mbind result_bind]. run_step Hrun; apply lift_inv in Hrun0 as [Hp ->].
  { destruct (resources a.1 !! _); cbn in Hp |- *; [done|]. by injection Hp as ->. }
  destruct (resources a.1 !! _) as [route|] eqn:Hroute; [|done]. injection Hp as ->.
  cbn [ok_or mbind result_bind]. run_step Hrun; apply hook_run in Hrun0 as (Hf & Ht & Hpre);
    rewrite Hfresh in Ht; cbn [app] in Ht.
  { split; [done|]. left. by exists e. }
  rewrite <- Hf. pose proof (λ t b, resource_target_published a.1 (resource_request_uri request) route
      (a0 ≫= hook_rewritten_uri) t b Hroute)
    as Hpub. unfold resource_target in *. cbv zeta.
  run_step Hrun; apply lift_inv in Hrun0 as [Htarget ->].
  { split; [done|]. right. exists a0. split; [done|]. by rewrite <- Htarget. }
  run_step Hrun; apply lift_inv in Hrun0 as [Hb ->].
  { split; [done|]. right. exists a0. split; [done|]. rewrite <- Htarget. cbn [mbind result_bind].
    by rewrite <- Hb. }
  rewrite <- Htarget in Hpub. cbn [mbind result_bind] in Hpub. rewrite <- Hb in Hpub.
  set (sent := Build_ReadResourceRequestParams _ _ _) in Hrun.
  assert (ended (pre_events svc (upstream_name route)) (backend_name a1) (connection cx a2)
    [EReadResource sent] (answer_to (be_read_resource sent)) (hook_after_resource <$> a0) r
    (trace s') ∧ in_flight_calls s' = in_flight_calls s1) as [Hend Hf2].
  { destruct a0 as [hook|].
    - exact (ask_run _ _ _ _ _ _ (Some (hook_after_resource hook)) _ _ _ Hrun Ht).
    - exact (ask_run _ _ _ _ _ _ None _ _ _ Hrun Ht). }
  split; [done|]. right. exists a0. rewrite <- Htarget. cbn [mbind result_bind]. rewrite <- Hb.
  split; [done|]. split; [by eapply Hpub|exact Hend].
Qed.

(** *** Completion *)

Definition completion_checks (request : CompleteRequestParams) cx
    : result ErrorData (ServiceRoute * BackendMCPGateway) :=
  vc ← validate_stateless (parts_extensions <$> cx_parts cx);
  route ← ok_or (completion_route vc.1 (complete_ref request))
            (error INVALID_PARAMS "Routing problem... completion not found");
  backend ← ok_or (backends vc.1 !! backend_name route)
              (error INVALID_PARAMS "Routing problem... backend not found");
  Ok (route, backend).

(** Every run of [complete]: it is routed, to the backend that publishes the
    prompt, resource template or (when no template has the URI) resource, with the
    backend's own name for it, over one connection that is closed, and the backend's
    answer or forwarded error is returned; a reference nobody publishes contacts
    nothing. *)
Theorem complete_run request cx s r s'
    (Hrun : complete request cx s = (r, s')) (Hfresh : trace s = []) :
  match completion_checks request cx with
  | Err e => r = Err e ∧ s' = s
  | Ok (route, backend) =>
      let sent := {| complete_ref := rename_reference (complete_ref request) (upstream_name route);
                     complete_rest := complete_rest request |} in
      ended [] (backend_name route) (connection cx backend) [EComplete sent]
        (answer_to (be_complete sent)) None r (trace s')
  end.
Proof.
  unfold complete in Hrun. unfold completion_checks.
  run_step Hrun; apply validate_run in Hrun0 as [Hv ->]; rewrite <- Hv; [done|].
  cbn [mbind result_bind]. run_step Hrun; apply lift_inv in Hrun0 as [Hp ->].
  { destruct (completion_route _ _); cbn in Hp |- *; [done|]. by injection Hp as ->. }
  destruct (completion_route _ _) as [route|]; [|done]. injection Hp as ->.
  cbn [ok_or mbind result_bind]. run_step Hrun; apply lift_inv in Hrun0 as [Hb ->].
  { destruct (backends a.1 !! _); cbn in Hb |- *; [done|]. by injection Hb as ->. }
  destruct (backends a.1 !! _) as [backend|]; [|done]. injection Hb as ->.
  cbn [ok_or mbind result_bind]. revert Hrun. cbv zeta. set (sent := Build_CompleteRequestParams _ _ _).
  unfold connect_backend_for_request, close_backend, mbind, G_bind, act, mret, G_ret, lift.
  fold (connection cx backend). rewrite Hfresh.
  destruct (be_connect _ _ _) as [[[]|[]] e1]; cbn [map_err env trace app];
    [|intros [= <- <-]; apply (ended_unreachable [])].
  destruct (be_complete sent e1) as [response e2] eqn:Hask; cbn [env trace app].
  destruct (be_close _) as [c e3]; cbn [env trace app]. intros [= <- <-]. cbn [trace].
  assert (answer_to (be_complete sent) response) by (exists e1; by rewrite Hask).
  destruct response; [by apply (ended_answered [])|by apply (ended_failed [])].
Qed.

(** *** Tool calls *)

Definition tool_checks (request : CallToolRequestParams) cx
    : result ErrorData (ServiceRoute * BackendMCPGateway) :=
  vc ← validate_stateless (parts_extensions <$> cx_parts cx);
  resolve_tool header_error_text request cx vc.1.

(** How the wait for the call [token] ended: with the backend's response, or
    cancelled by the client and relayed, and what that makes of the call. *)
Definition wait_ended (token : ProgressToken) (cancel : list Event)
    (x : result ServiceError CallToolResult) : Prop :=
  ∃ w, match (be_wait token w).1 with
       | WResponse response => cancel = [] ∧ x = tool_response response
       | WCancelled => cancel = [ECancel CANCEL_REASON] ∧ x = Err (Cancelled (Some CANCEL_REASON))
       end.

(** The run of a call the backend took under [token], after the request is sent. *)
Lemma taken_run pre bname conn sent token (post : option (CallToolResult → E → result ErrorData CallToolResult * E))
    s r s' :
  (response ← call_backend_tool token;
   _ ← stop_tracking_tool_call token;
   finish response post) s = (r, s') →
  trace s = pre ++ [EConnect bname conn; ESend sent] →
  in_flight_calls s' = delete token (in_flight_calls s) ∧
  ∃ cancel, ended pre bname conn (ESend sent :: cancel ++ [EUntrack token])
    (wait_ended token cancel) post r (trace s').
Proof.
  intros Hgo Ht. unfold call_backend_tool, stop_tracking_tool_call, untrack, act in Hgo.
  unfold mbind, G_bind, mret, G_ret in Hgo.
  assert (∃ waited e1, be_wait token (env s) = (waited, e1)) as (waited & e1 & Hw)
    by (destruct (be_wait token (env s)); by eexists _, _).
  rewrite Hw in Hgo. destruct waited as [response|].
  - apply (finish_run pre bname conn [ESend sent; EUntrack token] (wait_ended token [])) in Hgo
      as [Hend Hf].
    + split; [exact Hf|]. exists []. exact Hend.
    + exists (env s). by rewrite Hw.
    + cbn [trace]. by rewrite Ht, <- app_assoc.
  - cbn [env trace in_flight_calls] in Hgo. destruct (be_cancel _ _ _) as [x e2].
    apply (finish_run pre bname conn [ESend sent; ECancel CANCEL_REASON; EUntrack token]
      (wait_ended token [ECancel CANCEL_REASON])) in Hgo as [Hend Hf].
    + split; [exact Hf|]. exists [ECancel CANCEL_REASON]. exact Hend.
    + exists (env s). by rewrite Hw.
    + cbn [trace]. by rewrite Ht, <- !app_assoc.
Qed.

Lemma start_run sent (downstream : option ProgressToken) s :
  ∃ handle s2, start_tool_call sent downstream s = (Ok handle, s2) ∧
    answer_to (be_send sent) handle ∧ trace s2 = trace s ++ [ESend sent] ∧
    match handle with
    | Ok token => delete token (in_flight_calls s2) ⊆ in_flight_calls s
    | Err _ => in_flight_calls s2 = in_flight_calls s
    end.
Proof.
  unfold start_tool_call, act, mbind, G_bind, mret, G_ret, track.
  destruct (be_send sent (env s)) as [handle e] eqn:Hs.
  assert (answer_to (be_send sent) handle) by (exists (env s); by rewrite Hs).
  destruct downstream as [d|]; rewrite Hs; [destruct handle as [token|x]|];
    (eexists _, _; split; [reflexivity|]; split; [done|]; split; [done|]).
  - cbn [in_flight_calls]. rewrite delete_insert_eq. apply delete_subseteq.
  - done.
  - cbn [in_flight_calls]. destruct handle; [apply delete_subseteq|done].
Qed.

(** How a tool call ends once the checks have passed: the backend is unreachable,
    does not take the call, or takes it under a token. *)
Inductive tool_ended pre bname conn sent
    (post : option (CallToolResult → E → result ErrorData CallToolResult * E))
    : result ErrorData CallToolResult → list Event → Prop :=
| tool_unreachable :
    tool_ended pre bname conn sent post (Err UNAVAILABLE) (pre ++ [EConnect bname conn])
| tool_not_taken e : answer_to (be_send sent) (Err e) →
    tool_ended pre bname conn sent post (Err (backend_forward_error e))
      (pre ++ [EConnect bname conn; ESend sent])
| tool_taken token cancel r tr : answer_to (be_send sent) (Ok token) →
    ended pre bname conn (ESend sent :: cancel ++ [EUntrack token]) (wait_ended token cancel) post r tr →
    tool_ended pre bname conn sent post r tr.

(** The run from the connection on. *)
Lemma send_run pre bname backend cx sent
    (post : option (CallToolResult → E → result ErrorData CallToolResult * E)) s r s' :
  (_ ← connect_backend_for_request bname backend cx;
   handle ← start_tool_call sent (cx_progress_token cx);
   token ← lift (map_err backend_forward_error handle);
   response ← call_backend_tool token;
   _ ← stop_tracking_tool_call token;
   finish response post) s = (r, s') → trace s = pre →
  in_flight_calls s' ⊆ in_flight_calls s ∧
  tool_ended pre bname (connection cx backend) sent post r (trace s').
Proof.
  intros Hrun <-. run_step Hrun; apply connect_run in Hrun0 as (Ht & Hf & Hr).
  { destruct Hr as [Hr|[= ->]]; [done|]. rewrite Ht, Hf. split; [done|constructor]. }
  clear Hr. rewrite <- Hf.
  destruct (start_run sent (cx_progress_token cx) s1) as (handle & s2 & Hstart & Ha & Ht2 & Hd).
  run_step Hrun; rewrite Hstart in Hrun0; [done|]. injection Hrun0 as <- <-.
  run_step Hrun; apply lift_inv in Hrun0 as [Hh ->].
  { destruct handle as [|x]; [done|]. injection Hh as ->. rewrite Hd. split; [done|].
    rewrite Ht2, Ht, <- app_assoc. by constructor. }
  destruct handle as [token|]; [|done]. injection Hh as ->.
  apply (taken_run (trace s) bname (connection cx backend) sent) in Hrun as [Hdel [cancel Hend]].
  - rewrite Hdel. split; [done|]. by eapply tool_taken.
  - by rewrite Ht2, Ht, <- app_assoc.
Qed.

(** C5: every run of [call_tool].  A call that does not validate, whose tool or
    backend is not published, or whose parameter headers contradict its arguments
    returns that error and contacts nothing.  Else the plugins see it first and may
    refuse it; then one connection is opened, to the published backend, and at most
    one request is sent, with the backend's own tool name and the client's
    arguments or the plugin's.  Once the backend took it, the progress mapping is
    removed and the connection closed, in this order, exactly once, whether the
    call succeeds, fails or is cancelled (a cancellation is relayed first and
    reported as an error), the post hook runs only after that, on the backend's
    answer, and no mapping is left behind. *)
Theorem call_tool_run svc request cx s r s'
    (Hrun : call_tool header_error_text svc request cx s = (r, s')) (Hfresh : trace s = []) :
  match tool_checks request cx with
  | Err e => r = Err e ∧ s' = s
  | Ok (route, backend) =>
      in_flight_calls s' ⊆ in_flight_calls s ∧
      let hook := hook_before_tool request (upstream_name route) (backend_name route) in
      let pre := pre_events svc (upstream_name route) in
      ((∃ e, pre_ran svc hook PreHookResult_default s (Err e) ∧ r = Err e ∧ trace s' = pre) ∨
       ∃ result, pre_ran svc hook PreHookResult_default s (Ok result) ∧
         tool_ended pre (backend_name route) (connection cx backend)
           (routed_tool request route (pre_arguments result))
           (hook_after_tool <$> pre_state result) r (trace s'))
  end.
Proof.
  unfold call_tool in Hrun. unfold tool_checks.
  run_step Hrun; apply validate_run in Hrun0 as [Hv ->]; rewrite <- Hv; [done|].
  cbn [mbind result_bind]. run_step Hrun; apply lift_inv in Hrun0 as [Hp ->].
  { by rewrite <- Hp. }
  rewrite <- Hp. destruct a0 as [route backend].
  run_step Hrun; apply pre_run in Hrun0 as (Hf & Ht & Hpre); rewrite Hfresh in Ht; cbn [app] in Ht.
  { rewrite Hf. split; [done|]. left. by exists e. }
  rewrite <- Hf.
  assert (in_flight_calls s' ⊆ in_flight_calls s1 ∧
    tool_ended (pre_events svc (upstream_name route)) (backend_name route) (connection cx backend)
      (routed_tool request route (pre_arguments a0)) (hook_after_tool <$> pre_state a0) r (trace s'))
    as [Hsub Hend].
  { destruct (pre_state a0) as [state|].
    - exact (send_run _ _ _ _ _ (Some (hook_after_tool state)) _ _ _ Hrun Ht).
    - exact (send_run _ _ _ _ _ None _ _ _ Hrun Ht). }
  split; [done|]. right. by exists a0.
Qed.
End outcomes.

(** ** A concrete gateway

    One virtual host with one backend, whose calls succeed, and plugins that allow
    everything; the world counts what is asked of it. *)

Module ConcreteHandlers.
Import Concrete ConcreteRmcp.
#[export] Instance url_parts : UrlParts := {|
  upstream_scheme _ := "https"; upstream_host_str _ := Some "weather"; upstream_port _ := None |}.
#[export] Instance trace_context : TraceContext := {| inject_current_context h := h |}.
#[export] Instance versions : ProtocolVersions := {|
  has_standard_headers v := String.eqb v "2026-07-28"; V_2026_07_28 := "2026-07-28" |}.
Definition result_of (t : string) : CallToolResult :=
  {| tool_content := [BText t None None]; is_error := Some false; tool_rest := "" |}.
#[export] Instance backends : Backends Z := {|
  be_connect _ _ n := (Ok (), n + 1);
  be_send _ n := (Ok "token", n + 1);
  be_wait _ n := (WResponse (Ok (Ok (SRCallTool (result_of "sunny")))), n + 1);
  be_cancel _ _ n := (Ok (), n + 1);
  be_get_prompt _ n := (Ok {| prompt_messages := []; prompt_rest := "" |}, n + 1);
  be_read_resource _ n := (Ok {| contents := []; resource_rest := "" |}, n + 1);
  be_complete _ n := (Ok {| completion_values := ["a"]; completion_rest := "" |}, n + 1);
  be_close n := (Ok (), n + 1) |}.
#[export] Instance hooks : PluginHooks Z := {|
  HookState := (); HookResource := option string;
  hook_before_tool _ _ _ n := (Ok {| pre_arguments := Unchanged; pre_state := Some () |}, n + 1);
  hook_after_tool _ r n := (Ok r, n + 1);
  hook_before_prompt _ _ _ n := (Ok PreHookResult_default, n + 1);
  hook_after_prompt _ r n := (Ok r, n + 1);
  hook_before_resource _ n := (Ok (Some "file:///b"), n + 1);
  hook_rewritten_uri h := h;
  hook_after_resource _ r n := (Ok r, n + 1) |}.
Definition backend : BackendMCPGateway := {|
  backend_display_name := "weather"; url := "https://weather/mcp";
  mcp_protocol_version := "2025-11-25"; passthrough_headers := []; add_headers := ∅;
  remove_headers := []; completion_config := ∅; tool_schemas := ∅ |}.
Definition route (name : string) : ServiceRoute :=
  {| backend_name := "weather"; upstream_name := name |}.
Definition host : VirtualHost := {|
  Apis.backends := {["weather" := backend]};
  tools := {["weather_forecast" := route "forecast"]};
  resources := {["a" := route "file:///a"; "b" := route "file:///b"]};
  resource_templates := ∅;
  prompts := {["weather_greet" := route "greet"]} |}.
Definition cx : RequestContext := {|
  cx_parts := Some {|
    parts_headers := [];
    parts_extensions := {|
      ext_virtual_host_id := Some "vh"; ext_claims := Some {| claims_value := JNull |};
      ext_principal := None; ext_user_config := Some {| virtual_hosts := {["vh" := host]} |} |} |};
  cx_protocol_version := Some "2025-11-25"; cx_progress_token := Some "downstream" |}.
Definition svc : McpService := {| plugin_runtime := true |}.
Definition start : GState (E := Z) := {| env := 0; in_flight_calls := ∅; trace := [] |}.
Definition tool_request : CallToolRequestParams := {|
  tool_request_name := "weather_forecast"; tool_request_arguments := None; tool_request_rest := "" |}.
Definition prompt_request : GetPromptRequestParams := {|
  prompt_request_name := "weather_greet"; prompt_request_args := None; prompt_request_rest := "" |}.
Definition resource_request : ReadResourceRequestParams :=
  {| resource_request_uri := "a"; resource_request_rest := "" |}.
Definition complete_request : CompleteRequestParams :=
  {| complete_ref := RefPrompt "weather_greet" ""; complete_rest := "" |}.
End ConcreteHandlers.

Import Concrete ConcreteRmcp ConcreteHandlers.

Definition tool_run := call_tool (λ _, "header mismatch") svc tool_request cx start.
Definition prompt_run := get_prompt svc prompt_request cx start.
Definition resource_run := read_resource svc resource_request cx start.
Definition completion_run := complete complete_request cx start.

Lemma call_tool_run_witness :
  tool_run.1 = Ok (result_of "sunny") ∧ length (trace tool_run.2) = 6%nat ∧
  in_flight_calls tool_run.2 ⊆ ∅.
Proof.
  split; [vm_compute; reflexivity|]. split; [vm_compute; reflexivity|].
  pose proof (call_tool_run (λ _, "header mismatch") svc tool_request cx start tool_run.1 tool_run.2
    (surjective_pairing _) eq_refl) as Hrun.
  destruct (tool_checks (λ _, "header mismatch") tool_request cx) as [[r b]|] eqn:E.
  - exact (proj1 Hrun).
  - revert E. vm_compute. discriminate.
Defined.

Lemma get_prompt_run_witness :
  trace prompt_run.2 !! 0%nat = Some (EPre "greet") ∧ in_flight_calls prompt_run.2 = ∅.
Proof.
  split; [vm_compute; reflexivity|].
  pose proof (get_prompt_run svc prompt_request cx start prompt_run.1 prompt_run.2
    (surjective_pairing _) eq_refl) as Hrun.
  destruct (prompt_checks prompt_request cx) as [[r b]|] eqn:E.
  - exact (proj1 Hrun).
  - revert E. vm_compute. discriminate.
Defined.

Lemma read_resource_run_witness :
  trace resource_run.2 !! 2%nat =
    Some (EReadResource {| resource_request_uri := "file:///b"; resource_request_rest := "" |}) ∧
  in_flight_calls resource_run.2 = ∅.
Proof.
  split; [vm_compute; reflexivity|].
  pose proof (read_resource_run svc resource_request cx start resource_run.1 resource_run.2
    (surjective_pairing _) eq_refl) as Hrun.
  destruct (resource_checks resource_request cx) as [[vh r]|] eqn:E.
  - exact (proj1 Hrun).
  - revert E. vm_compute. discriminate.
Defined.

Lemma complete_run_witness :
  match completion_checks complete_request cx with
  | Ok (route, backend) =>
      ended (E := Z) [] "weather" (connection cx backend)
        [EComplete {| complete_ref := RefPrompt "greet" ""; complete_rest := "" |}]
        (answer_to (be_complete {| complete_ref := RefPrompt "greet" ""; complete_rest := "" |})) None
        completion_run.1 (trace completion_run.2)
  | Err _ => False
  end.
Proof.
  pose proof (complete_run complete_request cx start completion_run.1 completion_run.2
    (surjective_pairing _) eq_refl) as Hrun.
  destruct (completion_checks complete_request cx) as [[r b]|] eqn:E.
  - assert (r = route "greet") as -> by (revert E; vm_compute; by intros [= <- _]). exact Hrun.
  - revert E. vm_compute. discriminate.
Defined.

Lemma rewrite_target_spec_witness :
  rewrite_target host (route "file:///a") (Some "file:///b") = Ok (route "file:///b").
Proof.
  apply (rewrite_target_spec host (route "file:///a") (Some "file:///b") (route "file:///b")).
  right. split_and!; [discriminate|reflexivity|by exists "b"|].
  intros [b u] [name Hname] Hu. cbn in Hu. subst u. revert Hname. cbn [resources host].
  intros [[_ H]|[_ H]]%lookup_insert_Some; [discriminate H|].
  apply lookup_singleton_Some in H as [_ H]. exact (eq_sym H).
Defined.
