(* ===== verification/Progress.v ===== *)
(** * Relaying progress notifications ([backend_client.rs])

    A backend client is shared by the request that makes tool calls through it
    and by the tasks that relay the backend's progress notifications.  The tasks
    interleave at their awaits; the read-write lock on [in_flight_calls] is
    explicit, and so are the hook states, which the request shares with the
    notifications of its call. *)

From S2P Require Import Prelude HttpTypes Rmcp Cmf CpexRuntime CpexPrompts CpexTools.
From stdpp Require Import functions.

(** The notification, with everything but its token as one JSON value. *)
Record ProgressNotificationParam : Type := {
  progress_token : string;
  progress_rest : Value;
}.

(** [post_state] is the [Arc] of a hook state, by address. *)
Record InFlightToolCall : Type := {
  downstream_progress_token : string;
  post_state : option nat;
}.

(** Who holds the write guard of [in_flight_calls]: nobody, a call about to be
    sent, or a call that was sent under a backend token and is not yet
    published.  Readers and [stop_tracking_tool_call] await nothing while they
    hold the lock, so they are one step each. *)
Inductive Writer : Type :=
| Free
| Sending (call : InFlightToolCall)
| Publishing (backend_token : string) (call : InFlightToolCall).

Section progress.
Context `{!CmfConstants, !RmcpTypes, !ToolConstructors, !CmfMessages}.
Context `{!SerdeValue CallToolResult, !SerdeValue ProgressNotificationParam}.
Context {P : Type} `{!CpexManager P}.

Record ClientState : Type := {
  in_flight_calls : gmap string InFlightToolCall;
  writer : Writer;
  hook_states : nat → CallState (P := P);
  world : World P;
  (* notifications whose task has not looked its call up yet *)
  arrived : list ProgressNotificationParam;
  (* readdressed notifications on their way through the post hook *)
  addressed : list (InFlightToolCall * ProgressNotificationParam);
  (* given to the downstream peer *)
  delivered : list (InFlightToolCall * ProgressNotificationParam);
  (* the tokens RMCP generated, the tracked calls sent under them, and the
     tokens the request stopped tracking: the history of the client *)
  issued : gset string;
  sent : gmap string InFlightToolCall;
  stopped : gset string;
}.

Definition client_new (hook_states : nat → CallState) (w : World P) : ClientState := {|
  in_flight_calls := ∅; writer := Free; hook_states := hook_states; world := w;
  arrived := []; addressed := []; delivered := [];
  issued := ∅; sent := ∅; stopped := ∅ |}.

Definition set_writer (wr : Writer) (s : ClientState) : ClientState := {|
  in_flight_calls := in_flight_calls s; writer := wr; hook_states := hook_states s;
  world := world s; arrived := arrived s; addressed := addressed s; delivered := delivered s;
  issued := issued s; sent := sent s; stopped := stopped s |}.

(** The request reaches the wire under a token RMCP generated for it. *)
Definition enqueue (token : string) (call : option InFlightToolCall) (s : ClientState) : ClientState := {|
  in_flight_calls := in_flight_calls s;
  writer := match call with Some call => Publishing token call | None => writer s end;
  hook_states := hook_states s; world := world s;
  arrived := arrived s; addressed := addressed s; delivered := delivered s;
  issued := {[token]} ∪ (issued s);
  sent := match call with Some call => <[token := call]> (sent s) | None => sent s end;
  stopped := stopped s |}.

(** [calls.insert(token, call)], and the guard is dropped. *)
Definition publish (token : string) (call : InFlightToolCall) (s : ClientState) : ClientState := {|
  in_flight_calls := <[token := call]> (in_flight_calls s); writer := Free;
  hook_states := hook_states s; world := world s;
  arrived := arrived s; addressed := addressed s; delivered := delivered s;
  issued := issued s; sent := sent s; stopped := stopped s |}.

Definition stop_tracking (token : string) (s : ClientState) : ClientState := {|
  in_flight_calls := delete token (in_flight_calls s); writer := writer s;
  hook_states := hook_states s; world := world s;
  arrived := arrived s; addressed := addressed s; delivered := delivered s;
  issued := issued s; sent := sent s; stopped := {[token]} ∪ stopped s |}.

Definition progress_call (token : string) (s : ClientState) : option InFlightToolCall :=
  in_flight_calls s !! token.

Definition readdress (call : InFlightToolCall) (progress : ProgressNotificationParam)
    : ProgressNotificationParam := {|
  progress_token := downstream_progress_token call;
  progress_rest := progress_rest progress |}.

(** A plugin's denial, and an error of the hook, both drop the notification. *)
Definition stream_event_post_hook (call : InFlightToolCall) (event : ProgressNotificationParam)
    (s : ClientState) : option ProgressNotificationParam * (nat → CallState) * World P :=
  match post_state call with
  | None => (Some event, hook_states s, world s)
  | Some address =>
      let '(r, state, w) := after_stream_event (hook_states s address) event (world s) in
      (match r with Ok event => event | Err _ => None end,
       <[address := state]> (hook_states s), w)
  end.

Definition set_arrived (l : list ProgressNotificationParam) (s : ClientState) : ClientState := {|
  in_flight_calls := in_flight_calls s; writer := writer s; hook_states := hook_states s;
  world := world s; arrived := l; addressed := addressed s; delivered := delivered s;
  issued := issued s; sent := sent s; stopped := stopped s |}.

(** [on_progress] up to the lookup: an unknown token drops the notification. *)
Definition look_up (progress : ProgressNotificationParam) (rest : list ProgressNotificationParam)
    (s : ClientState) : ClientState := {|
  in_flight_calls := in_flight_calls s; writer := writer s; hook_states := hook_states s;
  world := world s; arrived := rest;
  addressed := match progress_call (progress_token progress) s with
               | Some call => addressed s ++ [(call, readdress call progress)]
               | None => addressed s
               end;
  delivered := delivered s; issued := issued s; sent := sent s; stopped := stopped s |}.

(** [on_progress] from the lookup on; a failed [notify_progress] only warns. *)
Definition relay (call : InFlightToolCall) (progress : ProgressNotificationParam)
    (rest : list (InFlightToolCall * ProgressNotificationParam)) (s : ClientState) : ClientState :=
  let '(event, states, w) := stream_event_post_hook call progress s in {|
  in_flight_calls := in_flight_calls s; writer := writer s; hook_states := states;
  world := w; arrived := arrived s; addressed := rest;
  delivered := match event with
               | Some event => delivered s ++ [(call, event)]
               | None => delivered s
               end;
  issued := issued s; sent := sent s; stopped := stopped s |}.

(** What a step looked up, if it is the lookup of a notification. *)
Inductive Label : Type :=
| Internal
| Looked (token : string) (result : option InFlightToolCall).

(** The steps of the client: those of [start_tool_call] in order under the write
    guard, those of other tasks at any moment the lock lets them.  A backend may
    send a notification under any token at any time; RMCP's tokens are new. *)
Inductive step : Label → ClientState → ClientState → Prop :=
| step_acquire call s : writer s = Free → step Internal s (set_writer (Sending call) s)
| step_send call token s : writer s = Sending call → token ∉ issued s →
    step Internal s (enqueue token (Some call) s)
| step_send_failed call s : writer s = Sending call → step Internal s (set_writer Free s)
| step_publish call token s : writer s = Publishing token call →
    step Internal s (publish token call s)
| step_send_untracked token s : token ∉ issued s → step Internal s (enqueue token None s)
| step_stop token s : writer s = Free → token ∈ issued s → step Internal s (stop_tracking token s)
| step_arrive progress s : step Internal s (set_arrived (arrived s ++ [progress]) s)
| step_look_up before progress rest s : writer s = Free →
    arrived s = before ++ (progress :: rest) →
    step (Looked (progress_token progress) (progress_call (progress_token progress) s)) s
      (look_up progress (before ++ rest) s)
| step_relay before call progress rest s : addressed s = before ++ ((call, progress) :: rest) →
    step Internal s (relay call progress (before ++ rest) s)
| step_other_plugins states w s :
    step Internal s {| in_flight_calls := in_flight_calls s; writer := writer s;
      hook_states := states; world := w; arrived := arrived s; addressed := addressed s;
      delivered := delivered s; issued := issued s; sent := sent s; stopped := stopped s |}.

Inductive reachable (states : nat → CallState) (w : World P) : ClientState → Prop :=
| reachable_new : reachable states w (client_new states w)
| reachable_step l s s' : reachable states w s → step l s s' → reachable states w s'.

(** ** Invariant *)

(** The call a backend token stands for: sent under it and not stopped. *)
Definition live (s : ClientState) (token : string) : option InFlightToolCall :=
  if bool_decide (token ∈ stopped s) then None else sent s !! token.

Definition of_sent (s : ClientState) (call : InFlightToolCall) : Prop :=
  ∃ token, sent s !! token = Some call.

Record client_inv (s : ClientState) : Prop := {
  inv_sent : dom (sent s) ⊆ issued s;
  inv_stopped : stopped s ⊆ issued s;
  inv_calls : match writer s with
    | Publishing token call =>
        sent s !! token = Some call ∧ ¬ (token ∈ stopped s) ∧ (in_flight_calls s !! token = None) ∧
        ∀ token', token' ≠ token → in_flight_calls s !! token' = live s token'
    | _ => ∀ token, in_flight_calls s !! token = live s token
    end;
  inv_addressed : ∀ call p, (call, p) ∈ addressed s →
    of_sent s call ∧ progress_token p = downstream_progress_token call;
  inv_delivered : ∀ call p, (call, p) ∈ delivered s →
    of_sent s call ∧ (post_state call = None → progress_token p = downstream_progress_token call);
}.

Lemma client_inv_new states w : client_inv (client_new states w).
Proof.
  split; simpl; set_solver.
Qed.

Lemma fresh_not_sent s token : client_inv s → token ∉ issued s → sent s !! token = None.
Proof. intros [Hs _ _ _ _] Ht. apply not_elem_of_dom. set_solver. Qed.

Lemma live_Free s token : client_inv s → writer s = Free → progress_call token s = live s token.
Proof. intros [_ _ Hc _ _] Hw. rewrite Hw in Hc. apply Hc. Qed.

(** A step that only touches the queues and the hook states. *)
Lemma client_inv_queues s s' : client_inv s →
  in_flight_calls s' = in_flight_calls s → writer s' = writer s → issued s' = issued s →
  sent s' = sent s → stopped s' = stopped s →
  (∀ call p, (call, p) ∈ addressed s' →
     of_sent s call ∧ progress_token p = downstream_progress_token call) →
  (∀ call p, (call, p) ∈ delivered s' →
     of_sent s call ∧ (post_state call = None → progress_token p = downstream_progress_token call)) →
  client_inv s'.
Proof.
  intros [I1 I2 I3 I4 I5] Hc Hw Hi Hs Ht Ha Hd. unfold live, of_sent in *.
  split; unfold live, of_sent; rewrite ?Hc, ?Hw, ?Hi, ?Hs, ?Ht; auto.
Qed.

(** A step that moves the lock or the tables but no notification. *)
Lemma client_inv_tables s s' : client_inv s →
  addressed s' = addressed s → delivered s' = delivered s →
  (∀ token c, sent s !! token = Some c → sent s' !! token = Some c) →
  dom (sent s') ⊆ issued s' → stopped s' ⊆ issued s' →
  match writer s' with
  | Publishing token call =>
      sent s' !! token = Some call ∧ ¬ (token ∈ stopped s') ∧ in_flight_calls s' !! token = None ∧
      ∀ token', token' ≠ token → in_flight_calls s' !! token' = live s' token'
  | _ => ∀ token, in_flight_calls s' !! token = live s' token
  end → client_inv s'.
Proof.
  intros [I1 I2 I3 I4 I5] Ha Hd Hmono Hsent Hstop Hcalls.
  split; [done..| |]; rewrite ?Ha, ?Hd; unfold of_sent in *.
  - intros call p Hin. destruct (I4 call p Hin) as [[t Ht] ?]. eauto.
  - intros call p Hin. destruct (I5 call p Hin) as [[t Ht] ?]. eauto.
Qed.

Lemma step_send_inv s call token : client_inv s → writer s = Sending call → token ∉ issued s →
  client_inv (enqueue token (Some call) s).
Proof.
  intros Hinv Hw Ht. pose proof (fresh_not_sent s token Hinv Ht) as Hnew.
  pose proof Hinv as [I1 I2 I3 I4 I5]. rewrite Hw in I3.
  apply (client_inv_tables s); try done; simpl.
  - intros t c Hc. rewrite lookup_insert_ne; [done|]. by intros ->; simplify_eq.
  - rewrite dom_insert. set_solver.
  - set_solver.
  - assert (token ∉ stopped s) as Hst by set_solver.
    split_and!; [by rewrite lookup_insert_eq|done| |].
    + rewrite I3. unfold live. by rewrite bool_decide_false.
    + intros t Hne. rewrite I3. unfold live. simpl. by rewrite lookup_insert_ne.
Qed.

Lemma step_publish_inv s call token : client_inv s → writer s = Publishing token call →
  client_inv (publish token call s).
Proof.
  intros Hinv Hw. pose proof Hinv as [I1 I2 I3 I4 I5]. rewrite Hw in I3.
  destruct I3 as (Hs & Hst & _ & Hrest). apply (client_inv_tables s); try done; simpl.
  intros t. destruct (decide (t = token)) as [->|Hne].
  - rewrite lookup_insert_eq. unfold live. simpl. by rewrite bool_decide_false.
  - rewrite lookup_insert_ne by done. by apply Hrest.
Qed.

Lemma step_untracked_inv s token : client_inv s → token ∉ issued s →
  client_inv (enqueue token None s).
Proof.
  intros Hinv Ht. pose proof Hinv as [I1 I2 I3 I4 I5].
  apply (client_inv_tables s); try done; simpl; first [exact I3 | set_solver].
Qed.

Lemma step_stop_inv s token : client_inv s → writer s = Free → token ∈ issued s →
  client_inv (stop_tracking token s).
Proof.
  intros Hinv Hw Ht. pose proof Hinv as [I1 I2 I3 I4 I5]. rewrite Hw in I3.
  apply (client_inv_tables s); try done; simpl; [set_solver|]. rewrite Hw.
  intros t. unfold live in *. simpl. destruct (decide (t = token)) as [->|Hne].
  - rewrite lookup_delete_eq, bool_decide_true by set_solver. done.
  - rewrite lookup_delete_ne, I3 by done. by rewrite (bool_decide_ext (t ∈ stopped s) (t ∈ {[token]} ∪ stopped s)) by set_solver.
Qed.

Lemma step_inv l s s' : client_inv s → step l s s' → client_inv s'.
Proof.
  intros Hinv Hstep. pose proof Hinv as [I1 I2 I3 I4 I5].
  destruct Hstep as [call s Hw|call token s Hw Ht|call s Hw|call token s Hw|token s Ht|
    token s Hw Ht|p s|before p rest s Hw Ha|before call p rest s Ha|states w s].
  - apply (client_inv_tables s); try done. simpl. by rewrite Hw in I3.
  - by apply step_send_inv.
  - apply (client_inv_tables s); try done. simpl. by rewrite Hw in I3.
  - by apply step_publish_inv.
  - by apply step_untracked_inv.
  - by apply step_stop_inv.
  - by apply (client_inv_queues s).
  - apply (client_inv_queues s); try done. simpl. rewrite (live_Free s) by done.
    destruct (live s (progress_token p)) as [c|] eqn:Hl; [|done].
    intros call q [?|[= -> ->]%list_elem_of_singleton]%elem_of_app; [auto|]. split; [|done].
    unfold live in Hl. case_bool_decide; [done|]. by exists (progress_token p).
  - destruct (I4 call p) as [Hsent Haddr];
      [rewrite Ha; apply elem_of_app; right; left|].
    unfold relay. destruct (stream_event_post_hook call p s) as [[event states] w] eqn:Hhook.
    apply (client_inv_queues s); try done; simpl.
    + intros c q Hq. apply I4. rewrite Ha.
      apply elem_of_app in Hq as [Hq|Hq]; apply elem_of_app; [by left|by right; right].
    + destruct event as [e|]; [|done].
      intros c q [?|[= -> ->]%list_elem_of_singleton]%elem_of_app; [auto|]. split; [done|].
      intros Hnone. unfold stream_event_post_hook in Hhook. rewrite Hnone in Hhook. by simplify_eq.
  - by apply (client_inv_queues s).
Qed.

Lemma reachable_inv states w s : reachable states w s → client_inv s.
Proof. induction 1; [apply client_inv_new|by eapply step_inv]. Qed.

(** C15: whatever the interleaving, the lookup of a progress notification finds
    exactly the tracked call that was sent under its token, as long as the request
    has not stopped tracking it: none is lost because the backend answered before
    the token was published, and none is relayed after the call ended.  Every
    notification given to the downstream client belongs to a call that was sent,
    and carries the token the client chose unless a plugin rewrote it. *)
Theorem progress_relay_exact states w s (Hreach : reachable states w s) :
  (∀ token result s', step (Looked token result) s s' → result = live s token) ∧
  (∀ call p, (call, p) ∈ delivered s →
     of_sent s call ∧ (post_state call = None → progress_token p = downstream_progress_token call)).
Proof.
  apply reachable_inv in Hreach as Hinv. split; [|apply Hinv].
  intros token result s' Hstep. inversion Hstep; subst. by apply live_Free.
Qed.
End progress.

(** ** A concrete client *)

Module ConcreteProgress.
Import ConcreteRmcp ConcreteCpex ConcretePrompts ConcreteTools.
#[export] Instance serde_progress : SerdeValue ProgressNotificationParam := {|
  to_value p := Some (JArray [JString (progress_token p); progress_rest p]);
  from_value v :=
    match v with
    | JArray [JString t; r] => Ok {| progress_token := t; progress_rest := r |}
    | _ => Err "not a progress notification"
    end |}.

Definition call : InFlightToolCall :=
  {| downstream_progress_token := "client-7"; post_state := Some 0%nat |}.
Definition progress (token : string) : ProgressNotificationParam :=
  {| progress_token := token; progress_rest := JNumber (PosInt 50) |}.
Definition states (_ : nat) : CallState (P := Z) := example_state "id".

(** The backend's notification arrives before its token is published. *)
Definition overtaking : ClientState :=
  set_arrived [progress "b1"]
    (enqueue "b1" (Some call) (set_writer (Sending call) (client_new states world))).
Definition published : ClientState := publish "b1" call overtaking.
Definition after_relay : ClientState :=
  relay call (progress "client-7") [] (look_up (progress "b1") [] published).

Lemma overtaking_reachable : reachable states world overtaking.
Proof.
  eapply reachable_step; [|apply (step_arrive (progress "b1"))].
  eapply reachable_step; [|apply (step_send call "b1"); [reflexivity|set_solver]].
  eapply reachable_step; [|apply (step_acquire call); reflexivity].
  apply reachable_new.
Qed.
Lemma published_reachable : reachable states world published.
Proof.
  eapply reachable_step; [apply overtaking_reachable|]. apply (step_publish call "b1"). reflexivity.
Qed.
Lemma after_relay_reachable : reachable states world after_relay.
Proof.
  eapply reachable_step; [|apply (step_relay [] call (progress "client-7") []); reflexivity].
  eapply reachable_step; [apply published_reachable|].
  apply (step_look_up [] (progress "b1") [] published); reflexivity.
Qed.

Lemma progress_relay_exact_witness :
  delivered after_relay = [(call, progress "client-7")] ∧
  (∀ result s', step (Looked "b1" result) overtaking s' → False) ∧
  (∀ result s', step (Looked "b1" result) published s' → result = Some call) ∧
  of_sent after_relay call.
Proof.
  split; [vm_compute; reflexivity|]. split; [|split].
  - intros result s' Hstep. inversion Hstep. discriminate.
  - intros result s' Hstep.
    apply (proj1 (progress_relay_exact _ _ _ published_reachable)) in Hstep.
    rewrite Hstep. vm_compute. reflexivity.
  - destruct (progress_relay_exact _ _ _ after_relay_reachable) as [_ Hd].
    apply (Hd call (progress "client-7")). left.
Defined.
End ConcreteProgress.
