(* ===== verification/EndToEnd.v ===== *)
(** * From an HTTP request to the backends ([mcp_service/mod.rs], [lib.rs])

    The dispatch of MCP calls to their handlers, mounted behind the middleware
    stack: which backend an HTTP request can reach, and what it can ask of it.
    rmcp's streamable HTTP service, which decodes a body to one call and encodes
    its result, is a parameter. *)

From S2P Require Import Prelude HttpTypes Apis McpStandardHeaders Rmcp Cmf.
From S2P Require Import HeaderLimits UpstreamHeaders ConfigStore Authorization Layers Gateway.

(** ** [ServerHandler for McpService] *)

Inductive McpRequest `{RmcpTypes} : Type :=
| Initialize (protocol_version : ProtocolVersion)
| ListTools
| CallTool (request : CallToolRequestParams)
| ListResources
| ReadResource (request : ReadResourceRequestParams)
| ListResourceTemplates
| Subscribe
| Unsubscribe
| ListPrompts
| GetPrompt (request : GetPromptRequestParams)
| Complete (request : CompleteRequestParams).

Inductive McpResult `{RmcpTypes} : Type :=
| RInitialize (r : InitializeResult)
| RCallTool (r : CallToolResult)
| RReadResource (r : ReadResourceResult)
| RGetPrompt (r : GetPromptResult)
| RComplete (r : CompleteResult)
| REmpty.

(** axum's router: whether a service nested at a pattern gets the requests of
    a path, and what a router without a fallback answers. *)
Class AxumRouter := {
  nests : string → string → bool;
  router_not_found : Response;
}.

Section dispatch.
Context `{!RmcpHeaders, !HttpLib, !Base64, !SerdeFloat, !UrlParts, !TraceContext}.
Context `{!HashIter, !RmcpTypes, !ProtocolVersions} {E : Type} `{!Backends E, !PluginHooks E}.
Context (header_error_text : HeaderError → string).

Definition dispatch (self : McpService) (request : McpRequest) (cx : RequestContext)
    : G (E := E) McpResult :=
  match request with
  | Initialize version => r ← lift (initialize version); mret (RInitialize r)
  | CallTool request => r ← call_tool header_error_text self request cx; mret (RCallTool r)
  | ReadResource request => r ← read_resource self request cx; mret (RReadResource r)
  | GetPrompt request => r ← get_prompt self request cx; mret (RGetPrompt r)
  | Complete request => r ← complete request cx; mret (RComplete r)
  | Subscribe => _ ← lift subscribe; mret REmpty
  | Unsubscribe => _ ← lift unsubscribe; mret REmpty
  | ListTools | ListResources | ListResourceTemplates | ListPrompts => lift fan_out_not_supported
  end.

(** ** The service behind the stack *)

(** [StreamableHttpService] on a request with body [B]: the call the body holds,
    with its protocol version and progress token, if it passes the service's own
    checks, and the HTTP response for the call's result. *)
Class StreamableHttp (B : Type) := {
  decode_call : B → Request → option (McpRequest * option ProtocolVersion * option ProgressToken);
  encode_result : B → Request → option (result ErrorData McpResult) → Response;
}.

Context {B : Type} `{!StreamableHttp B} {S : Type}.

(** The context of a call has the parts of the HTTP request it came with. *)
Definition call_context (request : Request) (version : option ProtocolVersion)
    (token : option ProgressToken) : RequestContext := {|
  cx_parts := Some {| parts_headers := request_headers request;
                      parts_extensions := extensions request |};
  cx_protocol_version := version; cx_progress_token := token |}.

Definition mcp_service (self : McpService) (body : B) : Handler (S := S * GState) :=
  λ request '(s, g),
    match decode_call body request with
    | None => Returns (encode_result body request None, (s, g))
    | Some (call, version, token) =>
        let '(r, g) := dispatch self call (call_context request version token) g in
        Returns (encode_result body request (Some r), (s, g))
    end.

(** The authorization service and the store do not touch the backends. *)
#[export] Instance paired_authorization `{!AuthorizationService S}
    : AuthorizationService (S * GState (E := E)) :=
  {| authorize token s := let '(claims, s1) := authorize token s.1 in (claims, (s1, s.2)) |}.
#[export] Instance paired_store `{!ConfigStore S User UserConfig}
    : ConfigStore (S * GState (E := E)) User UserConfig := {|
  get_config user s := let '(r, s1) := get_config user s.1 in (r, (s1, s.2));
  set_config user config s := let '(r, s1) := set_config user config s.1 in (r, (s1, s.2)) |}.

(** ** The application below [/contextforge-rs]

    axum's router matches a request before any layer runs: the layers wrap the
    service nested at [MCP_ROUTE], [/health] is added after them, and a request that
    matches neither goes to the fallback of the outer router: a nested router without
    a fallback of its own inherits it, and its layers do not wrap what it inherits.  The routes of [with_tools] are [AdminTools.add_tools]. *)
Definition MCP_ROUTE : string := "/servers/{virtual_host_name}/mcp".

Definition health : Response := {|
  response_status := 200; response_content_type := "application/json";
  response_body := "{" +:+ String "034" "status" +:+ String "034" ": " +:+ String "034" "healthy"
    +:+ String "034" "}" |}.

Definition serve_request `{!AxumRouter, !AuthorizationService S, !ConfigStore S User UserConfig}
    {X : Type} `{!PrincipalExtractor X} (limits : StandardHeaderLimits) (extractor : X)
    (self : McpService) (body : B) : Handler (S := S * GState) :=
  λ request s,
    if String.eqb (request_path request) "/health" then Returns (health, s)
    else if nests MCP_ROUTE (request_path request)
    then into_router limits extractor (mcp_service self body) request s
    else Returns (router_not_found, s).
End dispatch.

(** ** What a handler may do *)

Section isolation.
Context `{!RmcpHeaders, !HttpLib, !Base64, !SerdeFloat, !UrlParts, !TraceContext}.
Context `{!HashIter, !HashIterLaws, !RmcpTypes, !ProtocolVersions} {E : Type}.
Context `{!Backends E, !PluginHooks E}.
Context (header_error_text : HeaderError → string).
Implicit Types (g : GState (E := E)) (cx : RequestContext) (P : Event → Prop).

(** Every action of [m] is one [P] allows. *)
Definition emits P {A} (m : G (E := E) A) : Prop :=
  ∀ g r g', m g = (r, g') → ∃ events, trace g' = trace g ++ events ∧ Forall P events.

Lemma emits_lift P {A} (r : result ErrorData A) : emits P (lift r).
Proof. intros g x g' [_ ->]%lift_inv. exists []. by rewrite app_nil_r. Qed.
Lemma emits_mret P {A} (a : A) : emits P (mret a).
Proof. intros g x g' [_ ->]%mret_inv. exists []. by rewrite app_nil_r. Qed.
Lemma emits_track P token downstream : emits P (track token downstream).
Proof. intros g x g' [= _ <-]. exists []. by rewrite app_nil_r. Qed.
Lemma emits_act P {A} event (f : E → A * E) : P event → emits P (act event f).
Proof. intros HP g x g' (a & e & _ & _ & ->)%act_inv. exists [event]. by rewrite Forall_singleton. Qed.
Lemma emits_untrack P token : P (EUntrack token) → emits P (untrack token).
Proof. intros HP g x g' [= _ <-]. exists [EUntrack token]. by rewrite Forall_singleton. Qed.
Lemma emits_bind P {A C} (m : G A) (k : A → G C) :
  emits P m → (∀ a, emits P (k a)) → emits P (m ≫= k).
Proof.
  intros Hm Hk g x g' [(e & Hrun & _)|(a & g1 & Hrun & Hgo)]%G_bind_inv; [by eapply Hm|].
  destruct (Hm _ _ _ Hrun) as (e1 & Ht1 & He1), (Hk _ _ _ _ Hgo) as (e2 & Ht2 & He2).
  exists (e1 ++ e2). by rewrite Ht2, Ht1, <- app_assoc, Forall_app.
Qed.
Lemma emits_if P {A} (b : bool) (m n : G A) :
  emits P m → emits P n → emits P (if b then m else n).
Proof. by destruct b. Qed.
Lemma emits_call P token :
  P (ECancel CANCEL_REASON) → emits P (call_backend_tool token).
Proof.
  intros HP g x g'. unfold call_backend_tool. destruct (be_wait token (env g)) as [waited e].
  destruct waited as [response|].
  - intros [= _ <-]. exists []. by rewrite app_nil_r.
  - intros Hrun. eapply (emits_bind P _ _ (emits_act P _ _ HP)) in Hrun; [exact Hrun|].
    intros a. apply emits_mret.
Qed.
End isolation.

Create HintDb emits.
#[export] Hint Resolve emits_lift emits_mret emits_track emits_act emits_untrack emits_if
  emits_call : emits.
Ltac emits :=
  cbv zeta; repeat match goal with
         | |- emits _ (match ?x with _ => _ end) => destruct x
         | |- emits _ (_ ≫= _) => apply emits_bind; [|intros ?]
         end; cbv beta zeta; eauto with emits.

Section handlers.
Context `{!RmcpHeaders, !HttpLib, !Base64, !SerdeFloat, !UrlParts, !TraceContext}.
Context `{!HashIter, !HashIterLaws, !RmcpTypes, !ProtocolVersions} {E : Type}.
Context `{!Backends E, !PluginHooks E}.
Context (header_error_text : HeaderError → string).
Implicit Types (g : GState (E := E)) (cx : RequestContext) (vh : VirtualHost).

(** The virtual host routes one of its names to [upstream] on the backend [target]. *)
Definition routes_to (routes : gmap string ServiceRoute) (target upstream : string) : Prop :=
  ∃ name, routes !! name = Some {| backend_name := target; upstream_name := upstream |}.

(** An action on the one backend [target] of the virtual host, or on no backend:
    it connects as that backend is configured, and what it asks for is published
    for that backend. *)
Definition on_backend vh (headers : option HeaderMap) (target : string) (event : Event) : Prop :=
  match event with
  | EConnect name request =>
      name = target ∧ ∃ backend, backends vh !! target = Some backend ∧
        request = connect_request backend (hash_entries (add_headers backend)) headers
  | ESend request => routes_to (tools vh) target (tool_request_name request)
  | EGetPrompt request => routes_to (prompts vh) target (prompt_request_name request)
  | EReadResource request => routes_to (resources vh) target (resource_request_uri request)
  | EComplete request =>
      match complete_ref request with
      | RefPrompt name _ => routes_to (prompts vh) target name
      | RefResource uri =>
          routes_to (resources vh) target uri ∨ routes_to (resource_templates vh) target uri
      | RefOther _ => False
      end
  | EPre _ | ECancel _ | EUntrack _ | EClose | EPost => True
  end.

Lemma routes_to_intro (routes : gmap string ServiceRoute) name route :
  routes !! name = Some route → routes_to routes (backend_name route) (upstream_name route).
Proof. intros Hr. exists name. by destruct route. Qed.

Lemma emits_connect vh cx name backend :
  backends vh !! name = Some backend →
  emits (on_backend vh (parts_headers <$> cx_parts cx) name)
    (connect_backend_for_request name backend cx).
Proof. intros Hb. unfold connect_backend_for_request. emits. apply emits_act. cbn. eauto. Qed.
Lemma emits_close vh headers target : emits (on_backend vh headers target) close_backend.
Proof. unfold close_backend. emits. by apply emits_act. Qed.
Lemma emits_start vh headers target request downstream :
  routes_to (tools vh) target (tool_request_name request) →
  emits (on_backend vh headers target) (start_tool_call request downstream).
Proof.
  intros Hr. unfold start_tool_call. destruct downstream; emits; by apply emits_act.
Qed.

(** All of a computation's actions are on one backend of the virtual host. *)
Definition isolated vh cx {A} (m : G (E := E) A) : Prop :=
  ∀ g r g', m g = (r, g') →
  ∃ target events, trace g' = trace g ++ events ∧
    Forall (on_backend vh (parts_headers <$> cx_parts cx) target) events.

(** A check first: its failure does nothing. *)
Lemma isolated_lift vh cx {A B} (m : result ErrorData A) (k : A → G B) :
  (∀ a, m = Ok a → isolated vh cx (k a)) → isolated vh cx (lift m ≫= k).
Proof.
  intros Hk g r g' Hrun. run_step Hrun; apply lift_inv in Hrun0 as [Hm ->].
  - exists "", []. by rewrite app_nil_r.
  - by eapply Hk.
Qed.
Lemma isolated_emits vh cx {A} (m : G A) target :
  emits (on_backend vh (parts_headers <$> cx_parts cx) target) m → isolated vh cx m.
Proof. intros Hm g r g' Hrun. exists target. by eapply Hm. Qed.
(** Actions on no backend first. *)
Lemma isolated_bind vh cx {A B} (m : G A) (k : A → G B) :
  (∀ target, emits (on_backend vh (parts_headers <$> cx_parts cx) target) m) →
  (∀ a, isolated vh cx (k a)) → isolated vh cx (m ≫= k).
Proof.
  intros Hm Hk g r g' Hrun. run_step Hrun; [exists ""; by eapply Hm|].
  destruct (Hk _ _ _ _ Hrun) as (target & evs & -> & Hevs).
  destruct (Hm target _ _ _ Hrun0) as (evs0 & -> & Hevs0).
  exists target, (evs0 ++ evs). by rewrite <- app_assoc, Forall_app.
Qed.
Lemma isolated_bind_mret vh cx {A B} (m : G A) (f : A → B) :
  isolated vh cx m → isolated vh cx (a ← m; mret (f a)).
Proof.
  intros Hm g r g' Hrun. run_step Hrun; [by eapply Hm|].
  apply mret_inv in Hrun as [_ ->]. by eapply Hm.
Qed.
End handlers.
#[export] Hint Resolve emits_connect emits_close emits_start routes_to_intro : emits.
#[export] Hint Extern 1 (on_backend _ _ _ _) => exact I : emits.
#[export] Hint Extern 2 (on_backend _ _ _ _) => eapply routes_to_intro; eassumption : emits.

Section dispatched.
Context `{!RmcpHeaders, !HttpLib, !Base64, !SerdeFloat, !UrlParts, !TraceContext}.
Context `{!HashIter, !HashIterLaws, !RmcpTypes, !ProtocolVersions} {E : Type}.
Context `{!Backends E, !PluginHooks E}.
Context (header_error_text : HeaderError → string).
Implicit Types (g : GState (E := E)) (cx : RequestContext) (vh : VirtualHost).

Lemma ok_or_ok {A Er} (o : option A) (e : Er) a : ok_or o e = Ok a ↔ o = Some a.
Proof. destruct o; naive_solver. Qed.

Lemma resolve_tool_ok request cx vh route backend :
  resolve_tool header_error_text request cx vh = Ok (route, backend) →
  tools vh !! tool_request_name request = Some route ∧
  backends vh !! backend_name route = Some backend.
Proof.
  unfold resolve_tool. rewrite result_bind_ok. intros (r & Hr%ok_or_ok & Hgo).
  apply result_bind_ok in Hgo as (b & Hb%ok_or_ok & Hgo).
  by apply result_bind_ok in Hgo as ([] & _ & [= <- <-]).
Qed.

Lemma call_tool_isolated svc request cx vh claims :
  validate_stateless (parts_extensions <$> cx_parts cx) = Ok (vh, claims) →
  isolated vh cx (call_tool header_error_text svc request cx).
Proof.
  intros Hv. apply isolated_lift. rewrite Hv. intros ? [= <-]. apply isolated_lift.
  intros [route backend] [Hroute Hbackend]%resolve_tool_ok.
  apply (isolated_emits _ _ _ (backend_name route)). emits.
Qed.

Lemma get_prompt_isolated svc request cx vh claims :
  validate_stateless (parts_extensions <$> cx_parts cx) = Ok (vh, claims) →
  isolated vh cx (get_prompt svc request cx).
Proof.
  intros Hv. apply isolated_lift. rewrite Hv. intros ? [= <-].
  apply isolated_lift. intros route Hroute%ok_or_ok.
  apply isolated_lift. intros backend Hbackend%ok_or_ok.
  apply (isolated_emits _ _ _ (backend_name route)). emits.
Qed.

Lemma completion_on_backend vh headers ref route rest :
  completion_route vh ref = Some route →
  on_backend vh headers (backend_name route)
    (EComplete {| complete_ref := rename_reference ref (upstream_name route);
                  complete_rest := rest |}).
Proof.
  destruct ref as [name|uri|]; cbn; [eauto with emits| |done].
  destruct (resource_templates vh !! uri) eqn:Ht; cbn; intros Hr; simplify_eq; eauto with emits.
Qed.

Lemma complete_isolated request cx vh claims :
  validate_stateless (parts_extensions <$> cx_parts cx) = Ok (vh, claims) →
  isolated vh cx (complete request cx).
Proof.
  intros Hv. apply isolated_lift. rewrite Hv. intros ? [= <-].
  apply isolated_lift. intros route Hroute%ok_or_ok.
  apply isolated_lift. intros backend Hbackend%ok_or_ok.
  apply (isolated_emits _ _ _ (backend_name route)). emits.
  apply emits_act. by apply completion_on_backend.
Qed.

(** A rewritten resource is one the virtual host publishes. *)
Lemma rewrite_target_published vh route uri route' :
  (∃ name, resources vh !! name = Some route) → rewrite_target vh route uri = Ok route' →
  ∃ name, resources vh !! name = Some route'.
Proof.
  intros Hroute. destruct uri as [uri|]; [|by intros [= <-]]. unfold rewrite_target.
  destruct (String.eqb _ _); [by intros [= <-]|].
  destruct (filter _ _) as [|r rs] eqn:Hf; [done|]. destruct (existsb _ _); [done|]. intros [= <-].
  assert (r ∈ map snd (hash_entries (resources vh))) as Hr.
  { eapply list_elem_of_filter. rewrite Hf. left. }
  apply list_elem_of_fmap in Hr as ([name r'] & -> & Hin). exists name.
  by rewrite hash_entries_perm, elem_of_map_to_list in Hin.
Qed.

Lemma read_resource_isolated svc request cx vh claims :
  validate_stateless (parts_extensions <$> cx_parts cx) = Ok (vh, claims) →
  isolated vh cx (read_resource svc request cx).
Proof.
  intros Hv. apply isolated_lift. rewrite Hv. intros ? [= <-].
  apply isolated_lift. intros route Hroute%ok_or_ok.
  apply isolated_bind; [intros target; emits|]. intros hook.
  apply isolated_lift. intros route' [name Hname]%rewrite_target_published; [|by eexists].
  apply isolated_lift. intros backend Hbackend%ok_or_ok.
  apply (isolated_emits _ _ _ (backend_name route')). emits.
Qed.

Lemma dispatch_isolated svc request cx vh claims :
  validate_stateless (parts_extensions <$> cx_parts cx) = Ok (vh, claims) →
  isolated vh cx (dispatch header_error_text svc request cx).
Proof.
  intros Hv. destruct request; cbn [dispatch].
  3: eapply isolated_bind_mret, call_tool_isolated, Hv.
  4: eapply isolated_bind_mret, read_resource_isolated, Hv.
  8: eapply isolated_bind_mret, get_prompt_isolated, Hv.
  8: eapply isolated_bind_mret, complete_isolated, Hv.
  all: apply (isolated_emits _ _ _ ""); emits.
Qed.
End dispatched.

(** ** From the request to the backend *)

(** Which paths that is, as axum documents nested services: one segment in place of
    the capture, and nothing or anything below. *)
Definition mounted (path : string) : Prop :=
  ∃ name rest, path = "/servers/" +:+ name +:+ "/mcp" +:+ rest ∧ name ≠ "" ∧
    str_all (λ c, negb (char_is "/" c)) name = true ∧
    (rest = "" ∨ ∃ tail, rest = "/" +:+ tail).
Class AxumRouterLaws `{!AxumRouter} : Prop := {
  nests_mcp path : nests MCP_ROUTE path = true ↔ mounted path;
}.

Section requests.
Context `{!RmcpHeaders, !HttpLib, !Base64, !SerdeFloat, !UrlParts, !TraceContext}.
Context `{!HashIter, !HashIterLaws, !RmcpTypes, !ProtocolVersions} {E : Type}.
Context `{!Backends E, !PluginHooks E}.
Context {S : Type} `{!AuthorizationService S, !ConfigStore S User UserConfig}.
Context {X : Type} `{!PrincipalExtractor X} {B : Type} `{!StreamableHttp B, !AxumRouter}.
Context (header_error_text : HeaderError → string).
Implicit Types (g : GState (E := E)).

(** Admission leaves the backends alone. *)
Lemma admission_paired limits (extractor : X) request (s : S) g :
  admission limits extractor request (s, g) =
  ('(r, s) ← admission limits extractor request s; Returns (r, (s, g))).
Proof.
  unfold admission. destruct (exceeded_limits _ _); [done|].
  destruct (extract_virtual_host_id _) as [[id|]|]; [|done..]. cbn [mbind outcome_bind].
  destruct (assoc_get _ _) as [token|]; [|done].
  cbn [authorize paired_authorization fst snd].
  destruct (authorize token s) as [[claims|] s1]; [|done].
  destruct (extract _ _) as [principal|]; [|done]. cbn [get_config paired_store fst snd].
  destruct (get_config _ s1) as [[config|[]] s2]; try done.
  by destruct (virtual_hosts config !! id).
Qed.

(** A request asks the authorization service, then the store at most once: what the
    first keeps and the second turns into [J], the request turns into [J]. *)
Lemma admission_keeps (I J : S → Prop) limits (extractor : X) request s r s' :
  (∀ s, I s → J s) → (∀ token s, I s → I (authorize token s).2) →
  (∀ id s, I s → J (get_config (User_new id) s).2) →
  admission limits extractor request s = Returns (r, s') → I s → J s'.
Proof.
  intros HIJ Hauth Hget Hadm HI. unfold admission in Hadm.
  destruct (exceeded_limits _ _); [injection Hadm as _ <-; auto|].
  destruct (extract_virtual_host_id _) as [[id|]|]; cbn in Hadm; [|injection Hadm as _ <-; auto|done].
  destruct (assoc_get _ _) as [token|]; [|injection Hadm as _ <-; auto].
  specialize (Hauth token s HI).
  destruct (authorize token s) as [[claims|] s1]; [|injection Hadm as _ <-; auto].
  destruct (extract _ _) as [principal|]; [|injection Hadm as _ <-; auto].
  specialize (Hget (user_id principal) s1 Hauth).
  destruct (get_config _ s1) as [[config|e] s2].
  - destruct (virtual_hosts config !! id); by injection Hadm as _ <-.
  - by destruct e; injection Hadm as _ <-.
Qed.
Lemma request_keeps (I J : S → Prop) limits (extractor : X) svc (body : B) request s s' g g' response :
  (∀ s, I s → J s) → (∀ token s, I s → I (authorize token s).2) →
  (∀ id s, I s → J (get_config (User_new id) s).2) →
  serve_request header_error_text limits extractor svc body request (s, g)
    = Returns (response, (s', g')) → I s → J s'.
Proof.
  intros HIJ Hauth Hget Hserved HI. unfold serve_request in Hserved.
  destruct (String.eqb _ _); [injection Hserved as _ <- _; auto|].
  destruct (nests _ _); [|injection Hserved as _ <- _; auto].
  rewrite into_router_admission, admission_paired in Hserved.
  destruct (admission limits extractor request s) as [[[e|refused] s1]|] eqn:Hadm; cbn in Hserved;
    [|injection Hserved as _ <- _; by eapply (admission_keeps I J)|done].
  assert (J s1) by (by eapply (admission_keeps I J)).
  destruct (decode_call body _) as [[[call version] progress]|]; [|by injection Hserved as _ <- _].
  destruct (dispatch _ _ _ _ _) as [r g1]. by injection Hserved as _ <- _.
Qed.

(** An HTTP request that makes the gateway do anything at all beyond itself was
    admitted: its path names a virtual host of the configuration that the store
    returned for the principal of the very token it carries.  Everything it makes
    the gateway do is on one backend of that virtual host: the connection is opened
    with that backend's configuration and this request's headers, and every tool,
    prompt, resource or completion asked for there is one the virtual host
    publishes for that backend, whatever the plugins answered. *)
Lemma request_isolated limits (extractor : X) svc (body : B) request (s s' : S) g g' response
    (Hserved : serve_request header_error_text limits extractor svc body request (s, g)
               = Returns (response, (s', g')))
    (Hfresh : trace g = []) (Hacted : trace g' ≠ []) :
  ∃ id token claims principal config vh target,
    request_path request = "/servers/" +:+ id +:+ "/mcp" ∧
    assoc_get "authorization" (request_headers request) = Some token ∧
    (authorize token s).1 = Some claims ∧
    extract extractor (claims_value claims) = Ok principal ∧
    (get_config (User_new (user_id principal)) (authorize token s).2).1 = Ok config ∧
    virtual_hosts config !! id = Some vh ∧
    s' = (get_config (User_new (user_id principal)) (authorize token s).2).2 ∧
    Forall (on_backend vh (Some (request_headers request)) target) (trace g').
Proof.
  unfold serve_request in Hserved.
  destruct (String.eqb _ _); [by injection Hserved as _ _ <-|].
  destruct (nests _ _); [|by injection Hserved as _ _ <-].
  rewrite into_router_admission, admission_paired in Hserved.
  destruct (admission limits extractor request s) as [[[e|refused] s1]|] eqn:Hadm; cbn in Hserved;
    [|by injection Hserved as _ _ <-|done].
  destruct (admission_validates _ _ _ _ _ _ Hadm)
    as (id & token & claims & principal & config & vh & ? & ? & ? & ? & ? & ? & Hv & Hs).
  exists id, token, claims, principal, config, vh.
  destruct (decode_call body _) as [[[call version] progress]|]; [|by injection Hserved as _ _ <-].
  destruct (dispatch _ _ _ _ _) as [r g1] eqn:Hrun. injection Hserved as _ <- <-.
  apply (dispatch_isolated _ _ _ _ vh claims) in Hrun as (target & events & Ht & Hevents);
    [|exact Hv].
  exists target. rewrite Ht, Hfresh. by split_and!.
Qed.
End requests.

(** ** A concrete request

    A tool call for one virtual host of one user. *)

Module ConcreteRequest.
Import Concrete ConcreteRmcp ConcreteHandlers.
#[export] Instance authorization : AuthorizationService () := ConcreteGateway.authorization.
#[export] Instance store : ConfigStore () User UserConfig := {|
  get_config u s :=
    (if String.eqb (user_key u) "alice"
     then Ok {| virtual_hosts := {["vh" := host]} |} else Err NoDataForKey, s);
  set_config _ _ s := (Ok (), s) |}.
(** The router's matching of the MCP route. *)
Definition mcp_path (path : string) : bool :=
  match strip_prefix "/servers/" path with
  | None => false
  | Some path =>
      match split_once (char_is "/") path with
      | None => false
      | Some (name, path) =>
          negb (String.eqb name "") && (String.eqb path "mcp" || starts_with "mcp/" path)
      end
  end.
#[export] Instance router : AxumRouter := {|
  nests pattern path := String.eqb pattern MCP_ROUTE && mcp_path path;
  router_not_found := custom_error 404 "" |}.
#[export] Instance router_laws : AxumRouterLaws.
Proof.
  split. intros path. cbn [nests router]. rewrite String.eqb_refl. cbn [andb].
  unfold mcp_path, mounted. split.
  - destruct (strip_prefix "/servers/" path) as [s|] eqn:Hp; [|done].
    apply strip_prefix_Some in Hp as ->. destruct (split_once _ s) as [[name p]|] eqn:Hs; [|done].
    apply split_once_Some in Hs as (c & -> & <-%Ascii.eqb_eq & Hname).
    rewrite andb_true_iff, negb_true_iff, String.eqb_neq, orb_true_iff, String.eqb_eq.
    intros [Hne [->|(tail & ->)%starts_with_true]].
    + exists name, "". auto.
    + exists name, ("/" +:+ tail). eauto 10.
  - intros (name & rest & -> & Hne & Hname & Hrest).
    rewrite (proj2 (strip_prefix_Some "/servers/" _ (name +:+ "/mcp" +:+ rest))) by done.
    rewrite (proj2 (split_once_Some _ _ name ("mcp" +:+ rest))); [|by exists "/"%char].
    rewrite (proj2 (String.eqb_neq name "")) by done. cbn [negb andb].
    destruct Hrest as [->|[tail ->]]; [done|]. apply orb_true_iff. right.
    apply starts_with_true. by exists tail.
Qed.
#[export] Instance streamable : StreamableHttp () := {|
  decode_call _ _ := Some (CallTool tool_request, Some "2025-11-25", None);
  encode_result _ _ r := custom_error (match r with Some (Ok _) => 200 | _ => 400 end) "" |}.
End ConcreteRequest.

Import Concrete ConcreteRmcp ConcreteHandlers ConcreteRequest.

Definition served_request : outcome (Response * (() * GState (E := Z))) :=
  serve_request (λ _, "header mismatch") (limits_from_config 0 0 0) Build_DefaultPrincipalExtractor
    svc () ConcreteGateway.request ((), start).

Example served_request_ok :
  match served_request with
  | Returns (response, (_, g)) => response_status response = 200 ∧ length (trace g) = 6%nat
  | Panics => False
  end.
Proof. vm_compute. split; reflexivity. Qed.
