(* ===== verification/Reach.v ===== *)
(** * When a request reaches a backend

    The exact conditions under which an HTTP request makes the gateway open a
    connection, and to which backend.  Each construct of the handlers' computations
    has a rule that says what it adds to the condition. *)

From S2P Require Import Prelude HttpTypes Apis McpStandardHeaders Rmcp Cmf.
From S2P Require Import HeaderLimits UpstreamHeaders ConfigStore Authorization Layers Gateway EndToEnd.

Section rules.
Context `{!RmcpHeaders, !HttpLib, !Base64, !SerdeFloat, !UrlParts, !TraceContext}.
Context `{!HashIter, !RmcpTypes, !ProtocolVersions} {E : Type}.
Context `{!Backends E, !PluginHooks E}.
Implicit Types (g : GState (E := E)) (cx : RequestContext).

(** [b] is contacted in the course of the actions. *)
Definition contacts (b : string) (events : list Event) : Prop :=
  ∃ connection, EConnect b connection ∈ events.
Definition quiet (event : Event) : Prop :=
  match event with EConnect _ _ => False | _ => True end.

Lemma contacts_quiet b events : Forall quiet events → ¬ contacts b events.
Proof.
  intros Hq [connection Hin]. rewrite Forall_forall in Hq. by apply (Hq _ Hin).
Qed.
Lemma contacts_app b l1 l2 : Forall quiet l1 → contacts b (l1 ++ l2) ↔ contacts b l2.
Proof.
  intros Hq. unfold contacts. setoid_rewrite elem_of_app. split; [|by intros [c ?]; exists c; right].
  intros [c [Hin|]]; [|by exists c]. by destruct (contacts_quiet b l1 Hq); exists c.
Qed.

(** Run in a world [w] without having contacted anyone before, [m] contacts exactly
    the backends with [Q w]. *)
Definition reaches_iff {A} (m : G (E := E) A) (Q : E → string → Prop) : Prop :=
  ∀ g b, Forall quiet (trace g) → contacts b (trace (m g).2) ↔ Q (env g) b.

Lemma reaches_ext {A} (m : G A) Q Q' :
  (∀ w b, Q w b ↔ Q' w b) → reaches_iff m Q → reaches_iff m Q'.
Proof. intros HQ Hm g b Hg. by rewrite (Hm g b Hg), HQ. Qed.

Lemma reaches_lift {A B} (r : result ErrorData A) (k : A → G B) Q :
  (∀ a, r = Ok a → reaches_iff (k a) (Q a)) →
  reaches_iff (lift r ≫= k) (λ w b, ∃ a, r = Ok a ∧ Q a w b).
Proof.
  intros Hk g b Hg. unfold mbind, G_bind, lift. destruct r as [a|e]; cbn.
  - rewrite (Hk a eq_refl g b Hg). naive_solver.
  - split; [|naive_solver]. by intros ?%contacts_quiet.
Qed.

Lemma reaches_known {A B} (a : A) (k : A → G B) Q :
  reaches_iff (k a) Q → reaches_iff (lift (Ok a) ≫= k) Q.
Proof. exact id. Qed.

(** The pre hook, if there is a plugin runtime. *)
Definition pre_hook {A} svc (f : E → result ErrorData A * E) (none : A) (w : E) : result ErrorData A :=
  if plugin_runtime svc then (f w).1 else Ok none.
Lemma reaches_pre {A B} svc target (f : E → result ErrorData A * E) (none : A) (k : A → G B) Q :
  (∀ a, reaches_iff (k a) (λ _, Q a)) →
  reaches_iff
    ((if plugin_runtime svc then r ← act (EPre target) f; lift r else mret none) ≫= k)
    (λ w b, ∃ a, pre_hook svc f none w = Ok a ∧ Q a b).
Proof.
  intros Hk g b Hg. unfold pre_hook. destruct (plugin_runtime svc).
  - unfold mbind, G_bind, act, lift. destruct (f (env g)) as [[a|e] w]; cbn.
    + rewrite (Hk a _ b); [naive_solver|]. cbn. by apply Forall_app; split; [|constructor].
    + split; [|naive_solver]. intros Hbad. exfalso. revert Hbad. apply contacts_quiet.
      apply Forall_app. by repeat constructor.
  - unfold mbind, G_bind, mret, G_ret. rewrite (Hk none g b Hg). naive_solver.
Qed.

(** The resource handler's hook, absent without a plugin runtime. *)
Definition resource_pre_hook svc (uri : string) (w : E) : result ErrorData (option HookResource) :=
  if plugin_runtime svc then Some <$> (hook_before_resource uri w).1 else Ok None.
Lemma reaches_resource_pre {B} svc uri (k : option HookResource → G B) Q :
  (∀ a, reaches_iff (k a) (λ _, Q a)) →
  reaches_iff
    ((if plugin_runtime svc
      then r ← act (EPre uri) (hook_before_resource uri); h ← lift r; mret (Some h)
      else mret None) ≫= k)
    (λ w b, ∃ a, resource_pre_hook svc uri w = Ok a ∧ Q a b).
Proof.
  intros Hk g b Hg. unfold resource_pre_hook. destruct (plugin_runtime svc).
  - unfold mbind, G_bind, act, lift, mret, G_ret.
    destruct (hook_before_resource uri (env g)) as [[a|e] w]; cbn.
    + rewrite (Hk (Some a) _ b); [naive_solver|]. cbn. by apply Forall_app; split; [|constructor].
    + split; [|naive_solver]. intros Hbad. exfalso. revert Hbad. apply contacts_quiet.
      apply Forall_app. by repeat constructor.
  - unfold mbind, G_bind, mret, G_ret. rewrite (Hk None g b Hg). naive_solver.
Qed.

Lemma reaches_connect {A} bname backend cx (k : () → G A) :
  (∀ a, emits quiet (k a)) →
  reaches_iff (connect_backend_for_request bname backend cx ≫= k) (λ _ b, b = bname).
Proof.
  intros Hk g b Hg.
  destruct (connect_backend_for_request bname backend cx g) as [r g1] eqn:Hc.
  pose proof (connect_run _ _ _ _ _ _ Hc) as (Ht & _ & _).
  assert (∃ events, trace ((connect_backend_for_request bname backend cx ≫= k) g).2
            = trace g ++ EConnect bname (connection cx backend) :: events ∧ Forall quiet events)
    as (events & -> & Hq).
  { unfold mbind, G_bind. rewrite Hc. destruct r as [a|e]; cbn.
    - destruct (k a g1) as [r2 g2] eqn:Hr. destruct (Hk a _ _ _ Hr) as (events & He & Hq).
      exists events. cbn. by rewrite He, Ht, <- app_assoc.
    - exists []. by rewrite Ht. }
  rewrite contacts_app by done. unfold contacts. setoid_rewrite elem_of_cons. split.
  - intros [c [[=]|Hin]]; [done|]. by destruct (contacts_quiet b events Hq); exists c.
  - intros ->. eexists. by left.
Qed.

Lemma reaches_mapped {A B} (m : G A) (f : A → B) Q :
  reaches_iff m Q → reaches_iff (a ← m; mret (f a)) Q.
Proof.
  intros Hm g b Hg. rewrite <- (Hm g b Hg). unfold mbind, G_bind.
  by destruct (m g) as [[a|e] g1].
Qed.
Lemma reaches_none {A} (m : G A) : emits quiet m → reaches_iff m (λ _ _, False).
Proof.
  intros Hm g b Hg. destruct (m g) as [r g1] eqn:Hr. cbn.
  destruct (Hm _ _ _ Hr) as (events & -> & Hq). split; [|done].
  apply contacts_quiet. by apply Forall_app.
Qed.
End rules.
#[local] Opaque reaches_iff.
#[export] Hint Extern 1 (quiet _) => exact I : emits.

Section handlers.
Context `{!RmcpHeaders, !HttpLib, !Base64, !SerdeFloat, !UrlParts, !TraceContext}.
Context `{!HashIter, !RmcpTypes, !ProtocolVersions} {E : Type}.
Context `{!Backends E, !PluginHooks E}.
Context (header_error_text : HeaderError → string).
Implicit Types (g : GState (E := E)) (cx : RequestContext).

(** What each call needs beyond a virtual host, and the backend it then goes to:
    a published name, a configured backend, for tools the mirrored parameter
    headers, and a pre hook that lets the call pass; a rewritten resource has to be
    published itself. *)
Definition tool_passes svc (request : CallToolRequestParams) cx vh (w : E) (b : string) : Prop :=
  ∃ route backend, resolve_tool header_error_text request cx vh = Ok (route, backend) ∧
    (∃ pre, pre_hook svc (hook_before_tool request (upstream_name route) (backend_name route))
              PreHookResult_default w = Ok pre) ∧
    b = backend_name route.
Definition prompt_passes svc (request : GetPromptRequestParams) vh (w : E) (b : string) : Prop :=
  ∃ route backend, prompts vh !! prompt_request_name request = Some route ∧
    backends vh !! backend_name route = Some backend ∧
    (∃ pre, pre_hook svc (hook_before_prompt request (upstream_name route) (backend_name route))
              PreHookResult_default w = Ok pre) ∧
    b = backend_name route.
Definition resource_passes svc (request : ReadResourceRequestParams) vh (w : E) (b : string) : Prop :=
  ∃ route hook target backend, resources vh !! resource_request_uri request = Some route ∧
    resource_pre_hook svc (upstream_name route) w = Ok hook ∧
    rewrite_target vh route (hook ≫= hook_rewritten_uri) = Ok target ∧
    backends vh !! backend_name target = Some backend ∧ b = backend_name target.
Definition completion_passes (request : CompleteRequestParams) vh (b : string) : Prop :=
  ∃ route backend, completion_route vh (complete_ref request) = Some route ∧
    backends vh !! backend_name route = Some backend ∧ b = backend_name route.
Definition passes svc (call : McpRequest) cx vh (w : E) (b : string) : Prop :=
  match call with
  | CallTool request => tool_passes svc request cx vh w b
  | GetPrompt request => prompt_passes svc request vh w b
  | ReadResource request => resource_passes svc request vh w b
  | Complete request => completion_passes request vh b
  | _ => False
  end.

Lemma quiet_close : emits quiet (close_backend (E := E)).
Proof. unfold close_backend. emits. Qed.
Lemma quiet_start request downstream : emits quiet (start_tool_call (E := E) request downstream).
Proof. unfold start_tool_call. destruct downstream; emits. Qed.
Hint Resolve quiet_close quiet_start : emits.

Lemma call_tool_reaches svc request cx vh claims :
  validate_stateless (parts_extensions <$> cx_parts cx) = Ok (vh, claims) →
  reaches_iff (call_tool header_error_text svc request cx) (tool_passes svc request cx vh).
Proof.
  intros Hv. unfold call_tool, validate_call. rewrite Hv.
  apply reaches_known. eapply reaches_ext; cycle 1.
  { apply (reaches_lift _ _ (λ rb w b, ∃ pre, pre_hook svc
      (hook_before_tool request (upstream_name rb.1) (backend_name rb.1)) PreHookResult_default w
        = Ok pre ∧ b = backend_name rb.1)).
    intros [route backend] _. apply (reaches_pre _ _ _ _ _ (λ _ b, b = backend_name route)).
    intros pre. apply reaches_connect. intros _. emits. }
  intros w b. cbn. unfold tool_passes. split.
  - intros ([route backend] & Hr & pre & Hp & ->). eauto 10.
  - intros (route & backend & Hr & [pre Hp] & ->). exists (route, backend). eauto.
Qed.

Lemma get_prompt_reaches svc request cx vh claims :
  validate_stateless (parts_extensions <$> cx_parts cx) = Ok (vh, claims) →
  reaches_iff (get_prompt svc request cx) (prompt_passes svc request vh).
Proof.
  intros Hv. unfold get_prompt, validate_call. rewrite Hv.
  apply reaches_known. eapply reaches_ext; cycle 1.
  { apply reaches_lift. intros route _. apply reaches_lift. intros backend _.
    apply (reaches_pre _ _ _ _ _ (λ _ b, b = backend_name route)).
    intros pre. apply reaches_connect. intros _. emits. }
  intros w b. cbn. unfold prompt_passes. setoid_rewrite ok_or_ok. naive_solver.
Qed.

Lemma complete_reaches request cx vh claims :
  validate_stateless (parts_extensions <$> cx_parts cx) = Ok (vh, claims) →
  reaches_iff (E := E) (complete request cx) (λ _, completion_passes request vh).
Proof.
  intros Hv. unfold complete, validate_call. rewrite Hv.
  apply reaches_known. eapply reaches_ext; cycle 1.
  { apply reaches_lift. intros route _. apply reaches_lift. intros backend _.
    apply reaches_connect. intros _. emits. }
  intros w b. cbn. unfold completion_passes. setoid_rewrite ok_or_ok. naive_solver.
Qed.

Lemma read_resource_reaches svc request cx vh claims :
  validate_stateless (parts_extensions <$> cx_parts cx) = Ok (vh, claims) →
  reaches_iff (read_resource svc request cx) (resource_passes svc request vh).
Proof.
  intros Hv. unfold read_resource, validate_call. rewrite Hv.
  apply reaches_known. eapply reaches_ext; cycle 1.
  { apply reaches_lift. intros route _.
    apply (reaches_resource_pre _ _ _ (λ hook b, ∃ target,
      rewrite_target vh route (hook ≫= hook_rewritten_uri) = Ok target ∧
      ∃ backend, ok_or (backends vh !! backend_name target)
        (error INVALID_PARAMS "Routing problem... backend not found") = Ok backend ∧
        b = backend_name target)). intros hook.
    apply (reaches_lift _ _ (λ target _ b, ∃ backend, ok_or (backends vh !! backend_name target)
        (error INVALID_PARAMS "Routing problem... backend not found") = Ok backend ∧
        b = backend_name target)). intros target _.
    apply (reaches_lift _ _ (λ _ _ b, b = backend_name target)). intros backend _.
    apply reaches_connect. intros _. emits. }
  intros w b. cbn. unfold resource_passes. setoid_rewrite ok_or_ok. naive_solver.
Qed.

Lemma dispatch_reaches svc call cx vh claims :
  validate_stateless (parts_extensions <$> cx_parts cx) = Ok (vh, claims) →
  reaches_iff (dispatch header_error_text svc call cx) (passes svc call cx vh).
Proof.
  intros Hv. destruct call; cbn [dispatch passes].
  3: eapply reaches_mapped, call_tool_reaches, Hv.
  4: eapply reaches_mapped, read_resource_reaches, Hv.
  8: eapply reaches_mapped, get_prompt_reaches, Hv.
  8: eapply reaches_mapped, complete_reaches, Hv.
  all: apply reaches_none; emits.
Qed.
End handlers.

(** ** From the HTTP request *)

Section requests.
Context `{!RmcpHeaders, !HttpLib, !Base64, !SerdeFloat, !UrlParts, !TraceContext}.
Context `{!HashIter, !RmcpTypes, !ProtocolVersions} {E : Type}.
Context `{!Backends E, !PluginHooks E}.
Context {S : Type} `{!AuthorizationService S, !ConfigStore S User UserConfig}.
Context {X : Type} `{!PrincipalExtractor X} {B : Type} `{!StreamableHttp B, !AxumRouter, !AxumRouterLaws}.
Context (header_error_text : HeaderError → string).
Implicit Types (g : GState (E := E)).

(** The request [request], in a state [s] of the stores, is admitted to the virtual
    host [vh] with the extensions [e]. *)
Definition admitted (limits : StandardHeaderLimits) (extractor : X) (request : Request) (s : S)
    (e : Extensions) (vh : VirtualHost) : Prop :=
  exceeded_limits (request_headers request) limits = None ∧
  ∃ id token claims principal config,
    request_path request = "/servers/" +:+ id +:+ "/mcp" ∧
    assoc_get "authorization" (request_headers request) = Some token ∧
    (authorize token s).1 = Some claims ∧
    extract extractor (claims_value claims) = Ok principal ∧
    (get_config (User_new (user_id principal)) (authorize token s).2).1 = Ok config ∧
    virtual_hosts config !! id = Some vh ∧
    e = {| ext_virtual_host_id := Some id; ext_claims := Some claims;
           ext_principal := Some principal; ext_user_config := Some config |}.

Lemma admission_admitted limits extractor request s r s' :
  admission limits extractor request s = Returns (r, s') →
  ∀ e, r = Ok e ↔ ∃ vh, admitted limits extractor request s e vh.
Proof.
  intros Hadm e. unfold admitted. split.
  - intros ->. unfold admission in Hadm. destruct (exceeded_limits _ _); [done|].
    destruct (extract_virtual_host_id _) as [[id|]|] eqn:Hid; try done.
    apply extract_virtual_host_id_sound in Hid. cbn [mbind outcome_bind] in Hadm.
    destruct (assoc_get _ _) as [token|]; [|done].
    destruct (authorize token s) as [[claims|] s1] eqn:Ha; [|done].
    destruct (extract _ _) as [principal|] eqn:Hx; [|done].
    destruct (get_config _ s1) as [[config|[]] s2] eqn:Hg; try done.
    destruct (virtual_hosts config !! id) as [vh|] eqn:Hvh; [|done]. injection Hadm as <- <-.
    exists vh. split; [done|]. exists id, token, claims, principal, config.
    rewrite Ha. cbn. rewrite Hg. by split_and!.
  - intros (vh & Hl & id & token & claims & principal & config & Hp & Ht & Ha & Hx & Hg & Hvh & ->).
    unfold admission in Hadm. rewrite Hl, Hp, extract_server_path in Hadm.
    cbn [mbind outcome_bind] in Hadm. rewrite Ht in Hadm.
    destruct (authorize token s) as [c s1]. cbn [fst snd] in Ha, Hg. rewrite Ha, Hx in Hadm.
    destruct (get_config _ s1) as [c' s2]. cbn [fst] in Hg. rewrite Hg, Hvh in Hadm. congruence.
Qed.

Lemma admitted_unique limits extractor request s e vh1 vh2 :
  admitted limits extractor request s e vh1 → admitted limits extractor request s e vh2 → vh1 = vh2.
Proof.
  intros (_ & ? & ? & ? & ? & ? & _ & _ & _ & _ & _ & Hvh1 & ->)
    (_ & ? & ? & ? & ? & ? & _ & _ & _ & _ & _ & Hvh2 & [=]); congruence.
Qed.

Lemma admitted_validates limits extractor request s e vh :
  admitted limits extractor request s e vh →
  ∃ claims, validate_stateless (Some e) = Ok (vh, claims).
Proof.
  intros (_ & id & token & claims & principal & config & _ & _ & _ & _ & _ & Hvh & ->).
  exists claims. unfold validate_stateless. cbn. by rewrite Hvh.
Qed.

(** C13: an HTTP request makes the gateway open a connection to the backend [b] exactly
    when all of this holds: its path is the MCP route's or below it, its standard
    headers are within the limits, its path names a virtual host, its token is
    authorized, a principal can be read from the claims, the store has a configuration
    for that principal, the configuration has the virtual host, the body decodes to a
    call, and the call passes its handler's own checks, which choose [b].  Nothing less
    opens a connection, nothing more is asked. *)
Theorem request_reaches limits (extractor : X) svc (body : B) request (s s' : S) g g' response b
    (Hserved : serve_request header_error_text limits extractor svc body request (s, g)
               = Returns (response, (s', g')))
    (Hfresh : trace g = []) :
  contacts b (trace g') ↔
  mounted (request_path request) ∧ ∃ e vh call version progress,
    admitted limits extractor request s e vh ∧
    decode_call body (with_extensions e request) = Some (call, version, progress) ∧
    passes header_error_text svc call (call_context (with_extensions e request) version progress)
      vh (env g) b.
Proof.
  unfold serve_request in Hserved. assert (¬ contacts b (trace g)) as Hnone.
  { rewrite Hfresh. by apply contacts_quiet. }
  destruct (String.eqb_spec (request_path request) "/health") as [Hhealth|_].
  { injection Hserved as _ _ <-. split; [done|].
    intros [(name & rest & Hp & _) _]. by rewrite Hhealth in Hp. }
  rewrite <- nests_mcp. destruct (nests _ _); [|injection Hserved as _ _ <-; naive_solver].
  rewrite into_router_admission, admission_paired in Hserved.
  destruct (admission limits extractor request s) as [[r s1]|] eqn:Hadm; [|done].
  pose proof (admission_admitted _ _ _ _ _ _ Hadm) as Hiff. cbn in Hserved.
  destruct r as [e|refused].
  2: { injection Hserved as _ _ <-. split; [done|].
       intros (_ & e & vh & ? & ? & ? & Ha & _). by specialize (proj2 (Hiff e) (ex_intro _ vh Ha)). }
  destruct (proj1 (Hiff e) eq_refl) as [vh Ha].
  assert (∀ e', (∃ vh', admitted limits extractor request s e' vh') → e' = e) as Hone.
  { intros e' He%Hiff. by injection He. }
  destruct (decode_call body _) as [[[call version] progress]|] eqn:Hd.
  2: { injection Hserved as _ _ <-. split; [done|].
       intros (_ & e' & vh' & ? & ? & ? & Ha' & Hd' & _).
       rewrite (Hone e') in Hd' by eauto. congruence. }
  destruct (dispatch _ _ _ _ _) as [r g1] eqn:Hrun. injection Hserved as _ _ <-.
  destruct (admitted_validates _ _ _ _ _ _ Ha) as [claims Hv].
  pose proof (dispatch_reaches header_error_text svc call
    (call_context (with_extensions e request) version progress) vh claims Hv g b) as Hreach.
  rewrite Hrun, Hfresh in Hreach. rewrite Hreach by constructor. split.
  - intros. split; [done|]. by exists e, vh, call, version, progress.
  - intros (_ & e' & vh' & call' & version' & progress' & Ha' & Hd' & Hp).
    rewrite (Hone e') in * by eauto. rewrite Hd in Hd'. injection Hd' as <- <- <-.
    by rewrite (admitted_unique _ _ _ _ _ _ _ Ha Ha').
Qed.





End requests.

Import Concrete ConcreteRmcp ConcreteHandlers ConcreteRequest.

(** The tool call of the concrete request reaches its backend and no other. *)
Lemma request_reaches_witness :
  match served_request with
  | Returns (_, (_, g)) => contacts "weather" (trace g) ∧ ¬ contacts "mail" (trace g)
  | Panics => False
  end.
Proof.
  assert (∃ response s' g', served_request = Returns (response, (s', g'))) as (response & s' & g' & Hs).
  { do 3 eexists. vm_compute. reflexivity. }
  rewrite Hs. split.
  - apply (request_reaches _ _ _ _ _ _ _ _ _ _ _ "weather" Hs eq_refl).
    split; [by exists "vh", ""; split_and!; [..|left]|].
    eexists _, host, _, _, _. split_and!.
    + split; [vm_compute; reflexivity|]. eexists "vh", _, _, _, _. split_and!;
        try (vm_compute; reflexivity).
    + reflexivity.
    + exists (route "forecast"), backend. split_and!; [vm_compute; reflexivity| |reflexivity].
      eexists. vm_compute. reflexivity.
  - assert (Forall (λ event, ∀ c, event ≠ EConnect "mail" c) (trace g')) as Hnot.
    { revert Hs. vm_compute. intros [= _ _ <-]. by repeat constructor. }
    intros [c Hin]. rewrite Forall_forall in Hnot. by apply (Hnot _ Hin c).
Defined.


