(* ===== verification/SharedServices.v ===== *)
(** * The services all requests share

    The key set of [authorization/jwks/] and the configuration store of
    [config_stores/], used by many requests at once.  A request runs between its
    suspension points; at each of them other requests, the network and Redis may do
    anything they can do ([phase]).  The operations are written with what the others
    do as an argument; what each leaves behind is again a sequence of phases. *)

From S2P Require Import Prelude HttpTypes Apis ConfigStore Authorization Jwks.

Section shared.
Context `{!JwtLib, !JwtDecode, !LruLib} {N : Type} `{!Jwks.HttpClient N}.
Context {W : Type} `{!Redis W, !MessagePack User, !MessagePack UserConfig}.

(** The key set with the network and the configuration cache with Redis.  The last
    fields are ghosts: the states of the network in which the gateway asked for the
    key set, and the states of Redis in which the gateway accessed it. *)
Record Shared : Type := {
  key_set : Jwks;
  network : N;
  user_store : RedisStore UserConfig;
  redis_state : W;
  asked : list N;
  accessed : list W;
}.
Definition with_key_set (j : Jwks) (s : Shared) : Shared := {|
  key_set := j; network := network s; user_store := user_store s;
  redis_state := redis_state s; asked := asked s; accessed := accessed s |}.
Definition with_network (n : N) (s : Shared) : Shared := {|
  key_set := key_set s; network := n; user_store := user_store s;
  redis_state := redis_state s; asked := asked s; accessed := accessed s |}.
Definition ask_network (n : N) (s : Shared) : Shared := {|
  key_set := key_set s; network := n; user_store := user_store s;
  redis_state := redis_state s; asked := network s :: asked s; accessed := accessed s |}.
Definition with_store (st : RedisStore UserConfig) (s : Shared) : Shared := {|
  key_set := key_set s; network := network s; user_store := st;
  redis_state := redis_state s; asked := asked s; accessed := accessed s |}.
Definition with_redis (w : W) (s : Shared) : Shared := {|
  key_set := key_set s; network := network s; user_store := user_store s;
  redis_state := w; asked := asked s; accessed := accessed s |}.
Definition access_redis (w : W) (s : Shared) : Shared := {|
  key_set := key_set s; network := network s; user_store := user_store s;
  redis_state := w; asked := asked s; accessed := redis_state s :: accessed s |}.

(** The server answered a request for the key set with [keys]. *)
Definition keys_served (ns : list N) (url : Url) (keys : list VerificationKey) : Prop :=
  ∃ n n', n ∈ ns ∧ fetch_jwks url n = (Ok keys, n').
(** Redis gave [config] for the user [subject], or acknowledged it, in one of the
    states. *)
Definition redis_held (ws : list W) (subject : string) (config : UserConfig) : Prop :=
  ∃ w w', w ∈ ws ∧ (fetch_config (User_new subject) w = (Ok config, w') ∨
                    store_config (User_new subject) config w = (Ok (), w')).

(** What can happen in one step between two suspension points of any request, or
    outside the gateway.  Key sets and configurations are cached some time after
    they were received, possibly after newer ones. *)
Inductive phase : Shared → Shared → Prop :=
| phase_outside s n w : phase s (with_redis w (with_network n s))
| phase_fetch s r n :
    fetch_jwks (jwks_url (key_set s)) (network s) = (r, n) → phase s (ask_network n s)
| phase_key_set s t keys :
    keys_served (asked s) (jwks_url (key_set s)) keys →
    phase s (with_key_set (set_keys t keys (key_set s)) s)
| phase_lookup s t subject :
    phase s (with_store (cache_lookup t subject (user_store s)).2 s)
| phase_read s subject r w :
    fetch_config (User_new subject) (redis_state s) = (r, w) → phase s (access_redis w s)
| phase_write s subject config r w :
    store_config (User_new subject) config (redis_state s) = (r, w) →
    phase s (access_redis w s)
| phase_insert s t subject config :
    redis_held (accessed s) subject config →
    phase s (with_store (cache_store t subject config (user_store s)) s).
Abbreviation phases := (rtc phase).

(** ** The operations among other requests

    The suspension points of a request, in order; [others] is what happens at
    each, [clock] the time at which the request goes on. *)
Inductive Await : Type :=
| LockKeys | FetchKeys | InsertKeys | LockCache | AccessRedis | InsertConfig.
Context (others : Await → Shared → Shared) (clock : Await → Instant).

(** [JwtAuthorizationService::authorize], [Jwks::validate]. *)
Definition validate_among (token : string) (header : Header) (s : Shared)
    : option AuthorizationClaims * Shared :=
  let s := others LockKeys s in
  match validate_cached (clock LockKeys) token header (key_set s) with
  | Some claims => (claims, s)
  | None =>
      let s := others FetchKeys s in
      let '(fetched, n) := fetch_jwks (jwks_url (key_set s)) (network s) in
      let s := ask_network n s in
      match fetched with
      | Ok keys =>
          let claims :=
            validate_with_keys keys token header (validation (key_set s) (alg header)) in
          let s := others InsertKeys s in
          (claims, with_key_set (set_keys (clock InsertKeys) keys (key_set s)) s)
      | Err _ => (None, s)
      end
  end.
Definition authorize_among (authorization_token : HeaderValue) (s : Shared)
    : option AuthorizationClaims * Shared :=
  match strip_prefix "Bearer " authorization_token with
  | Some token =>
      if utf8_valid token then
        match decode_header token with
        | Some header => validate_among token header s
        | None => (None, s)
        end
      else (None, s)
  | None => (None, s)
  end.

(** [RedisStore::get_config] and [set_config]. *)
Definition get_config_among (user : User) (s : Shared)
    : result ConfigStoreError UserConfig * Shared :=
  let s := others LockCache s in
  let '(hit, st) := cache_lookup (clock LockCache) (key_of user) (user_store s) in
  let s := with_store st s in
  match hit with
  | Some config => (Ok config, s)
  | None =>
      let s := others AccessRedis s in
      let '(r, w) := fetch_config user (redis_state s) in
      let s := access_redis w s in
      match r with
      | Ok config =>
          let s := others InsertConfig s in
          (Ok config,
           with_store (cache_store (clock InsertConfig) (key_of user) config (user_store s)) s)
      | Err e => (Err e, s)
      end
  end.
Definition set_config_among (user : User) (config : UserConfig) (s : Shared)
    : result ConfigStoreError () * Shared :=
  let s := others AccessRedis s in
  let '(r, w) := store_config user config (redis_state s) in
  let s := access_redis w s in
  match r with
  | Ok _ =>
      let s := others InsertConfig s in
      (Ok (), with_store (cache_store (clock InsertConfig) (key_of user) config (user_store s)) s)
  | Err e => (Err e, s)
  end.

#[export] Instance shared_authorization : AuthorizationService Shared :=
  {| authorize := authorize_among |}.
#[export] Instance shared_store : ConfigStore Shared User UserConfig :=
  {| get_config := get_config_among; set_config := set_config_among |}.
End shared.
Arguments Shared {_ _} N W.
Abbreviation phases := (rtc phase).

(** ** Alone, the operations are those of the services *)

Section alone.
Context `{!JwtLib, !JwtDecode, !LruLib} {N : Type} `{!Jwks.HttpClient N}.
Context {W : Type} `{!Redis W, !MessagePack User, !MessagePack UserConfig}.
Implicit Types (s : Shared N W) (t : Instant).

Lemma authorize_alone t h s :
  let '(claims, s') := authorize_among (λ _ s, s) (λ _, t) h s in
  jwt_authorize t h (key_set s, network s) = (claims, (key_set s', network s')).
Proof.
  unfold authorize_among, jwt_authorize, authorize_token, validate_among, validate.
  destruct s as [j n st w ns ws]; cbn [key_set network].
  destruct (strip_prefix "Bearer " h) as [token|]; [|done]. destruct (utf8_valid token); [|done].
  destruct (decode_header token) as [header|]; [|done].
  destruct (validate_cached t token header j); [done|].
  by destruct (fetch_jwks (jwks_url j) n) as [[] ?].
Qed.
Lemma get_config_alone t t' user s :
  let '(r, s') := get_config_among (λ _ s, s)
                    (λ a, match a with InsertConfig => t' | _ => t end) user s in
  RedisStore_get_config t t' user (user_store s, redis_state s)
    = (r, (user_store s', redis_state s')).
Proof.
  unfold get_config_among, RedisStore_get_config. destruct s as [j n st w ns ws]; cbn.
  destruct (cache_lookup _ _ _) as [[] ?]; [done|]. by destruct (fetch_config _ _) as [[] ?].
Qed.
End alone.

(** ** What every phase keeps *)

Section invariant.
Context `{!JwtLib, !JwtDecode, !LruLib, !LruLibLaws} {N : Type} `{!Jwks.HttpClient N}.
Context {W : Type} `{!Redis W, !MessagePack User, !MessagePack UserConfig}.
Context (url : Url).
Implicit Types (s : Shared N W).

Record services_ok s : Prop := {
  ok_keys : keys_trusted url (.∈ asked s) (key_set s);
  ok_validation : validation (key_set s) = validation (Jwks_new url);
  ok_store : ∀ subject e, held (user_store s) subject e →
    redis_held (accessed s) subject (config e);
}.

Lemma redis_held_mono (ws ws' : list W) subject c :
  ws ⊆ ws' → redis_held ws subject c → redis_held ws' subject c.
Proof. intros Hsub (w & w' & Hw & Hf). exists w, w'. auto. Qed.

Lemma keys_trusted_mono (ns ns' : list N) j :
  ns ⊆ ns' → keys_trusted url (.∈ ns) j → keys_trusted url (.∈ ns') j.
Proof.
  intros Hsub [Hurl Hk]. split; [done|]. intros k keys Hheld. specialize (Hk k keys Hheld).
  eapply Forall_impl; [exact Hk|]. intros key. by apply trusted_mono.
Qed.
Lemma phases_asked s s' : phases s s' → asked s ⊆ asked s'.
Proof.
  induction 1 as [|s s' s'' Hp _ IH]; [done|]. etrans; [|exact IH].
  destruct Hp; cbn; set_solver.
Qed.

Lemma phases_accessed s s' : phases s s' → accessed s ⊆ accessed s'.
Proof.
  induction 1 as [|s s' s'' Hp _ IH]; [done|]. etrans; [|exact IH].
  destruct Hp; cbn; set_solver.
Qed.

Lemma phases_url s s' : phases s s' → jwks_url (key_set s') = jwks_url (key_set s).
Proof. induction 1 as [|s s' s'' Hp _ IH]; [done|]. rewrite IH. by destruct Hp. Qed.

Lemma phase_ok s s' : phase s s' → services_ok s → services_ok s'.
Proof.
  intros Hp [Hk Hv Hs].
  destruct Hp as [s n w|s r n _|s t keys (n & n' & Hn & Hf)|s t subject|s subject r w _|s subject c r w _
    |s t subject c Hc]; (split; cbn; [try done..|]); try done.
  - eapply keys_trusted_mono; [|exact Hk]. set_solver.
  - apply set_keys_trusted; [|done]. destruct (Hk) as [Hurl _]. rewrite Hurl in Hf.
    by eapply fetch_jwks_trusted; [|exact Hf].
  - intros k e He. destruct (cache_lookup _ _ _) as [r st] eqn:Hl. cbn in He.
    apply cache_lookup_held in Hl as (_ & Hsub & _). auto.
  - intros k e He. eapply redis_held_mono; [|by apply Hs]. set_solver.
  - intros k e He. eapply redis_held_mono; [|by apply Hs]. set_solver.
  - by intros k e [[-> ->]|[_ He]]%cache_store_held; [|apply Hs].
Qed.
Lemma phases_ok s s' : phases s s' → services_ok s → services_ok s'.
Proof. induction 1; eauto using phase_ok. Qed.

(** The services when the gateway starts. *)
Definition services_start (expiry : Duration) (n : N) (w : W) : Shared N W := {|
  key_set := Jwks_new url; network := n; user_store := RedisStore_new expiry;
  redis_state := w; asked := []; accessed := [] |}.
Lemma services_start_ok expiry n w : services_ok (services_start expiry n w).
Proof.
  split; cbn; [|done|].
  - apply new_keys_trusted.
  - intros subject e He. unfold held, RedisStore_new in He. cbn in He.
    destruct (expiry =? 0); [done|]. by apply lru_holds_new in He.
Qed.
End invariant.

(** ** What an operation relies on and what it leaves behind

    The others do nothing but phases; then so does the operation. *)

Section guarantee.
Context `{!JwtLib, !JwtDecode, !LruLib, !LruLibLaws} {N : Type} `{!Jwks.HttpClient N}.
Context {W : Type} `{!Redis W, !MessagePack User, !MessagePack UserConfig}.
Context (others : Await → Shared N W → Shared N W) (clock : Await → Instant).
Context (Hothers : ∀ a s, phases s (others a s)).
Implicit Types (s : Shared N W).

Lemma validate_among_phases token header s : phases s (validate_among others clock token header s).2.
Proof.
  unfold validate_among. etrans; [apply (Hothers LockKeys)|].
  destruct (validate_cached _ _ _ _); [done|]. etrans; [apply (Hothers FetchKeys)|].
  destruct (fetch_jwks _ _) as [r n] eqn:Hf.
  eapply rtc_l; [by eapply phase_fetch|]. destruct r as [keys|e]; [|done]. cbn [snd].
  set (s1 := others FetchKeys (others LockKeys s)) in *.
  pose proof (Hothers InsertKeys (ask_network n s1)) as Hi.
  eapply rtc_r; [exact Hi|]. eapply phase_key_set. exists (network s1), n.
  split; [apply (phases_asked _ _ Hi); left|]. by rewrite (phases_url _ _ Hi).
Qed.
Lemma authorize_among_phases h s : phases s (authorize_among others clock h s).2.
Proof.
  unfold authorize_among. destruct (strip_prefix "Bearer " h); [|done]. destruct (utf8_valid _); [|done].
  destruct (decode_header _); [|done]. apply validate_among_phases.
Qed.

(** Caching a configuration that was just read or written, after the others. *)
Lemma insert_phases s w subject c :
  redis_held [redis_state s] subject c →
  let s' := others InsertConfig (access_redis w s) in
  phases (access_redis w s)
    (with_store (cache_store (clock InsertConfig) subject c (user_store s')) s').
Proof.
  intros Hc. eapply rtc_r; [apply (Hothers InsertConfig)|]. apply phase_insert.
  eapply redis_held_mono; [|exact Hc]. etrans; [|apply phases_accessed, Hothers]. cbn. set_solver.
Qed.
Lemma get_config_among_phases subject s :
  phases s (get_config_among others clock (User_new subject) s).2.
Proof.
  unfold get_config_among. etrans; [apply (Hothers LockCache)|].
  eapply rtc_l; [apply (phase_lookup _ (clock LockCache) subject)|].
  change (key_of (User_new subject)) with subject.
  destruct (cache_lookup _ _ _) as [[c|] st]; [done|]. cbn [snd].
  etrans; [apply (Hothers AccessRedis)|].
  destruct (fetch_config _ _) as [r w] eqn:Hf.
  eapply rtc_l; [by eapply phase_read|].
  destruct r as [c|]; [|done]. apply insert_phases. exists (redis_state (others AccessRedis
    (with_store st (others LockCache s)))), w. split; [left|by left].
Qed.
Lemma set_config_among_phases subject c s :
  phases s (set_config_among others clock (User_new subject) c s).2.
Proof.
  unfold set_config_among. etrans; [apply (Hothers AccessRedis)|].
  destruct (store_config _ _ _) as [r w] eqn:Hs. eapply rtc_l; [by eapply phase_write|].
  destruct r as [[]|]; [|done]. apply insert_phases.
  exists (redis_state (others AccessRedis s)), w. split; [left|by right].
Qed.

Lemma others_ok url a s : services_ok url s → services_ok url (others a s).
Proof. apply phases_ok, Hothers. Qed.

(** What an accepted token and a returned configuration are. *)
Lemma authorize_among_verified url h s c s' :
  services_ok url s → authorize_among others clock h s = (Some c, s') →
  ∃ token, h = "Bearer " +:+ token ∧ verified (.∈ asked s') (Jwks_new url) token c.
Proof.
  intros Hok Ha. pose proof (authorize_among_phases h s) as Hp. rewrite Ha in Hp. cbn in Hp.
  pose proof (phases_ok _ _ _ Hp Hok) as Hok'. revert Ha. unfold authorize_among.
  destruct (strip_prefix "Bearer " h) as [token|] eqn:Hh; [|done]. apply strip_prefix_Some in Hh.
  destruct (utf8_valid token); [|done]. destruct (decode_header token) as [header|] eqn:Hd; [|done].
  intros Hv. exists token. split; [exact Hh|]. unfold validate_among in Hv.
  assert (services_ok url (others LockKeys s)) as Hok1 by auto using others_ok.
  assert (∀ s1 : Shared N W, services_ok url s1 → verified (.∈ asked s') (key_set s1) token c →
          verified (.∈ asked s') (Jwks_new url) token c) as Hself.
  { intros s1 [[Hurl _] Hval _]. unfold verified. by rewrite Hval, Hurl. }
  destruct (validate_cached _ _ _ _) as [claims|] eqn:Hcached.
  { injection Hv as -> <-. eapply Hself, validate_cached_verified; eauto. apply Hok1. }
  assert (services_ok url (others FetchKeys (others LockKeys s))) as Hok2 by auto using others_ok.
  set (s2 := others FetchKeys (others LockKeys s)) in *.
  destruct (fetch_jwks _ _) as [[keys|e] n] eqn:Hf; [|done]. injection Hv as Hc Hs'.
  apply (Hself _ Hok2). eapply validate_with_keys_verified; [|exact Hd|exact Hc].
  eapply fetch_jwks_trusted; [|exact Hf]. cbn beta. subst s'. cbn [asked with_key_set].
  eapply phases_asked; [apply Hothers|]. left.
Qed.
Lemma get_config_among_held url subject s c s' :
  services_ok url s → get_config_among others clock (User_new subject) s = (Ok c, s') →
  redis_held (accessed s') subject c.
Proof.
  intros Hok Hg. pose proof (get_config_among_phases subject s) as Hp. rewrite Hg in Hp; cbn in Hp.
  unfold get_config_among in Hg.
  assert (services_ok url (others LockCache s)) as [_ _ Hst] by auto using others_ok.
  change (key_of (User_new subject)) with subject in Hg.
  destruct (cache_lookup _ _ _) as [hit st] eqn:Hl.
  apply cache_lookup_held in Hl as (_ & _ & Hhit). destruct hit as [c'|].
  { injection Hg as -> <-. destruct (Hhit c eq_refl) as (e & He & <- & _). by apply Hst. }
  destruct (fetch_config _ _) as [[c'|e] w] eqn:Hf; [|done]. injection Hg as -> <-. cbn.
  eapply redis_held_mono; [apply phases_accessed, (Hothers InsertConfig)|]. cbn.
  eexists _, w. split; [left|by left].
Qed.
End guarantee.
