(* ===== verification/Deployment.v ===== *)
(** * The gateway as it is deployed

    The middleware stack over the services the binary installs ([SharedServices]),
    which all requests use at the same time. *)

From S2P Require Import Prelude HttpTypes Apis McpStandardHeaders Rmcp Cmf.
From S2P Require Import HeaderLimits UpstreamHeaders ConfigStore Authorization Jwks Layers Gateway EndToEnd.
From S2P Require Import SharedServices.

Section deployment.
Context `{!RmcpHeaders, !HttpLib, !Base64, !SerdeFloat, !UrlParts, !TraceContext}.
Context `{!HashIter, !HashIterLaws, !RmcpTypes, !ProtocolVersions} {E : Type}.
Context `{!Backends E, !PluginHooks E}.
Context `{!JwtLib, !JwtDecode, !LruLib, !LruLibLaws} {N : Type} `{!Jwks.HttpClient N}.
Context {W : Type} `{!Redis W, !MessagePack User, !MessagePack UserConfig}.
Context {X : Type} `{!PrincipalExtractor X} {B : Type} `{!StreamableHttp B, !AxumRouter}.
Context (header_error_text : HeaderError → string).

(** One request among others: what they do at each of its suspension points before
    the handler, and when it goes on; the handler itself runs on its own backends
    and plugins, which may answer anything. *)
Definition serve_among (others : Await → Shared N W → Shared N W) (clock : Await → Instant)
    (limits : StandardHeaderLimits) (extractor : X) (self : McpService) (body : B)
    : Handler (S := Shared N W * GState (E := E)) :=
  @serve_request _ _ _ _ _ _ _ _ _ E _ _ header_error_text B _ (Shared N W) _
    (shared_authorization others clock) (shared_store others clock) X _ limits extractor self body.

Section among.
Context (others : Await → Shared N W → Shared N W) (clock : Await → Instant).
Context (limits : StandardHeaderLimits) (extractor : X) (self : McpService).

(** A request leaves behind what a sequence of phases does: it is itself one of the
    others for every request that runs at the same time. *)
Lemma serve_phases body request s s' g g' response :
  (∀ a s, phases s (others a s)) →
  serve_among others clock limits extractor self body request (s, g)
    = Returns (response, (s', g')) → phases s s'.
Proof.
  intros Hothers Hserved.
  eapply (@request_keeps _ _ _ _ _ _ _ _ _ E _ _ (Shared N W)
    (shared_authorization others clock) (shared_store others clock) X _ B _ _ header_error_text
    (phases s) (phases s)); [done| | |exact Hserved|done].
  - intros token s1 Hs. etrans; [exact Hs|]. by apply authorize_among_phases.
  - intros id s1 Hs. etrans; [exact Hs|]. by apply get_config_among_phases.
Qed.

(** C2: whatever requests the gateway has served or is serving at the same time, a
    request that makes it act on any backend carries a bearer token that the JWT
    library verified, expiry and not-before checked, with an RSA or EC signature key
    of a key set that the configured URL served when the gateway asked it, on behalf
    of this request or of another; and all it makes the gateway do is on one backend of the
    virtual host its path names, in a configuration that Redis itself gave or
    acknowledged for the principal of that token: no cached entry is ever another
    user's, in whatever order the requests filled the caches. *)
Theorem deployed_request_isolated jwks_url expiry n w s body request g response s' g'
    (Hreach : phases (services_start jwks_url expiry n w) s)
    (Hothers : ∀ a s, phases s (others a s))
    (Hserved : serve_among others clock limits extractor self body request (s, g)
               = Returns (response, (s', g')))
    (Hfresh : trace g = []) (Hacted : trace g' ≠ []) :
  ∃ id jwt header key claims principal config vh target,
    request_path request = "/servers/" +:+ id +:+ "/mcp" ∧
    assoc_get "authorization" (request_headers request) = Some ("Bearer " +:+ jwt) ∧
    decode_header jwt = Some header ∧ trusted jwks_url (.∈ asked s') key ∧
    key_family (decoding_key key) = alg_family (alg header) ∧
    decode jwt (decoding_key key)
      {| validation_algorithm := alg header; required_spec_claims := [];
         validate_aud := false; validate_exp := true; validate_nbf := true |} = Some claims ∧
    extract extractor claims = Ok principal ∧
    redis_held (accessed s') (user_id principal) config ∧
    virtual_hosts config !! id = Some vh ∧
    Forall (on_backend vh (Some (request_headers request)) target) (trace g').
Proof.
  pose proof (phases_ok _ _ _ Hreach (services_start_ok jwks_url expiry n w)) as Hok.
  destruct (@request_isolated _ _ _ _ _ _ _ _ _ _ E _ _ (Shared N W)
    (shared_authorization others clock) (shared_store others clock) X _ B _ _ header_error_text
    _ _ _ _ _ _ _ _ _ _ Hserved Hfresh Hacted)
    as (id & token & claims & principal & config & vh & target & Hpath & Htoken & Hauth & Hx &
        Hget & Hvh & Hs' & Hon).
  cbn [authorize get_config shared_authorization shared_store] in Hauth, Hget, Hs'.
  destruct (authorize_among others clock token s) as [claims' s1] eqn:Ha.
  cbn [fst snd] in Hauth, Hget, Hs'. subst claims'.
  destruct (get_config_among others clock _ s1) as [r s2] eqn:Hg.
  cbn [fst snd] in Hget, Hs'. subst r s2.
  assert (services_ok jwks_url s1) as Hok1.
  { pose proof (authorize_among_phases others clock Hothers token s) as Hp. rewrite Ha in Hp.
    by eapply phases_ok. }
  pose proof (get_config_among_phases others clock Hothers (user_id principal) s1) as Hasked.
  rewrite Hg in Hasked. apply phases_asked in Hasked.
  destruct (authorize_among_verified others clock Hothers _ _ _ _ _ Hok Ha)
    as (jwt & -> & header & key & Hh & Htrusted & Hfam & _ & Hdecode).
  exists id, jwt, header, key, (claims_value claims), principal, config, vh, target.
  split_and!; try done.
  - eapply trusted_mono; [|exact Htrusted]. exact Hasked.
  - by eapply get_config_among_held.
Qed.
End among.
End deployment.

(** ** A concrete deployment

    While a request waits for the key set, another request of the same user is
    served as a whole: both fetch the keys, and the first finds the configuration
    the second has cached. *)

Module ConcreteDeployment.
Import Concrete ConcreteRmcp ConcreteHandlers ConcreteStore ConcreteJwt.
#[export] Instance deployed_decode : JwtDecode := {|
  decode_header t :=
    if String.eqb t "tok" then Some {| alg := "RS256" : Algorithm; kid := Some "k1" |} else None;
  decode t key v :=
    if String.eqb t "tok" && String.eqb (key : string * string).2 "good"
    then Some (JObject [("sub", JString "alice"); ("tenant_id", JString "t")]) else None;
  default_required_claims := ["exp"];
|}.
#[export] Instance mp_user_config : MessagePack UserConfig := {|
  mp_to_vec _ := Some "config";
  mp_from_slice b :=
    if String.eqb b "config" then Some {| virtual_hosts := {["vh" := host]} |} else None |}.
#[export] Instance deployed_streamable : StreamableHttp () := ConcreteRequest.streamable.
#[export] Instance deployed_router : AxumRouter := ConcreteRequest.router.


Abbreviation shared := (Shared Z (list (string * string))).
Definition alone : Await → shared → shared := λ _ s, s.
Definition serve_with (others : Await → shared → shared) (s : shared)
    : outcome (Response * (shared * GState (E := Z))) :=
  serve_among (λ _, "header mismatch") others (λ _, 0) (limits_from_config 0 0 0)
    Build_DefaultPrincipalExtractor svc () ConcreteGateway.request (s, start).
Definition fresh : shared := services_start "https://keys" 100 0 [("alice", "config")].
Definition another (s : shared) : shared :=
  match serve_with alone s with Returns (_, (s, _)) => s | Panics => s end.
Definition others (a : Await) (s : shared) : shared :=
  match a with FetchKeys => another s | _ => s end.

Lemma others_phases a s : phases s (others a s).
Proof.
  destruct a; try done. unfold others, another.
  destruct (serve_with alone s) as [[r [s' g']]|] eqn:Hs; [|done].
  refine (serve_phases _ _ _ _ _ _ _ _ _ _ _ _ _ _ Hs). done.
Qed.
End ConcreteDeployment.

Import Concrete ConcreteRmcp ConcreteHandlers ConcreteStore ConcreteJwt ConcreteDeployment.

Lemma deployed_request_isolated_witness :
  match serve_with others fresh with
  | Returns (response, (s, g)) =>
      response_status response = 200 ∧ network s = 2 ∧ length (accessed s) = 1%nat ∧
      length (trace g) = 6%nat ∧
      ∃ jwt key vh target, "Bearer tok" = "Bearer " +:+ jwt ∧
        trusted (W := Z) "https://keys" (λ n, n ∈ asked s) key ∧
        Forall (on_backend vh
          (Some [("authorization", "Bearer tok"); ("mcp-method", "tools/call")]) target) (trace g)
  | Panics => False
  end.
Proof.
  destruct (serve_with others fresh) as [[response [s g]]|] eqn:Hs;
    [|revert Hs; vm_compute; discriminate].
  assert (response_status response = 200 ∧ network s = 2 ∧ length (accessed s) = 1%nat ∧
          length (trace g) = 6%nat) as (Hr & Hn & Ha & Hl)
    by (revert Hs; vm_compute; intros [= <- <- <-]; split_and!; reflexivity).
  split; [exact Hr|]. split; [exact Hn|]. split; [exact Ha|]. split; [exact Hl|].
  destruct (deployed_request_isolated _ others _ _ _ _ "https://keys" 100 0 [("alice", "config")]
    _ _ _ _ _ _ _ (rtc_refl _ _) others_phases Hs eq_refl)
    as (id & jwt & header & key & claims & principal & config & vh & target & _ & Ht & Hok).
  { intros Hnil. rewrite Hnil in Hl. discriminate. }
  exists jwt, key, vh, target. split; [injection Ht as Ht; by rewrite Ht|].
  split; [apply Hok|apply Hok].
Defined.
