(* ===== verification/GatewayPlugins.v ===== *)
(** * The handlers over the plugin runtime

    The implementation of the handlers' plugin interface ([Gateway.PluginHooks])
    by the plugin runtime ([CpexRegistry], [CpexTools], [CpexPrompts],
    [CpexResources]): each pre hook takes the runtime that is current, and a tool's
    hook state is shared, so it lives in a store and is passed by address.  What
    happens while a handler awaits a backend (notifications, other calls, reloads)
    is a parameter. *)

From S2P Require Import Prelude HttpTypes Apis McpStandardHeaders Rmcp Cmf.
From S2P Require Import UpstreamHeaders Authorization Layers Gateway.
From S2P Require Import CpexRuntime CpexPrompts CpexResources CpexTools CpexRegistry.
From stdpp Require Import functions.

Section instance.
Context `{!CmfConstants, !RmcpTypes, !ToolConstructors, !RmcpConstructors, !CmfMessages, !CmfSerde}.
Context `{!Base64, !SerdeValue CallToolResult}.
Context {P : Type} `{!CpexManager P} {B : Type} `{!Backends B}.

(** The world of the handlers: the backends, the runtime the handle loads, the
    plugins, and the hook states of tool calls. *)
Record PluginEnv : Type := {
  backend_env : B;
  runtime_state : RuntimeState P;
  world : World P;
  tool_states : nat → option (CallState (P := P));
  next_state : nat;
}.

Definition set_world (w : World P) (x : PluginEnv) : PluginEnv := {|
  backend_env := backend_env x; runtime_state := runtime_state x; world := w;
  tool_states := tool_states x; next_state := next_state x |}.
Definition set_backend (b : B) (x : PluginEnv) : PluginEnv := {|
  backend_env := b; runtime_state := runtime_state x; world := world x;
  tool_states := tool_states x; next_state := next_state x |}.
Definition alloc (state : CallState) (x : PluginEnv) : nat * PluginEnv :=
  (next_state x, {|
    backend_env := backend_env x; runtime_state := runtime_state x; world := world x;
    tool_states := <[next_state x := Some state]> (tool_states x);
    next_state := S (next_state x) |}).
Definition store (address : nat) (state : CallState) (x : PluginEnv) : PluginEnv := {|
  backend_env := backend_env x; runtime_state := runtime_state x; world := world x;
  tool_states := <[address := Some state]> (tool_states x); next_state := next_state x |}.

(** A tool's [Arc<Mutex<CallState>>], or the state a prompt's hook owns. *)
Inductive State : Type :=
| ToolHookState (address : nat)
| PromptHookState (state : CallState (P := P)).

(** A pre hook on the runtime that is current. *)
Definition on_current {A} (f : GatewayPluginRuntime → World P → result ErrorData A * World P)
    (x : PluginEnv) : result ErrorData A * PluginEnv :=
  match current (runtime_state x) with
  | Err e => (Err e, x)
  | Ok runtime => let '(r, w) := f runtime (world x) in (r, set_world w x)
  end.

#[export] Instance runtime_hooks : PluginHooks PluginEnv := {|
  HookState := State;
  HookResource := ResourceHookState;
  hook_before_tool request tool_name backend_name x :=
    let '(r, x) := on_current
      (λ runtime, before_tool_call runtime request tool_name backend_name) x in
    match r with
    | Err e => (Err e, x)
    | Ok result =>
        match pre_state result with
        | None => (Ok {| pre_arguments := pre_arguments result; pre_state := None |}, x)
        | Some state =>
            let '(address, x) := alloc state x in
            (Ok {| pre_arguments := pre_arguments result;
                   pre_state := Some (ToolHookState address) |}, x)
        end
    end;
  hook_after_tool state response x :=
    match state with
    | ToolHookState address =>
        match tool_states x address with
        | Some state =>
            let '(r, state, w) := after_tool_call state response (world x) in
            (r, store address state (set_world w x))
        | None => (Ok response, x)
        end
    | PromptHookState _ => (Ok response, x)
    end;
  hook_before_prompt request prompt_name backend_name x :=
    let '(r, x) := on_current
      (λ runtime, before_get_prompt runtime request prompt_name backend_name) x in
    ((result ← r;
      Ok {| pre_arguments := pre_arguments result;
            pre_state := PromptHookState <$> pre_state result |}), x);
  hook_after_prompt state response x :=
    match state with
    | PromptHookState state =>
        let '(r, _, w) := after state response (world x) in (r, set_world w x)
    | ToolHookState _ => (Ok response, x)
    end;
  hook_before_resource uri := on_current (λ runtime, before_read_resource runtime uri);
  hook_rewritten_uri := rewritten_uri;
  hook_after_resource hook response x :=
    let '(r, w) := after_read_resource hook response (world x) in (r, set_world w x) |}.

(** The backends, with everything else that runs during an await. *)
Context (others : PluginEnv → PluginEnv).
Definition awaiting {A} (f : B → A * B) (x : PluginEnv) : A * PluginEnv :=
  let '(a, b) := f (backend_env x) in (a, others (set_backend b x)).
#[export] Instance awaited_backends : Backends PluginEnv := {|
  be_connect name request := awaiting (be_connect name request);
  be_send request := awaiting (be_send request);
  be_wait token := awaiting (be_wait token);
  be_cancel token reason := awaiting (be_cancel token reason);
  be_get_prompt request := awaiting (be_get_prompt request);
  be_read_resource request := awaiting (be_read_resource request);
  be_complete request := awaiting (be_complete request);
  be_close := awaiting be_close |}.
End instance.
Arguments PluginEnv P {_} B.

(** ** Refused calls *)

Section refused.
Context `{!RmcpHeaders, !HttpLib, !Base64, !SerdeFloat, !UrlParts, !TraceContext}.
Context `{!HashIter, !RmcpTypes, !ProtocolVersions} {E : Type} `{!Backends E, !PluginHooks E}.
Context (header_error_text : HeaderError → string).
Implicit Types (s : GState (E := E)) (svc : McpService) (cx : RequestContext).

(** The state in which a refused handler stops. *)
Definition stopped_at s (w : E) (target : string) : GState :=
  {| env := w; in_flight_calls := in_flight_calls s; trace := trace s ++ [EPre target] |}.

Lemma tool_refused svc request cx s route backend e w :
  plugin_runtime svc = true → tool_checks header_error_text request cx = Ok (route, backend) →
  hook_before_tool request (upstream_name route) (backend_name route) (env s) = (Err e, w) →
  call_tool header_error_text svc request cx s = (Err e, stopped_at s w (upstream_name route)).
Proof.
  unfold tool_checks, call_tool, validate_call, mbind, G_bind, lift, act. intros -> Hc Hh.
  destruct (validate_stateless _) as [vc|]; [|done]. cbn in Hc. rewrite Hc. cbn. by rewrite Hh.
Qed.
Lemma prompt_refused svc request cx s route backend e w :
  plugin_runtime svc = true → prompt_checks request cx = Ok (route, backend) →
  hook_before_prompt request (upstream_name route) (backend_name route) (env s) = (Err e, w) →
  get_prompt svc request cx s = (Err e, stopped_at s w (upstream_name route)).
Proof.
  unfold prompt_checks, get_prompt, validate_call, mbind, G_bind, lift, act. intros -> Hc Hh.
  destruct (validate_stateless _) as [vc|]; [|done]. cbn in Hc.
  destruct (prompts vc.1 !! _) as [r|]; [|done]. cbn in Hc |- *.
  destruct (backends vc.1 !! _) as [b|]; [|done]. cbn in Hc |- *. simplify_eq. by rewrite Hh.
Qed.
Lemma resource_refused svc request cx s vh route e w :
  plugin_runtime svc = true → resource_checks request cx = Ok (vh, route) →
  hook_before_resource (upstream_name route) (env s) = (Err e, w) →
  read_resource svc request cx s = (Err e, stopped_at s w (upstream_name route)).
Proof.
  unfold resource_checks, read_resource, validate_call, mbind, G_bind, lift, act. intros -> Hc Hh.
  destruct (validate_stateless _) as [vc|]; [|done]. cbn in Hc.
  destruct (resources vc.1 !! _) as [r|]; [|done]. cbn in Hc |- *. simplify_eq. by rewrite Hh.
Qed.
End refused.

(** ** Failing closed *)

Section fail_closed.
Context `{!RmcpHeaders, !HttpLib, !Base64, !SerdeFloat, !UrlParts, !TraceContext}.
Context `{!HashIter, !ProtocolVersions}.
Context `{!CmfConstants, !RmcpTypes, !ToolConstructors, !RmcpConstructors, !CmfMessages, !CmfSerde}.
Context `{!SerdeValue CallToolResult}.
Context {P : Type} `{!CpexManager P} {B : Type} `{!Backends B}.
Context (others : PluginEnv P B → PluginEnv P B) (header_error_text : HeaderError → string).
#[local] Instance awaited : Backends (PluginEnv P B) := awaited_backends others.

(** The plugins refuse an operation: the runtime failed to load, or it runs a pre
    hook for the operation and a plugin denies the payload. *)
Definition refuses (operation : Operation) (payload : string → MessagePayload)
    (x : PluginEnv P B) : option ErrorData :=
  match runtime_state x with
  | Failed _ => Some (error INTERNAL_ERROR "Runtime plugin reload failed")
  | Active runtime =>
      let id := correlation_name operation (CORRELATION_ID (world x)) in
      let result := (invoke_named (manager runtime) (hooks_of operation).1 (payload id) None
                       (plugin_state (world x))).1 in
      if pre (hooks runtime operation) && denied result
      then Some (plugin_denied_error (subject operation) result) else None
  end.

Lemma before_refused {U} (d : U) runtime operation name payload update (w : World P) e :
  let id := correlation_name operation (CORRELATION_ID w) in
  let result := (invoke_named (manager runtime) (hooks_of operation).1 (payload id) None
                   (plugin_state w)).1 in
  (if pre (hooks runtime operation) && denied result
   then Some (plugin_denied_error (subject operation) result) else None) = Some e →
  ∃ w', before d runtime operation name payload update w = (Err e, w').
Proof.
  cbv zeta. unfold before, invoke, next_correlation_id. destruct (pre (hooks runtime operation)); [|done].
  cbn [negb andb CORRELATION_ID plugin_state].
  destruct (invoke_named _ _ _ _ _) as [res p]; cbn [fst]. destruct (denied res); [|done].
  intros [= <-]. cbn. by eexists.
Qed.

(** A pre hook built on [before] stops at a refusal and touches no backend. *)
Lemma on_current_refused {A U} (d : U) operation name payload update
    (f : GatewayPluginRuntime → World P → result ErrorData A * World P) (x : PluginEnv P B) e :
  (∀ runtime w w', before d runtime operation name payload update w = (Err e, w') →
     f runtime w = (Err e, w')) →
  refuses operation payload x = Some e →
  ∃ x', on_current f x = (Err e, x') ∧ backend_env x' = backend_env x.
Proof.
  intros Hf. unfold refuses, on_current.
  destruct (runtime_state x) as [runtime|msg]; cbn [current]; [|intros [= <-]; by eexists].
  intros Hr. apply (before_refused d runtime operation name payload update) in Hr as [w' Hw].
  erewrite Hf by exact Hw. by eexists.
Qed.

Lemma tool_hook_refused request (target bname : string) (x : PluginEnv P B) e :
  refuses OTool (tool_call_payload request target bname) x = Some e →
  ∃ x', hook_before_tool request target bname x = (Err e, x') ∧ backend_env x' = backend_env x.
Proof.
  intros Hr. cbn [hook_before_tool runtime_hooks].
  assert (∃ x', on_current (λ runtime, before_tool_call runtime request target bname) x = (Err e, x') ∧
    backend_env x' = backend_env x) as (x' & Hx & Hb).
  { eapply on_current_refused; [|exact Hr]. intros runtime w w' Hw. unfold before_tool_call.
    by rewrite Hw. }
  exists x'. split; [|exact Hb]. by rewrite Hx.
Qed.
Lemma prompt_hook_refused request (target bname : string) (x : PluginEnv P B) e :
  refuses OPrompt (prompt_request_payload request target bname) x = Some e →
  ∃ x', hook_before_prompt request target bname x = (Err e, x') ∧ backend_env x' = backend_env x.
Proof.
  intros Hr. cbn [hook_before_prompt runtime_hooks].
  assert (∃ x', on_current (λ runtime, before_get_prompt runtime request target bname) x = (Err e, x') ∧
    backend_env x' = backend_env x) as (x' & Hx & Hb).
  { eapply on_current_refused; [|exact Hr]. intros runtime w w' Hw. unfold before_get_prompt.
    by rewrite Hw. }
  exists x'. split; [|exact Hb]. by rewrite Hx.
Qed.
Lemma resource_hook_refused (uri : string) (x : PluginEnv P B) e :
  refuses OResource (resource_request_payload uri) x = Some e →
  ∃ x', hook_before_resource uri x = (Err e, x') ∧ backend_env x' = backend_env x.
Proof.
  intros Hr. cbn [hook_before_resource runtime_hooks].
  assert (∃ x', on_current (λ runtime, before_read_resource runtime uri) x = (Err e, x') ∧
    backend_env x' = backend_env x) as (x' & Hx & Hb).
  { eapply on_current_refused; [|exact Hr]. intros runtime w w' Hw. unfold before_read_resource.
    by rewrite Hw. }
  by exists x'.
Qed.

(** A run that ended with [e] after the pre hook alone, without any backend. *)
Definition rejected {A} (e : ErrorData) (target : string) (s : GState (E := PluginEnv P B))
    (run : result ErrorData A * GState (E := PluginEnv P B)) : Prop :=
  run.1 = Err e ∧ trace run.2 = trace s ++ [EPre target] ∧
  backend_env (env run.2) = backend_env (env s) ∧
  in_flight_calls run.2 = in_flight_calls s.

(** C6: the gateway fails closed.  While the plugin configuration failed to load,
    or when a plugin's pre hook denies the call, a tool call, prompt or resource
    request that passes the routing checks ends with that error, and no backend is
    contacted: the runtime's error hides its cause, a denial says only what was
    denied. *)
Theorem fail_closed cx (s : GState (E := PluginEnv P B)) svc e (Hplugins : plugin_runtime svc = true) :
  (∀ request route backend, tool_checks header_error_text request cx = Ok (route, backend) →
     refuses OTool (tool_call_payload request (upstream_name route) (backend_name route)) (env s)
       = Some e →
     rejected e (upstream_name route) s (call_tool header_error_text svc request cx s)) ∧
  (∀ request route backend, prompt_checks request cx = Ok (route, backend) →
     refuses OPrompt (prompt_request_payload request (upstream_name route) (backend_name route))
       (env s) = Some e →
     rejected e (upstream_name route) s (get_prompt svc request cx s)) ∧
  (∀ request vh route, resource_checks request cx = Ok (vh, route) →
     refuses OResource (resource_request_payload (upstream_name route)) (env s) = Some e →
     rejected e (upstream_name route) s (read_resource svc request cx s)).
Proof.
  split_and!; intros request r1 r2 Hc Hr.
  - apply tool_hook_refused in Hr as (x' & Hx & Hb).
    erewrite tool_refused by done. by repeat split.
  - apply prompt_hook_refused in Hr as (x' & Hx & Hb).
    erewrite prompt_refused by done. by repeat split.
  - apply resource_hook_refused in Hr as (x' & Hx & Hb).
    erewrite resource_refused by done. by repeat split.
Qed.
End fail_closed.

(** ** A concrete gateway with a failed runtime *)

Module ConcreteFailure.
Import Concrete ConcreteRmcp ConcreteCpex ConcretePrompts ConcreteTools.
Import ConcreteHandlers.

Definition failed : PluginEnv Z Z := {|
  backend_env := 0%Z; runtime_state := Failed "runtime plugin config is missing";
  GatewayPlugins.world := ConcreteCpex.world; tool_states _ := None; next_state := 0 |}.
Definition failed_start : GState (E := PluginEnv Z Z) :=
  {| env := failed; in_flight_calls := ∅; trace := [] |}.
Definition reload_failed : ErrorData := error INTERNAL_ERROR "Runtime plugin reload failed".
#[local] Instance handler_hooks : PluginHooks (PluginEnv Z Z) := runtime_hooks.
#[local] Instance handler_backends : Backends (PluginEnv Z Z) := awaited_backends (λ x, x).

Lemma fail_closed_witness :
  rejected reload_failed "forecast" failed_start
    (call_tool (λ _, "header mismatch") svc tool_request cx failed_start).
Proof.
  destruct (fail_closed (λ x, x) (λ _, "header mismatch") cx failed_start svc reload_failed eq_refl)
    as [Htool _].
  apply (Htool tool_request (route "forecast") ConcreteHandlers.backend); vm_compute; reflexivity.
Defined.
End ConcreteFailure.
