(* ===== verification/ReloadIsolation.v ===== *)
(** * Reloads during a call

    A call pins the runtime that its pre hook loaded ([CallState] in [runtime.rs]).
    Here the handlers run twice, once alone and once with the runtime replaced at
    any of their awaits, and the two runs are related: a small relational logic on
    the handlers' computations, with a rule per construct. *)

From S2P Require Import Prelude HttpTypes Apis McpStandardHeaders Rmcp Cmf.
From S2P Require Import UpstreamHeaders Authorization Layers Gateway EndToEnd.
From S2P Require Import CpexRuntime CpexPrompts CpexResources CpexTools CpexRegistry GatewayPlugins.

(** ** A world in which others run after every action *)

Section among.
Context `{!RmcpTypes} {E : Type} `{!Backends E, !PluginHooks E} (others : E → E).

Definition then_others {A} (f : E → A * E) (x : E) : A * E :=
  let '(a, x) := f x in (a, others x).
Definition backends_among : Backends E := {|
  be_connect name request := then_others (be_connect name request);
  be_send request := then_others (be_send request);
  be_wait token := then_others (be_wait token);
  be_cancel token reason := then_others (be_cancel token reason);
  be_get_prompt request := then_others (be_get_prompt request);
  be_read_resource request := then_others (be_read_resource request);
  be_complete request := then_others (be_complete request);
  be_close := then_others be_close |}.
Definition hooks_among : PluginHooks E := {|
  HookState := HookState;
  HookResource := HookResource;
  hook_before_tool request target bname := then_others (hook_before_tool request target bname);
  hook_after_tool state response := then_others (hook_after_tool state response);
  hook_before_prompt request target bname := then_others (hook_before_prompt request target bname);
  hook_after_prompt state response := then_others (hook_after_prompt state response);
  hook_before_resource uri := then_others (hook_before_resource uri);
  hook_rewritten_uri := hook_rewritten_uri;
  hook_after_resource hook response := then_others (hook_after_resource hook response) |}.
End among.

(** ** Two runs side by side *)

Section agree.
Context `{!RmcpTypes} {E : Type}.
Implicit Types (R : relation E) (g : GState (E := E)).

(** The same calls in flight and the same actions, in related worlds. *)
Record related R g1 g2 : Prop := {
  related_env : R (env g1) (env g2);
  related_calls : in_flight_calls g1 = in_flight_calls g2;
  related_trace : trace g1 = trace g2;
}.
(** From related states both computations end alike, with the same result. *)
Definition agree R R' {A} (m1 m2 : G (E := E) A) : Prop :=
  ∀ g1 g2, related R g1 g2 → (m1 g1).1 = (m2 g2).1 ∧ related R' (m1 g1).2 (m2 g2).2.
(** The same for one action on the world. *)
Definition alike R R' {A} (f1 f2 : E → A * E) : Prop :=
  ∀ x1 x2, R x1 x2 → (f1 x1).1 = (f2 x2).1 ∧ R' (f1 x1).2 (f2 x2).2.

Lemma agree_lift R {A} (r : result ErrorData A) : agree R R (lift r) (lift r).
Proof. by intros g1 g2 Hg. Qed.
Lemma agree_mret R {A} (a : A) : agree R R (mret a) (mret a).
Proof. by intros g1 g2 Hg. Qed.
Lemma agree_act R R' {A} event (f1 f2 : E → A * E) :
  alike R R' f1 f2 → agree R R' (act event f1) (act event f2).
Proof.
  intros Hf g1 g2 [He Hc Ht]. specialize (Hf _ _ He). unfold act.
  destruct (f1 (env g1)) as [a1 x1], (f2 (env g2)) as [a2 x2]; cbn in *.
  destruct Hf as [-> Hx]. split; [done|]. split; cbn; congruence.
Qed.
Lemma agree_track R token downstream : agree R R (track token downstream) (track token downstream).
Proof. intros g1 g2 [He Hc Ht]. split; [done|]. split; cbn; congruence. Qed.
Lemma agree_untrack R token : agree R R (untrack token) (untrack token).
Proof. intros g1 g2 [He Hc Ht]. split; [done|]. split; cbn; congruence. Qed.

(** When the first computation fails, the world is as the second leaves it. *)
Lemma agree_bind R R1 R' {A B} (m1 m2 : G (E := E) A) (k1 k2 : A → G (E := E) B) :
  (∀ x y, R1 x y → R' x y) →
  agree R R1 m1 m2 → (∀ a, agree R1 R' (k1 a) (k2 a)) → agree R R' (m1 ≫= k1) (m2 ≫= k2).
Proof.
  intros Hsub Hm Hk g1 g2 Hg. specialize (Hm _ _ Hg). unfold mbind, G_bind.
  destruct (m1 g1) as [r1 h1], (m2 g2) as [r2 h2]; cbn in Hm. destruct Hm as [<- Hh].
  destruct r1 as [a|e]; [by apply Hk|]. split; [done|]. destruct Hh as [He Hc Ht].
  split; [by apply Hsub|done..].
Qed.
End agree.

Section rules.
Context `{!RmcpTypes} {E : Type}.
Implicit Types (R : relation E).

Lemma agree_weaken R R1 R' {A} (m1 m2 : G (E := E) A) :
  (∀ x y, R1 x y → R' x y) → agree R R1 m1 m2 → agree R R' m1 m2.
Proof. intros Hsub Hm g1 g2 Hg. destruct (Hm _ _ Hg) as [? []]. split; [done|]. split; auto. Qed.

(** A check first: what follows may rely on its success. *)
Lemma agree_check R R' {A B} (r : result ErrorData A) (k1 k2 : A → G (E := E) B) :
  (∀ x y, R x y → R' x y) →
  (∀ a, agree R R' (k1 a) (k2 a)) → agree R R' (lift r ≫= k1) (lift r ≫= k2).
Proof. intros Hsub Hk. by apply (agree_bind R R); [|apply agree_lift|]. Qed.
(** An action whose result is the computation's. *)
Lemma agree_act_lift R R' {A} event (f1 f2 : E → result ErrorData A * E) :
  alike R R' f1 f2 → agree R R' (r ← act event f1; lift r) (r ← act event f2; lift r).
Proof.
  intros Hf. apply (agree_bind R R' R'); [done|by apply agree_act|]. intros a. apply agree_lift.
Qed.

Context (others : E → E) (R : relation E).

Lemma alike_others {A} (f : E → A * E) :
  (∀ x y, R x y → R (others x) y) → alike R R f f → alike R R (then_others others f) f.
Proof.
  intros Ho Hf x1 x2 Hx. destruct (Hf _ _ Hx) as [Ha Hy]. unfold then_others.
  destruct (f x1) as [a1 y1]. cbn in *. auto.
Qed.
(** From the same world, whatever the action reads. *)
Lemma alike_first {A} (f : E → A * E) :
  (∀ x, R (others x) x) → alike eq R (then_others others f) f.
Proof. intros Ho x ? <-. unfold then_others. destruct (f x) as [a y]. split; [done|apply Ho]. Qed.
End rules.

(** ** The handlers *)

Section handlers.
Context `{!RmcpHeaders, !HttpLib, !Base64, !SerdeFloat, !UrlParts, !TraceContext}.
Context `{!HashIter, !RmcpTypes, !ProtocolVersions} {E : Type}.
Context {alone_backends : Backends E} {alone_hooks : PluginHooks E}.
Context (header_error_text : HeaderError → string) (others : E → E) (R : relation E).

(** What the others do is invisible through [R] to the backends and to post hooks;
    nothing is asked of pre hooks. *)
Record invisible : Prop := {
  others_refl x : R (others x) x;
  others_keep x y : R x y → R (others x) y;
  like_connect name request : alike R R (be_connect name request) (be_connect name request);
  like_send request : alike R R (be_send request) (be_send request);
  like_wait token : alike R R (be_wait token) (be_wait token);
  like_cancel token reason : alike R R (be_cancel token reason) (be_cancel token reason);
  like_get_prompt request : alike R R (be_get_prompt request) (be_get_prompt request);
  like_read_resource request : alike R R (be_read_resource request) (be_read_resource request);
  like_complete request : alike R R (be_complete request) (be_complete request);
  like_close : alike R R be_close be_close;
  like_after_tool state response :
    alike R R (hook_after_tool state response) (hook_after_tool state response);
  like_after_prompt state response :
    alike R R (hook_after_prompt state response) (hook_after_prompt state response);
  like_after_resource hook response :
    alike R R (hook_after_resource hook response) (hook_after_resource hook response);
}.
Context (Hinvisible : invisible) (Hrefl : ∀ x, R x x).

Definition during_backends : Backends E := backends_among others.
Definition during_hooks : PluginHooks E := hooks_among others.

Create HintDb agree.
Hint Resolve others_keep others_refl like_connect like_send like_wait like_cancel like_get_prompt
  like_read_resource like_complete like_close like_after_tool like_after_prompt
  like_after_resource : agree.
Hint Resolve agree_lift agree_mret agree_track agree_untrack agree_act agree_act_lift : agree.
Hint Extern 1 (alike R R _ _) => apply alike_others : agree.
Hint Extern 1 (alike eq R _ _) => apply alike_first : agree.
Ltac agree :=
  cbv zeta; repeat match goal with
         | |- agree _ _ (match ?x with _ => _ end) _ => destruct x
         | |- agree _ _ (_ ≫= _) (_ ≫= _) => eapply (agree_bind R R R); [done| |intros ?]
         end; eauto with agree.

Lemma connect_agree bname backend cx :
  agree R R
    (connect_backend_for_request (Backends0 := during_backends) bname backend cx)
    (connect_backend_for_request (Backends0 := alone_backends) bname backend cx).
Proof. unfold connect_backend_for_request. agree. Qed.

Lemma close_agree :
  agree R R (close_backend (Backends0 := during_backends))
            (close_backend (Backends0 := alone_backends)).
Proof. unfold close_backend. agree. Qed.
Lemma start_agree request token :
  agree R R (start_tool_call (Backends0 := during_backends) request token)
            (start_tool_call (Backends0 := alone_backends) request token).
Proof. unfold start_tool_call. agree. Qed.
Lemma call_backend_agree token :
  agree R R (call_backend_tool (Backends0 := during_backends) token)
            (call_backend_tool (Backends0 := alone_backends) token).
Proof.
  intros g1 g2 [He Hc Ht].
  destruct (alike_others others R (be_wait token) (others_keep Hinvisible)
              (like_wait Hinvisible token) _ _ He) as [Ha Hx].
  unfold call_backend_tool, during_backends, backends_among; cbn [be_wait].
  destruct (then_others others (be_wait token) (env g1)) as [waited x1],
    (be_wait token (env g2)) as [waited2 x2]; cbn in Ha, Hx. subst waited2.
  destruct waited as [response|].
  - split; [done|]. by split.
  - enough (agree R R
      (_ ← act (ECancel CANCEL_REASON) (be_cancel (Backends := during_backends) token CANCEL_REASON);
       mret (Err (Cancelled (Some CANCEL_REASON)) : result ServiceError CallToolResult))
      (_ ← act (ECancel CANCEL_REASON) (be_cancel token CANCEL_REASON);
       mret (Err (Cancelled (Some CANCEL_REASON))))) as Hcancel by (by apply Hcancel).
    agree.
Qed.
Hint Resolve connect_agree close_agree start_agree call_backend_agree : agree.

(** Before the pre hook both runs are in the same world. *)
Lemma same_world x y : x = y → R x y.
Proof. intros ->. apply Hrefl. Qed.
Lemma agree_first {A B} (m1 m2 : G (E := E) A) (k1 k2 : A → G (E := E) B) :
  agree eq R m1 m2 → (∀ a, agree R R (k1 a) (k2 a)) → agree eq R (m1 ≫= k1) (m2 ≫= k2).
Proof. by apply agree_bind. Qed.
Lemma agree_pre {A} event (f : E → result ErrorData A * E) :
  agree eq R (r ← act event (then_others others f); lift r) (r ← act event f; lift r).
Proof. apply agree_act_lift, alike_first, Hinvisible. Qed.
Lemma agree_absent {A} (a : A) : agree eq R (mret a : G (E := E) A) (mret a).
Proof. apply (agree_weaken eq eq R), agree_mret. apply same_world. Qed.

(** The two runs' hook states are of one type. *)
Ltac same_states :=
  change (@HookState E _ during_hooks) with (@HookState E _ alone_hooks);
  change (@HookResource E _ during_hooks) with (@HookResource E _ alone_hooks);
  change (@hook_rewritten_uri E _ during_hooks) with (@hook_rewritten_uri E _ alone_hooks).
Ltac checks := repeat (apply agree_check; [apply same_world|intros ?]).

Lemma call_tool_agree svc request cx :
  agree eq R
    (call_tool (Backends0 := during_backends) (PluginHooks0 := during_hooks)
       header_error_text svc request cx)
    (call_tool (Backends0 := alone_backends) (PluginHooks0 := alone_hooks)
       header_error_text svc request cx).
Proof.
  unfold call_tool, validate_call. checks. destruct a0 as [route backend].
  apply agree_first; [destruct (plugin_runtime svc); [apply agree_pre|apply agree_absent]|].
  same_states. intros pre. agree.
Qed.
Lemma get_prompt_agree svc request cx :
  agree eq R
    (get_prompt (Backends0 := during_backends) (PluginHooks0 := during_hooks) svc request cx)
    (get_prompt (Backends0 := alone_backends) (PluginHooks0 := alone_hooks) svc request cx).
Proof.
  unfold get_prompt, validate_call. checks.
  apply agree_first; [destruct (plugin_runtime svc); [apply agree_pre|apply agree_absent]|].
  same_states. intros pre. agree.
Qed.
Lemma read_resource_agree svc request cx :
  agree eq R
    (read_resource (Backends0 := during_backends) (PluginHooks0 := during_hooks) svc request cx)
    (read_resource (Backends0 := alone_backends) (PluginHooks0 := alone_hooks) svc request cx).
Proof.
  unfold read_resource, validate_call. checks.
  apply agree_first.
  - destruct (plugin_runtime svc); [|apply agree_absent]. same_states.
    apply agree_first; [apply agree_act, alike_first, Hinvisible|intros r; agree].
  - same_states. intros hook. agree.
Qed.
Lemma complete_agree request cx :
  agree eq R (complete (Backends0 := during_backends) request cx)
             (complete (Backends0 := alone_backends) request cx).
Proof.
  unfold complete, validate_call. checks. apply (agree_weaken eq R R); [done|].
  intros g1 g2 [He Hc Ht]. eapply agree_bind; [done|apply connect_agree| |by split; [apply same_world|..]].
  intros ?. agree.
Qed.

Lemma agree_mapped {A B} (m1 m2 : G (E := E) A) (f : A → B) :
  agree eq R m1 m2 → agree eq R (a ← m1; mret (f a)) (a ← m2; mret (f a)).
Proof. intros Hm. apply agree_first; [done|intros a; apply agree_mret]. Qed.
Lemma agree_alone {A} (m : G (E := E) A) : agree eq eq m m → agree eq R m m.
Proof. apply agree_weaken, same_world. Qed.

Lemma dispatch_agree svc request cx :
  agree eq R
    (dispatch (Backends0 := during_backends) (PluginHooks0 := during_hooks)
       header_error_text svc request cx)
    (dispatch (Backends0 := alone_backends) (PluginHooks0 := alone_hooks)
       header_error_text svc request cx).
Proof.
  destruct request; cbn [dispatch].
  3: apply agree_mapped, call_tool_agree.
  4: apply agree_mapped, read_resource_agree.
  8: apply agree_mapped, get_prompt_agree.
  8: apply agree_mapped, complete_agree.
  1, 5, 6: apply agree_check; [apply same_world|intros a; apply agree_absent].
  all: apply agree_alone, agree_lift.
Qed.
End handlers.

(** ** Reloads *)

Section reloads.
Context `{!RmcpHeaders, !HttpLib, !Base64, !SerdeFloat, !UrlParts, !TraceContext}.
Context `{!HashIter, !ProtocolVersions}.
Context `{!CmfConstants, !RmcpTypes, !ToolConstructors, !RmcpConstructors, !CmfMessages, !CmfSerde}.
Context `{!SerdeValue CallToolResult}.
Context {P : Type} `{!CpexManager P} {B : Type} `{!Backends B}.
Context (header_error_text : HeaderError → string).

Definition set_runtime_state (st : RuntimeState P) (x : PluginEnv P B) : PluginEnv P B := {|
  backend_env := backend_env x; runtime_state := st; world := world x;
  tool_states := tool_states x; next_state := next_state x |}.
(** Everything but the current runtime is the same. *)
Record pinned (x y : PluginEnv P B) : Prop := {
  pinned_backends : backend_env x = backend_env y;
  pinned_world : world x = world y;
  pinned_states : tool_states x = tool_states y;
  pinned_next : next_state x = next_state y;
}.
#[export] Instance pinned_refl : Reflexive pinned.
Proof. done. Qed.

(** The handlers over the plugin runtime: by themselves, and with reloads at every
    await on a backend or a plugin. *)
Definition alone_backends : Backends (PluginEnv P B) := awaited_backends (λ x, x).
Definition alone_hooks : PluginHooks (PluginEnv P B) := runtime_hooks.
Definition dispatch_alone svc request cx : G (E := PluginEnv P B) McpResult :=
  dispatch (Backends0 := alone_backends) (PluginHooks0 := alone_hooks)
    header_error_text svc request cx.
Definition dispatch_during (reloads : PluginEnv P B → PluginEnv P B) svc request cx
    : G (E := PluginEnv P B) McpResult :=
  dispatch (Backends0 := backends_among (Backends0 := alone_backends) reloads)
    (PluginHooks0 := hooks_among (PluginHooks0 := alone_hooks) reloads)
    header_error_text svc request cx.

Lemma pinned_ask {A} (f : B → A * B) :
  alike pinned pinned (awaiting (λ x, x) f) (awaiting (λ x, x) f).
Proof.
  intros x y [Hb Hw Hs Hn]. unfold awaiting. rewrite Hb. destruct (f (backend_env y)) as [a b].
  by repeat split.
Qed.
Lemma pinned_world_only {A} (f : World P → A * World P) :
  alike pinned pinned (λ x, let '(a, w) := f (world x) in (a, set_world w x))
    (λ x, let '(a, w) := f (world x) in (a, set_world w x)).
Proof.
  intros x y [Hb Hw Hs Hn]. rewrite Hw. destruct (f (world y)) as [a w]. by repeat split.
Qed.

Lemma reloads_not_visible (reloads : PluginEnv P B → PluginEnv P B) :
  (∀ x, ∃ st, reloads x = set_runtime_state st x) →
  invisible (alone_backends := alone_backends) (alone_hooks := alone_hooks) reloads pinned.
Proof.
  intros Hreloads. split; try (intros; apply pinned_ask).
  - intros x. destruct (Hreloads x) as [st ->]. done.
  - intros x y [Hb Hw Hs Hn]. destruct (Hreloads x) as [st ->]. done.
  - intros [address|state] response x y [Hb Hw Hs Hn]; [|by repeat split].
    cbn. rewrite Hs, Hw. destruct (tool_states y address) as [state|]; [|by repeat split].
    destruct (after_tool_call _ _ _) as [[r state'] w]. unfold store. cbn.
    by rewrite Hs; repeat split.
  - intros [address|state] response x y Hxy; [by destruct Hxy; repeat split|]. revert x y Hxy.
    assert (alike pinned pinned
      (λ x, let '(r, _, w) := after state response (world x) in (r, set_world w x))
      (λ x, let '(r, _, w) := after state response (world x) in (r, set_world w x))) as Ha.
    { intros x y [Hb Hw Hs Hn]. rewrite Hw. destruct (after _ _ _) as [[r s] w]. by repeat split. }
    exact Ha.
  - intros hook response. exact (pinned_world_only (after_read_resource hook response)).
Qed.

(** C16: a call never notices a reload.  Whatever MCP call a handler serves, and
    whichever runtimes (or failed states) reloads install while it awaits its plugins
    and its backend, it gives the same result, asks the plugins and the backend the
    same things in the same order, and leaves backends, plugins and hook states as
    it does when nothing is reloaded: both its hooks run on the runtime that was
    current when it began. *)
Theorem reload_invisible (reloads : PluginEnv P B → PluginEnv P B) svc request cx
    (g : GState (E := PluginEnv P B))
    (Hreloads : ∀ x, ∃ st, reloads x = set_runtime_state st x) :
  let alone := dispatch_alone svc request cx g in
  let during := dispatch_during reloads svc request cx g in
  during.1 = alone.1 ∧ trace during.2 = trace alone.2 ∧
  in_flight_calls during.2 = in_flight_calls alone.2 ∧ pinned (env during.2) (env alone.2).
Proof.
  destruct (dispatch_agree (alone_backends := alone_backends) (alone_hooks := alone_hooks)
    header_error_text reloads pinned (reloads_not_visible _ Hreloads) pinned_refl
    svc request cx g g) as [Hr [He Hc Ht]]; [by split|].
  cbv zeta. split_and!; [exact Hr|exact Ht|exact Hc|exact He].
Qed.
End reloads.

(** ** A concrete reload

    A runtime with both tool hooks; while the call runs, a reload fails, so that the
    next call would be refused. *)

Module ConcreteReload.
Import Concrete ConcreteRmcp ConcreteCpex ConcretePrompts ConcreteTools ConcreteHandlers.
Definition active : PluginEnv Z Z := {|
  backend_env := 0%Z; runtime_state := Active example_runtime;
  GatewayPlugins.world := ConcreteCpex.world; tool_states _ := None; next_state := 0 |}.
Definition active_start : GState (E := PluginEnv Z Z) :=
  {| env := active; in_flight_calls := ∅; trace := [] |}.
Definition fails : PluginEnv Z Z → PluginEnv Z Z := set_runtime_state (Failed "no document").
Definition during : result ErrorData McpResult * GState (E := PluginEnv Z Z) :=
  dispatch_during (λ _, "header mismatch") fails svc (CallTool tool_request) cx active_start.
End ConcreteReload.

Import Concrete ConcreteRmcp ConcreteCpex ConcretePrompts ConcreteTools ConcreteHandlers.
Import ConcreteReload.

Lemma reload_invisible_witness :
  during.1 = Ok (RCallTool (result_of "sunny")) ∧ length (trace during.2) = 6%nat ∧
  plugin_state (GatewayPlugins.world (env during.2)) = 2%Z ∧
  runtime_state (env during.2) = Failed "no document".
Proof.
  destruct (reload_invisible (λ _, "header mismatch") fails svc (CallTool tool_request) cx
    active_start) as (Hr & Ht & _ & [_ Hw _ _]); [by eexists|].
  split_and!.
  - refine (eq_trans Hr _). vm_compute. reflexivity.
  - refine (eq_trans (f_equal length Ht) _). vm_compute. reflexivity.
  - refine (eq_trans (f_equal plugin_state Hw) _). vm_compute. reflexivity.
  - vm_compute. reflexivity.
Defined.
