(* ===== verification/SecretsConfig.v ===== *)
(** * Configuration of the secrets plugin ([cpex-secrets-detection]: [config.rs])

    Which patterns run, which JSON fields are scanned, and when findings block.
    [RawFormat] is serde's decoding of the raw configuration. *)

From S2P Require Import Prelude Text.

(** ** The pattern table ([patterns.rs])

    The names of the table; [SecretsPatterns] has the regular expressions.  The
    order in which the hash map yields them is a parameter. *)
Definition PATTERN_NAMES : list string :=
  ["aws_access_key_id"; "aws_secret_access_key"; "google_api_key"; "github_token";
   "stripe_secret_key"; "generic_api_key_assignment"; "slack_token"; "private_key_block";
   "jwt_like"; "hex_secret_32"; "base64_24"].
Definition CAPTURE_PATTERNS : list string := ["base64_24"].
Definition BROAD_PATTERNS : list string :=
  ["generic_api_key_assignment"; "jwt_like"; "hex_secret_32"; "base64_24"].

(** ** Data *)

Record FieldPath : Type := { segments : list string }.
#[export] Instance FieldPath_eq_dec : EqDecision FieldPath.
Proof. solve_decision. Defined.

Record SecretsDetectionConfig : Type := {
  enabled : gmap string bool;
  redact : bool;
  redaction_text : string;
  block_on_detection : bool;
  min_findings_to_block : Z;
  field_allowlist : list FieldPath;
  field_denylist : list FieldPath;
}.

(** The messages of a [ConfigError], with the texts they quote. *)
Inductive ConfigError : Type :=
| BlankEntry (field_name : string)
| DotAtEdge (field_name path : string)
| BlankSegment (field_name path : string)
| NotAList (field_name : string)
| InvalidConfig (err : string).

Record RawSecretsDetectionConfig : Type := {
  raw_enabled : option (gmap string bool);
  raw_redact : option bool;
  raw_redaction_text : option string;
  raw_block_on_detection : option bool;
  raw_min_findings_to_block : option Z;
  raw_field_allowlist : option Value;
  raw_field_denylist : option Value;
}.
Definition raw_default : RawSecretsDetectionConfig :=
  {| raw_enabled := None; raw_redact := None; raw_redaction_text := None;
     raw_block_on_detection := None; raw_min_findings_to_block := None;
     raw_field_allowlist := None; raw_field_denylist := None |}.
Class RawFormat := { raw_of_value : Value → result string RawSecretsDetectionConfig }.

(** ** Field paths *)

Definition FieldPath_parse (path field_name : string) : result ConfigError FieldPath :=
  if is_blank path then Err (BlankEntry field_name) else
  if starts_with "." path || ends_with "." path then Err (DotAtEdge field_name path) else
  let segments := split (char_is ".") path in
  if existsb is_blank segments then Err (BlankSegment field_name path)
  else Ok {| segments := segments |}.

(** [path.len() >= prefix.len()] and the zipped segments agree. *)
Definition path_starts_with (path prefix : list string) : bool :=
  Nat.leb (length prefix) (length path) &&
  forallb (λ lr, String.eqb lr.1 lr.2) (zip path prefix).

Definition matches_path_or_descendant (self : FieldPath) (path : list string) : bool :=
  path_starts_with path (segments self).
Definition can_be_reached_from (self : FieldPath) (path : list string) : bool :=
  path_starts_with (segments self) path.

Definition parse_field_paths (value : option Value) (field_name : string)
    : result ConfigError (list FieldPath) :=
  match value with
  | None => Ok []
  | Some value =>
      entries ← ok_or (as_array value) (NotAList field_name);
      foldM (λ paths entry,
        path ← ok_or (as_str entry) (NotAList field_name);
        parsed ← FieldPath_parse path field_name;
        Ok (paths ++ [parsed])) entries []
  end.

(** ** The configuration *)

Definition default_enabled_map : gmap string bool :=
  list_to_map (map (λ name, (name, bool_decide (name ∉ BROAD_PATTERNS))) PATTERN_NAMES).

(** [extend]: the overrides win. *)
Definition merge_enabled_map (overrides : gmap string bool) : gmap string bool :=
  overrides ∪ default_enabled_map.

Definition REDACTED : string := "***REDACTED***".

Definition SecretsDetectionConfig_default : SecretsDetectionConfig := {|
  enabled := default_enabled_map; redact := false; redaction_text := REDACTED;
  block_on_detection := true; min_findings_to_block := 1;
  field_allowlist := []; field_denylist := [] |}.

Definition raw_config `{!RawFormat} (value : option Value)
    : result ConfigError RawSecretsDetectionConfig :=
  match value with
  | Some JNull | None => Ok raw_default
  | Some value => map_err InvalidConfig (raw_of_value value)
  end.

Definition from_value `{!RawFormat} (value : option Value)
    : result ConfigError SecretsDetectionConfig :=
  raw ← raw_config value;
  allow ← parse_field_paths (raw_field_allowlist raw) "field_allowlist";
  deny ← parse_field_paths (raw_field_denylist raw) "field_denylist";
  Ok {| enabled := match raw_enabled raw with
                   | None => default_enabled_map | Some o => merge_enabled_map o end;
        redact := default false (raw_redact raw);
        redaction_text := default REDACTED (raw_redaction_text raw);
        block_on_detection := default true (raw_block_on_detection raw);
        min_findings_to_block := default 1%Z (raw_min_findings_to_block raw);
        field_allowlist := allow;
        field_denylist := deny |}.

Section decisions.
Context (self : SecretsDetectionConfig).

Definition is_enabled (name : string) : bool := default false (enabled self !! name).

Definition path_is_denied (path : list string) : bool :=
  existsb (λ deny, matches_path_or_descendant deny path) (field_denylist self).

Definition should_scan_field_path (path : list string) (direct_scalar_root : bool) : bool :=
  if direct_scalar_root && bool_decide (path = []) then true else
  if path_is_denied path then false else
  bool_decide (field_allowlist self = []) ||
  existsb (λ allow, matches_path_or_descendant allow path) (field_allowlist self).

Definition should_traverse_field_path (path : list string) : bool :=
  if bool_decide (path = []) then true else
  if path_is_denied path then false else
  bool_decide (field_allowlist self = []) ||
  existsb (λ allow, matches_path_or_descendant allow path || can_be_reached_from allow path)
    (field_allowlist self).
End decisions.

(** ** Lemmas *)

Lemma path_starts_with_prefix path prefix :
  path_starts_with path prefix = true ↔ prefix `prefix_of` path.
Proof.
  unfold path_starts_with. revert path.
  induction prefix as [|p prefix IH]; intros path; simpl.
  - split; [intros _; apply prefix_nil|]. by destruct path.
  - destruct path as [|x path]; simpl.
    + split; [done|]. by intros ?%prefix_nil_inv.
    + specialize (IH path). rewrite !andb_true_iff in *. rewrite String.eqb_eq. split.
      * intros (? & -> & ?). apply prefix_cons, IH. auto.
      * intros H. pose proof (prefix_cons_inv_1 _ _ _ _ H) as ->.
        apply prefix_cons_inv_2 in H. naive_solver.
Qed.

Lemma is_blank_no_dot s : is_blank s = true → str_any (char_is ".") s = false.
Proof. apply is_blank_not_any. by intros c <-%Ascii.eqb_eq. Qed.

Lemma existsb_forall {A} (f : A → bool) l :
  existsb f l = false ↔ Forall (λ x, f x = false) l.
Proof.
  induction l as [|x l IH]; simpl; [by split|]. by rewrite Forall_cons, orb_false_iff, IH.
Qed.

(** The pieces of a path that starts or ends with a dot include an empty one. *)
Lemma edge_dot_blank path : starts_with "." path || ends_with "." path = true →
  existsb is_blank (split (char_is ".") path) = true.
Proof.
  rewrite orb_true_iff, starts_with_true, ends_with_true.
  intros [[q ->]|[q ->]]; [done|].
  rewrite split_sep by done. rewrite existsb_app. simpl. by rewrite orb_true_r.
Qed.

(** ** Theorems *)

(** A field path parses exactly when it is the dotted join of at least one
    segment, none of them blank or itself dotted, and then to those segments. *)
Theorem field_path_parse_spec path field_name parsed :
  FieldPath_parse path field_name = Ok parsed ↔
  segments parsed ≠ [] ∧
  Forall (λ s, is_blank s = false ∧ str_any (char_is ".") s = false) (segments parsed) ∧
  path = join "." (segments parsed).
Proof.
  unfold FieldPath_parse. split.
  - destruct (is_blank path); [done|]. destruct (_ || _); [done|].
    destruct (existsb _ _) eqn:E; [done|]. intros [= <-]; simpl.
    split_and!; [apply split_not_nil| |by rewrite join_split].
    apply Forall_and. split; [by apply existsb_forall|apply split_pieces].
  - destruct parsed as [segs]; simpl. intros (Hne & [Hb Hd]%Forall_and & ->).
    pose proof (split_join "." segs Hne Hd) as Hs.
    apply existsb_forall in Hb. rewrite <-Hs in Hb.
    destruct (is_blank (join "." segs)) eqn:Hblank.
    + pose proof (split_none _ _ (is_blank_no_dot _ Hblank)) as Hone.
      rewrite Hone in Hb. simpl in Hb. by rewrite Hblank in Hb.
    + destruct (_ || _) eqn:He; [apply edge_dot_blank in He; congruence|].
      rewrite Hb, Hs. done.
Qed.

(** Scanning a leaf needs every object above it to be traversed: the
    traversal test never hides a field the scan test would accept. *)
Lemma scan_implies_traverse self path prefix root :
  prefix `prefix_of` path → should_scan_field_path self path root = true →
  should_traverse_field_path self prefix = true.
Proof.
  unfold should_scan_field_path, should_traverse_field_path. intros Hp.
  destruct (bool_decide (prefix = [])) eqn:Hnil; [done|].
  apply bool_decide_eq_false in Hnil.
  destruct (root && _) eqn:Hroot.
  { apply andb_true_iff in Hroot as [_ ->%bool_decide_eq_true]. by apply prefix_nil_inv in Hp. }
  destruct (path_is_denied self path) eqn:Hd; [done|].
  assert (path_is_denied self prefix = false) as ->.
  { unfold path_is_denied in *. apply existsb_forall in Hd. apply existsb_forall.
    eapply Forall_impl; [exact Hd|]. cbn. intros d Hd'. apply not_true_iff_false in Hd'. apply not_true_iff_false.
    unfold matches_path_or_descendant in *. rewrite path_starts_with_prefix in *.
    intros ?. apply Hd'. by etrans. }
  rewrite !orb_true_iff, !existsb_exists. intros [?|(a & Ha & Hm)]; [by left|right].
  exists a. split; [done|]. rewrite orb_true_iff.
  unfold matches_path_or_descendant, can_be_reached_from in *.
  rewrite !path_starts_with_prefix in *.
  destruct (prefix_weak_total (segments a) prefix path Hm Hp); auto.
Qed.

(** An entry of the deny list wins over every entry of the allow list. *)
Lemma denied_never_scanned self path :
  path ≠ [] → path_is_denied self path = true → ∀ root, should_scan_field_path self path root = false.
Proof.
  intros Hne Hd root. unfold should_scan_field_path.
  by rewrite (bool_decide_eq_false_2 _ Hne), andb_false_r, Hd.
Qed.
