(* ===== verification/SecretsScanner.v ===== *)
(** * The secrets scanner ([cpex-secrets-detection]: [scanner.rs])

    [detect_and_redact] collects the matches of every enabled pattern, sorts
    and merges them and redacts the merged spans; [scan_json_value] walks a
    JSON value.  Offsets are byte offsets into UTF-8 text; taking a slice off
    the text or off a character boundary panics, which is [None].

    The regex engine is a parameter ([Regexes], which [SecretsDetection] binds to
    the expressions of the table), and so is the order in which
    the hash map of patterns is iterated. *)

From S2P Require Import Prelude SecretsConfig.
From stdpp Require Import sorting.

(** ** Text slices *)

Definition is_char_boundary (text : string) (i : nat) : bool :=
  match i with
  | O => true
  | _ => match String.get i text with
         | Some c => negb (is_continuation c)
         | None => Nat.eqb i (String.length text)
         end
  end.
Definition slice_ok (text : string) (s e : nat) : bool :=
  Nat.leb s e && Nat.leb e (String.length text) && is_char_boundary text s && is_char_boundary text e.
(** [&text[s..e]] and [&text[s..]] *)
Definition slice (text : string) (s e : nat) : option string :=
  if slice_ok text s e then Some (str_take (e - s) (str_drop s text)) else None.
Definition slice_from (text : string) (s : nat) : option string :=
  slice text s (String.length text).

(** [chars().count()] and [chars().take(n)] *)
Fixpoint char_count (s : string) : nat :=
  match s with
  | EmptyString => 0
  | String c s => if is_continuation c then char_count s else S (char_count s)
  end.
Fixpoint take_chars (n : nat) (s : string) : string :=
  match s with
  | EmptyString => EmptyString
  | String c s =>
      if is_continuation c then String c (take_chars n s)
      else match n with O => EmptyString | S n => String c (take_chars n s) end
  end.

(** ** The regex engine

    [find_iter name text] is the spans of the matches of the pattern [name],
    [captures_iter] those of their first capture group. *)
Class Regexes := {
  find_iter : string → string → list (nat * nat);
  captures_iter : string → string → list (option (nat * nat));
}.
(** Spans lie on character boundaries of the text. *)
Class RegexLaws `{Regexes} : Prop := {
  find_iter_span name text s e : (s, e) ∈ find_iter name text → slice_ok text s e = true;
  captures_iter_span name text s e :
    Some (s, e) ∈ captures_iter name text → slice_ok text s e = true;
}.

(** ** Data *)

Record Finding : Type := { pii_type : string; preview : string }.
Record ScanReport : Type := { count : nat; redacted : Value; findings : list Finding }.
Record MatchCandidate : Type := {
  name : string;
  start : nat;
  end_ : nat;
  text_of : string;
}.

Definition pattern_specificity (name : string) : nat :=
  if String.eqb name "generic_api_key_assignment" || String.eqb name "jwt_like" then 1
  else if String.eqb name "hex_secret_32" then 2
  else if String.eqb name "base64_24" then 3
  else 0.

Definition is_base64_boundary_char (ch : option ascii) : bool :=
  match ch with
  | Some ch => is_ascii_alphanumeric ch || Ascii.eqb ch "+" || Ascii.eqb ch "/" || Ascii.eqb ch "="
  | None => false
  end.

(** ** Sorting and merging *)

(** [Ordering::then_with] *)
Definition then_with (c : comparison) (d : comparison) : comparison :=
  match c with Eq => d | c => c end.

Definition candidate_cmp (left right : MatchCandidate) : comparison :=
  then_with (Nat.compare (start left) (start right))
  (then_with (Nat.compare (pattern_specificity (name left)) (pattern_specificity (name right)))
  (then_with (Nat.compare (end_ right - start right) (end_ left - start left))
    (String.compare (name left) (name right)))).
Definition candidate_le (left right : MatchCandidate) : Prop := candidate_cmp left right ≠ Gt.
#[export] Instance candidate_le_dec : RelDecision candidate_le.
Proof. unfold candidate_le. solve_decision. Defined.

(** [sort_by]: stable, so it sorts by this relation. *)
Definition sort_candidates (l : list MatchCandidate) : list MatchCandidate :=
  merge_sort candidate_le l.

(** The update of [current], the last selected span, by an overlapping candidate. *)
Definition merge_into (current candidate : MatchCandidate) : MatchCandidate :=
  let candidate_specificity := pattern_specificity (name candidate) in
  let current_specificity := pattern_specificity (name current) in
  let candidate_len := end_ candidate - start candidate in
  let current_len := end_ current - start current in
  let takes := Nat.ltb candidate_specificity current_specificity
    || (Nat.eqb candidate_specificity current_specificity && Nat.ltb current_len candidate_len) in
  {| name := if takes then name candidate else name current;
     start := start current;
     end_ := if Nat.ltb (end_ current) (end_ candidate) then end_ candidate else end_ current;
     text_of := if takes then text_of candidate else text_of current |}.

(** One turn of the selection loop; the list is the vector, last element first. *)
Definition select_step (selected : list MatchCandidate) (candidate : MatchCandidate)
    : list MatchCandidate :=
  match selected with
  | [] => [candidate]
  | current :: rest =>
      if Nat.leb (end_ current) (start candidate) then candidate :: selected
      else merge_into current candidate :: rest
  end.
Definition select (candidates : list MatchCandidate) : list MatchCandidate :=
  reverse (foldl select_step [] candidates).

Definition finding_of (matched : MatchCandidate) : Finding :=
  {| pii_type := name matched;
     preview := if Nat.ltb 8 (char_count (text_of matched))
                then take_chars 8 (text_of matched) +:+ "..." else text_of matched |}.

(** The redaction loop from [cursor] on. *)
Fixpoint redact_spans (text redaction_text : string) (cursor : nat)
    (selected : list MatchCandidate) : option string :=
  match selected with
  | [] => slice_from text cursor
  | matched :: selected =>
      kept ← slice text cursor (start matched);
      rest ← redact_spans text redaction_text (end_ matched) selected;
      Some (kept +:+ redaction_text +:+ rest)
  end.

Section scanner.
Context `{!Regexes} (order : list string) (config : SecretsDetectionConfig).

(** The candidate of one match; a capture is skipped when its group did not
    take part or when a base64 character follows it. *)
Definition candidate_at (name text : string) (s e : nat) : option MatchCandidate :=
  matched ← slice text s e;
  Some {| name := name; start := s; end_ := e; text_of := matched |}.
Definition capture_candidate (name text : string) (capture : option (nat * nat))
    : option (list MatchCandidate) :=
  match capture with
  | None => Some []
  | Some (s, e) =>
      after ← slice_from text e;
      if is_base64_boundary_char (str_first after) then Some []
      else candidate ← candidate_at name text s e; Some [candidate]
  end.
Definition pattern_candidates (text name : string) : option (list MatchCandidate) :=
  if negb (is_enabled config name) then Some [] else
  if bool_decide (name ∈ CAPTURE_PATTERNS)
  then @concat MatchCandidate <$> mapM (capture_candidate name text) (captures_iter name text)
  else mapM (λ '(s, e), candidate_at name text s e) (find_iter name text).
Definition candidates (text : string) : option (list MatchCandidate) :=
  @concat MatchCandidate <$> mapM (pattern_candidates text) order.

Definition detect_and_redact (text : string) : option (list Finding * string) :=
  found ← candidates text;
  let selected := select (sort_candidates found) in
  let findings := map finding_of selected in
  redacted ← (if redact config && negb (bool_decide (selected = []))
              then redact_spans text (redaction_text config) 0 selected
              else Some text);
  Some (findings, redacted).

Definition clean_report (value : Value) : ScanReport :=
  {| count := 0; redacted := value; findings := [] |}.

Definition scan_direct_text (text : string) : option ScanReport :=
  '(found, redacted_text) ← detect_and_redact text;
  Some {| count := length found; redacted := JString redacted_text; findings := found |}.

(** The loops over the items of an array and the entries of an object. *)
Definition scan_items (scan : Value → option ScanReport) :=
  fix go (items : list Value) (total : nat) (redacted_items : list Value)
      (found : list Finding) : option ScanReport :=
    match items with
    | [] => Some {| count := total; redacted := JArray redacted_items; findings := found |}
    | item :: items =>
        child ← scan item;
        go items (total + count child) (redacted_items ++ [redacted child])
           (found ++ findings child)
    end.
Definition scan_entries (scan : string → Value → option ScanReport) :=
  fix go (entries : list (string * Value)) (total : nat) (redacted_entries : JsonObject)
      (found : list Finding) : option ScanReport :=
    match entries with
    | [] => Some {| count := total; redacted := JObject redacted_entries; findings := found |}
    | (key, value) :: entries =>
        child ← scan key value;
        go entries (total + count child) (assoc_insert key (redacted child) redacted_entries)
           (found ++ findings child)
    end.

(** [path] is the stack of keys: an entry's value is scanned under its key. *)
Fixpoint scan_json_value_inner (value : Value) (path : list string) (direct_scalar_root : bool)
    : option ScanReport :=
  match value with
  | JString text =>
      if should_scan_field_path config path direct_scalar_root
      then scan_direct_text text
      else Some (clean_report value)
  | JArray items =>
      if negb (should_traverse_field_path config path) then Some (clean_report value) else
      scan_items (λ item, scan_json_value_inner item path false) items 0 [] []
  | JObject entries =>
      if negb (should_traverse_field_path config path) then Some (clean_report value) else
      scan_entries (λ key value, scan_json_value_inner value (path ++ [key]) false) entries 0 [] []
  | _ => Some (clean_report value)
  end.

Definition scan_json_value (value : Value) : option ScanReport :=
  scan_json_value_inner value [] true.
End scanner.

(** ** Slices and matches *)

Lemma slice_ok_spec text s e : slice_ok text s e = true ↔
  s ≤ e ∧ e ≤ String.length text ∧
  is_char_boundary text s = true ∧ is_char_boundary text e = true.
Proof. unfold slice_ok. rewrite !andb_true_iff, !Nat.leb_le. tauto. Qed.
Lemma slice_Some text s e : slice_ok text s e = true →
  slice text s e = Some (str_take (e - s) (str_drop s text)).
Proof. unfold slice. by intros ->. Qed.
Lemma boundary_end text : is_char_boundary text (String.length text) = true.
Proof.
  unfold is_char_boundary. destruct (String.length text) as [|n] eqn:E; [done|].
  replace (String.get (S n) text) with (@None ascii); [by rewrite Nat.eqb_refl|].
  rewrite <-E. clear. induction text; simpl; auto.
Qed.
Lemma slice_ok_from text s e : slice_ok text s e = true →
  slice_ok text e (String.length text) = true.
Proof. rewrite !slice_ok_spec. intuition auto using boundary_end. Qed.

Lemma mapM_total {A B} (f : A → option B) (P : B → Prop) l :
  (∀ x, x ∈ l → ∃ y, f x = Some y ∧ P y) → ∃ ys, mapM f l = Some ys ∧ Forall P ys.
Proof.
  induction l as [|x l IH]; intros H; [by exists []|].
  destruct (H x) as (y & Hy & Py); [left|].
  destruct IH as (ys & Hys & Pys); [intros; apply H; by right|].
  exists (y :: ys). simpl. rewrite Hy. simpl. rewrite Hys. auto.
Qed.

(** What the text of a candidate is. *)
Definition candidate_ok (text : string) (c : MatchCandidate) : Prop :=
  slice_ok text (start c) (end_ c) = true ∧
  slice text (start c) (end_ c) = Some (text_of c).
#[export] Hint Unfold candidate_ok : core.

Section found.
Context `{!Regexes, !RegexLaws} (order : list string) (config : SecretsDetectionConfig).

Definition candidate_of (n text : string) (c : MatchCandidate) : Prop :=
  candidate_ok text c ∧ name c = n ∧ is_enabled config n = true.

Lemma candidate_at_total n text s e : slice_ok text s e = true → is_enabled config n = true →
  ∃ c, candidate_at n text s e = Some c ∧ candidate_of n text c.
Proof.
  intros Hok Hn. unfold candidate_at. rewrite (slice_Some _ _ _ Hok); simpl.
  eexists. split; [done|]. split; [|done]. split; simpl; [done|by apply slice_Some].
Qed.

Lemma pattern_candidates_total text n : ∃ cs,
  pattern_candidates config text n = Some cs ∧ Forall (candidate_of n text) cs.
Proof.
  unfold pattern_candidates. destruct (is_enabled config n) eqn:Hn; simpl; [|by exists []].
  case_bool_decide as Hc.
  - destruct (mapM_total (capture_candidate n text) (Forall (candidate_of n text))
      (captures_iter n text)) as (css & -> & Hcss).
    + intros [[s e]|] Hin; simpl; [|by exists []].
      apply captures_iter_span in Hin as Hok. unfold slice_from.
      rewrite (slice_Some _ _ _ (slice_ok_from _ _ _ Hok)); simpl.
      destruct (is_base64_boundary_char _); [by exists []|].
      destruct (candidate_at_total n text s e Hok Hn) as (c & -> & ?); simpl.
      exists [c]. auto.
    + exists (concat css). simpl. split; [done|]. by apply Forall_concat.
  - destruct (mapM_total (λ '(s, e), candidate_at n text s e) (candidate_of n text)
      (find_iter n text)) as (cs & -> & ?); [|by exists cs].
    intros [s e] Hin. apply candidate_at_total; [by eapply find_iter_span|done].
Qed.

Definition candidates_of (text n : string) : list MatchCandidate :=
  default [] (pattern_candidates config text n).

Lemma candidates_total text :
  candidates order config text = Some (concat (map (candidates_of text) order)) ∧
  Forall (λ c, candidate_ok text c ∧ name c ∈ order ∧ is_enabled config (name c) = true)
    (concat (map (candidates_of text) order)).
Proof.
  unfold candidates. induction order as [|n order' IH]; [by split|].
  destruct IH as [IH1 IH2]. destruct (pattern_candidates_total text n) as (cs & Hcs & Hok).
  simpl. unfold candidates_of at 1 3. rewrite Hcs; simpl.
  destruct (mapM (pattern_candidates config text) order') as [css|] eqn:E; [|done].
  simpl in *. injection IH1 as ->. split; [done|]. apply Forall_app. split.
  - eapply Forall_impl; [exact Hok|]. intros c (? & -> & ?). set_solver.
  - eapply Forall_impl; [exact IH2|]. set_solver.
Qed.
End found.

(** ** The order of candidates *)

Lemma candidate_le_iff a b : candidate_le a b ↔
  start a < start b ∨ start a = start b ∧
  (pattern_specificity (name a) < pattern_specificity (name b) ∨
   pattern_specificity (name a) = pattern_specificity (name b) ∧
   (end_ b - start b < end_ a - start a ∨
    end_ b - start b = end_ a - start a ∧ String.le (name a) (name b))).
Proof.
  unfold candidate_le, candidate_cmp.
  destruct (Nat.compare_spec (start a) (start b)); simpl; [|intuition (congruence || lia)..].
  destruct (Nat.compare_spec (pattern_specificity (name a)) (pattern_specificity (name b)));
    simpl; [|intuition (congruence || lia)..].
  destruct (Nat.compare_spec (end_ b - start b) (end_ a - start a)); simpl; [|intuition (congruence || lia)..].
  unfold String.le, String.leb. destruct (String.compare (name a) (name b)); simpl; intuition (congruence || lia).
Qed.
#[export] Instance candidate_le_total : Total candidate_le.
Proof.
  intros a b. rewrite !candidate_le_iff.
  destruct (Nat.lt_trichotomy (start a) (start b)) as [?|[?|?]]; [left; lia| |right; lia].
  destruct (Nat.lt_trichotomy (pattern_specificity (name a)) (pattern_specificity (name b)))
    as [?|[?|?]]; [left; lia| |right; lia].
  destruct (Nat.lt_trichotomy (end_ a - start a) (end_ b - start b)) as [?|[?|?]];
    [right; lia| |left; lia].
  destruct (total String.le (name a) (name b)); [left|right];
    right; (split; [lia|]); right; (split; [lia|]); right; (split; [lia|done]).
Qed.
#[export] Instance candidate_le_trans : Transitive candidate_le.
Proof.
  intros a b c. rewrite !candidate_le_iff. intros H1 H2.
  assert (String.le (name a) (name b) → String.le (name b) (name c) →
    String.le (name a) (name c)) by (intros; by etrans).
  intuition (congruence || lia).
Qed.
Lemma candidate_le_antisym text a b : candidate_ok text a → candidate_ok text b →
  candidate_le a b → candidate_le b a → a = b.
Proof.
  intros [Ha1 Ha] [Hb1 Hb]. rewrite !candidate_le_iff. intros H1 H2.
  rewrite slice_ok_spec in *.
  assert (start a = start b) by lia. assert (end_ a = end_ b) by lia.
  assert (name a = name b) by (apply (anti_symm String.le); intuition (congruence || lia)).
  destruct a, b; simpl in *. naive_solver.
Qed.
Lemma sort_candidates_perm text l1 l2 : Forall (candidate_ok text) l1 → l1 ≡ₚ l2 →
  sort_candidates l1 = sort_candidates l2.
Proof.
  intros Hok Hp. unfold sort_candidates.
  apply (Sorted_unique_strong candidate_le); try apply (Sorted_merge_sort _).
  - intros x1 x2 H1 H2. rewrite Forall_forall in Hok.
    rewrite merge_sort_Permutation in H1, H2. rewrite <-Hp in H2.
    apply candidate_le_antisym with text; auto.
  - by rewrite !merge_sort_Permutation.
Qed.

(** ** Merging *)

Definition covers (i : nat) (c : MatchCandidate) : bool :=
  Nat.leb (start c) i && Nat.ltb i (end_ c).
(** [inner] lies in the span [outer]. *)
Definition within (inner outer : MatchCandidate) : Prop :=
  start outer ≤ start inner ∧ end_ inner ≤ end_ outer.
Definition starts_before (a b : MatchCandidate) : Prop := start a ≤ start b.

(** The selection from a pending [current] on. *)
Fixpoint merge_from (current : MatchCandidate) (l : list MatchCandidate) : list MatchCandidate :=
  match l with
  | [] => [current]
  | c :: l =>
      if Nat.leb (end_ current) (start c) then current :: merge_from c l
      else merge_from (merge_into current c) l
  end.
Definition merge_all (l : list MatchCandidate) : list MatchCandidate :=
  match l with [] => [] | c :: l => merge_from c l end.

Lemma select_from current rest l :
  foldl select_step (current :: rest) l = reverse (merge_from current l) ++ rest.
Proof.
  revert current rest. induction l as [|c l IH]; intros current rest; [done|]; simpl.
  case_match; rewrite IH; [|done]. by rewrite reverse_cons, <-app_assoc.
Qed.
Lemma select_merge l : select l = merge_all l.
Proof.
  unfold select. destruct l as [|c l]; [done|]; simpl.
  by rewrite select_from, app_nil_r, reverse_involutive.
Qed.

Lemma merge_into_start current c : start (merge_into current c) = start current.
Proof. done. Qed.
Lemma merge_into_end current c : end_ (merge_into current c) = Nat.max (end_ current) (end_ c).
Proof. simpl. case_match; rewrite ?Nat.ltb_lt, ?Nat.ltb_ge in *; lia. Qed.
Lemma merge_into_name current c :
  ((name (merge_into current c) = name current ∧ text_of (merge_into current c) = text_of current) ∨
   (name (merge_into current c) = name c ∧ text_of (merge_into current c) = text_of c)) ∧
  pattern_specificity (name (merge_into current c)) ≤ pattern_specificity (name current) ∧
  pattern_specificity (name (merge_into current c)) ≤ pattern_specificity (name c).
Proof.
  simpl. destruct (_ || _) eqn:E.
  - rewrite orb_true_iff, andb_true_iff, !Nat.ltb_lt, Nat.eqb_eq in E. intuition lia.
  - rewrite orb_false_iff, andb_false_iff, !Nat.ltb_ge, Nat.eqb_neq in E. intuition lia.
Qed.

Section merge.
Context (text : string).

Definition span_ok (c : MatchCandidate) : Prop := slice_ok text (start c) (end_ c) = true.

Lemma merge_into_ok current c : starts_before current c → start c < end_ current →
  span_ok current → span_ok c → span_ok (merge_into current c).
Proof.
  unfold starts_before, span_ok. rewrite merge_into_end, merge_into_start, !slice_ok_spec.
  intros ?? (?&?&?&?) (?&?&?&?). destruct (Nat.max_spec (end_ current) (end_ c)) as [[? ->]|[? ->]];
    auto with lia.
Qed.

(** The rule of the selection loop: a property of what is pending, the
    candidates to come, and what is selected from there. *)
Lemma merge_from_ind (P : MatchCandidate → list MatchCandidate → list MatchCandidate → Prop) :
  (∀ current, span_ok current → P current [] [current]) →
  (∀ current c l r, span_ok current → end_ current ≤ start c →
     P c l r → P current (c :: l) (current :: r)) →
  (∀ current c l r, span_ok current → span_ok c → starts_before current c →
     start c < end_ current → P (merge_into current c) l r → P current (c :: l) r) →
  ∀ l current, span_ok current → Forall span_ok l → StronglySorted starts_before (current :: l) →
    P current l (merge_from current l).
Proof.
  intros Hnil Hnew Hmerge l. induction l as [|c l IH]; intros current Hok Hl Hs; [by apply Hnil|].
  inversion Hl as [|?? Hc Hl']; subst. inversion Hs as [|?? Hs' Hle]; subst.
  inversion Hle as [|?? Hle1 Hle2]; subst. simpl.
  destruct (Nat.leb_spec (end_ current) (start c)) as [Hle'|Hlt].
  - apply Hnew; auto.
  - apply Hmerge; auto. apply IH; [by apply merge_into_ok|done|].
    constructor; [by inversion Hs'|]. exact Hle2.
Qed.

Fixpoint chained (cursor : nat) (l : list MatchCandidate) : Prop :=
  match l with
  | [] => True
  | s :: l => cursor ≤ start s ∧ span_ok s ∧ chained (end_ s) l
  end.
(** The span [s] is named after the candidate [c] inside it. *)
Definition named (s c : MatchCandidate) : Prop :=
  name s = name c ∧ text_of s = text_of c ∧ within c s.

(** Spans come out in order and apart, cover exactly what the candidates cover,
    every candidate lies in a span at least as specific, and every span is
    named after a candidate inside it. *)
Record merged (current : MatchCandidate) (l r : list MatchCandidate) : Prop := {
  merged_chained cursor : cursor ≤ start current → chained cursor r;
  merged_covers i : existsb (covers i) r = existsb (covers i) (current :: l);
  merged_inside c : c ∈ current :: l → ∃ s, s ∈ r ∧ within c s ∧
    pattern_specificity (name s) ≤ pattern_specificity (name c);
  merged_named (all : list MatchCandidate) : (∃ c, c ∈ all ∧ named current c) → (∀ c, c ∈ l → c ∈ all) →
    ∀ s, s ∈ r → ∃ c, c ∈ all ∧ named s c;
}.

Lemma merged_nil current : span_ok current → merged current [] [current].
Proof.
  intros Hc. split; simpl; [tauto|done| |].
  - intros c ->%list_elem_of_singleton. exists current. set_unfold. unfold within. auto with lia.
  - set_solver.
Qed.
Lemma merged_new current c l r : span_ok current → end_ current ≤ start c →
  merged c l r → merged current (c :: l) (current :: r).
Proof.
  intros Hok Hle [H1 H2 H3 H4]. split.
  - intros cursor ?; simpl. auto.
  - intros i. simpl. by rewrite H2.
  - intros x [->|Hx]%elem_of_cons.
    + exists current. set_unfold. unfold within. auto with lia.
    + destruct (H3 x Hx) as (s & ? & ?). exists s. by set_unfold; auto.
  - intros all Hcur Hl s [->|Hs]%elem_of_cons; [done|].
    apply (H4 all); auto; [|set_solver].
    exists c. split; [set_solver|]. unfold named, within. auto with lia.
Qed.
Lemma merged_merge current c l r : span_ok current → span_ok c → starts_before current c →
  start c < end_ current → merged (merge_into current c) l r → merged current (c :: l) r.
Proof.
  unfold starts_before. intros Hok Hc Hle Hlt [H1 H2 H3 H4].
  pose proof (merge_into_end current c) as He. pose proof (merge_into_name current c) as [Hn [Hp1 Hp2]].
  rewrite merge_into_start in H1. split.
  - auto.
  - intros i. rewrite H2. simpl. rewrite orb_assoc. f_equal. unfold covers.
    rewrite He, merge_into_start. apply eq_bool_prop_intro. rewrite orb_True, !andb_True, !Is_true_true,
      !Nat.leb_le, !Nat.ltb_lt. lia.
  - assert (∀ x, within x (merge_into current c) →
      pattern_specificity (name (merge_into current c)) ≤ pattern_specificity (name x) →
      ∃ s, s ∈ r ∧ within x s ∧ pattern_specificity (name s) ≤ pattern_specificity (name x)) as Hin.
    { intros x Hw Hx. destruct (H3 (merge_into current c)) as (s & Hs & [? ?] & ?); [by left|].
      exists s. unfold within in *. split_and!; [done|lia..]. }
    intros x [->|[->|Hx]%elem_of_cons]%elem_of_cons.
    + apply Hin; [|done]. unfold within. rewrite He, merge_into_start. lia.
    + apply Hin; [|done]. unfold within. rewrite He, merge_into_start. lia.
    + apply H3. by right.
  - intros all (x & Hx & Hn1 & Ht1 & Hw) Hl. apply H4; [|set_solver]. unfold named, within in *.
    rewrite He, merge_into_start. destruct Hn as [[-> ->]|[-> ->]].
    + exists x. split_and!; auto with lia.
    + exists c. split_and!; auto with lia. set_solver.
Qed.
Lemma merge_from_merged l current : span_ok current → Forall span_ok l →
  StronglySorted starts_before (current :: l) → merged current l (merge_from current l).
Proof.
  apply merge_from_ind; [apply merged_nil|apply merged_new|apply merged_merge].
Qed.
End merge.

(** ** Redaction *)

(** [weave kept hidden] alternates the two; [mask] says which of its bytes are hidden. *)
Fixpoint weave (kept hidden : list string) : string :=
  match kept, hidden with
  | [], _ => ""
  | k :: _, [] => k
  | k :: kept, h :: hidden => k +:+ h +:+ weave kept hidden
  end.
Fixpoint mask (kept hidden : list string) : list bool :=
  match kept, hidden with
  | [], _ => []
  | k :: _, [] => replicate (String.length k) false
  | k :: kept, h :: hidden =>
      replicate (String.length k) false ++ replicate (String.length h) true ++ mask kept hidden
  end.

Lemma str_drop_drop a b s : str_drop b (str_drop a s) = str_drop (a + b) s.
Proof.
  revert s. induction a as [|a IH]; intros s; [done|].
  destruct s as [|c s]; simpl; [by destruct b|apply IH].
Qed.
Lemma str_drop_slice a b s : a ≤ b →
  str_drop a s = str_take (b - a) (str_drop a s) +:+ str_drop b s.
Proof.
  intros Hab. rewrite <-(str_take_drop (b - a) (str_drop a s)) at 1.
  rewrite str_drop_drop. by replace (a + (b - a)) with b by lia.
Qed.
Lemma length_slice s a b : a ≤ b → b ≤ String.length s →
  String.length (str_take (b - a) (str_drop a s)) = b - a.
Proof. intros ??. rewrite length_str_take, length_str_drop. lia. Qed.
Lemma str_take_all s n : String.length s ≤ n → str_take n s = s.
Proof.
  revert n. induction s as [|c s IH]; intros [|n]; simpl; try done; [lia|].
  intros ?. rewrite IH; [done|lia].
Qed.

Lemma chained_uncovered text cursor l i : chained text cursor l → i < cursor →
  existsb (covers i) l = false.
Proof.
  revert cursor. induction l as [|s l IH]; intros cursor; simpl; [done|].
  intros (Hle & Hok & Hl) Hi. apply slice_ok_spec in Hok as (? & _).
  rewrite (IH _ Hl) by lia. unfold covers.
  by rewrite (proj2 (Nat.leb_gt _ _)) by lia.
Qed.

Lemma redact_spans_weave text redaction l : ∀ cursor,
  chained text cursor l → slice_ok text cursor (String.length text) = true →
  ∃ kept hidden,
    redact_spans text redaction cursor l =
      Some (weave kept (replicate (length hidden) redaction)) ∧
    str_drop cursor text = weave kept hidden ∧
    length kept = S (length hidden) ∧ length hidden = length l ∧
    ∀ i, cursor ≤ i < String.length text →
      mask kept hidden !! (i - cursor) = Some (existsb (covers i) l).
Proof.
  induction l as [|s l IH]; intros cursor Hl Hcur; simpl.
  - exists [str_drop cursor text], []. unfold slice_from. rewrite (slice_Some _ _ _ Hcur).
    apply slice_ok_spec in Hcur as (Hc & _). simpl. split_and!; try done.
    + f_equal. apply str_take_all. rewrite length_str_drop. lia.
    + intros i Hi. apply lookup_replicate_2. rewrite length_str_drop. lia.
  - destruct Hl as (Hle & Hok & Hl).
    destruct (IH (end_ s) Hl) as (kept & hidden & Hr & Ht & Hk & Hh & Hm);
      [by eapply slice_ok_from|].
    assert (slice_ok text cursor (start s) = true) as Hpre.
    { rewrite slice_ok_spec in *. unfold span_ok in Hok. rewrite slice_ok_spec in Hok. intuition lia. }
    rewrite (slice_Some _ _ _ Hpre). simpl. rewrite Hr. simpl.
    unfold span_ok in Hok. rewrite slice_ok_spec in Hok. destruct Hok as (H1 & H2 & _).
    exists (str_take (start s - cursor) (str_drop cursor text) :: kept),
      (str_take (end_ s - start s) (str_drop (start s) text) :: hidden). simpl. split_and!.
    + done.
    + rewrite <-Ht, <-str_drop_slice by lia. by apply str_drop_slice.
    + lia.
    + lia.
    + intros i Hi. rewrite !length_slice by lia.
      destruct (decide (i < start s)) as [Hs|Hs].
      { rewrite lookup_app_l by (rewrite length_replicate; lia).
        rewrite (chained_uncovered text (end_ s) l) by (done || lia).
        rewrite orb_false_r. unfold covers. rewrite (proj2 (Nat.leb_gt _ _)) by lia.
        apply lookup_replicate_2. lia. }
      rewrite lookup_app_r by (rewrite length_replicate; lia). rewrite length_replicate.
      destruct (decide (i < end_ s)) as [He|He].
      { rewrite lookup_app_l by (rewrite length_replicate; lia).
        unfold covers. rewrite (proj2 (Nat.leb_le _ _)), (proj2 (Nat.ltb_lt _ _)) by lia.
        apply lookup_replicate_2. lia. }
      rewrite lookup_app_r by (rewrite length_replicate; lia). rewrite length_replicate.
      replace (i - cursor - (start s - cursor) - (end_ s - start s)) with (i - end_ s) by lia.
      rewrite Hm by lia. unfold covers at 2. by rewrite (proj2 (Nat.ltb_ge _ _)), andb_false_r by lia.
Qed.

(** ** Theorems *)

Lemma selected_spans text found : Forall (candidate_ok text) found →
  let selected := select (sort_candidates found) in
  chained text 0 selected ∧
  (∀ i, existsb (covers i) selected = existsb (covers i) found) ∧
  (∀ c, c ∈ found → ∃ s, s ∈ selected ∧ within c s ∧
     pattern_specificity (name s) ≤ pattern_specificity (name c)) ∧
  (∀ s, s ∈ selected → ∃ c, c ∈ found ∧ named s c).
Proof.
  intros Hok. cbv zeta. rewrite select_merge.
  assert (sort_candidates found ≡ₚ found) as Hp by apply merge_sort_Permutation.
  assert (StronglySorted starts_before (sort_candidates found)) as Hs.
  { pose proof (StronglySorted_merge_sort candidate_le found) as Hsort.
    unfold sort_candidates. induction Hsort as [|a l _ IH Ha]; constructor; [exact IH|].
    eapply Forall_impl; [exact Ha|]. intros b. rewrite candidate_le_iff. unfold starts_before. lia. }
  assert (Forall (span_ok text) (sort_candidates found)) as Hok'.
  { rewrite Hp. eapply Forall_impl; [exact Hok|]. by intros c [? _]. }
  assert (∀ i, existsb (covers i) found = existsb (covers i) (sort_candidates found)) as Hcov.
  { intros i. apply eq_bool_prop_intro. rewrite !Is_true_true, !existsb_exists.
    setoid_rewrite <-list_elem_of_In. by setoid_rewrite Hp. }
  assert (∀ c, c ∈ found ↔ c ∈ sort_candidates found) as Hel by (intros c; by rewrite Hp).
  setoid_rewrite Hcov. setoid_rewrite Hel. clear Hp Hcov Hel.
  destruct (sort_candidates found) as [|c l]; simpl.
  { split_and!; [done|done|set_solver|set_solver]. }
  inversion Hok' as [|?? Hc Hl]; subst.
  destruct (merge_from_merged text l c Hc Hl Hs) as [H1 H2 H3 H4]. split_and!.
  - apply H1. lia.
  - exact H2.
  - exact H3.
  - apply H4; [|set_solver]. exists c. split; [by left|]. unfold named, within. auto with lia.
Qed.

Section detection.
Context `{!Regexes, !RegexLaws} (order : list string) (config : SecretsDetectionConfig).

Lemma detect_total text : ∃ found,
  candidates order config text = Some found ∧
  Forall (candidate_ok text) found ∧ Forall (λ c, is_enabled config (name c) = true) found ∧
  ∃ redacted, detect_and_redact order config text =
    Some (map finding_of (select (sort_candidates found)), redacted) ∧
  (redact config = false → redacted = text) ∧
  (redact config = true →
     redact_spans text (redaction_text config) 0 (select (sort_candidates found)) = Some redacted).
Proof.
  destruct (candidates_total order config text) as [Hc Hok].
  assert (Forall (candidate_ok text) (concat (map (candidates_of config text) order))) as Hok'
    by (eapply Forall_impl; [exact Hok|]; cbn; tauto).
  eexists. split; [exact Hc|]. split; [exact Hok'|].
  split; [eapply Forall_impl; [exact Hok|]; cbn; tauto|]. unfold detect_and_redact. rewrite Hc. simpl.
  set (found := concat _) in *. clearbody found.
  destruct (redact config); simpl; [|by eexists].
  destruct (redact_spans_weave text (redaction_text config) (select (sort_candidates found)) 0)
    as (kept & hidden & Hr & _); [by apply selected_spans|..].
  { rewrite slice_ok_spec. auto using boundary_end with lia. }
  rewrite Hr. case_bool_decide as Hnil; simpl; [|by eexists].
  exists text. split_and!; [done|done|].
  intros _. rewrite <-Hr, Hnil. simpl. unfold slice_from. rewrite slice_Some.
  - simpl. f_equal. apply str_take_all. lia.
  - rewrite slice_ok_spec. auto using boundary_end with lia.
Qed.

Lemma redaction_pieces text : ∃ found fs redacted,
  candidates order config text = Some found ∧
  detect_and_redact order config text = Some (fs, redacted) ∧
  (redact config = false → redacted = text) ∧
  (redact config = true → ∃ kept hidden,
     text = weave kept hidden ∧
     redacted = weave kept (replicate (length hidden) (redaction_text config)) ∧
     length kept = S (length hidden) ∧ length hidden = length fs ∧
     ∀ i, i < String.length text → mask kept hidden !! i = Some (existsb (covers i) found)).
Proof.
  destruct (detect_total text) as (found & Hf & Hok & _ & r & Hd & Hoff & Hon).
  exists found. eexists _, r. split; [done|]. split; [exact Hd|]. split; [done|].
  intros Hr. specialize (Hon Hr).
  destruct (selected_spans text found Hok) as (Hch & Hcov & _).
  destruct (redact_spans_weave text (redaction_text config) (select (sort_candidates found)) 0)
    as (kept & hidden & Hr' & Ht & Hk & Hh & Hm); [done|..].
  { rewrite slice_ok_spec. auto using boundary_end with lia. }
  exists kept, hidden. split_and!; [done|congruence|done|by rewrite length_map|].
  intros i Hi. rewrite <-Hcov, <-Hm by lia. f_equal. lia.
Qed.

(** C9: scanning a text never fails, and when redaction is on exactly the bytes
    that some match of an enabled pattern covers are replaced: the text is kept
    pieces and hidden pieces in alternation, the hidden ones being the covered
    bytes, there is one finding per hidden piece, and the result has the
    configured text in the place of each.  Without redaction it is the text. *)
Theorem redaction_exact text : ∃ found fs redacted,
  candidates order config text = Some found ∧
  detect_and_redact order config text = Some (fs, redacted) ∧
  (redact config = false → redacted = text) ∧
  (redact config = true → ∃ kept hidden,
     text = weave kept hidden ∧
     redacted = weave kept (replicate (length hidden) (redaction_text config)) ∧
     length kept = S (length hidden) ∧ length hidden = length fs ∧
     ∀ i, i < String.length text → mask kept hidden !! i = Some (existsb (covers i) found)).
Proof. apply redaction_pieces. Qed.

(** The findings of a text stand for disjoint spans in text order.  Every
    match lies in a span whose finding has a type at least as specific as the
    match's pattern, and every finding is the type and the preview of a match of
    an enabled pattern inside its own span. *)
Theorem findings_most_specific text : ∃ found spans redacted,
  candidates order config text = Some found ∧
  detect_and_redact order config text = Some (map finding_of spans, redacted) ∧
  chained text 0 spans ∧
  (∀ c, c ∈ found → ∃ s, s ∈ spans ∧ within c s ∧
     pattern_specificity (pii_type (finding_of s)) ≤ pattern_specificity (name c)) ∧
  (∀ s, s ∈ spans → ∃ c, c ∈ found ∧ within c s ∧ is_enabled config (name c) = true ∧
     finding_of s = finding_of c).
Proof.
  destruct (detect_total text) as (found & Hf & Hok & Hen & r & Hd & _).
  exists found. eexists _, r. split; [done|]. split; [exact Hd|].
  destruct (selected_spans text found Hok) as (Hch & _ & Hin & Hnamed).
  rewrite Forall_forall in Hen.
  split_and!; [done|done|].
  intros s Hs. destruct (Hnamed s Hs) as (c & Hc & Hn & Ht & Hw).
  exists c. split_and!; [done|done|by apply Hen|]. unfold finding_of. by rewrite Hn, Ht.
Qed.
End detection.

(** The result of a scan does not depend on the order in which the hash map
    of patterns is iterated. *)
Theorem detect_order_independent `{!Regexes, !RegexLaws} (o1 o2 : list string) config text :
  o1 ≡ₚ o2 → detect_and_redact o1 config text = detect_and_redact o2 config text.
Proof.
  intros Hp. unfold detect_and_redact.
  destruct (candidates_total o1 config text) as [-> Hok].
  destruct (candidates_total o2 config text) as [-> _]. simpl.
  erewrite (sort_candidates_perm text); [done|..].
  - eapply Forall_impl; [exact Hok|]. cbn; tauto.
  - by rewrite Hp.
Qed.

(** ** Scanning a JSON value *)

Section reference.
Context (config : SecretsDetectionConfig) (d : string → list Finding * string).

(** The scan that visits every string and asks only there whether to scan it. *)
Fixpoint scan_leaves (value : Value) (path : list string) (root : bool) : list Finding * Value :=
  match value with
  | JString text =>
      if should_scan_field_path config path root
      then ((d text).1, JString (d text).2) else ([], value)
  | JArray items =>
      let children := map (λ item, scan_leaves item path false) items in
      (concat children.*1, JArray children.*2)
  | JObject entries =>
      let children := map (λ '(key, value), scan_leaves value (path ++ [key]) false) entries in
      (concat children.*1, JObject (zip entries.*1 children.*2))
  | _ => ([], value)
  end.

Lemma scan_leaves_array items path root : Forall (λ v, scan_leaves v path false = ([], v)) items →
  scan_leaves (JArray items) path root = ([], JArray items).
Proof.
  intros H. simpl.
  assert (map (λ item, scan_leaves item path false) items = map (λ v, ([], v)) items) as ->
    by (induction H; simpl; congruence).
  clear H. f_equal; [|f_equal]; (induction items; [done|]); csimpl; by rewrite ?IHitems.
Qed.
Lemma scan_leaves_object entries path root :
  Forall (λ kv, scan_leaves kv.2 (path ++ [kv.1]) false = ([], kv.2)) entries →
  scan_leaves (JObject entries) path root = ([], JObject entries).
Proof.
  intros H. simpl.
  assert (map (λ '(key, value), scan_leaves value (path ++ [key]) false) entries =
    map (λ kv, ([], kv.2)) entries) as -> by (induction H as [|[]]; simpl in *; congruence).
  clear H. f_equal; [|f_equal]; (induction entries as [|[k v] entries IHe]; [done|]);
    csimpl; by rewrite ?IHe.
Qed.

(** Below a key that is not traversed no string would be scanned. *)
Lemma scan_leaves_pruned path : should_traverse_field_path config path = false →
  ∀ v path' root, path `prefix_of` path' → scan_leaves v path' root = ([], v).
Proof.
  intros Hno v. induction v as [| | |s|l IH|o IH] using Value_nested_ind; intros path' root Hp;
    try done.
  - simpl. destruct (should_scan_field_path config path' root) eqn:Hs; [|done].
    by rewrite (scan_implies_traverse _ _ _ _ Hp Hs) in Hno.
  - apply scan_leaves_array. eapply Forall_impl; [exact IH|]. auto.
  - apply scan_leaves_object. eapply Forall_impl; [exact IH|]. cbn. intros kv Hkv.
    apply Hkv. by apply prefix_app_r.
Qed.

Definition report_of (r : list Finding * Value) : ScanReport :=
  {| count := length r.1; redacted := r.2; findings := r.1 |}.

Lemma scan_items_report scan (f : Value → list Finding * Value) items : ∀ done found,
  Forall (λ v, scan v = Some (report_of (f v))) items →
  scan_items scan items (length found) done found =
    Some (report_of (found ++ concat (map f items).*1, JArray (done ++ (map f items).*2))).
Proof.
  induction items as [|v items IH]; intros done found Hf; simpl.
  - by rewrite !app_nil_r.
  - inversion Hf as [|?? Hv Hrest]; subst. rewrite Hv. simpl.
    rewrite <-length_app, IH by exact Hrest. by rewrite <-!app_assoc.
Qed.
Lemma scan_entries_report scan (f : string → Value → list Finding * Value) entries :
  ∀ done found, NoDup (done.*1 ++ entries.*1) →
  Forall (λ kv, scan kv.1 kv.2 = Some (report_of (f kv.1 kv.2))) entries →
  scan_entries scan entries (length found) done found =
    Some (report_of (found ++ concat (map (λ '(k, v), f k v) entries).*1,
      JObject (done ++ zip entries.*1 (map (λ '(k, v), f k v) entries).*2))).
Proof.
  induction entries as [|[k v] entries IH]; intros done found Hnd Hf; simpl.
  - by rewrite !app_nil_r.
  - inversion Hf as [|?? Hv Hrest]; subst. simpl in Hv, Hnd. rewrite Hv. simpl.
    rewrite <-length_app, assoc_insert_fresh.
    + rewrite IH; [by rewrite <-!app_assoc| |exact Hrest].
      by rewrite fmap_app, <-app_assoc.
    + apply NoDup_app in Hnd as (_ & Hd & _). intros Hk. apply (Hd k Hk). left.
Qed.
End reference.

Section scanning.
Context `{!Regexes, !RegexLaws} (order : list string) (config : SecretsDetectionConfig).

Definition detected (text : string) : list Finding * string :=
  default ([], "") (detect_and_redact order config text).
Lemma detect_detected text : detect_and_redact order config text = Some (detected text).
Proof.
  unfold detected.
  by destruct (detect_total order config text) as (f & _ & _ & _ & r & -> & _).
Qed.

Lemma scan_direct_text_detected text :
  scan_direct_text order config text =
    Some (report_of ((detected text).1, JString (detected text).2)).
Proof. unfold scan_direct_text. rewrite detect_detected. simpl. by destruct (detected text). Qed.

Lemma scan_inner_leaves value : wf_value value → ∀ path root,
  scan_json_value_inner order config value path root =
    Some (report_of (scan_leaves config detected value path root)).
Proof.
  induction value as [| | |s|l IH|o IH] using Value_nested_ind;
    intros Hwf path root; try done; cbn [scan_json_value_inner].
  - simpl. case_match; [|done]. by rewrite scan_direct_text_detected.
  - apply wf_value_array in Hwf. destruct (should_traverse_field_path config path) eqn:Ht; cbn [negb].
    + apply (scan_items_report _ (λ v, scan_leaves config detected v path false) l [] []).
      apply Forall_forall. intros v Hv. rewrite Forall_forall in IH, Hwf. auto.
    + by rewrite (scan_leaves_pruned config detected path Ht (JArray l) path root).
  - apply wf_value_object in Hwf as [Hnd Hwf].
    destruct (should_traverse_field_path config path) eqn:Ht; cbn [negb].
    + apply (scan_entries_report _
        (λ k v, scan_leaves config detected v (path ++ [k]) false) o [] []); [done|].
      apply Forall_forall. intros kv Hkv. rewrite Forall_forall in IH, Hwf. auto.
    + by rewrite (scan_leaves_pruned config detected path Ht (JObject o) path root).
Qed.

(** Scanning a JSON value never fails and equals the scan that visits every
    string of the value and decides only there, by the allow and deny lists,
    whether to scan it: skipping whole containers never changes the outcome.
    The value keeps its shape, and the count is the number of findings. *)
Theorem scan_json_value_refines value : wf_value value →
  ∃ d, (∀ text, detect_and_redact order config text = Some (d text)) ∧
    scan_json_value order config value = Some (report_of (scan_leaves config d value [] true)).
Proof.
  intros Hwf. exists detected. split; [apply detect_detected|]. by apply scan_inner_leaves.
Qed.
(** The type of a value: all of it but the contents of its strings. *)
Fixpoint shape (value : Value) : Value :=
  match value with
  | JString _ => JString EmptyString
  | JArray items => JArray (map shape items)
  | JObject entries => JObject (map (λ '(key, value), (key, shape value)) entries)
  | _ => value
  end.

Lemma shape_wf v : ∀ v', shape v' = shape v → wf_value v → wf_value v'.
Proof.
  induction v as [| | |s|l IH|o IH] using Value_nested_ind; intros [| | |s'|l'|o'] Hs Hwf; try done.
  - injection Hs as Hs. rewrite wf_value_array in *. revert l' Hs.
    induction l as [|x l IHl]; intros [|x' l'] Hs; try done. cbn [map] in Hs. injection Hs as Hx Hs.
    inversion IH; inversion Hwf; subst. constructor; auto.
  - injection Hs as Hs. rewrite wf_value_object in *. destruct Hwf as [Hnd Hwf].
    assert (o'.*1 = o.*1) as Hkeys.
    { revert o' Hs. clear. induction o as [|[k x] o IHo]; intros [|[k' x'] o'] Hs; try done.
      cbn [map] in Hs. injection Hs as -> _ Hs. csimpl. f_equal. by apply IHo. }
    rewrite Hkeys. split; [done|]. clear Hnd Hkeys. revert o' Hs.
    induction o as [|[k x] o IHo]; intros [|[k' x'] o'] Hs; try done. cbn [map] in Hs.
    injection Hs as -> Hx Hs. inversion IH; inversion Hwf; subst. constructor; [|by apply IHo].
    cbn in *. auto.
Qed.

Lemma scan_leaves_shape d v : ∀ path root, shape (scan_leaves config d v path root).2 = shape v.
Proof.
  induction v as [| | |s|l IH|o IH] using Value_nested_ind; intros path root; try done.
  - cbn. by destruct (should_scan_field_path _ _ _).
  - cbn [scan_leaves snd shape]. f_equal. induction IH as [|x l Hx _ IHl]; [done|]. csimpl.
    by rewrite Hx, IHl.
  - cbn [scan_leaves snd shape]. f_equal. induction IH as [|[k x] o Hx _ IHo]; [done|]. csimpl in *.
    by rewrite Hx, IHo.
Qed.
Lemma scan_leaves_identity d v : (∀ text, (d text).2 = text) →
  ∀ path root, (scan_leaves config d v path root).2 = v.
Proof.
  intros Hd. induction v as [| | |s|l IH|o IH] using Value_nested_ind; intros path root; try done.
  - cbn. destruct (should_scan_field_path _ _ _); [|done]. cbn. by rewrite Hd.
  - cbn [scan_leaves snd]. f_equal. induction IH as [|x l Hx _ IHl]; [done|]. csimpl.
    by rewrite Hx, IHl.
  - cbn [scan_leaves snd]. f_equal. induction IH as [|[k x] o Hx _ IHo]; [done|]. csimpl in *.
    by rewrite Hx, IHo.
Qed.

(** C28: scanning preserves the type of a JSON value: the result differs from it at
    most in the contents of strings, so an object comes back an object with the
    same keys in the same order and the handler's unreachable branches are; it is a
    well-formed value, the count is the number of findings, and without redaction
    it is the very value. *)
Theorem scan_json_value_typed value : wf_value value →
  ∃ report, scan_json_value order config value = Some report ∧
    shape (redacted report) = shape value ∧ wf_value (redacted report) ∧
    count report = length (findings report) ∧
    (redact config = false → redacted report = value).
Proof.
  intros Hwf. exists (report_of (scan_leaves config detected value [] true)).
  split; [by apply scan_inner_leaves|]. cbn [report_of redacted count findings].
  pose proof (scan_leaves_shape detected value [] true) as Hshape.
  split_and!; [done|by eapply shape_wf|done|]. intros Hr. apply scan_leaves_identity. intros text.
  unfold detected. destruct (detect_total order config text) as (f & _ & _ & _ & r & -> & Hoff & _).
  by apply Hoff.
Qed.
End scanning.

(** ** A concrete engine

    Literal prefixes stand in for the regular expressions. *)
Module ConcreteRegexes.
Fixpoint index_of (p s : string) : option nat :=
  if starts_with p s then Some 0
  else match s with EmptyString => None | String _ s => S <$> index_of p s end.
Definition literal (name : string) : string * nat :=
  if String.eqb name "aws_access_key_id" then ("AKIA", 8)
  else if String.eqb name "slack_token" then ("xoxb-", 9)
  else if String.eqb name "hex_secret_32" then ("IAAB", 6)
  else ("none of these", 0).
Definition spans (name text : string) : list (nat * nat) :=
  let '(lit, n) := literal name in
  match index_of lit text with
  | Some i => if slice_ok text i (i + n) then [(i, i + n)] else []
  | None => []
  end.
#[export] Instance regexes : Regexes := {|
  find_iter := spans;
  captures_iter name text :=
    if slice_ok text 0 4 then [Some (0, 4); None] else [] |}.
#[export] Instance regex_laws : RegexLaws.
Proof.
  split.
  - intros n t s e. simpl. unfold spans. destruct (literal n) as [lit k].
    destruct (index_of lit t) as [i|]; [|set_solver]. destruct (slice_ok t i (i + k)) eqn:E; [|set_solver].
    intros [= -> ->]%list_elem_of_singleton. exact E.
  - intros n t s e. simpl. destruct (slice_ok t 0 4) eqn:E; [|set_solver]. set_unfold. naive_solver.
Qed.

(** Every pattern on, redaction on, one denied field. *)
Definition config : SecretsDetectionConfig := {|
  enabled := merge_enabled_map (list_to_map (map (λ n, (n, true)) BROAD_PATTERNS));
  redact := true; redaction_text := "***";
  block_on_detection := true; min_findings_to_block := 1;
  field_allowlist := []; field_denylist := [{| segments := ["raw"; "blob"] |}] |}.
Definition text : string := "key=AKIAABCD!".

Example detect_text : detect_and_redact PATTERN_NAMES config text =
  Some ([{| pii_type := "aws_access_key_id"; preview := "AKIAABCD" |}], "key=***!").
Proof. vm_compute. reflexivity. Qed.

Lemma redaction_exact_witness :
  RegexLaws ∧ ∃ found fs redacted,
    candidates PATTERN_NAMES config text = Some found ∧
    detect_and_redact PATTERN_NAMES config text = Some (fs, redacted) ∧
    (redact config = false → redacted = text) ∧
    (redact config = true → ∃ kept hidden,
       text = weave kept hidden ∧
       redacted = weave kept (replicate (length hidden) (redaction_text config)) ∧
       length kept = S (length hidden) ∧ length hidden = length fs ∧
       ∀ i, i < String.length text → mask kept hidden !! i = Some (existsb (covers i) found)).
Proof. split; [apply _|]. apply (redaction_exact PATTERN_NAMES config text). Defined.

Lemma findings_most_specific_witness :
  RegexLaws ∧ ∃ found spans redacted,
    candidates PATTERN_NAMES config text = Some found ∧
    detect_and_redact PATTERN_NAMES config text = Some (map finding_of spans, redacted) ∧
    chained text 0 spans ∧
    (∀ c, c ∈ found → ∃ s, s ∈ spans ∧ within c s ∧
       pattern_specificity (pii_type (finding_of s)) ≤ pattern_specificity (name c)) ∧
    (∀ s, s ∈ spans → ∃ c, c ∈ found ∧ within c s ∧ is_enabled config (name c) = true ∧
       finding_of s = finding_of c).
Proof. split; [apply _|]. apply (findings_most_specific PATTERN_NAMES config text). Defined.

Lemma detect_order_independent_witness :
  PATTERN_NAMES ≡ₚ reverse PATTERN_NAMES ∧
  detect_and_redact PATTERN_NAMES config text = detect_and_redact (reverse PATTERN_NAMES) config text.
Proof.
  assert (PATTERN_NAMES ≡ₚ reverse PATTERN_NAMES) as Hp by (by rewrite reverse_Permutation).
  split; [exact Hp|]. apply (detect_order_independent _ _ config text Hp).
Defined.

Definition value : Value := JObject
  [("a", JArray [JString text; JNull]);
   ("raw", JObject [("blob", JString text); ("other", JString text)])].
Example scan_value : scan_json_value PATTERN_NAMES config value = Some {|
  count := 2;
  redacted := JObject
    [("a", JArray [JString "key=***!"; JNull]);
     ("raw", JObject [("blob", JString text); ("other", JString "key=***!")])];
  findings := replicate 2 {| pii_type := "aws_access_key_id"; preview := "AKIAABCD" |} |}.
Proof. vm_compute. reflexivity. Qed.

Lemma scan_json_value_refines_witness :
  wf_value value ∧ ∃ d, (∀ text, detect_and_redact PATTERN_NAMES config text = Some (d text)) ∧
    scan_json_value PATTERN_NAMES config value = Some (report_of (scan_leaves config d value [] true)).
Proof.
  assert (wf_value value) as Hwf by (repeat split; repeat constructor; set_solver).
  split; [exact Hwf|]. apply (scan_json_value_refines PATTERN_NAMES config value Hwf).
Defined.

Lemma scan_json_value_typed_witness :
  wf_value value ∧ ∃ report, scan_json_value PATTERN_NAMES config value = Some report ∧
    shape (redacted report) = shape value.
Proof.
  assert (wf_value value) as Hwf by (repeat split; repeat constructor; set_solver).
  split; [exact Hwf|].
  destruct (scan_json_value_typed PATTERN_NAMES config value Hwf) as (report & Hs & Hshape & _).
  exists report. split; [exact Hs|exact Hshape].
Defined.
End ConcreteRegexes.
