(* ===== verification/SecretsPatterns.v ===== *)
(** * The pattern table ([cpex-secrets-detection]: [patterns.rs])

    The regular expressions of the table as terms, what they match as a relation
    on byte offsets, and the leftmost-first search the scanner's engine performs.
    The table leaves Unicode mode on: a character is a UTF-8 sequence, the dot
    and negated classes take any, and case folding adds the long s and the
    Kelvin sign to the ASCII letters. *)

From S2P Require Import Prelude Text SecretsConfig SecretsScanner.
#[local] Open Scope nat_scope.

(** ** Regular expressions *)

(** A character class: byte ranges, possibly negated, the dot, and [\s]. *)
Inductive char_class : Type :=
| Ranges (negated : bool) (ranges : list (ascii * ascii))
| Dot
| Space.

(** The constructs the table uses: greedy repetition of a class, [^], [\b], and
    one capture group. *)
Inductive regex : Type :=
| Empty
| StartText
| WordBoundary
| Repeat (c : char_class) (lo : nat) (hi : option nat)
| Seq (a b : regex)
| Alt (a b : regex)
| Group (r : regex).

Definition one (c : char_class) : regex := Repeat c 1 (Some 1).
Definition maybe (r : regex) : regex := Alt r Empty.
Definition exactly (n : nat) (c : char_class) : regex := Repeat c n (Some n).
Definition at_least (n : nat) (c : char_class) : regex := Repeat c n None.
Definition between (n m : nat) (c : char_class) : regex := Repeat c n (Some m).
Definition seq : list regex → regex := foldr Seq Empty.
Fixpoint alts (r : regex) (rs : list regex) : regex :=
  match rs with [] => r | r' :: rs => Alt r (alts r' rs) end.

(** A class from the characters and ranges written in it, and a literal. *)
Definition set (ranges : list (ascii * ascii)) : char_class := Ranges false ranges.
Definition chr (c : ascii) : ascii * ascii := (c, c).
Fixpoint lit (s : string) : regex :=
  match s with
  | EmptyString => Empty
  | String c EmptyString => one (set [chr c])
  | String c s => Seq (one (set [chr c])) (lit s)
  end.

Definition AZ : ascii * ascii := ("A", "Z")%char.
Definition az : ascii * ascii := ("a", "z")%char.
Definition d09 : ascii * ascii := ("0", "9")%char.
Definition quote : char_class := set [chr "034"%char; chr "'"%char].

(** A pattern: whether it ignores case ([(?i)]), and its expression. *)
Record pattern : Type := { ignore_case : bool; expression : regex }.
Definition cased (r : list regex) : pattern := {| ignore_case := false; expression := seq r |}.
Definition caseless (r : list regex) : pattern := {| ignore_case := true; expression := seq r |}.

(** ** The table *)

Definition dash_ : char_class := set [chr "-"; chr "_"].
(** [api[_-]?token] and its like. *)
Definition word_dash (a b : string) : regex := seq [lit a; maybe (one dash_); lit b].

Definition aws_access_key_id : pattern := cased
  [WordBoundary; lit "AKIA"; exactly 16 (set [d09; AZ]); WordBoundary].
Definition aws_secret_access_key : pattern := caseless
  [lit "aws"; between 0 20 Dot; Alt (lit "secret") (lit "access"); between 0 20 Dot;
   one (set [chr ":"; chr "="]); at_least 0 Space; maybe (one quote);
   Group (exactly 40 (set [AZ; az; d09; chr "/"; chr "+"; chr "="])); maybe (one quote)].
Definition google_api_key : pattern := cased
  [WordBoundary; lit "AIza"; exactly 35 (set [d09; AZ; az; chr "-"; chr "_"]); WordBoundary].
Definition github_token : pattern := cased
  [WordBoundary;
   Alt (seq [lit "gh"; one (set [chr "o"; chr "p"; chr "u"; chr "s"; chr "r"]); lit "_";
             exactly 36 (set [AZ; az; d09])])
       (seq [lit "github_pat_"; at_least 20 (set [AZ; az; d09; chr "_"])]);
   WordBoundary].
Definition stripe_secret_key : pattern := cased
  [WordBoundary; Alt (lit "sk") (lit "rk"); lit "_"; Alt (lit "live") (lit "test"); lit "_";
   at_least 16 (set [AZ; az; d09]); WordBoundary].
Definition generic_api_key_assignment : pattern := caseless
  [WordBoundary;
   alts (seq [maybe (seq [lit "x"; one dash_]); word_dash "api" "key"])
     [lit "apikey"; word_dash "api" "token"; word_dash "access" "token";
      word_dash "bearer" "token"; word_dash "auth" "token"];
   WordBoundary; at_least 0 Space; one (set [chr ":"; chr "="]); at_least 0 Space;
   maybe (one quote); at_least 20 (set [AZ; az; d09; chr "_"; chr "-"]); maybe (one quote)].
Definition slack_token : pattern := cased
  [WordBoundary; lit "xox"; one (set [chr "a"; chr "b"; chr "p"; chr "q"; chr "r"]); lit "-";
   between 10 80 (set [d09; AZ; az; chr "-"]); WordBoundary].
Definition private_key_block : pattern := cased
  [lit "-----BEGIN "; alts (lit "RSA") [lit "DSA"; lit "EC"; lit "OPENSSH"];
   lit " PRIVATE KEY-----"].
Definition jwt_like : pattern :=
  let part := at_least 10 (set [az; AZ; d09; chr "_"; chr "-"]) in
  cased [WordBoundary; lit "eyJ"; part; lit ".eyJ"; part; lit "."; part; WordBoundary].
Definition hex_secret_32 : pattern := caseless
  [WordBoundary; at_least 32 (set [("a", "f")%char; d09]); WordBoundary].
Definition base64_24 : pattern :=
  let base64 := set [AZ; az; d09; chr "+"; chr "/"] in
  cased [Alt StartText (one (Ranges true [AZ; az; d09; chr "+"; chr "/"]));
         Group (alts (seq [at_least 24 base64; between 0 2 (set [chr "="])])
                  [seq [exactly 22 base64; lit "=="]; seq [exactly 23 base64; lit "="]])].

Definition PATTERNS : list (string * pattern) := [
  ("aws_access_key_id", aws_access_key_id);
  ("aws_secret_access_key", aws_secret_access_key);
  ("google_api_key", google_api_key);
  ("github_token", github_token);
  ("stripe_secret_key", stripe_secret_key);
  ("generic_api_key_assignment", generic_api_key_assignment);
  ("slack_token", slack_token);
  ("private_key_block", private_key_block);
  ("jwt_like", jwt_like);
  ("hex_secret_32", hex_secret_32);
  ("base64_24", base64_24)].

Lemma pattern_names : PATTERNS.*1 = PATTERN_NAMES.
Proof. reflexivity. Qed.
Definition pattern_of (name : string) : option pattern := assoc_get name PATTERNS.

(** ** Characters of a text *)

(** [\w] outside ASCII is Unicode's; a character is given by its UTF-8. *)
Class Unicode := { is_word_char : string → bool }.
Class UnicodeLaws `{Unicode} : Prop := {
  is_word_ascii c : in_range 0 127 c = true →
    is_word_char (String c "") = is_ascii_alphanumeric c || Ascii.eqb c "_";
}.

(** The number of continuation bytes a string starts with. *)
Fixpoint continuation_len (s : string) : nat :=
  match s with
  | String c s => if is_continuation c then S (continuation_len s) else 0
  | EmptyString => 0
  end.
(** The character that starts at an offset, and where it ends. *)
Definition char_at (text : string) (s : nat) : option (string * nat) :=
  match str_drop s text with
  | EmptyString => None
  | String c rest =>
      let n := continuation_len rest in Some (String c (str_take n rest), s + S n)
  end.
(** The last boundary before an offset, and the character between the two. *)
Fixpoint boundary_before (text : string) (s : nat) : option nat :=
  match s with
  | O => None
  | S s => if is_char_boundary text s then Some s else boundary_before text s
  end.
Definition char_before (text : string) (s : nat) : option string :=
  p ← boundary_before text s; fst <$> char_at text p.

(** Whether a class has a character. *)
Definition in_ranges (ranges : list (ascii * ascii)) (c : ascii) : bool :=
  existsb (λ r, in_range (byte_val r.1) (byte_val r.2) c) ranges.
Definition LONG_S : string := String "197" (String "191" "").
Definition KELVIN : string := String "226" (String "132" (String "170" "")).
Definition fold_ranges (ignore_case : bool) (ranges : list (ascii * ascii)) (ch : string) : bool :=
  if ignore_case then
    match ch with
    | String c EmptyString =>
        in_ranges ranges c || in_ranges ranges (lower_ascii c)
        || (is_ascii_lower c && in_ranges ranges (ascii_of_N (N_of_ascii c - 32)))
    | _ => String.eqb ch LONG_S && (in_ranges ranges "s" || in_ranges ranges "S")
           || String.eqb ch KELVIN && (in_ranges ranges "k" || in_ranges ranges "K")
    end
  else match ch with String c EmptyString => in_ranges ranges c | _ => false end.
Definition class_has (ignore_case : bool) (c : char_class) (ch : string) : bool :=
  match c with
  | Ranges negated ranges => xorb negated (fold_ranges ignore_case ranges ch)
  | Dot => negb (String.eqb ch (String "010" ""))
  | Space => is_blank ch
  end.

(** ** What an expression matches *)

Definition capture : Type := option (nat * nat).

Section semantics.
Context `{!Unicode} (ci : bool) (text : string).

Definition word_boundary (s : nat) : bool :=
  let word (ch : option string) := match ch with Some ch => is_word_char ch | None => false end in
  xorb (word (char_before text s)) (word (fst <$> char_at text s)).

(** [matches r s c e c']: [r] can match from [s] to [e], and takes the capture
    group from [c] to [c']. *)
Inductive matches : regex → nat → capture → nat → capture → Prop :=
| m_empty s c : matches Empty s c s c
| m_start c : matches StartText 0 c 0 c
| m_boundary s c : word_boundary s = true → matches WordBoundary s c s c
| m_stop cl hi s c : matches (Repeat cl 0 hi) s c s c
| m_more cl lo hi s ch m c e c' : hi ≠ Some 0 → char_at text s = Some (ch, m) →
    class_has ci cl ch = true → matches (Repeat cl (pred lo) (pred <$> hi)) m c e c' →
    matches (Repeat cl lo hi) s c e c'
| m_seq a b s c m c1 e c' : matches a s c m c1 → matches b m c1 e c' → matches (Seq a b) s c e c'
| m_left a b s c e c' : matches a s c e c' → matches (Alt a b) s c e c'
| m_right a b s c e c' : matches b s c e c' → matches (Alt a b) s c e c'
| m_group r s c e c' : matches r s c e c' → matches (Group r) s c e (Some (s, e)).

(** ** The search *)

(** The ends of a greedy repetition, the longest first.  Every round consumes a
    character, so the text's length is fuel enough. *)
Fixpoint repeats (fuel : nat) (cl : char_class) (lo : nat) (hi : option nat) (s : nat) : list nat :=
  match fuel with
  | O => []
  | S fuel =>
      if bool_decide (hi = Some 0) then [] else
      match char_at text s with
      | Some (ch, m) =>
          if class_has ci cl ch then repeats fuel cl (pred lo) (pred <$> hi) m else []
      | None => []
      end
  end ++ (if Nat.eqb lo 0 then [s] else []).

(** The ends of [r] from [s], in the order a backtracking search prefers. *)
Fixpoint runs (r : regex) (s : nat) (c : capture) : list (nat * capture) :=
  match r with
  | Empty => [(s, c)]
  | StartText => if Nat.eqb s 0 then [(s, c)] else []
  | WordBoundary => if word_boundary s then [(s, c)] else []
  | Repeat cl lo hi => map (λ e, (e, c)) (repeats (String.length text - s) cl lo hi s)
  | Seq a b => mbind (λ p : nat * capture, runs b p.1 p.2) (runs a s c)
  | Alt a b => runs a s c ++ runs b s c
  | Group r => map (λ p : nat * capture, (p.1, Some (s, p.1))) (runs r s c)
  end.

Definition first_at (r : regex) (s : nat) : option (nat * nat * capture) :=
  if is_char_boundary text s
  then (λ p : nat * capture, (s, p.1, p.2)) <$> head (runs r s None) else None.
(** The leftmost match in the [n] offsets from [s] on. *)
Fixpoint leftmost (n : nat) (r : regex) (s : nat) : option (nat * nat * capture) :=
  match n with
  | O => None
  | S n => match first_at r s with Some m => Some m | None => leftmost n r (S s) end
  end.
(** The successive matches, each after the end of the one before: no expression of
    the table matches nothing, and the search goes on behind the match. *)
Fixpoint find_from (fuel : nat) (r : regex) (s : nat) : list (nat * nat * capture) :=
  match fuel with
  | O => []
  | S fuel =>
      match leftmost (S (String.length text) - s) r s with
      | None => []
      | Some (s', e, c) => (s', e, c) :: find_from fuel r (Nat.max e (S s'))
      end
  end.
Definition find_all (r : regex) : list (nat * nat * capture) :=
  find_from (S (String.length text)) r 0.
End semantics.

(** ** Characters *)

Lemma get_drop text s : String.get s text = str_first (str_drop s text).
Proof. revert s. induction text as [|c text IH]; intros [|s]; simpl; auto. Qed.

Lemma char_boundary_drop text s : 0 < s → s ≤ String.length text →
  is_char_boundary text s =
  match str_first (str_drop s text) with Some c => negb (is_continuation c) | None => true end.
Proof.
  intros Hs Hle. unfold is_char_boundary. destruct s as [|s]; [lia|]. rewrite get_drop.
  destruct (str_first _) eqn:E; [done|]. apply Nat.eqb_eq.
  pose proof (length_str_drop (S s) text) as Hl. destruct (str_drop (S s) text); simpl in *; [lia|done].
Qed.

Lemma continuation_len_spec s :
  continuation_len s ≤ String.length s ∧
  match str_first (str_drop (continuation_len s) s) with
  | Some c => is_continuation c = false | None => True end.
Proof.
  induction s as [|c s [IHl IHb]]; simpl; [done|].
  destruct (is_continuation c) eqn:Hc; simpl; [split; [lia|done]|split; [lia|done]].
Qed.

Section characters.
Context (text : string).

Lemma char_at_spec s ch m : char_at text s = Some (ch, m) →
  s < m ∧ m ≤ String.length text ∧ is_char_boundary text m = true ∧
  ch = str_take (m - s) (str_drop s text) ∧
  ∀ p, s < p → p < m → is_char_boundary text p = false.
Proof.
  unfold char_at. destruct (str_drop s text) as [|c rest] eqn:Hd; [done|]. intros [= <- <-].
  destruct (continuation_len_spec rest) as [Hlen Hnext].
  pose proof (length_str_drop s text) as Hl. rewrite Hd in Hl; simpl in Hl.
  assert (∀ k, str_drop (s + S k) text = str_drop k rest) as Hrest.
  { intros k. by rewrite <- str_drop_drop, Hd. }
  split_and!; [lia|lia| | |].
  - rewrite char_boundary_drop, Hrest by lia. destruct (str_first _); [|done]. by rewrite Hnext.
  - replace (s + S (continuation_len rest) - s) with (S (continuation_len rest)) by lia. done.
  - intros p Hp Hpm. destruct (Nat.le_exists_sub (s + 1) p) as (k & Hk & _); [lia|].
    assert (p = s + S k) as -> by lia. rewrite char_boundary_drop, Hrest by lia.
    assert (k < continuation_len rest) as Hklt by lia. clear -Hklt. revert k Hklt.
    induction rest as [|c rest IH]; simpl; intros k Hk; [lia|].
    destruct (is_continuation c) eqn:Hc; [|lia].
    destruct k as [|k]; simpl; [by rewrite Hc|]. apply IH. lia.
Qed.
Lemma char_at_some s : s < String.length text → ∃ ch m, char_at text s = Some (ch, m).
Proof.
  intros Hs. unfold char_at. pose proof (length_str_drop s text).
  destruct (str_drop s text); simpl in *; [lia|by eexists _, _].
Qed.
Lemma char_before_at s ch m : is_char_boundary text s = true →
  char_at text s = Some (ch, m) → char_before text m = Some ch.
Proof.
  intros Hs Hc. pose proof (char_at_spec _ _ _ Hc) as (Hlt & _ & _ & _ & Hin).
  unfold char_before. assert (boundary_before text m = Some s) as ->.
  { clear Hc. induction m as [|m IH]; [lia|]. simpl.
    destruct (Nat.eq_dec m s) as [->|Hne]; [by rewrite Hs|].
    rewrite Hin by lia. apply IH; [lia|]. intros p ? ?. apply Hin; lia. }
  simpl. by rewrite Hc.
Qed.
End characters.

(** ** The search finds what the relation allows *)

Section search.
Context `{!Unicode} (ci : bool) (text : string).

Lemma repeats_fuel cl f1 : ∀ f2 lo hi s,
  String.length text - s ≤ f1 → String.length text - s ≤ f2 →
  repeats ci text f1 cl lo hi s = repeats ci text f2 cl lo hi s.
Proof.
  assert (∀ s, String.length text - s ≤ 0 → char_at text s = None) as Hend.
  { intros s Hs. destruct (char_at text s) as [[ch m]|] eqn:Hc; [|done].
    apply char_at_spec in Hc. lia. }
  induction f1 as [|f1 IH]; intros [|f2] lo hi s H1 H2; simpl; [done|..].
  - rewrite (Hend s) by lia. by destruct (bool_decide _).
  - rewrite (Hend s) by lia. by destruct (bool_decide _).
  - destruct (char_at text s) as [[ch m]|] eqn:Hc; [|done]. apply char_at_spec in Hc.
    by rewrite (IH f2) by lia.
Qed.

Lemma repeats_elem cl fuel : ∀ lo hi s e, e ∈ repeats ci text fuel cl lo hi s →
  ∀ c, matches ci text (Repeat cl lo hi) s c e c.
Proof.
  induction fuel as [|fuel IH]; intros lo hi s e; simpl; intros He c.
  - destruct (Nat.eqb_spec lo 0) as [->|]; [|by apply elem_of_nil in He].
    apply list_elem_of_singleton in He as ->. constructor.
  - apply elem_of_app in He as [He|He].
    + case_bool_decide as Hhi; [by apply elem_of_nil in He|].
      destruct (char_at text s) as [[ch m]|] eqn:Hc; [|by apply elem_of_nil in He].
      destruct (class_has ci cl ch) eqn:Hcl; [|by apply elem_of_nil in He].
      eapply m_more; eauto.
    + destruct (Nat.eqb_spec lo 0) as [->|]; [|by apply elem_of_nil in He].
      apply list_elem_of_singleton in He as ->. constructor.
Qed.

Lemma repeats_complete cl lo hi s ch m e : hi ≠ Some 0 → char_at text s = Some (ch, m) →
  class_has ci cl ch = true →
  e ∈ repeats ci text (String.length text - m) cl (pred lo) (pred <$> hi) m →
  e ∈ repeats ci text (String.length text - s) cl lo hi s.
Proof.
  intros Hhi Hc Hcl He. apply char_at_spec in Hc as Hm.
  destruct (String.length text - s) as [|k] eqn:Hk; [lia|]. simpl.
  rewrite bool_decide_eq_false_2, Hc, Hcl by done. apply elem_of_app. left.
  by rewrite (repeats_fuel cl k (String.length text - m)) by lia.
Qed.

(** The search and the relation agree: the relation's matches are just what the
    search tries. *)
Lemma runs_spec r : ∀ s c e c', (e, c') ∈ runs ci text r s c ↔ matches ci text r s c e c'.
Proof.
  intros s c e c'. split.
  - revert s c e c'. induction r as [| | |cl lo hi|a IHa b IHb|a IHa b IHb|r IH];
      intros s c e c'; simpl; intros He.
    + apply list_elem_of_singleton in He as [= -> ->]. constructor.
    + destruct (Nat.eqb_spec s 0) as [->|]; [|by apply elem_of_nil in He].
      apply list_elem_of_singleton in He as [= -> ->]. constructor.
    + destruct (word_boundary text s) eqn:Hw; [|by apply elem_of_nil in He].
      apply list_elem_of_singleton in He as [= -> ->]. by constructor.
    + apply list_elem_of_fmap in He as (e' & [= -> ->] & He). by eapply repeats_elem.
    + apply list_elem_of_bind in He as ([m c1] & Hb & Ha). eapply m_seq; eauto.
    + apply elem_of_app in He as [He|He]; [apply m_left|apply m_right]; auto.
    + apply list_elem_of_fmap in He as ([e' c1] & [= -> ->] & He). eapply m_group; eauto.
  - induction 1; simpl.
    + by left.
    + by left.
    + rewrite H0. by left.
    + apply list_elem_of_fmap. exists s. split; [done|].
      destruct (String.length text - s); simpl; [by left|]. apply elem_of_app; right; by left.
    + simpl in *. apply list_elem_of_fmap in IHmatches as (e' & [= -> ->] & He).
      apply list_elem_of_fmap. exists e'. split; [done|]. by eapply repeats_complete.
    + apply list_elem_of_bind. by eexists (_, _).
    + apply elem_of_app. by left.
    + apply elem_of_app. by right.
    + apply list_elem_of_fmap. by eexists (_, _).
Qed.

(** A match goes forward, from boundary to boundary. *)
Lemma matches_forward r s c e c' : matches ci text r s c e c' →
  is_char_boundary text s = true → s ≤ String.length text →
  s ≤ e ∧ e ≤ String.length text ∧ is_char_boundary text e = true.
Proof.
  induction 1; intros Hs Hle; try (by auto with lia).
  - apply char_at_spec in H1 as (? & ? & Hm & _). destruct IHmatches as (? & ? & ?); [done|lia|].
    split_and!; [lia|lia|done].
  - destruct IHmatches1 as (? & ? & ?); [done..|]. destruct IHmatches2 as (? & ? & ?); [done..|].
    split_and!; [lia|lia|done].
Qed.

(** The group of a match lies on boundaries too. *)
Definition capture_ok (c : capture) : Prop :=
  match c with Some (a, b) => slice_ok text a b = true | None => True end.
Lemma matches_capture r s c e c' : matches ci text r s c e c' →
  is_char_boundary text s = true → s ≤ String.length text → capture_ok c → capture_ok c'.
Proof.
  induction 1 as [s c|c|s c Hwb|cl hi s c|cl lo hi s ch m c e c' Hhi Hch Hcl Hm IH
    |a b s c m c1 e c' Ha IHa Hb IHb|a b s c e c' Ha IHa|a b s c e c' Hb IHb|r s c e c' Hr IH];
    intros Hbs Hs Hok; auto.
  - apply char_at_spec in Hch as (? & ? & Hbm & _). by apply IH.
  - destruct (matches_forward _ _ _ _ _ Ha Hbs Hs) as (? & ? & Hbm). auto.
  - destruct (matches_forward _ _ _ _ _ Hr Hbs Hs) as (? & ? & Hbe).
    apply slice_ok_spec. by split_and!.
Qed.

Implicit Types (c : capture).

(** [r] can match at [s]; what the search reports there is what it prefers. *)
Definition matches_at (r : regex) (s : nat) : Prop := ∃ e c, matches ci text r s None e c.
Definition preferred (r : regex) (s e : nat) (c : capture) : Prop :=
  is_char_boundary text s = true ∧ s ≤ String.length text ∧ head (runs ci text r s None) = Some (e, c).

Lemma preferred_matches r s e c : preferred r s e c → matches ci text r s None e c.
Proof.
  intros (_ & _ & He). apply runs_spec. destruct (runs ci text r s None); [done|].
  injection He as ->. left.
Qed.
Lemma first_at_some r s s' e c : s ≤ String.length text →
  first_at ci text r s = Some (s', e, c) → s' = s ∧ preferred r s e c.
Proof.
  unfold first_at, preferred. intros Hle. destruct (is_char_boundary text s); [|done].
  destruct (runs ci text r s None) as [|[e0 c0] l]; [done|]. by intros [= <- <- <-].
Qed.
Lemma first_at_none r s : first_at ci text r s = None → is_char_boundary text s = true →
  ¬ matches_at r s.
Proof.
  unfold first_at. intros Hf Hb (e & c & Hm%runs_spec). rewrite Hb in Hf.
  destruct (runs ci text r s None); [by apply elem_of_nil in Hm|done].
Qed.

Lemma leftmost_some r n : ∀ s s' e c, s + n ≤ S (String.length text) →
  leftmost ci text n r s = Some (s', e, c) →
  s ≤ s' ∧ preferred r s' e c ∧
  ∀ p, s ≤ p → p < s' → is_char_boundary text p = true → ¬ matches_at r p.
Proof.
  induction n as [|n IH]; intros s s' e c Hn; simpl; [done|].
  destruct (first_at ci text r s) as [m|] eqn:Hf.
  - intros [= ->]. apply first_at_some in Hf as [-> Hp]; [|lia]. split_and!; [lia|done|].
    intros p ? ?. lia.
  - intros (Hs & Hp & Hno)%IH; [|lia]. split_and!; [lia|done|]. intros p Hsp Hps Hb.
    destruct (Nat.eq_dec p s) as [->|]; [by apply first_at_none|apply Hno; [lia..|done]].
Qed.
Lemma leftmost_none r n : ∀ s, leftmost ci text n r s = None →
  ∀ p, s ≤ p → p < s + n → is_char_boundary text p = true → ¬ matches_at r p.
Proof.
  induction n as [|n IH]; intros s; simpl; [lia|].
  destruct (first_at ci text r s) as [m|] eqn:Hf; [done|]. intros Hl p Hsp Hps Hb.
  destruct (Nat.eq_dec p s) as [->|]; [by apply first_at_none|eapply IH; [exact Hl|lia..|done]].
Qed.

Lemma find_from_preferred r fuel : ∀ s s' e c,
  (s', e, c) ∈ find_from ci text fuel r s → preferred r s' e c.
Proof.
  induction fuel as [|fuel IH]; intros s s' e c; cbn [find_from]; [by intros ?%elem_of_nil|].
  destruct (leftmost _ _ _ r s) as [[[s1 e1] c1]|] eqn:Hl; [|by intros ?%elem_of_nil].
  intros [[= -> -> ->]|Hin]%elem_of_cons; [|by eapply IH].
  destruct (Nat.le_gt_cases s (S (String.length text))) as [Hs|Hs].
  - apply leftmost_some in Hl as (_ & Hp & _); [done|lia].
  - by replace (S (String.length text) - s) with 0 in Hl by lia.
Qed.

(** Where the expression can match, a reported match is or reaches over it. *)
Lemma find_from_covers r fuel : ∀ s p, S (String.length text) - s ≤ fuel → s ≤ p →
  p ≤ String.length text → is_char_boundary text p = true → matches_at r p →
  ∃ s' e c, (s', e, c) ∈ find_from ci text fuel r s ∧ s' ≤ p ∧ (s' < p → p < e).
Proof.
  induction fuel as [|fuel IH]; intros s p Hf Hsp Hp Hb Hm; [lia|]. cbn [find_from].
  destruct (leftmost _ _ _ r s) as [[[s1 e1] c1]|] eqn:Hl.
  - apply leftmost_some in Hl as (Hs1 & _ & Hno); [|lia].
    destruct (Nat.lt_ge_cases p s1) as [Hlt|Hge]; [by destruct (Hno p)|].
    destruct (Nat.lt_ge_cases p (Nat.max e1 (S s1))) as [Hlt|Hge'].
    + exists s1, e1, c1. split_and!; [by left|lia|lia].
    + destruct (IH (Nat.max e1 (S s1)) p) as (s' & e & c & Hin & Hle); [lia|lia|done..|].
      exists s', e, c. split; [by right|done].
  - destruct (leftmost_none r _ s Hl p); [lia..|done|done].
Qed.
End search.

(** ** Whole-word patterns

    An expression between two word boundaries that consumes only ASCII word
    characters matches a whole run of word characters, or nothing of it. *)

Definition word_byte (c : ascii) : bool := is_ascii_alphanumeric c || Ascii.eqb c "_".
Definition all_bytes : list ascii := map ascii_of_nat (List.seq 0 256).
Definition class_words (ci : bool) (cl : char_class) : bool :=
  match cl with
  | Ranges false ranges =>
      forallb (λ c, negb (in_ranges ranges c) || word_byte c) all_bytes
      && negb (ci && existsb (in_ranges ranges) ["s"; "S"; "k"; "K"]%char)
  | _ => false
  end.
Fixpoint words_only (ci : bool) (r : regex) : bool :=
  match r with
  | Empty => true
  | StartText | WordBoundary => false
  | Repeat cl _ _ => class_words ci cl
  | Seq a b | Alt a b => words_only ci a && words_only ci b
  | Group r => words_only ci r
  end.
Fixpoint consumes (r : regex) : bool :=
  match r with
  | Empty | StartText | WordBoundary => false
  | Repeat _ lo _ => Nat.ltb 0 lo
  | Seq a b => consumes a || consumes b
  | Alt a b => consumes a && consumes b
  | Group r => consumes r
  end.
Fixpoint word_tail (ci : bool) (r : regex) : bool :=
  match r with
  | Seq WordBoundary Empty => true
  | Seq a b => words_only ci a && word_tail ci b
  | _ => false
  end.
Definition whole_word (p : pattern) : bool :=
  match expression p with
  | Seq WordBoundary r => word_tail (ignore_case p) r && consumes r
  | _ => false
  end.

Example whole_word_patterns :
  filter (λ np, whole_word np.2 = true) PATTERNS =
  [("aws_access_key_id", aws_access_key_id); ("github_token", github_token);
   ("stripe_secret_key", stripe_secret_key); ("hex_secret_32", hex_secret_32)].
Proof. vm_compute. reflexivity. Qed.

Section words.
Context `{!Unicode, !UnicodeLaws} (text : string).

Lemma all_bytes_all c : c ∈ all_bytes.
Proof.
  apply list_elem_of_fmap. exists (nat_of_ascii c). split; [by rewrite ascii_nat_embedding|].
  apply elem_of_seq. pose proof (nat_ascii_bounded c). lia.
Qed.
Lemma word_byte_fold c : word_byte (lower_ascii c) = true ∨ is_ascii_lower c = true → word_byte c = true.
Proof. destruct c as [[] [] [] [] [] [] [] []]; vm_compute; intuition discriminate. Qed.
Lemma word_byte_char c : word_byte c = true → is_word_char (String c "") = true.
Proof.
  intros Hw. rewrite is_word_ascii; [exact Hw|]. revert Hw.
  destruct c as [[] [] [] [] [] [] [] []]; vm_compute; congruence.
Qed.

Lemma in_ranges_word ranges c :
  forallb (λ c, negb (in_ranges ranges c) || word_byte c) all_bytes = true →
  in_ranges ranges c = true → word_byte c = true.
Proof.
  rewrite forallb_forall. intros Hall Hin. specialize (Hall c).
  rewrite Hin in Hall. apply Hall, list_elem_of_In, all_bytes_all.
Qed.
Lemma class_words_has ci cl ch : class_words ci cl = true → class_has ci cl ch = true →
  is_word_char ch = true.
Proof.
  unfold class_words, class_has. destruct cl as [[] ranges| |]; try done.
  rewrite andb_true_iff, negb_true_iff.
  intros [Hall Hfold]. rewrite xorb_false_l. unfold fold_ranges. destruct ci; cbn [andb] in Hfold.
  - destruct ch as [|c [|c' ch]].
    + done.
    + intros Hh. apply word_byte_char. rewrite !orb_true_iff, andb_true_iff in Hh.
      destruct Hh as [[Hh|Hh]|[Hh _]].
      * by eapply in_ranges_word.
      * apply word_byte_fold. left. by eapply in_ranges_word.
      * apply word_byte_fold. by right.
    + cbn [existsb] in Hfold. rewrite !orb_false_iff in Hfold. destruct Hfold as (-> & -> & -> & -> & _).
      by rewrite !andb_false_r.
  - destruct ch as [|c [|c' ch]]; try done. intros Hh. by eapply word_byte_char, in_ranges_word.
Qed.

(** Every character between two offsets is a word character. *)
Inductive word_run : nat → nat → Prop :=
| run_nil s : word_run s s
| run_cons s ch m e : char_at text s = Some (ch, m) → is_word_char ch = true →
    word_run m e → word_run s e.

Lemma word_run_trans s m e : word_run s m → word_run m e → word_run s e.
Proof. induction 1; [done|]. intros. eapply run_cons; eauto. Qed.
Lemma word_run_le s e : word_run s e → s ≤ e.
Proof. induction 1 as [|s ch m e Hc _ _ IH]; [done|]. apply char_at_spec in Hc. lia. Qed.

Lemma word_run_at s e p : word_run s e → is_char_boundary text p = true → s ≤ p → p < e →
  ∃ ch, fst <$> char_at text p = Some ch ∧ is_word_char ch = true.
Proof.
  induction 1 as [s|s ch m e Hc Hw _ IH]; intros Hp Hsp Hpe; [lia|].
  destruct (Nat.eq_dec p s) as [->|]; [exists ch; by rewrite Hc|].
  apply IH; [done| |done]. apply char_at_spec in Hc as (_ & _ & _ & _ & Hin).
  destruct (Nat.lt_ge_cases p m) as [Hlt|]; [|done]. rewrite Hin in Hp by lia. done.
Qed.
Lemma word_run_before s e p : word_run s e → is_char_boundary text s = true →
  is_char_boundary text p = true → s < p → p ≤ e →
  ∃ ch, char_before text p = Some ch ∧ is_word_char ch = true.
Proof.
  induction 1 as [s|s ch m e Hc Hw _ IH]; intros Hs Hp Hsp Hpe; [lia|].
  pose proof (char_at_spec _ _ _ _ Hc) as (_ & _ & Hm & _ & Hin).
  destruct (Nat.lt_ge_cases p m) as [Hlt|Hge]; [by rewrite Hin in Hp by lia|].
  destruct (Nat.eq_dec p m) as [->|]; [|apply IH; [done..|lia|done]].
  exists ch. split; [by eapply (char_before_at _ s)|done].
Qed.

(** No word boundary lies strictly inside a run. *)
Lemma word_run_inside s e p : word_run s e → is_char_boundary text s = true →
  is_char_boundary text p = true → s < p → p < e → word_boundary text p = false.
Proof.
  intros Hr Hs Hp Hsp Hpe. unfold word_boundary.
  destruct (word_run_before s e p Hr Hs Hp Hsp) as (ch & -> & Hw); [lia|].
  destruct (word_run_at s e p Hr Hp) as (ch' & -> & Hw'); [lia..|]. by rewrite Hw, Hw'.
Qed.

(** ** Whole-word matches are unique *)

Lemma matches_word_run ci r s c e c' : matches ci text r s c e c' → words_only ci r = true →
  word_run s e.
Proof.
  induction 1 as [s c|c|s c Hwb|cl hi s c|cl lo hi s ch m c e c' Hhi Hch Hcl Hm IH
    |a b s c m c1 e c' Ha IHa Hb IHb|a b s c e c' Ha IHa|a b s c e c' Hb IHb|r s c e c' Hr IH];
    cbn [words_only]; rewrite ?andb_true_iff; intros Hw; try done; try (by constructor); [|..|by apply IH].
  - eapply run_cons; [done| |by apply IH]. by eapply class_words_has.
  - eapply word_run_trans; [apply IHa|apply IHb]; apply Hw.
  - apply IHa, Hw.
  - apply IHb, Hw.
Qed.
Lemma matches_consumes ci r s c e c' : matches ci text r s c e c' → consumes r = true →
  is_char_boundary text s = true → s ≤ String.length text → s < e.
Proof.
  induction 1 as [s c|c|s c Hwb|cl hi s c|cl lo hi s ch m c e c' Hhi Hch Hcl Hm IH
    |a b s c m c1 e c' Ha IHa Hb IHb|a b s c e c' Ha IHa|a b s c e c' Hb IHb|r s c e c' Hr IH];
    cbn [consumes]; rewrite ?andb_true_iff, ?orb_true_iff; intros Hcons Hbs Hs; try done.
  - apply char_at_spec in Hch as (? & ? & Hbm & _).
    apply matches_forward in Hm as (? & _); [lia|done|lia].
  - destruct (matches_forward _ _ _ _ _ _ _ Ha Hbs Hs) as (? & ? & Hbm).
    destruct (matches_forward _ _ _ _ _ _ _ Hb Hbm) as (? & _); [done|].
    destruct Hcons as [Hcons|Hcons]; [specialize (IHa Hcons Hbs Hs)|specialize (IHb Hcons Hbm)]; lia.
  - by apply IHa; [apply Hcons|..].
  - by apply IHb; [apply Hcons|..].
  - by apply IH.
Qed.
Lemma matches_word_tail ci r s c e c' : matches ci text r s c e c' → word_tail ci r = true →
  word_run s e ∧ word_boundary text e = true.
Proof.
  induction 1 as [s c|c|s c Hwb|cl hi s c|cl lo hi s ch m c e c' Hhi Hch Hcl Hm IH
    |a b s c m c1 e c' Ha IHa Hb IHb|a b s c e c' Ha IHa|a b s c e c' Hb IHb|r s c e c' Hr IH];
    cbn [word_tail]; try done. intros Ht.
  assert (words_only ci a = true ∧ word_tail ci b = true ∨ a = WordBoundary ∧ b = Empty)
    as [[Hwa Hwb]|[-> ->]].
  { destruct a; try (left; by apply andb_true_iff). destruct b; first [by right|done]. }
  - destruct (IHb Hwb) as [Hrun Hend]. split; [|exact Hend].
    eapply word_run_trans; [by eapply matches_word_run|exact Hrun].
  - inversion Ha; subst. inversion Hb; subst. split; [constructor|done].
Qed.

(** A whole-word match: bounded by word boundaries, all words in between. *)
Record word_match (s e : nat) : Prop := {
  wm_before : word_boundary text s = true;
  wm_after : word_boundary text e = true;
  wm_nonempty : s < e;
  wm_run : word_run s e;
  wm_start : is_char_boundary text s = true;
  wm_end : is_char_boundary text e = true;
}.
Lemma whole_word_match p s c e c' : whole_word p = true →
  matches (ignore_case p) text (expression p) s c e c' →
  is_char_boundary text s = true → s ≤ String.length text → word_match s e.
Proof.
  unfold whole_word. destruct (expression p) as [| | | |a b| |]; try done. destruct a; try done.
  rewrite andb_true_iff. intros [Ht Hc] Hm Hb Hs.
  inversion Hm as [| | | | |? ? ? ? m c1 ? ? Hbefore Hrest| | |]; subst.
  inversion Hbefore; subst. apply matches_forward in Hrest as Hf; [|done..].
  destruct (matches_word_tail _ _ _ _ _ _ Hrest Ht) as [Hr Hw].
  split; [done|done|by eapply matches_consumes|done|done|apply Hf].
Qed.
Lemma word_match_unique s1 e1 s2 e2 : word_match s1 e1 → word_match s2 e2 →
  s1 ≤ s2 → s2 < e1 → s1 = s2 ∧ e1 = e2.
Proof.
  intros [Hb1 Ha1 Hn1 Hr1 Hs1 He1] [Hb2 Ha2 Hn2 Hr2 Hs2 He2] Hle Hlt.
  assert (s1 = s2) as ->.
  { destruct (Nat.eq_dec s1 s2) as [->|]; [done|].
    rewrite (word_run_inside s1 e1 s2) in Hb2 by (done || lia). done. }
  split; [done|]. destruct (Nat.lt_trichotomy e1 e2) as [H12|[->|H21]]; [|done|].
  - rewrite (word_run_inside s2 e2 e1) in Ha1 by (done || lia). done.
  - rewrite (word_run_inside s2 e1 e2) in Ha2 by (done || lia). done.
Qed.

(** So every match of a whole-word pattern is reported as it is. *)
Lemma whole_word_found p s e c : whole_word p = true →
  matches (ignore_case p) text (expression p) s None e c →
  is_char_boundary text s = true → s ≤ String.length text →
  ∃ c', (s, e, c') ∈ find_all (ignore_case p) text (expression p).
Proof.
  intros Hp Hm Hb Hs. assert (word_match s e) as Hwm by (by eapply whole_word_match).
  destruct (find_from_covers (ignore_case p) text (expression p) (S (String.length text)) 0 s)
    as (s' & e' & c' & Hin & Hle & Hlt); [lia|lia|done|done|by eexists _, _|].
  exists c'. apply find_from_preferred in Hin as Hpref.
  pose proof (preferred_matches _ _ _ _ _ _ Hpref) as Hm'. destruct Hpref as (Hb' & Hs' & _).
  assert (word_match s' e') as Hwm' by (by eapply whole_word_match).
  destruct (word_match_unique s' e' s e) as [-> ->]; [done..| |done].
  destruct (Nat.eq_dec s' s) as [->|]; [apply Hwm'|apply Hlt; lia].
Qed.
End words.
