(* ===== verification/SecretsPlugin.v ===== *)
(** * The secrets plugin ([cpex-secrets-detection]: [lib.rs])

    A stage handler scans the parts of a message its stage is about and denies,
    redacts or lets the message pass.  The framework's results, violations and
    extensions are records of what the plugin puts into them. *)

From S2P Require Import Prelude Cmf SecretsConfig SecretsScanner.
From stdpp Require Import sorting.

(** ** Framework values *)

Record PluginViolation : Type := {
  pv_code : string;
  pv_reason : string;
  pv_description : string;
  pv_details : list (string * Value);
}.
(** [PluginResult::deny], [::modify_payload] and [::allow]. *)
Inductive Outcome : Type :=
| Deny (violation : PluginViolation)
| ModifyPayload (payload : MessagePayload)
| Allow.
(** What the handler made, and what it then assigned to its fields. *)
Record PluginResult : Type := {
  outcome_of : Outcome;
  assigned_payload : option MessagePayload;
  metadata : option Value;
}.
(** [Extensions]: the request's extension, if any, with its trace id. *)
Record RequestExtension : Type := { trace_id : option string }.
Record Extensions : Type := { request : option RequestExtension }.

(** ** The plugin *)

Definition KIND : string := "validator/secrets-detection".
Definition VIOLATION_CODE : string := "SECRETS_DETECTED".
Definition MAX_SECRET_TYPES : nat := 32.

Inductive Stage : Type := PromptPreFetch | ToolPreInvoke | ToolPostInvoke | ResourcePostFetch.
#[export] Instance Stage_eq_dec : EqDecision Stage.
Proof. solve_decision. Defined.

Inductive DetectionOutcome : Type := Masked | Blocked | NoOutcome.

Record PayloadScan : Type := {
  scan_count : nat;
  scan_findings : list Finding;
  scan_modified : option MessagePayload;
}.
Record PartScanReport : Type := {
  part_count : nat;
  part_findings : list Finding;
  part_redacted : bool;
}.

Definition block_description (stage : Stage) : string :=
  match stage with
  | PromptPreFetch => "Potential secrets detected in prompt arguments"
  | ToolPreInvoke => "Potential secrets detected in tool arguments"
  | ToolPostInvoke => "Potential secrets detected in tool result"
  | ResourcePostFetch => "Potential secrets detected in resource content"
  end.

Definition should_block (config : SecretsDetectionConfig) (count : nat) : bool :=
  block_on_detection config && (min_findings_to_block config <=? Z.of_nat count)%Z.

Definition sanitized_findings (findings : list Finding) : Value :=
  JArray (map (λ finding, JObject [("type", JString (pii_type finding))]) findings).

Definition json_count (n : nat) : Value := JNumber (PosInt (Z.of_nat n)).

Definition build_violation (stage : Stage) (count : nat) (findings : list Finding)
    : PluginViolation := {|
  pv_code := VIOLATION_CODE;
  pv_reason := "Secrets detected";
  pv_description := block_description stage;
  pv_details := [("count", json_count count); ("examples", sanitized_findings findings)] |}.

(** [Vec::dedup] *)
Fixpoint dedup (l : list string) : list string :=
  match l with
  | a :: (b :: _) as l' => if String.eqb a b then dedup l' else a :: dedup l'
  | _ => l
  end.

Definition secret_types (findings : list Finding) : list string :=
  take MAX_SECRET_TYPES (dedup (merge_sort String.le (map pii_type findings))).

Definition build_metrics (extensions : Extensions) (count : nat) (findings : list Finding)
    (outcome : DetectionOutcome) : option Value :=
  request ← request extensions;
  trace_id ← trace_id request;
  if String.eqb trace_id "" || Nat.eqb count 0 then None else
  let '(masked, blocked) := match outcome with
    | Masked => (count, 0) | Blocked => (0, count) | NoOutcome => (0, 0) end in
  Some (JObject [("secrets_detection", JObject [
    ("total_detections", json_count count);
    ("total_masked", json_count masked);
    ("total_blocked", json_count blocked);
    ("secret_types", JArray (map JString (secret_types findings)))])]).

Definition attach_metrics (result : PluginResult) (extensions : Extensions) (count : nat)
    (findings : list Finding) (outcome : DetectionOutcome) : PluginResult :=
  match build_metrics extensions count findings outcome with
  | None => result
  | Some m => {| outcome_of := result.(outcome_of);
                 assigned_payload := assigned_payload result; metadata := Some m |}
  end.

Section handler.
Context `{!Regexes} (order : list string) (config : SecretsDetectionConfig).

(** The three arms that scan a JSON value, told how to put its redaction back;
    the resource arm, which scans a text.  [None] is a panic. *)
Definition scan_value_part (part : ContentPart) (value : Value)
    (put : Value → option ContentPart) : option (ContentPart * option PartScanReport) :=
  report ← scan_json_value order config value;
  let is_redacted := redact config && Nat.ltb 0 (count report) in
  part' ← (if is_redacted then put (redacted report) else Some part);
  Some (part', Some {| part_count := count report; part_findings := findings report;
                       part_redacted := is_redacted |}).

Definition scan_content_part (stage : Stage) (part : ContentPart)
    : option (ContentPart * option PartScanReport) :=
  match stage, part with
  | PromptPreFetch, PPromptRequest content =>
      scan_value_part part (JObject (requested_arguments content)) (λ value,
        arguments ← as_object value;
        Some (PPromptRequest {|
          prompt_request_id := prompt_request_id content;
          requested_name := requested_name content;
          requested_arguments := arguments;
          server_id := server_id content |}))
  | ToolPreInvoke, PToolCall content =>
      scan_value_part part (JObject (tool_call_args content)) (λ value,
        arguments ← as_object value;
        Some (PToolCall {|
          tool_call_id := tool_call_id content;
          tool_call_name := tool_call_name content;
          tool_call_args := arguments;
          namespace := namespace content |}))
  | ToolPostInvoke, PToolResult content =>
      scan_value_part part (result_content content) (λ value,
        Some (PToolResult {|
          result_tool_call_id := result_tool_call_id content;
          result_tool_name := result_tool_name content;
          result_content := value;
          result_is_error := result_is_error content |}))
  | ResourcePostFetch, PResource content =>
      match resource_content content with
      | None => Some (part, None)
      | Some text =>
          report ← scan_direct_text order config text;
          let is_redacted := redact config && Nat.ltb 0 (count report) in
          part' ← (if is_redacted then
            redacted_text ← as_str (redacted report);
            Some (PResource {|
              resource_request_id := resource_request_id content;
              resource_uri := resource_uri content;
              resource_name := resource_name content;
              resource_description := resource_description content;
              resource_type := resource_type content;
              resource_content := Some redacted_text;
              resource_blob := resource_blob content;
              resource_mime_type := resource_mime_type content;
              resource_size_bytes := resource_size_bytes content;
              resource_annotations := resource_annotations content;
              resource_version := resource_version content |})
            else Some part);
          Some (part', Some {| part_count := count report; part_findings := findings report;
                               part_redacted := is_redacted |})
      end
  | _, _ => Some (part, None)
  end.

(** The loop over the parts, which it edits in place. *)
Fixpoint scan_parts (stage : Stage) (parts : list ContentPart) (total : nat)
    (found : list Finding) (redacted_any : bool)
    : option (list ContentPart * nat * list Finding * bool) :=
  match parts with
  | [] => Some ([], total, found, redacted_any)
  | part :: parts =>
      '(part', report) ← scan_content_part stage part;
      '(parts', total', found', any') ←
        match report with
        | None => scan_parts stage parts total found redacted_any
        | Some report =>
            scan_parts stage parts (total + part_count report) (found ++ part_findings report)
              (if redact config && part_redacted report then true else redacted_any)
        end;
      Some (part' :: parts', total', found', any')
  end.

Definition scan_payload (stage : Stage) (payload : MessagePayload) : option PayloadScan :=
  let '(MkMessage schema_version role content channel) := payload in
  match scan_parts stage content 0 [] false with
  | None => None
  | Some (content', total, found, redacted_any) =>
      Some {| scan_count := total; scan_findings := found;
              scan_modified := if redacted_any : bool
                then Some (MkMessage schema_version role content' channel) else None |}
  end.

Definition handle (stage : Stage) (payload : MessagePayload) (extensions : Extensions)
    : option PluginResult :=
  scan ← scan_payload stage payload;
  if should_block config (scan_count scan) then
    let violation := build_violation stage (scan_count scan) (scan_findings scan) in
    let modified := match scan_modified scan with Some p => p | None => payload end in
    let result := {| outcome_of := Deny violation; assigned_payload := Some modified;
                     metadata := None |} in
    Some (attach_metrics result extensions (scan_count scan) (scan_findings scan) Blocked)
  else match scan_modified scan with
  | Some modified =>
      let result := {| outcome_of := ModifyPayload modified; assigned_payload := None;
                       metadata := None |} in
      Some (attach_metrics result extensions (scan_count scan) (scan_findings scan) Masked)
  | None =>
      let result := {| outcome_of := Allow; assigned_payload := None; metadata := None |} in
      Some (if Nat.ltb 0 (scan_count scan)
            then attach_metrics result extensions (scan_count scan) (scan_findings scan) NoOutcome
            else result)
  end.
End handler.

(** ** The factory *)

(** The plugin, with the hooks of its [PluginConfig], and one handler per stage. *)
Record SecretsDetectionCore : Type := {
  core_hooks : list string;
  scanner_config : SecretsDetectionConfig;
}.
Record StageHandler : Type := { handler_core : SecretsDetectionCore; handler_stage : Stage }.

Definition SecretsDetectionCore_new `{!RawFormat} (hooks : list string) (value : option Value)
    : result ConfigError SecretsDetectionCore :=
  scanner_config ← from_value value;
  Ok {| core_hooks := hooks; scanner_config := scanner_config |}.

Definition handler_for_hook (hook : string) (core : SecretsDetectionCore)
    : option (string * StageHandler) :=
  stage ← (if String.eqb hook "cmf.prompt_pre_fetch" then Some PromptPreFetch
           else if String.eqb hook "cmf.tool_pre_invoke" then Some ToolPreInvoke
           else if String.eqb hook "cmf.tool_post_invoke" then Some ToolPostInvoke
           else if String.eqb hook "cmf.resource_post_fetch" then Some ResourcePostFetch
           else None);
  Some (hook, {| handler_core := core; handler_stage := stage |}).

(** [PluginInstance]: the plugin and the handlers of the hooks it knows. *)
Definition secrets_factory_create `{!RawFormat} (hooks : list string) (value : option Value)
    : result ConfigError (SecretsDetectionCore * list (string * StageHandler)) :=
  core ← SecretsDetectionCore_new hooks value;
  Ok (core, omap (λ hook, handler_for_hook hook core) hooks).

(** [HookHandler::handle] of a stage handler. *)
Definition stage_handle `{!Regexes} (order : list string) (self : StageHandler)
    (payload : MessagePayload) (extensions : Extensions) : option PluginResult :=
  handle order (scanner_config (handler_core self)) (handler_stage self) payload extensions.

(** ** Handling a message *)

Section reference.
Context (config : SecretsDetectionConfig) (d : string → list Finding * string).

(** What a stage scans of a part, and the part with that replaced. *)
Definition scanned_value (stage : Stage) (part : ContentPart) : option Value :=
  match stage, part with
  | PromptPreFetch, PPromptRequest content => Some (JObject (requested_arguments content))
  | ToolPreInvoke, PToolCall content => Some (JObject (tool_call_args content))
  | ToolPostInvoke, PToolResult content => Some (result_content content)
  | ResourcePostFetch, PResource content => JString <$> resource_content content
  | _, _ => None
  end.
Definition replace_value (part : ContentPart) (value : Value) : ContentPart :=
  match part with
  | PPromptRequest c => PPromptRequest {|
      prompt_request_id := prompt_request_id c; requested_name := requested_name c;
      requested_arguments := default [] (as_object value); server_id := server_id c |}
  | PToolCall c => PToolCall {|
      tool_call_id := tool_call_id c; tool_call_name := tool_call_name c;
      tool_call_args := default [] (as_object value); namespace := namespace c |}
  | PToolResult c => PToolResult {|
      result_tool_call_id := result_tool_call_id c; result_tool_name := result_tool_name c;
      result_content := value; result_is_error := result_is_error c |}
  | PResource c => PResource {|
      resource_request_id := resource_request_id c; resource_uri := resource_uri c;
      resource_name := resource_name c; resource_description := resource_description c;
      resource_type := resource_type c; resource_content := as_str value;
      resource_blob := resource_blob c; resource_mime_type := resource_mime_type c;
      resource_size_bytes := resource_size_bytes c;
      resource_annotations := resource_annotations c; resource_version := resource_version c |}
  | _ => part
  end.

(** The findings of a part, and the part with its secrets redacted. *)
Definition part_result (stage : Stage) (part : ContentPart) : list Finding * ContentPart :=
  match scanned_value stage part with
  | None => ([], part)
  | Some value =>
      let scan := scan_leaves config d value [] true in
      (scan.1, if redact config && Nat.ltb 0 (length scan.1)
               then replace_value part scan.2 else part)
  end.
Definition payload_findings (stage : Stage) (payload : MessagePayload) : list Finding :=
  concat (map (part_result stage) (message_content payload)).*1.
Definition payload_redacted (stage : Stage) (payload : MessagePayload) : MessagePayload :=
  let '(MkMessage schema_version role content channel) := payload in
  MkMessage schema_version role (map (part_result stage) content).*2 channel.

Definition scannable (stage : Stage) (payload : MessagePayload) : Prop :=
  Forall (λ part, ∀ v, scanned_value stage part = Some v → wf_value v) (message_content payload).
End reference.

Section handling.
Context `{!Regexes, !RegexLaws} (order : list string) (config : SecretsDetectionConfig).
Abbreviation d := (detected order config).

Definition part_report (stage : Stage) (part : ContentPart) : option PartScanReport :=
  let found := (part_result config d stage part).1 in
  (λ _, {| part_count := length found; part_findings := found;
           part_redacted := redact config && Nat.ltb 0 (length found) |})
    <$> scanned_value stage part.

Lemma scan_value_part_leaves part value put replaced : wf_value value →
  put (scan_leaves config d value [] true).2 = Some replaced →
  let found := (scan_leaves config d value [] true).1 in
  let is_redacted := redact config && Nat.ltb 0 (length found) in
  scan_value_part order config part value put =
    Some (if is_redacted then replaced else part,
      Some {| part_count := length found; part_findings := found; part_redacted := is_redacted |}).
Proof.
  intros Hwf Hput. cbv zeta. unfold scan_value_part, scan_json_value.
  rewrite scan_inner_leaves by exact Hwf. simpl.
  destruct (redact config && _); [|done]. by rewrite Hput.
Qed.

Lemma scan_content_part_result stage part :
  (∀ v, scanned_value stage part = Some v → wf_value v) →
  scan_content_part order config stage part =
    Some ((part_result config d stage part).2, part_report stage part).
Proof.
  intros Hwf. unfold part_report, part_result.
  destruct stage, part as [| | |c|c|c| |c| |]; try done; simpl in Hwf;
    cbn [scanned_value scan_content_part].
  - erewrite scan_value_part_leaves; [reflexivity|by apply Hwf|done].
  - erewrite scan_value_part_leaves; [reflexivity|by apply Hwf|done].
  - erewrite scan_value_part_leaves; [reflexivity|by apply Hwf|done].
  - destruct (resource_content c) as [text|]; [|done]. simpl.
    rewrite scan_direct_text_detected. simpl. by destruct (redact config && _).
Qed.

Lemma scan_parts_result stage parts : ∀ total found any,
  Forall (λ part, ∀ v, scanned_value stage part = Some v → wf_value v) parts →
  let r := map (part_result config d stage) parts in
  scan_parts order config stage parts total found any =
    Some (r.*2, total + length (concat r.*1), found ++ concat r.*1,
          any || redact config && Nat.ltb 0 (length (concat r.*1))).
Proof.
  induction parts as [|part parts IH]; intros total found any Hwf; csimpl.
  - by rewrite Nat.add_0_r, app_nil_r, andb_false_r, orb_false_r.
  - inversion Hwf as [|?? Hpart Hrest]; subst. rewrite scan_content_part_result by exact Hpart.
    unfold part_report. csimpl. rewrite length_app.
    destruct (scanned_value stage part) as [v|] eqn:Hv; simpl.
    + rewrite IH by exact Hrest. simpl. rewrite <-app_assoc, Nat.add_assoc. do 2 f_equal.
      destruct (redact config); simpl; [|by rewrite !andb_false_r || rewrite ?orb_false_r].
      destruct (part_result config d stage part).1, any; simpl; try done.
    + assert ((part_result config d stage part).1 = []) as ->
        by (unfold part_result; by rewrite Hv).
      rewrite IH by exact Hrest. done.
Qed.

(** Nothing to mask: the parts are as they were. *)
Lemma parts_unmasked stage parts :
  redact config && Nat.ltb 0 (length (concat (map (part_result config d stage) parts).*1)) = false →
  (map (part_result config d stage) parts).*2 = parts.
Proof.
  induction parts as [|part parts IH]; csimpl; [done|]. rewrite length_app. intros Hz.
  rewrite IH.
  - f_equal. unfold part_result in *. destruct (scanned_value stage part) as [v|]; [|done].
    simpl in *. destruct (redact config); [|done]. simpl in *.
    destruct (scan_leaves config d v [] true).1; done.
  - destruct (redact config); [|done]. simpl in *. apply Nat.ltb_ge. apply Nat.ltb_ge in Hz. lia.
Qed.

Lemma scan_payload_result stage payload : scannable stage payload →
  let found := payload_findings config d stage payload in
  let mask := redact config && Nat.ltb 0 (length found) in
  scan_payload order config stage payload = Some {|
    scan_count := length found; scan_findings := found;
    scan_modified := if mask then Some (payload_redacted config d stage payload) else None |} ∧
  (mask = false → payload_redacted config d stage payload = payload).
Proof.
  destruct payload as [version role content channel]. intros Hwf. cbv zeta.
  unfold scan_payload, payload_findings, payload_redacted. cbn [message_content].
  rewrite scan_parts_result by exact Hwf. split; [done|].
  intros Hmask. by rewrite parts_unmasked.
Qed.

(** The answer of the handler. *)
Lemma handle_answer stage payload extensions : scannable stage payload →
  let found := payload_findings config d stage payload in
  let redacted := payload_redacted config d stage payload in
  let block := should_block config (length found) in
  let mask := redact config && Nat.ltb 0 (length found) in
  handle order config stage payload extensions = Some {|
    outcome_of := if block then Deny (build_violation stage (length found) found)
                  else if mask then ModifyPayload redacted else Allow;
    assigned_payload := if block then Some redacted else None;
    metadata := build_metrics extensions (length found) found
                  (if block then Blocked else if mask then Masked else NoOutcome) |}.
Proof.
  intros Hwf. cbv zeta. destruct (scan_payload_result stage payload Hwf) as [Hscan Hsame].
  unfold handle. rewrite Hscan. simpl. set (found := payload_findings config d stage payload) in *.
  destruct (should_block _ _).
  - unfold attach_metrics. destruct (redact config && _); simpl; rewrite ?Hsame by done;
      by destruct (build_metrics _ _ _ _).
  - unfold attach_metrics. destruct (redact config && _); simpl.
    + by destruct (build_metrics _ _ _ _).
    + destruct (Nat.ltb_spec 0 (length found)) as [?|Hz]; simpl.
      * by destruct (build_metrics _ _ _ _).
      * assert (length found = 0) as -> by lia. unfold build_metrics.
        destruct (request extensions) as [r|]; [|done]. simpl.
        destruct (trace_id r); [|done]. simpl. by rewrite orb_true_r.
Qed.

(** C8: the handler always answers.  It blocks exactly when blocking is on and
    there are at least the configured number of findings, and then hands out the
    redacted message with the violation; otherwise it modifies the message when
    redaction is on and there are findings, and else allows it.  In the message it
    hands out every part its stage scans is redacted and nothing else changes. *)
Theorem handle_spec stage payload extensions : scannable stage payload →
  ∃ d, (∀ text, detect_and_redact order config text = Some (d text)) ∧
  let found := payload_findings config d stage payload in
  let redacted := payload_redacted config d stage payload in
  let block := block_on_detection config
    && (min_findings_to_block config <=? Z.of_nat (length found))%Z in
  let mask := redact config && Nat.ltb 0 (length found) in
  handle order config stage payload extensions = Some {|
    outcome_of := if block then Deny (build_violation stage (length found) found)
                  else if mask then ModifyPayload redacted else Allow;
    assigned_payload := if block then Some redacted else None;
    metadata := build_metrics extensions (length found) found
                  (if block then Blocked else if mask then Masked else NoOutcome) |}.
Proof.
  intros Hwf. exists d. split; [apply detect_detected|]. by apply handle_answer.
Qed.
End handling.

(** ** What reports say *)

Definition strictly_before (a b : string) : Prop := String.le a b ∧ a ≠ b.

Lemma elem_of_dedup x l : x ∈ dedup l ↔ x ∈ l.
Proof.
  induction l as [|a [|b l] IH]; [done|done|].
  change (dedup (a :: b :: l)) with
    (if String.eqb a b then dedup (b :: l) else a :: dedup (b :: l)).
  destruct (String.eqb_spec a b) as [->|Hne]; set_solver.
Qed.
Lemma dedup_strict l : StronglySorted String.le l → StronglySorted strictly_before (dedup l).
Proof.
  induction l as [|a [|b l] IH]; intros Hs; [constructor|repeat constructor|].
  inversion Hs as [|?? Hs' Ha]; subst.
  change (dedup (a :: b :: l)) with
    (if String.eqb a b then dedup (b :: l) else a :: dedup (b :: l)).
  destruct (String.eqb_spec a b) as [->|Hne]; [auto|]. constructor; [auto|].
  inversion Hs' as [|?? _ Hb]; subst. rewrite Forall_forall in *.
  intros x Hx. rewrite elem_of_dedup in Hx. split; [by apply Ha|]. intros <-.
  apply elem_of_cons in Hx as [?|Hx]; [done|]. apply Hne.
  apply (anti_symm String.le); [apply Ha; left|by apply Hb].
Qed.
Lemma strict_take n l : StronglySorted strictly_before l → StronglySorted strictly_before (take n l).
Proof. rewrite <-(take_drop n l) at 1. apply StronglySorted_app_1_l. Qed.
Lemma strict_NoDup l : StronglySorted strictly_before l → NoDup l.
Proof.
  induction 1 as [|a l _ IH Ha]; constructor; [|done].
  rewrite Forall_forall in Ha. intros Hin. by destruct (Ha a Hin).
Qed.

(** C30: neither the violation nor the metrics depend on anything of a finding
    but its type, so no matched text reaches them.  The types in the metrics are
    in strict order, at most [MAX_SECRET_TYPES], only types that were found, and
    all of them when the findings come from the pattern table. *)
Theorem reports_sanitized stage count outcome extensions fs gs :
  map pii_type fs = map pii_type gs →
  build_violation stage count fs = build_violation stage count gs ∧
  build_metrics extensions count fs outcome = build_metrics extensions count gs outcome ∧
  StronglySorted strictly_before (secret_types fs) ∧
  length (secret_types fs) ≤ MAX_SECRET_TYPES ∧
  (∀ t, t ∈ secret_types fs → t ∈ map pii_type fs) ∧
  ((∀ t, t ∈ map pii_type fs → t ∈ PATTERN_NAMES) → ∀ t, t ∈ map pii_type fs → t ∈ secret_types fs).
Proof.
  intros Heq.
  assert (StronglySorted String.le (merge_sort String.le (map pii_type fs))) as Hs
    by apply (StronglySorted_merge_sort String.le).
  apply dedup_strict in Hs.
  assert (∀ t, t ∈ dedup (merge_sort String.le (map pii_type fs)) ↔ t ∈ map pii_type fs) as Hel
    by (intros t; by rewrite elem_of_dedup, merge_sort_Permutation).
  split_and!.
  - unfold build_violation, sanitized_findings.
    rewrite <-!(map_map pii_type (λ t, JObject [("type", JString t)])). by rewrite Heq.
  - unfold build_metrics, secret_types. by rewrite Heq.
  - by apply strict_take.
  - unfold secret_types. rewrite length_take. lia.
  - intros t Ht. apply Hel. unfold secret_types in Ht. by eapply subseteq_take.
  - intros Hnames t Ht. unfold secret_types. rewrite take_ge; [by apply Hel|].
    transitivity (length PATTERN_NAMES); [|unfold MAX_SECRET_TYPES; simpl; lia].
    apply submseteq_length, NoDup_submseteq; [by apply strict_NoDup|].
    intros x Hx. by apply Hnames, Hel.
Qed.

(** ** A concrete message *)

Module ConcretePlugin.
Import ConcreteRegexes.

Definition payload (arguments : list (string * Value)) : MessagePayload :=
  MkMessage "2.0" RoleAssistant
    [PText "key=AKIAABCD!";
     PToolCall {| tool_call_id := "id"; tool_call_name := "t"; tool_call_args := arguments;
                  namespace := None |}] None.
Definition leaking : MessagePayload := payload [("q", JString "key=AKIAABCD!")].
Definition traced : Extensions := {| request := Some {| trace_id := Some "trace" |} |}.

(** The text part is not of the stage and keeps its secret. *)
Example handle_leaking : handle PATTERN_NAMES config ToolPreInvoke leaking traced =
  Some {|
    outcome_of := Deny (build_violation ToolPreInvoke 1
      [{| pii_type := "aws_access_key_id"; preview := "AKIAABCD" |}]);
    assigned_payload := Some (payload [("q", JString "key=***!")]);
    metadata := Some (JObject [("secrets_detection", JObject [
      ("total_detections", json_count 1); ("total_masked", json_count 0);
      ("total_blocked", json_count 1);
      ("secret_types", JArray [JString "aws_access_key_id"])])]) |}.
Proof. vm_compute. reflexivity. Qed.

Lemma handle_spec_witness : scannable ToolPreInvoke leaking ∧
  ∃ d, (∀ text, detect_and_redact PATTERN_NAMES config text = Some (d text)) ∧
  let found := payload_findings config d ToolPreInvoke leaking in
  let redacted := payload_redacted config d ToolPreInvoke leaking in
  let block := block_on_detection config
    && (min_findings_to_block config <=? Z.of_nat (length found))%Z in
  let mask := redact config && Nat.ltb 0 (length found) in
  handle PATTERN_NAMES config ToolPreInvoke leaking traced = Some {|
    outcome_of := if block then Deny (build_violation ToolPreInvoke (length found) found)
                  else if mask then ModifyPayload redacted else Allow;
    assigned_payload := if block then Some redacted else None;
    metadata := build_metrics traced (length found) found
                  (if block then Blocked else if mask then Masked else NoOutcome) |}.
Proof.
  assert (scannable ToolPreInvoke leaking) as Hwf.
  { repeat constructor; simpl; intros v [= <-]; repeat split; repeat constructor; set_solver. }
  split; [exact Hwf|]. apply (handle_spec PATTERN_NAMES config ToolPreInvoke leaking traced Hwf).
Defined.

Definition found : list Finding :=
  [{| pii_type := "slack_token"; preview := "xoxb-1" |};
   {| pii_type := "aws_access_key_id"; preview := "AKIA" |};
   {| pii_type := "slack_token"; preview := "xoxb-2" |}].
Definition unrelated : list Finding :=
  map (λ f, {| pii_type := pii_type f; preview := "" |}) found.

Lemma reports_sanitized_witness :
  map pii_type found = map pii_type unrelated ∧
  secret_types found = ["aws_access_key_id"; "slack_token"] ∧
  build_metrics traced 3 found Masked = build_metrics traced 3 unrelated Masked.
Proof.
  split; [reflexivity|]. split; [reflexivity|].
  apply (reports_sanitized PromptPreFetch 3 Masked traced found unrelated). reflexivity.
Defined.
End ConcretePlugin.
