(* ===== verification/SecretsGateway.v ===== *)
(** * The secrets plugin in the gateway

    The plugin of [cpex-secrets-detection] behind the hooks of the MCP handlers:
    what a call sends to its backend, and what it returns to the client, when the
    runtime runs that plugin.  That the plugin manager invokes its one plugin and
    turns the plugin's answer into a pipeline result is the hypothesis
    [runs_secrets]; it is what the plugin's own tests with the manager check
    ([plugins/cpex-secrets-detection/tests/plugin_manager.rs]): a pipeline that
    allows a message returns it, edited or not. *)

From S2P Require Import Prelude HttpTypes Apis McpStandardHeaders Rmcp Cmf.
From S2P Require Import SecretsConfig SecretsScanner SecretsPlugin.
From S2P Require Import ConfigStore Layers UpstreamHeaders Gateway EndToEnd.
From S2P Require Import CpexRuntime CpexPrompts CpexResources CpexTools CpexRegistry GatewayPlugins.

(** ** The plugin behind the plugin manager *)

Section plugin.
Context `{!CmfConstants} {P : Type} `{!CpexManager P} `{!Regexes, !RegexLaws}.
Context (order : list string) (config : SecretsDetectionConfig).
Abbreviation d := (detected order config).

Definition stage_hook (stage : Stage) : string :=
  match stage with
  | PromptPreFetch => PROMPT_PRE_FETCH
  | ToolPreInvoke => TOOL_PRE_INVOKE
  | ToolPostInvoke => TOOL_POST_INVOKE
  | ResourcePostFetch => RESOURCE_POST_FETCH
  end.

(** The pipeline's result for [payload] is what its only plugin answered: a denial
    or the payload the pipeline ends with, which is the plugin's or, if the plugin
    only allowed it, the one it was given. *)
Definition answers (payload : MessagePayload) (result : PluginResult) (res : PipelineResult Context)
    : Prop :=
  match outcome_of result with
  | Deny _ => denied res = true
  | ModifyPayload edited => denied res = false ∧ modified_payload res = Some (MessageOf edited)
  | Allow => denied res = false ∧ modified_payload res = Some (MessageOf payload)
  end.

(** The manager runs the secrets plugin, and no other, for the hook of a stage. *)
Definition runs_secrets (manager : Manager) (stage : Stage) : Prop :=
  ∀ payload context p, scannable stage payload →
  ∃ extensions result, handle order config stage payload extensions = Some result ∧
    answers payload result (invoke_named manager (stage_hook stage) payload context p).1.

(** What the plugin makes of a JSON value: its findings, whether they block, and the
    value that passes. *)
Definition value_findings (v : Value) : list Finding := (scan_leaves config d v [] true).1.
Definition blocks (v : Value) : bool := should_block config (length (value_findings v)).
Definition masks (v : Value) : bool := redact config && Nat.ltb 0 (length (value_findings v)).
Definition cleaned (v : Value) : Value :=
  if masks v then (scan_leaves config d v [] true).2 else v.
Definition cleaned_object (o : JsonObject) : JsonObject := default [] (as_object (cleaned (JObject o))).

Lemma invoked m stage payload context p :
  runs_secrets m stage → scannable stage payload →
  let res := (invoke_named m (stage_hook stage) payload context p).1 in
  denied res = should_block config (length (payload_findings config d stage payload)) ∧
  (denied res = false →
   modified_message_payload res = Some (payload_redacted config d stage payload)).
Proof.
  intros Hruns Hwf. destruct (Hruns payload context p Hwf) as (ext & result & Hh & Ha).
  rewrite handle_answer in Hh by exact Hwf. injection Hh as <-. cbv zeta.
  destruct (scan_payload_result order config stage payload Hwf) as [_ Hsame].
  unfold answers in Ha; cbn [outcome_of] in Ha. unfold modified_message_payload.
  destruct (should_block _ _); [by rewrite Ha|].
  destruct (redact config && _); destruct Ha as [-> ->]; [done|]. by rewrite Hsame.
Qed.

Lemma replace_value_same stage part v : scanned_value stage part = Some v → replace_value part v = part.
Proof.
  destruct stage, part as [| | |[]|[]|[]| |content| |]; try done; cbn; try (by intros [= <-]).
  intros (text & Hc & ->)%fmap_Some. destruct content; cbn in *. by rewrite Hc.
Qed.

(** The same for a message of one part. *)
Lemma invoked_part m stage part version role channel context p v :
  runs_secrets m stage → scanned_value stage part = Some v → wf_value v →
  let res := (invoke_named m (stage_hook stage) (MkMessage version role [part] channel) context p).1 in
  denied res = blocks v ∧
  (denied res = false → modified_message_payload res =
     Some (MkMessage version role [replace_value part (cleaned v)] channel)).
Proof.
  intros Hruns Hv Hwf. destruct (invoked m stage (MkMessage version role [part] channel) context p Hruns)
    as [Hd Hm].
  { constructor; [|constructor]. intros v' Hv'. congruence. }
  unfold payload_findings, payload_redacted, part_result in Hd, Hm. cbn in Hd, Hm.
  rewrite Hv in Hd, Hm. cbn in Hd, Hm. rewrite app_nil_r in Hd. split; [exact Hd|].
  intros Hf. rewrite (Hm Hf). unfold cleaned, masks.
  change (value_findings v) with (scan_leaves config d v [] true).1.
  destruct (redact config && _); [done|]. by rewrite (replace_value_same stage part v Hv).
Qed.
End plugin.

(** ** The hooks of the runtime *)

Section hooks.
Context `{!CmfConstants, !RmcpTypes, !ToolConstructors, !RmcpConstructors, !CmfMessages, !CmfMessagesLaws}.
Context `{!Base64, !SerdeValue CallToolResult} {P : Type} `{!CpexManager P} `{!Regexes, !RegexLaws}.
Context (order : list string) (config : SecretsDetectionConfig).
Abbreviation d := (detected order config).
Abbreviation blocks := (blocks order config).
Abbreviation masks := (masks order config).
Abbreviation cleaned := (cleaned order config).
Abbreviation cleaned_object := (cleaned_object order config).
Abbreviation runs_secrets := (runs_secrets order config).

Lemma cleaned_entries o :
  (scan_leaves config d (JObject o) [] true).2 = JObject (default [] (as_object (scan_leaves config d (JObject o) [] true).2)).
Proof. done. Qed.

(** The arguments a pre hook of the secrets plugin lets through. *)
Definition passed_arguments (original : option JsonObject) : ArgumentsUpdate :=
  from_modified original (cleaned_object (default [] original)).

(** The state a pre hook leaves is for the runtime it ran on. *)
Lemma before_state {U} (default : U) runtime operation name payload update (w : World P) u state :
  (before default runtime operation name payload update w).1 = Ok (u, state) →
  (∀ st, state = Some st → call_runtime st = runtime) ∧
  (state = None → post (CpexRuntime.hooks runtime operation) = false).
Proof.
  unfold before. destruct (pre (hooks runtime operation)) eqn:Hpre; cbn [negb andb].
  - cbn [next_correlation_id]. destruct (invoke _ _ _ _ _) as [res w1]. destruct (denied res); [done|].
    destruct (match modified_message_payload res with Some _ => _ | None => _ end); [|done].
    cbn. destruct (post _); intros [= <- <-]; split; try done; by intros st [= <-].
  - destruct (post _) eqn:Hpost; cbn; intros [= <- <-]; split; try done; by intros st [= <-].
Qed.

(** [before], when its pre hook runs the secrets plugin alone on a message of one
    part. *)
Lemma before_secrets {U} (default : U) runtime operation name payload update w stage part role value :
  pre (hooks runtime operation) = true → (hooks_of operation).1 = stage_hook stage →
  runs_secrets (manager runtime) stage →
  (∀ id, payload id = message_payload role [part id]) →
  (∀ id, scanned_value stage (part id) = Some value) → wf_value value →
  ∀ u state, (before default runtime operation name payload update w).1 = Ok (u, state) →
  blocks value = false ∧
  ∃ id, update (message_payload role [replace_value (part id) (cleaned value)]) id = Ok u.
Proof.
  intros Hpre Hhook Hruns Hpayload Hpart Hwf u state. unfold before. rewrite Hpre.
  cbn [negb andb next_correlation_id]. unfold invoke. cbn [plugin_state].
  set (id := correlation_name _ _). rewrite Hpayload, Hhook. unfold message_payload.
  destruct (invoked_part order config (manager runtime) stage (part id) SCHEMA_VERSION role None None
    (plugin_state w) value Hruns (Hpart id) Hwf) as [Hd Hm].
  destruct (invoke_named _ _ _ _ _) as [res p]; cbn [fst] in Hd, Hm.
  destruct (denied res); [done|]. rewrite (Hm eq_refl), <- Hd. clear Hm Hd.
  destruct (update _ id) as [u'|] eqn:Hu; [|done]. cbn. intros [= <- <-]. split; [done|]. by exists id.
Qed.

Lemma before_tool_secrets runtime request target bname w result :
  let arguments := default [] (tool_request_arguments request) in
  pre (hooks runtime OTool) = true → runs_secrets (manager runtime) ToolPreInvoke →
  wf_value (JObject arguments) →
  (before_tool_call runtime request target bname w).1 = Ok result →
  blocks (JObject arguments) = false ∧
  pre_arguments result = passed_arguments (tool_request_arguments request) ∧
  (∀ st, pre_state result = Some st → call_runtime st = runtime) ∧
  (pre_state result = None → post (hooks runtime OTool) = false).
Proof.
  intros arguments Hpre Hruns Hwf. unfold before_tool_call.
  destruct (before _ _ _ _ _ _ _) as [[[u state]|e] w1] eqn:Hb; [|done]. intros [= <-].
  pose proof (before_secrets Unchanged runtime OTool target _ _ w ToolPreInvoke
    (λ id, PToolCall {| tool_call_id := id; tool_call_name := target; tool_call_args := arguments;
                        namespace := Some bname |}) RoleAssistant
    (JObject arguments) Hpre eq_refl Hruns (λ id, eq_refl) (λ id, eq_refl) Hwf u state
    (f_equal fst Hb)) as [Hblock [id Hu]].
  destruct (before_state _ _ _ _ _ _ _ _ _ (f_equal fst Hb)) as [Hst Hnone].
  split_and!; [done| |done|done]. cbn [pre_arguments]. unfold passed_arguments. fold arguments.
  unfold message_payload, tool_call_arguments in Hu.
  cbn [replace_value] in Hu. rewrite tool_calls_singleton in Hu. by injection Hu as <-.
Qed.

Lemma before_prompt_secrets runtime request target bname w result :
  let arguments := default [] (prompt_request_args request) in
  pre (hooks runtime OPrompt) = true → runs_secrets (manager runtime) PromptPreFetch →
  wf_value (JObject arguments) →
  (before_get_prompt runtime request target bname w).1 = Ok result →
  blocks (JObject arguments) = false ∧
  pre_arguments result = passed_arguments (prompt_request_args request).
Proof.
  intros arguments Hpre Hruns Hwf. unfold before_get_prompt.
  destruct (before _ _ _ _ _ _ _) as [[[u state]|e] w1] eqn:Hb; [|done]. intros [= <-].
  pose proof (before_secrets Unchanged runtime OPrompt target _ _ w PromptPreFetch
    (λ id, PPromptRequest {| prompt_request_id := id; requested_name := target;
       requested_arguments := arguments; server_id := Some bname |}) RoleUser
    (JObject arguments) Hpre eq_refl Hruns (λ id, eq_refl) (λ id, eq_refl) Hwf u state
    (f_equal fst Hb)) as [Hblock [id Hu]].
  split; [done|]. cbn [pre_arguments]. unfold passed_arguments. fold arguments.
  unfold message_payload, prompt_request_arguments in Hu.
  cbn [replace_value] in Hu. rewrite prompt_requests_singleton in Hu.
  cbn [requested_name prompt_request_id server_id requested_arguments] in Hu.
  rewrite !String.eqb_refl, bool_decide_eq_true_2 in Hu by done. by injection Hu as <-.
Qed.

(** A post hook that runs the secrets plugin alone on a message of one part. *)
Lemma after_secrets {T} `{!CmfResponse T} (self : CallState) (response out : T) w stage part role value :
  (hooks_of (OPERATION T)).2 = stage_hook stage → runs_secrets (manager (call_runtime self)) stage →
  to_payload response (call_name self) (call_id self) = Ok (message_payload role [part]) →
  scanned_value stage part = Some value → wf_value value →
  (after self response w).1.1 = Ok out →
  blocks value = false ∧
  apply_payload response (message_payload role [replace_value part (cleaned value)])
    (call_name self) (call_id self) = Ok out.
Proof.
  intros Hhook Hruns Hpayload Hpart Hwf. unfold after, call_invoke, invoke, message_payload.
  rewrite Hpayload, Hhook.
  destruct (invoked_part order config (manager (call_runtime self)) stage part SCHEMA_VERSION role None
    (Some (call_context self)) (plugin_state w) value Hruns Hpart Hwf) as [Hd Hm].
  unfold message_payload. destruct (invoke_named _ _ _ _ _) as [res p]; cbn [fst] in Hd, Hm.
  cbn. destruct (denied res); [done|]. unfold call_apply. cbn [call_name call_id].
  by rewrite (Hm eq_refl), <- Hd.
Qed.

(** The tool result that reaches the client for the backend's [answered]: read back
    from its JSON with the secrets redacted, an absent error flag made explicit. *)
Definition tool_json (answered : CallToolResult) : Value := default JNull (to_value answered).
Definition released_tool (answered : CallToolResult) : CallToolResult :=
  let failed := default false (is_error answered) in
  match from_value (cleaned (tool_json answered)) with
  | Ok result => set_is_error (Some failed) result
  | Err _ => raw_tool_result (cleaned (tool_json answered)) failed
  end.
(** A result without secrets that survives JSON is otherwise as it was. *)
Lemma released_unmasked (answered : CallToolResult) v :
  to_value answered = Some v → from_value v = Ok answered → masks v = false →
  released_tool answered = set_is_error (Some (default false (is_error answered))) answered.
Proof.
  intros Hto Hfrom Hmask. unfold released_tool, tool_json, SecretsGateway.cleaned. rewrite Hto. cbn.
  by rewrite Hmask, Hfrom.
Qed.

Lemma after_tool_secrets (self : CallState) (answered out : CallToolResult) w :
  runs_secrets (manager (call_runtime self)) ToolPostInvoke → wf_value (tool_json answered) →
  (after_tool_call self answered w).1.1 = Ok out →
  blocks (tool_json answered) = false ∧ out = released_tool answered.
Proof.
  intros Hruns Hwf Hout.
  destruct (after_secrets (CmfResponse0 := CallToolResult_cmf) self answered out w ToolPostInvoke
    (PToolResult {| result_tool_call_id := call_id self; result_tool_name := call_name self;
       result_content := tool_json answered; result_is_error := default false (is_error answered) |})
    RoleTool (tool_json answered) eq_refl Hruns eq_refl eq_refl Hwf Hout) as [Hblock Hr].
  split; [done|]. unfold released_tool.
  cbn [replace_value apply_payload CallToolResult_cmf] in Hr. injection Hr as <-.
  unfold tool_result_response, message_payload.
  rewrite tool_results_singleton, text_content_singleton. done.
Qed.

(** A notification of the tool that is forwarded. *)
Lemma after_event_secrets {T} `{!SerdeValue T} (self : CallState) (e e' : T) w :
  let json := default JNull (to_value e) in
  runs_secrets (manager (call_runtime self)) ToolPostInvoke → wf_value json →
  (after_stream_event self e w).1.1 = Ok (Some e') →
  blocks json = false ∧ from_value (cleaned json) = Ok e'.
Proof.
  intros json Hruns Hwf Hout.
  assert ((after self {| event := e |} w).1.1 = Ok {| event := e' |}) as Hafter.
  { revert Hout. unfold after_stream_event, after. destruct (call_invoke _ _ _) as [[[res|] self'] w']; [|done].
    cbn [mbind result_bind fst]. destruct (denied res); [done|].
    destruct (call_apply _ _ _) as [[x]|]; [|done]. by intros [= <-]. }
  destruct (after_secrets (CmfResponse0 := ToolEvent_cmf) self {| event := e |} {| event := e' |} w
    ToolPostInvoke
    (PToolResult {| result_tool_call_id := call_id self; result_tool_name := call_name self;
       result_content := json; result_is_error := false |})
    RoleTool json eq_refl Hruns eq_refl eq_refl Hwf Hafter) as [Hblock Hr].
  split; [done|].
  cbn [replace_value apply_payload ToolEvent_cmf] in Hr.
  unfold tool_result_content, message_payload in Hr. rewrite tool_results_singleton in Hr. cbn in Hr.
  destruct (from_value _) as [x|]; [|done]. by injection Hr as ->.
Qed.

(** The resource that reaches the client for the backend's [answered]: its texts are
    scanned, together they may block, and each is cleaned on its own. *)
Definition content_text (c : ResourceContents) : option string :=
  match c with TextResourceContents _ _ text _ => Some text | _ => None end.
Definition content_findings (c : ResourceContents) : list Finding :=
  from_option (λ text, value_findings order config (JString text)) [] (content_text c).
Definition resource_findings (r : ReadResourceResult) : list Finding :=
  concat (map content_findings (contents r)).
Definition released_content (c : ResourceContents) : ResourceContents :=
  match c with
  | TextResourceContents uri mime_type text meta =>
      TextResourceContents uri mime_type (default text (as_str (cleaned (JString text)))) meta
  | _ => c
  end.
Definition released_resource (answered : ReadResourceResult) : ReadResourceResult :=
  {| contents := map released_content (contents answered); resource_rest := resource_rest answered |}.

Lemma cleaned_string text : ∃ text', (scan_leaves config d (JString text) [] true).2 = JString text'.
Proof. simpl. destruct (should_scan_field_path config [] true); by eexists. Qed.

Lemma content_result c id r :
  cmf_resource_content c id = Some r →
  (part_result config d ResourcePostFetch (PResource r)).1 = content_findings c ∧
  edit_resource c (part_result config d ResourcePostFetch (PResource r)).2 = Some (released_content c).
Proof.
  destruct c as [uri mime text meta|uri mime blob meta|]; cbn -[scan_leaves]; [| |done].
  - intros [= <-]. unfold part_result. cbn -[scan_leaves]. split; [done|].
    unfold SecretsGateway.cleaned, SecretsGateway.masks, value_findings.
    destruct (cleaned_string text) as [text' ->]. by destruct (redact config && _).
  - destruct (base64_decode blob) as [bytes|] eqn:Hb; [|done]. intros [= <-].
    unfold part_result. cbn. split; [done|]. by rewrite bool_decide_eq_true_2.
Qed.

Lemma contents_result cs id parts :
  mapM (λ content, PResource <$> cmf_resource_content content id) cs = Some parts →
  let results := map (part_result config d ResourcePostFetch) parts in
  results.*1 = map content_findings cs ∧ length parts = length cs ∧
  edit_resources cs results.*2 = Some (map released_content cs).
Proof.
  intros Hm%mapM_Some. induction Hm as [|c part cs parts Hc _ IH]; [done|]. csimpl.
  destruct (cmf_resource_content c id) as [r|] eqn:Hr; simplify_eq/=.
  destruct (content_result c id r Hr) as [-> ->], IH as (-> & -> & ->). done.
Qed.

Lemma after_resource_secrets (self : CallState) (answered out : ReadResourceResult) w :
  runs_secrets (manager (call_runtime self)) ResourcePostFetch →
  (after self answered w).1.1 = Ok out →
  should_block config (length (resource_findings answered)) = false ∧ out = released_resource answered.
Proof.
  intros Hruns. unfold after, call_invoke, invoke. cbn [to_payload ReadResourceResult_cmf OPERATION].
  unfold resource_result_payload.
  destruct (mapM _ _) as [parts|] eqn:Hparts; [|done]. cbn [mbind option_bind ok_or].
  destruct (contents_result _ _ _ Hparts) as (Hfound & Hlen & Hedit).
  assert (scannable ResourcePostFetch (message_payload RoleAssistant parts)) as Hwf.
  { apply Forall_forall. intros part _ v. destruct part as [| | | | | | |c| |]; try done. cbn.
    destruct (resource_content c); intros [= <-]. done. }
  destruct (invoked order config (manager (call_runtime self)) ResourcePostFetch
    (message_payload RoleAssistant parts) (Some (call_context self)) (plugin_state w) Hruns Hwf) as [Hd Hm].
  change (hooks_of OResource).2 with (stage_hook ResourcePostFetch).
  assert (payload_findings config d ResourcePostFetch (message_payload RoleAssistant parts)
    = resource_findings answered) as Hpf.
  { unfold payload_findings, resource_findings, message_payload. cbn [message_content]. by rewrite Hfound. }
  rewrite Hpf in Hd. destruct (invoke_named _ _ _ _ _) as [res p]; cbn [fst] in Hd, Hm.
  cbn [fst]. destruct (denied res); [done|]. unfold call_apply. cbn [call_name call_id].
  rewrite (Hm eq_refl), <- Hd. intros Hout. split; [done|].
  cbn [apply_payload ReadResourceResult_cmf] in Hout. unfold resource_result_response, message_payload,
    payload_redacted in Hout. cbn [message_content] in Hout.
  rewrite length_fmap, length_map, Hlen, Nat.eqb_refl in Hout. cbn [negb] in Hout.
  rewrite Hedit in Hout. by injection Hout as <-.
Qed.
End hooks.

(** ** A Hoare logic of the handlers

    [triple P I m Q]: started in a world with [I], every action of [m] is one [P]
    allows, and if [m] succeeds then [Q] holds of its result and the world. *)

Section triples.
Context `{!RmcpHeaders, !HttpLib, !Base64, !SerdeFloat, !UrlParts, !TraceContext}.
Context `{!HashIter, !RmcpTypes, !ProtocolVersions} {E : Type} `{!Backends E, !PluginHooks E}.
Context (P : Event → Prop).

Definition triple {A} (I : E → Prop) (m : G (E := E) A) (Q : A → E → Prop) : Prop :=
  ∀ g r g', m g = (r, g') → I (env g) →
    (∃ events, trace g' = trace g ++ events ∧ Forall P events) ∧ ∀ a, r = Ok a → Q a (env g').

Lemma triple_lift {A} (r : result ErrorData A) (I : E → Prop) (Q : A → E → Prop) :
  (∀ a w, r = Ok a → I w → Q a w) → triple I (lift r) Q.
Proof.
  intros HQ g x g' [-> ->]%lift_inv HI. split; [exists []; by rewrite app_nil_r|]. eauto.
Qed.
Lemma triple_mret {A} (a : A) (I : E → Prop) (Q : A → E → Prop) :
  (∀ w, I w → Q a w) → triple I (mret a) Q.
Proof. intros HQ. apply (triple_lift (Ok a)). intros ? w [= <-]. apply HQ. Qed.
Lemma triple_act {A} event (f : E → A * E) (I : E → Prop) (Q : A → E → Prop) :
  P event → (∀ w, I w → Q (f w).1 (f w).2) → triple I (act event f) Q.
Proof.
  intros HP HQ g x g' (a & w & Hf & -> & ->)%act_inv HI. split.
  - exists [event]. by rewrite Forall_singleton.
  - intros ? [= <-]. specialize (HQ _ HI). by rewrite Hf in HQ.
Qed.
Lemma triple_track token downstream (I : E → Prop) : triple I (track token downstream) (λ _, I).
Proof. intros g x g' [= <- <-] HI. split; [exists []; by rewrite app_nil_r|done]. Qed.
Lemma triple_untrack token (I : E → Prop) : P (EUntrack token) → triple I (untrack token) (λ _, I).
Proof. intros HP g x g' [= <- <-] HI. split; [exists [EUntrack token]; by rewrite Forall_singleton|done]. Qed.

Lemma triple_bind {A B} (m : G A) (k : A → G B) I Q R :
  triple I m Q → (∀ a, triple (Q a) (k a) R) → triple I (m ≫= k) R.
Proof.
  intros Hm Hk g r g' [(e & Hrun & ->)|(a & g1 & Hrun & Hgo)]%G_bind_inv HI.
  - destruct (Hm _ _ _ Hrun HI) as [Hev _]. by split.
  - destruct (Hm _ _ _ Hrun HI) as [(e1 & Ht1 & He1) HQ].
    destruct (Hk a _ _ _ Hgo (HQ a eq_refl)) as [(e2 & Ht2 & He2) HR]. split; [|done].
    exists (e1 ++ e2). by rewrite Ht2, Ht1, <- app_assoc, Forall_app.
Qed.

(** The wait for a call's response. *)
Lemma triple_call token (I : E → Prop) :
  P (ECancel CANCEL_REASON) → (∀ w, I w → I (be_wait token w).2) →
  (∀ w, I w → I (be_cancel token CANCEL_REASON w).2) →
  triple I (call_backend_tool token) (λ response w, I w ∧
    ∀ answered, response = Ok answered → ∃ w0 r,
      (be_wait token w0).1 = WResponse r ∧ tool_response r = Ok answered).
Proof.
  intros HP Hwait Hcancel g x g'. unfold call_backend_tool. intros Hrun HI.
  specialize (Hwait _ HI). destruct (be_wait token (env g)) as [waited w] eqn:Hw. destruct waited as [r|].
  - injection Hrun as <- <-. split; [exists []; by rewrite app_nil_r|].
    intros ? [= <-]. split; [done|]. intros answered Ha. exists (env g), r. by rewrite Hw.
  - unfold mbind, G_bind, act, mret, G_ret in Hrun. cbn [env trace in_flight_calls] in Hrun.
    specialize (Hcancel _ Hwait). cbn [snd] in Hcancel.
    destruct (be_cancel _ _ w) as [y w1]. injection Hrun as <- <-. cbn [env trace snd] in *. split.
    + exists [ECancel CANCEL_REASON]. by rewrite Forall_singleton.
    + intros ? [= <-]. split; [done|]. done.
Qed.
End triples.

(** ** Calls *)

Section calls.
Context `{!RmcpHeaders, !HttpLib, !Base64, !SerdeFloat, !UrlParts, !TraceContext}.
Context `{!HashIter, !ProtocolVersions}.
Context `{!CmfConstants, !RmcpTypes, !ToolConstructors, !RmcpConstructors, !CmfMessages, !CmfMessagesLaws}.
Context `{!CmfSerde, !SerdeValue CallToolResult}.
Context {P : Type} `{!CpexManager P} {B : Type} `{!Backends B} `{!Regexes, !RegexLaws}.
Context (others : PluginEnv P B → PluginEnv P B) (header_error_text : HeaderError → string).
Context (order : list string) (config : SecretsDetectionConfig).
#[local] Instance calls_backends : Backends (PluginEnv P B) := awaited_backends others.
Implicit Types (g : GState (E := PluginEnv P B)) (cx : RequestContext) (x : PluginEnv P B).
Abbreviation blocks := (blocks order config).
Abbreviation cleaned_object := (cleaned_object order config).
Abbreviation runs_secrets := (runs_secrets order config).

(** What else runs meanwhile, reloads, other calls and the relays of this one, keeps
    the runtime of a call's hook state. *)
Definition keeps_runtimes : Prop :=
  ∀ x address st, tool_states x address = Some st →
  ∃ st', tool_states (others x) address = Some st' ∧ call_runtime st' = call_runtime st.

(** The hook state of a tool call is for [runtime]. *)
Definition state_on (runtime : GatewayPluginRuntime) (state : option State) x : Prop :=
  match state with
  | Some (ToolHookState address) => ∃ st, tool_states x address = Some st ∧ call_runtime st = runtime
  | _ => False
  end.
Lemma state_awaiting {A} runtime state (f : B → A * B) x :
  keeps_runtimes → state_on runtime state x → state_on runtime state (awaiting others f x).2.
Proof.
  intros Hkeep. destruct state as [[address|]|]; [|done..]. intros (st & Hst & <-).
  unfold awaiting. destruct (f _) as [a b]. cbn [snd].
  destruct (Hkeep (set_backend b x) address st Hst) as (st' & ? & ?). by exists st'.
Qed.

(** A call goes out with the client's arguments redacted: as the plugin rewrote them,
    or as the client sent them where that is the same. *)
Definition redacted_arguments (original sent : option JsonObject) : Prop :=
  let arguments := default [] original in
  sent = Some (cleaned_object arguments) ∨
  (sent = original ∧ (arguments = cleaned_object arguments ∨ same_object arguments (cleaned_object arguments))).

Lemma passed_redacted original :
  redacted_arguments original (apply_to (passed_arguments order config original) original).
Proof.
  unfold passed_arguments, redacted_arguments. cbv zeta.
  destruct (arguments_update_spec original (cleaned_object (default [] original))) as [->|[-> Hsame]];
    [by left|right]. split; [done|]. destruct original as [o|]; [by right|left]. by rewrite Hsame.
Qed.

(** What may happen in a tool call: beyond the pre hook nothing unless the arguments
    pass, and only the redacted arguments are sent. *)
Definition tool_action (request : CallToolRequestParams) (event : Event) : Prop :=
  match event with
  | EPre _ => True
  | ESend sent =>
      blocks (JObject (default [] (tool_request_arguments request))) = false ∧
      redacted_arguments (tool_request_arguments request) (tool_request_arguments sent)
  | _ => blocks (JObject (default [] (tool_request_arguments request))) = false
  end.
(** The result of a tool call: an answer of the backend that passes, with its secrets
    redacted. *)
Definition tool_returns (out : CallToolResult) : Prop :=
  ∃ token x response answered, (be_wait token x).1 = WResponse response ∧
    tool_response response = Ok answered ∧
    blocks (tool_json answered) = false ∧ out = released_tool order config answered.

Lemma triple_connect I allowed bname backend cx :
  (∀ connection, allowed (EConnect bname connection)) →
  (∀ connection x, I x → I (be_connect bname connection x).2) →
  triple allowed I (connect_backend_for_request bname backend cx) (λ _, I).
Proof.
  intros HP HI. unfold connect_backend_for_request. eapply triple_bind.
  - apply (triple_act _ _ _ _ (λ _, I)); [apply HP|]. intros x Hx. by apply (HI _ x).
  - intros a. apply triple_lift. auto.
Qed.
Lemma triple_close I allowed :
  allowed EClose → (∀ x, I x → I (be_close x).2) → triple allowed I close_backend (λ _, I).
Proof.
  intros HP HI. unfold close_backend. eapply triple_bind.
  - apply (triple_act _ _ _ _ (λ _, I)); [done|]. exact HI.
  - intros a. apply triple_mret. auto.
Qed.
Lemma triple_start I allowed sent downstream :
  allowed (ESend sent) → (∀ x, I x → I (be_send sent x).2) →
  triple allowed I (start_tool_call sent downstream) (λ _, I).
Proof.
  intros HP HI. assert (triple allowed I (act (ESend sent) (be_send sent)) (λ _, I)) as Hsend
    by (by apply triple_act).
  unfold start_tool_call. destruct downstream as [token|]; [|done].
  eapply triple_bind; [done|]. intros [t|e].
  - eapply triple_bind; [apply triple_track|]. intros []. apply triple_mret. auto.
  - apply triple_mret. auto.
Qed.

(** The part of a tool call behind its pre hook. *)
Lemma tool_tail runtime request cx bname backend state sent :
  keeps_runtimes → runs_secrets (manager runtime) ToolPostInvoke →
  (∀ answered, wf_value (tool_json answered)) →
  (∀ event, match event with EPre _ | ESend _ => True | _ => tool_action request event end) →
  tool_action request (ESend sent) →
  triple (tool_action request) (state_on runtime state)
    (_ ← connect_backend_for_request bname backend cx;
     handle ← start_tool_call sent (cx_progress_token cx);
     token ← lift (map_err backend_forward_error handle);
     response ← call_backend_tool token;
     _ ← stop_tracking_tool_call token;
     _ ← close_backend;
     response ← lift (map_err backend_forward_error response);
     match state with
     | Some state => r ← act EPost (hook_after_tool state response); lift r
     | None => mret response
     end)
    (λ out _, tool_returns out).
Proof.
  intros Hkeep Hruns Hwf Hall Hsend.
  eapply triple_bind; [apply triple_connect; [intros c; apply (Hall (EConnect bname c))|]|].
  { intros c x. apply state_awaiting, Hkeep. }
  intros [].
  eapply triple_bind; [apply triple_start; [exact Hsend|]|].
  { intros x. apply state_awaiting, Hkeep. }
  intros handle. eapply triple_bind; [apply triple_lift; intros token x _ Hx; exact Hx|].
  intros token. eapply triple_bind; [apply triple_call; [apply (Hall (ECancel CANCEL_REASON))|..]|].
  { intros x. apply state_awaiting, Hkeep. }
  { intros x. apply state_awaiting, Hkeep. }
  intros response. eapply triple_bind; [apply triple_untrack; apply (Hall (EUntrack token))|].
  intros []. eapply triple_bind; [apply triple_close; [apply (Hall EClose)|]|].
  { intros x [Hx ?]. split; [by apply state_awaiting|done]. }
  intros []. eapply triple_bind.
  { apply (triple_lift _ _ _ (λ answered x, state_on runtime state x ∧ ∃ token x0 r,
      (be_wait token x0).1 = WResponse r ∧ tool_response r = Ok answered)).
    intros answered x Hr [Hx Hback]. split; [done|]. destruct response as [a|]; [|done].
    injection Hr as ->. destruct (Hback _ eq_refl) as (x0 & r & ? & ?). by exists token, x0, r. }
  intros answered. destruct state as [[address|]|]; [|intros g r g' _ [[] _]..].
  eapply triple_bind.
  { apply (triple_act _ _ _ _ (λ out _, ∀ a, out = Ok a → tool_returns a)); [apply (Hall EPost)|].
    intros x ((st & Hst & Hrt) & tok & x0 & resp & Hw & Hr) out. cbn [hook_after_tool runtime_hooks].
    rewrite Hst. destruct (after_tool_call st answered (world x)) as [[o st'] w] eqn:Ha. cbn [fst].
    intros ->. destruct (after_tool_secrets order config st answered out (world x)) as [Hb ->].
    - by rewrite Hrt.
    - apply Hwf.
    - by rewrite Ha.
    - by exists tok, x0, resp, answered. }
  intros out. apply triple_lift. intros a x Ho Hout. by apply Hout.
Qed.

(** A pre hook of a handler, on the runtime that is current. *)
Lemma triple_pre {A} allowed svc target (f : PluginEnv P B → result ErrorData A * PluginEnv P B)
    (none : A) (I : PluginEnv P B → Prop) (Q : A → PluginEnv P B → Prop) :
  plugin_runtime svc = true → allowed (EPre target) →
  (∀ x a, I x → (f x).1 = Ok a → Q a (f x).2) →
  triple allowed I
    (if plugin_runtime svc then r ← act (EPre target) f; lift r else mret none) Q.
Proof.
  intros -> HP HQ. eapply triple_bind.
  - apply (triple_act _ _ _ _ (λ r x, ∀ a, r = Ok a → Q a x)); [done|]. intros x Hx a Ha. auto.
  - intros r. apply triple_lift. auto.
Qed.

Definition on_active (runtime : GatewayPluginRuntime) x : Prop := runtime_state x = Active runtime.

Lemma tool_pre_hook runtime request target bname x result :
  let arguments := default [] (tool_request_arguments request) in
  on_active runtime x → pre (hooks runtime OTool) = true → post (hooks runtime OTool) = true →
  runs_secrets (manager runtime) ToolPreInvoke → wf_value (JObject arguments) →
  (hook_before_tool request target bname x).1 = Ok result →
  blocks (JObject arguments) = false ∧
  pre_arguments result = passed_arguments order config (tool_request_arguments request) ∧
  state_on runtime (pre_state result) (hook_before_tool request target bname x).2.
Proof.
  intros arguments Hactive Hpre Hpost Hruns Hwf. cbn [hook_before_tool runtime_hooks].
  unfold on_current. rewrite Hactive. cbn [current].
  destruct (before_tool_call runtime request target bname (world x)) as [[r|e] w] eqn:Hb; [|done].
  destruct (before_tool_secrets order config runtime request target bname (world x) r) as
    (Hblock & Hargs & Hst & Hnone); [done..|by rewrite Hb|].
  destruct (pre_state r) as [st|] eqn:Hs; [|by rewrite Hnone in Hpost]. cbn. intros [= <-].
  split; [done|]. split; [done|]. exists st. split; [|by apply Hst].
  cbn. by rewrite functions.fn_lookup_insert.
Qed.

(** C12: with the secrets plugin on both tool hooks, a tool call of a client leaks no
    secret the plugin detects, in either direction.  Arguments that block make no
    connection; any others reach the backend only redacted.  What the client gets
    for a success is an answer of the backend that does not block, redacted in the
    same way, whatever reloads, other calls and the relay of this call's
    notifications do meanwhile. *)
Theorem tool_secrets_contained svc request cx runtime g r g'
    (Hrun : call_tool header_error_text svc request cx g = (r, g')) (Hfresh : trace g = [])
    (Hplugins : plugin_runtime svc = true) (Hactive : runtime_state (env g) = Active runtime)
    (Hpre : pre (hooks runtime OTool) = true) (Hpost : post (hooks runtime OTool) = true)
    (Hruns : runs_secrets (manager runtime) ToolPreInvoke)
    (Hruns' : runs_secrets (manager runtime) ToolPostInvoke)
    (Hrequest : wf_value (JObject (default [] (tool_request_arguments request))))
    (Hresults : ∀ answered, wf_value (tool_json answered)) (Hothers : keeps_runtimes) :
  Forall (tool_action request) (trace g') ∧ ∀ out, r = Ok out → tool_returns out.
Proof.
  assert (triple (tool_action request) (on_active runtime)
    (call_tool header_error_text svc request cx) (λ out _, tool_returns out)) as Htriple.
  { unfold call_tool, validate_call. eapply triple_bind; [apply triple_lift; intros vc x _ Hx; exact Hx|].
    intros vc. eapply triple_bind; [apply triple_lift; intros rb x _ Hx; exact Hx|].
    intros [route backend]. eapply triple_bind.
    - apply (triple_pre _ _ _ _ _ _ (λ result x,
        (blocks (JObject (default [] (tool_request_arguments request))) = false ∧
         pre_arguments result = passed_arguments order config (tool_request_arguments request)) ∧
        state_on runtime (pre_state result) x)); [done|done|].
      intros x result Hx Hr.
      destruct (tool_pre_hook runtime request _ _ x result Hx Hpre Hpost Hruns Hrequest Hr); tauto.
    - intros result g0 r0 g0' Hgo [[Hblock Hargs] Hstate].
      eapply tool_tail; [exact Hothers|exact Hruns'|exact Hresults| | |exact Hgo|exact Hstate].
      + by intros [].
      + split; [done|]. cbn. rewrite Hargs. apply passed_redacted. }
  destruct (Htriple _ _ _ Hrun Hactive) as [(events & -> & Hev) Hout]. rewrite Hfresh. by split.
Qed.

(** The same for the arguments of a prompt. *)
Definition prompt_action (request : GetPromptRequestParams) (event : Event) : Prop :=
  match event with
  | EPre _ => True
  | EGetPrompt sent =>
      blocks (JObject (default [] (prompt_request_args request))) = false ∧
      redacted_arguments (prompt_request_args request) (prompt_request_args sent)
  | _ => blocks (JObject (default [] (prompt_request_args request))) = false
  end.
(** The result of a resource request: an answer of the backend whose texts, together,
    do not block, each redacted. *)
Definition resource_returns (out : ReadResourceResult) : Prop :=
  ∃ sent x answered, (be_read_resource sent x).1 = Ok answered ∧
    should_block config (length (resource_findings order config answered)) = false ∧
    out = released_resource order config answered.

(** Behind a pre hook nothing is said of the world any more. *)
Lemma triple_any {A} allowed (m : G (E := PluginEnv P B) A) : emits allowed m → triple allowed (λ _, True) m (λ _ _, True).
Proof. intros Hm g r g' Hrun _. split; [by eapply Hm|done]. Qed.

Lemma get_prompt_triple svc request cx runtime :
  plugin_runtime svc = true → pre (hooks runtime OPrompt) = true →
  runs_secrets (manager runtime) PromptPreFetch →
  wf_value (JObject (default [] (prompt_request_args request))) →
  triple (prompt_action request) (on_active runtime) (get_prompt svc request cx) (λ _ _, True).
Proof.
  intros Hplugins Hpre Hruns Hwf. unfold get_prompt, validate_call.
  eapply triple_bind; [apply triple_lift; intros vc x _ Hx; exact Hx|]. intros vc.
  eapply triple_bind; [apply triple_lift; intros route x _ Hx; exact Hx|]. intros route.
  eapply triple_bind; [apply triple_lift; intros backend x _ Hx; exact Hx|]. intros backend.
  eapply triple_bind.
  - apply (triple_pre _ _ _ _ _ _ (λ result _,
      blocks (JObject (default [] (prompt_request_args request))) = false ∧
      pre_arguments result = passed_arguments order config (prompt_request_args request))); [done|done|].
    intros x result Hx. cbn [hook_before_prompt runtime_hooks]. unfold on_current. rewrite Hx. cbn [current].
    destruct (before_get_prompt _ _ _ _ _) as [[p|e] w] eqn:Hb; [|done]. intros [= <-].
    eapply before_prompt_secrets; [exact Hpre|exact Hruns|exact Hwf|by rewrite Hb].
  - intros result g r g' Hgo [Hblock Hargs].
    eapply triple_any; [|exact Hgo|done]. unfold connect_backend_for_request, close_backend.
    emits; apply emits_act; try exact Hblock; try exact I. split; [exact Hblock|]. cbn [prompt_request_args]. rewrite Hargs. apply passed_redacted.
Qed.

Lemma resource_pre_hook runtime uri x hook :
  on_active runtime x → post (hooks runtime OResource) = true →
  (hook_before_resource uri x).1 = Ok hook → ∃ st, call hook = Some st ∧ call_runtime st = runtime.
Proof.
  intros Hx Hpost. cbn [hook_before_resource runtime_hooks]. unfold on_current. rewrite Hx. cbn [current].
  unfold before_read_resource.
  destruct (before _ _ _ _ _ _ _) as [[[u state]|e] w] eqn:Hb; [|done]. cbn. intros [= <-].
  destruct (before_state _ _ _ _ _ _ _ _ _ (f_equal fst Hb)) as [Hst Hnone]. cbn.
  destruct state as [st|]; [|by rewrite Hnone in Hpost]. exists st. auto.
Qed.

Lemma read_resource_triple svc request cx runtime :
  plugin_runtime svc = true → post (hooks runtime OResource) = true →
  runs_secrets (manager runtime) ResourcePostFetch →
  triple (λ _, True) (on_active runtime) (read_resource svc request cx) (λ out _, resource_returns out).
Proof.
  intros Hplugins Hpost Hruns. unfold read_resource, validate_call. rewrite Hplugins.
  eapply triple_bind; [apply triple_lift; intros vc x _ Hx; exact Hx|]. intros vc.
  eapply triple_bind; [apply triple_lift; intros route x _ Hx; exact Hx|]. intros route.
  eapply triple_bind.
  { eapply triple_bind.
    - apply (triple_act _ _ _ _ (λ r _, ∀ hook, r = Ok hook → ∃ st, call hook = Some st ∧ call_runtime st = runtime)); [done|].
      intros x Hx hook Hr. by eapply resource_pre_hook.
    - intros r. eapply triple_bind; [apply triple_lift; intros hook x Hr Hq; exact (Hq hook Hr)|].
      intros hook. apply (triple_mret _ _ _ (λ h _, ∃ hook st, h = Some hook ∧ call hook = Some st ∧ call_runtime st = runtime)).
      intros w (st & ? & ?). by exists hook, st. }
  intros hook. eapply triple_bind; [apply triple_lift; intros target x _ Hx; exact Hx|]. intros target.
  eapply triple_bind; [apply triple_lift; intros backend x _ Hx; exact Hx|]. intros backend.
  eapply triple_bind; [apply triple_connect; [done|]; intros c x Hx; exact Hx|]. intros [].
  set (sent := Build_ReadResourceRequestParams _ _ _).
  eapply triple_bind.
  { apply (triple_act _ _ _ _ (λ r _, (∃ hook0 st, hook = Some hook0 ∧ call hook0 = Some st ∧ call_runtime st = runtime)
      ∧ ∃ x, (be_read_resource sent x).1 = r)); [done|]. intros x Hx. split; [done|]. by exists x. }
  intros response. eapply triple_bind; [apply triple_close; [done|]; intros x Hx; exact Hx|]. intros [].
  eapply triple_bind; [apply triple_lift; intros answered x Hr Hx; exact (conj Hr Hx)|].
  intros answered. destruct hook as [hook|].
  - eapply triple_bind.
    + apply (triple_act _ _ _ _ (λ r _, ∀ out, r = Ok out → resource_returns out)); [done|].
      intros x (Hr & (hook0 & st & [= <-] & Hst & Hrt) & x0 & Hx0) out. cbn [hook_after_resource runtime_hooks].
      unfold after_read_resource. rewrite Hst.
      destruct (after st answered (world x)) as [[o st'] w] eqn:Ha. cbn. intros ->.
      destruct (after_resource_secrets order config st answered out (world x)) as [Hb ->].
      * by rewrite Hrt.
      * by rewrite Ha.
      * destruct response as [a|]; [|done]. injection Hr as ->. by exists sent, x0, answered.
    + intros r. apply triple_lift. auto.
  - apply triple_mret. by intros w (_ & (? & ? & [=] & _) & _).
Qed.

(** C17: with the secrets plugin on the hooks it has for them, the arguments of
    a prompt reach the backend only redacted, and not at all when they block; and
    the resource a client gets is an answer of the backend whose texts do not block,
    each of them redacted, its blobs and metadata as they were. *)
Theorem prompt_and_resource_secrets_contained svc cx runtime g
    (Hfresh : trace g = []) (Hplugins : plugin_runtime svc = true)
    (Hactive : runtime_state (env g) = Active runtime) :
  (pre (hooks runtime OPrompt) = true → runs_secrets (manager runtime) PromptPreFetch →
   ∀ request r g', get_prompt svc request cx g = (r, g') →
   wf_value (JObject (default [] (prompt_request_args request))) →
   Forall (prompt_action request) (trace g')) ∧
  (post (hooks runtime OResource) = true → runs_secrets (manager runtime) ResourcePostFetch →
   ∀ request out g', read_resource svc request cx g = (Ok out, g') → resource_returns out).
Proof.
  split.
  - intros Hpre Hruns request r g' Hrun Hwf.
    destruct (get_prompt_triple svc request cx runtime Hplugins Hpre Hruns Hwf _ _ _ Hrun Hactive)
      as [(events & -> & Hev) _]. by rewrite Hfresh.
  - intros Hpost Hruns request out g' Hrun.
    by destruct (read_resource_triple svc request cx runtime Hplugins Hpost Hruns _ _ _ Hrun Hactive)
      as [_ Hout]; auto.
Qed.
End calls.

(** ** A plugin manager that runs the secrets plugin and no other *)

Module SecretsManager.
Import ConcreteCpex.
Section manager.
Context `{!Regexes, !RegexLaws} (order : list string) (config : SecretsDetectionConfig).
Definition stage_of (hook : string) : option Stage :=
  head (filter (λ stage, String.eqb hook (stage_hook stage) = true)
    [PromptPreFetch; ToolPreInvoke; ToolPostInvoke; ResourcePostFetch]).
Definition pipeline {C} (payload : MessagePayload) (result : option PluginResult) (context : C)
    : PipelineResult C :=
  match outcome_of <$> result with
  | Some (Deny _) =>
      {| denied := true; violation := None; modified_payload := None; context_table := context |}
  | Some (ModifyPayload edited) =>
      {| denied := false; violation := None; modified_payload := Some (MessageOf edited);
         context_table := context |}
  | _ =>
      {| denied := false; violation := None; modified_payload := Some (MessageOf payload);
         context_table := context |}
  end.
Definition managed : CpexManager Z := {|
  Manager := (); Factories := (); CpexRuntime.Context := (); context_default := ();
  manager_default := (); manager_from_config _ _ := Ok ();
  manager_initialize _ p := (Ok (), p);
  invoke_named _ hook payload _ p :=
    (pipeline payload (stage ← stage_of hook;
               handle order config stage payload {| request := None |}) (), p + 1)%Z |}.
#[local] Existing Instance managed.
Lemma managed_runs stage : runs_secrets order config (() : Manager) stage.
Proof.
  intros payload context p Hwf. exists {| request := None |}.
  eexists. split; [by apply handle_answer|]. cbn [invoke_named managed fst].
  assert (stage_of (stage_hook stage) = Some stage) as -> by (by destruct stage).
  cbn [mbind option_bind]. rewrite handle_answer by exact Hwf.
  cbn [outcome_of]. unfold answers, pipeline. cbn [fmap option_fmap option_map outcome_of].
  destruct (should_block _ _); [done|]. by destruct (_ && _).
Qed.
End manager.
End SecretsManager.

(** ** A concrete plugin in a concrete gateway

    The plugin redacts and does not block; the backend's tool and resource answer with
    a secret. *)

Module ConcreteSecrets.
Import Concrete ConcreteRmcp ConcreteCpex ConcretePrompts ConcreteTools ConcreteHandlers ConcreteRegexes.
Import SecretsManager.
Definition masking : SecretsDetectionConfig := {|
  enabled := enabled ConcreteRegexes.config; redact := true; redaction_text := "***";
  block_on_detection := false; min_findings_to_block := 1;
  field_allowlist := []; field_denylist := [] |}.
#[export] Instance secrets_manager : CpexManager Z := managed PATTERN_NAMES masking.

#[export] Instance leaking_backends : Backends Z := {|
  be_connect _ _ n := (Ok (), n + 1)%Z;
  be_send _ n := (Ok "token", n + 1)%Z;
  be_wait _ n := (WResponse (Ok (Ok (SRCallTool (result_of "key=AKIAABCD!")))), n + 1)%Z;
  be_cancel _ _ n := (Ok (), n + 1)%Z;
  be_get_prompt _ n := (Ok {| prompt_messages := []; prompt_rest := "" |}, n + 1)%Z;
  be_read_resource _ n :=
    (Ok {| contents := [TextResourceContents "file:///a" None "key=AKIAABCD!" None];
           resource_rest := "" |}, n + 1)%Z;
  be_complete _ n := (Ok {| completion_values := ["a"]; completion_rest := "" |}, n + 1)%Z;
  be_close n := (Ok (), n + 1)%Z |}.
Definition secrets_runtime : GatewayPluginRuntime (P := Z) :=
  {| CpexRuntime.manager := (); CpexRuntime.hooks _ := {| pre := true; post := true |} |}.
Definition active : PluginEnv Z Z := {|
  backend_env := 0%Z; runtime_state := Active secrets_runtime;
  GatewayPlugins.world := {| CORRELATION_ID := 1; plugin_state := 0 |};
  tool_states _ := None; next_state := 0 |}.
Definition secrets_start : GState (E := PluginEnv Z Z) :=
  {| env := active; in_flight_calls := ∅; trace := [] |}.
Definition leaking_arguments : option JsonObject := Some [("q", JString "key=AKIAABCD!")].
Definition leaking_tool : CallToolRequestParams := {|
  tool_request_name := "weather_forecast"; tool_request_arguments := leaking_arguments;
  tool_request_rest := "" |}.
Definition leaking_prompt : GetPromptRequestParams := {|
  prompt_request_name := "weather_greet"; prompt_request_args := leaking_arguments;
  prompt_request_rest := "" |}.
Definition nothing_else (x : PluginEnv Z Z) : PluginEnv Z Z := x.
#[local] Instance secrets_hooks : PluginHooks (PluginEnv Z Z) := runtime_hooks.
#[local] Instance secrets_backends : Backends (PluginEnv Z Z) := awaited_backends nothing_else.
Definition leaking_run := call_tool (λ _, "header mismatch") svc leaking_tool cx secrets_start.

Lemma tool_secrets_contained_witness :
  leaking_run.1 = Ok {| tool_content := [BText "key=***!" None None]; is_error := Some false;
                        tool_rest := "" |} ∧
  omap (λ event, match event with ESend sent => tool_request_arguments sent | _ => None end)
    (trace leaking_run.2) = [[("q", JString "key=***!")]] ∧
  Forall (tool_action PATTERN_NAMES masking leaking_tool) (trace leaking_run.2) ∧
  ∀ out, leaking_run.1 = Ok out → tool_returns nothing_else PATTERN_NAMES masking out.
Proof.
  split; [vm_compute; reflexivity|]. split; [vm_compute; reflexivity|].
  apply (tool_secrets_contained nothing_else (λ _, "header mismatch") PATTERN_NAMES masking svc leaking_tool cx
    secrets_runtime secrets_start leaking_run.1 leaking_run.2); try reflexivity.
  - apply managed_runs.
  - apply managed_runs.
  - repeat split; repeat constructor; set_solver.
  - intros [[|[] []] failed other]; repeat split; repeat constructor; set_solver.
  - intros x address st Hst. by exists st.
Defined.
Definition resource_run := read_resource svc resource_request cx secrets_start.

Lemma prompt_and_resource_secrets_contained_witness :
  Forall (prompt_action PATTERN_NAMES masking leaking_prompt)
    (trace (get_prompt svc leaking_prompt cx secrets_start).2) ∧
  resource_returns nothing_else PATTERN_NAMES masking
    {| contents := [TextResourceContents "file:///a" None "key=***!" None]; resource_rest := "" |}.
Proof.
  destruct (prompt_and_resource_secrets_contained nothing_else PATTERN_NAMES masking svc cx
    secrets_runtime secrets_start eq_refl eq_refl eq_refl) as [Hprompt Hresource]. split.
  - eapply Hprompt; [reflexivity|apply managed_runs|apply surjective_pairing|].
    repeat split; repeat constructor; set_solver.
  - apply (Hresource eq_refl (managed_runs _ _ ResourcePostFetch) resource_request _ resource_run.2).
    apply injective_projections; [vm_compute; reflexivity|reflexivity].
Defined.

(** A protocol error of the backend is not a result: no hook sees it. *)
Definition failing_backends : Backends Z := {|
  be_connect := be_connect; be_send := be_send;
  be_wait _ n := (WResponse (Ok (Err (McpError (error INTERNAL_ERROR "key=AKIAABCD!")))), n + 1)%Z;
  be_cancel := be_cancel; be_get_prompt := be_get_prompt; be_read_resource := be_read_resource;
  be_complete := be_complete; be_close := be_close |}.
Example error_unscanned :
  (call_tool (Backends0 := awaited_backends (Backends0 := failing_backends) nothing_else)
     (λ _, "header mismatch") svc leaking_tool cx secrets_start).1
  = Err (error INTERNAL_ERROR "key=AKIAABCD!").
Proof. vm_compute. reflexivity. Qed.
End ConcreteSecrets.
