(* ===== verification/Config.v ===== *)
(** * The process configuration ([common/], [transports/], [lib.rs])

    The command line's settings as the parts of the gateway read them: how Redis
    and the backends are reached, where the gateway listens, and what the control
    plane's global configuration overrides.  Files are a function from paths;
    certificates, the HTTP client and the Redis client are parameters, and what
    the code hands them is a record. *)

From S2P Require Import Prelude HttpTypes McpStandardHeaders Apis HeaderLimits.

Abbreviation Path := string (only parsing).
Abbreviation SocketAddr := string (only parsing).
Abbreviation Uri := string (only parsing).

(** ** Settings *)

Inductive UpstreamConnectionMode : Type := PlainTextOrTls | PlainTextOrMTls | TlsOnly | MtlsOnly.
Inductive RedisConnectionMode : Type := RPlainText | RTls | RMtls.
Inductive OtlpProtocol : Type := Grpc | HttpProtobuf.

#[export] Instance UpstreamConnectionMode_eq_dec : EqDecision UpstreamConnectionMode.
Proof. solve_decision. Defined.

Record CliConfig : Type := {
  cli_address : option SocketAddr;
  cli_jwks_url : Url;
  cli_jwks_ca_cert_path : option Path;
  enable_open_telemetry : option bool;
  otlp_endpoint : option Uri;
  otlp_protocol : option OtlpProtocol;
  otlp_headers : option string;
  otlp_service_name : option string;
  enable_otel_metrics : option bool;
  otlp_metrics_endpoint : option Uri;
  cli_runtime_plugins_enabled : option bool;
  cli_tls_address : option SocketAddr;
  cli_server_private_key : option Path;
  cli_server_certificate : option Path;
  cli_upstream_connection_mode : option UpstreamConnectionMode;
  cli_upstream_private_key : option Path;
  cli_upstream_certificate : option Path;
  cli_upstream_trust_bundle : option Path;
  redis_address : string;
  redis_port : Z;
  redis_mode : RedisConnectionMode;
  redis_tls_trust_bundle : option Path;
  redis_tls_client_private_key : option Path;
  redis_tls_client_certificate : option Path;
  cli_cel_principal_extractor_path : option Path;
}.

Record ObservabilityConfig : Type := {
  traces_enabled : bool;
  traces_endpoint : option Uri;
  metrics_enabled : bool;
  metrics_endpoint : option Uri;
  protocol : OtlpProtocol;
  headers : option string;
  service_name : string;
}.
Definition DEFAULT_SERVICE_NAME : string := "CONTEXTFORGE-DATA-PLANE".
Definition ObservabilityConfig_default : ObservabilityConfig := {|
  traces_enabled := false; traces_endpoint := None; metrics_enabled := false;
  metrics_endpoint := None; protocol := Grpc; headers := None;
  service_name := DEFAULT_SERVICE_NAME |}.

Definition observability_from (value : CliConfig) : ObservabilityConfig := {|
  traces_enabled := bool_decide (enable_open_telemetry value = Some true);
  traces_endpoint := otlp_endpoint value;
  metrics_enabled := bool_decide (enable_otel_metrics value = Some true);
  metrics_endpoint := otlp_metrics_endpoint value;
  protocol := match otlp_protocol value with
              | None => protocol ObservabilityConfig_default
              | Some Grpc => Grpc
              | Some HttpProtobuf => HttpProtobuf
              end;
  headers := otlp_headers value;
  service_name := default (service_name ObservabilityConfig_default) (otlp_service_name value) |}.

Record DownstreamTransportConfig : Type := {
  tls_address : option SocketAddr;
  server_private_key : option Path;
  server_certificate : option Path;
}.
Definition downstream_from (value : CliConfig) : DownstreamTransportConfig := {|
  tls_address := cli_tls_address value; server_private_key := cli_server_private_key value;
  server_certificate := cli_server_certificate value |}.

Record UpstreamTransportConfig : Type := {
  upstream_connection_mode : option UpstreamConnectionMode;
  upstream_private_key : option Path;
  upstream_certificate : option Path;
  upstream_trust_bundle : option Path;
}.
Definition upstream_from (value : CliConfig) : UpstreamTransportConfig := {|
  upstream_connection_mode := cli_upstream_connection_mode value;
  upstream_private_key := cli_upstream_private_key value;
  upstream_certificate := cli_upstream_certificate value;
  upstream_trust_bundle := cli_upstream_trust_bundle value |}.

Record JwksConfig : Type := { jwks_url : Url; jwks_ca_cert_path : option Path }.
Definition jwks_from (value : CliConfig) : JwksConfig :=
  {| jwks_url := cli_jwks_url value; jwks_ca_cert_path := cli_jwks_ca_cert_path value |}.

(** ** Redis *)

Inductive RedisConfig : Type :=
| PlainText (host : string) (port : Z)
| Tls (host : string) (port : Z) (trust_bundle : string)
| MTls (host : string) (port : Z) (trust_bundle client_cert client_key : string).

(** What the Redis client is opened with. *)
Record ClientTlsConfig : Type := { client_cert : string; client_key : string }.
Record TlsCertificates : Type := {
  client_tls : option ClientTlsConfig;
  root_cert : option string;
}.
Inductive RedisEndpoint : Type :=
| OpenTcp (host : string) (port : Z)
| BuildWithTls (url : string) (certificates : TlsCertificates).

Definition redis_endpoint (config : RedisConfig) : RedisEndpoint :=
  let rediss host port := "rediss://" +:+ host +:+ ":" +:+ print_Z port in
  match config with
  | PlainText host port => OpenTcp host port
  | Tls host port trust_bundle =>
      BuildWithTls (rediss host port) {| client_tls := None; root_cert := Some trust_bundle |}
  | MTls host port trust_bundle client_cert client_key =>
      BuildWithTls (rediss host port)
        {| client_tls := Some {| client_cert := client_cert; client_key := client_key |};
           root_cert := Some trust_bundle |}
  end.

Inductive ConfigValidationError : Type := RedisConfigurationError (e : string).

(** [{:?}] of the mode. *)
Definition mode_debug (mode : RedisConnectionMode) : string :=
  match mode with RPlainText => "PlainText" | RTls => "Tls" | RMtls => "Mtls" end.

(** PEM decoding: the certificates of a text, and whether it holds a PKCS#8 key. *)
Class Pem := {
  Certificate : Type;
  pem_certificates : string → result string (list Certificate);
  pem_pkcs8_key : string → result string ();
}.
(** [reqwest]: its PEM readers, and the client a builder gives. *)
Class ReqwestTls := {
  Identity : Type;
  BundleCertificate : Type;
  HttpClient : Type;
  certificate_from_pem_bundle : string → result string (list BundleCertificate);
  identity_from_pem : string → result string Identity;
}.

Section files.
Context `{!Pem, !ReqwestTls, !HttpUri}.
(** [File::open] and [read_to_end]. *)
Context (read_file : Path → result string string).
(** What the [http] crate says of a text that is no authority. *)
Context (authority_error : string → string).

Definition validate_certs (path : Path) : result ConfigValidationError string :=
  buf ← map_err RedisConfigurationError (read_file path);
  certs ← map_err RedisConfigurationError (pem_certificates buf);
  match certs with
  | [] => Err (RedisConfigurationError "No certificates provided")
  | _ => Ok buf
  end.

Definition validate_key (path : Path) : result ConfigValidationError string :=
  buf ← map_err RedisConfigurationError (read_file path);
  _ ← map_err (λ _, RedisConfigurationError "Private key is invalid") (pem_pkcs8_key buf);
  Ok buf.

Definition required {A} (what : string) (mode : RedisConnectionMode) (o : option A)
    : result ConfigValidationError A :=
  ok_or o (RedisConfigurationError (what +:+ " is required for Redis " +:+ mode_debug mode)).

Definition redis_try_from (value : CliConfig) : result ConfigValidationError RedisConfig :=
  let authority := redis_address value +:+ ":" +:+ print_Z (redis_port value) in
  _ ← ok_or (uri_authority_try_from authority) (RedisConfigurationError (authority_error authority));
  match redis_mode value with
  | RPlainText => Ok (PlainText (redis_address value) (redis_port value))
  | RTls =>
      trust_bundle ← required "Trust bundle" (redis_mode value) (redis_tls_trust_bundle value);
      trust_bundle ← validate_certs trust_bundle;
      Ok (Tls (redis_address value) (redis_port value) trust_bundle)
  | RMtls =>
      trust_bundle ← required "Trust bundle" (redis_mode value) (redis_tls_trust_bundle value);
      trust_bundle ← validate_certs trust_bundle;
      certificate ← required "Client certificate" (redis_mode value)
                      (redis_tls_client_certificate value);
      client_cert ← validate_certs certificate;
      key ← required "Client key" (redis_mode value) (redis_tls_client_private_key value);
      client_key ← validate_key key;
      Ok (MTls (redis_address value) (redis_port value) trust_bundle client_cert client_key)
  end.

(** ** The client to the backends *)

(** What the builder is told. *)
Record ClientBuilder : Type := {
  https_only : bool;
  identity : option Identity;
  merged_certs : option (list BundleCertificate);
}.

Definition extract_identity (config : UpstreamTransportConfig) : result string Identity :=
  match upstream_private_key config, upstream_certificate config with
  | Some private_key, Some certificate =>
      cert ← read_file certificate;
      key ← read_file private_key;
      identity_from_pem (cert +:+ key)
  | _, _ => Err "Invalid/missing configuration"
  end.

Definition client_builder (config : UpstreamTransportConfig) : result string ClientBuilder :=
  builder ←
    match upstream_connection_mode config with
    | None | Some TlsOnly => Ok {| https_only := true; identity := None; merged_certs := None |}
    | Some PlainTextOrTls => Ok {| https_only := false; identity := None; merged_certs := None |}
    | Some PlainTextOrMTls =>
        identity ← extract_identity config;
        Ok {| https_only := false; identity := Some identity; merged_certs := None |}
    | Some MtlsOnly =>
        identity ← extract_identity config;
        Ok {| https_only := true; identity := Some identity; merged_certs := None |}
    end;
  match upstream_trust_bundle config with
  | Some trust_bundle =>
      buf ← read_file trust_bundle;
      certificates ← certificate_from_pem_bundle buf;
      Ok {| https_only := https_only builder; identity := identity builder;
            merged_certs := Some certificates |}
  | None => Ok builder
  end.

Definition upstream_client (build : ClientBuilder → result string HttpClient)
    (config : UpstreamTransportConfig) : result string HttpClient :=
  builder ← client_builder config; build builder.

(** ** The configuration *)

Record Config : Type := {
  address : option SocketAddr;
  observability_config : ObservabilityConfig;
  jwks_config : JwksConfig;
  user_config_cache_expiry_seconds : Z;
  redis_config : RedisConfig;
  downstream_transport_config : DownstreamTransportConfig;
  upstream_transport_config : UpstreamTransportConfig;
  cel_principal_extractor_path : option Path;
  mcp_allowed_origins : option (list Url);
  mcp_allowed_hosts : option (list string);
  mcp_standard_header_max_count : Z;
  mcp_standard_header_max_value_bytes : Z;
  mcp_standard_header_max_total_bytes : Z;
  runtime_plugins_enabled : option bool;
}.

Definition config_try_from (value : CliConfig) : result ConfigValidationError Config :=
  redis_config ← redis_try_from value;
  Ok {| address := cli_address value;
        observability_config := observability_from value;
        jwks_config := jwks_from value;
        user_config_cache_expiry_seconds := 5 * 60;
        redis_config := redis_config;
        downstream_transport_config := downstream_from value;
        upstream_transport_config := upstream_from value;
        cel_principal_extractor_path := cli_cel_principal_extractor_path value;
        mcp_allowed_origins := None;
        mcp_allowed_hosts := None;
        mcp_standard_header_max_count := DEFAULT_MCP_STANDARD_HEADER_MAX_COUNT;
        mcp_standard_header_max_value_bytes := DEFAULT_MCP_STANDARD_HEADER_MAX_VALUE_BYTES;
        mcp_standard_header_max_total_bytes := DEFAULT_MCP_STANDARD_HEADER_MAX_TOTAL_BYTES;
        runtime_plugins_enabled := cli_runtime_plugins_enabled value |}.

(** [collect::<Result<Vec<_>, _>>]. *)
Definition convert_hosts (hosts : list Apis.Authority) : option (list string) :=
  mapM authority_try_from hosts.

(** [Config::merge]: the global configuration replaces every setting it has a
    field for, absent ones by their defaults; [None] is its error. *)
Definition merge (self : Config) (rhs : GlobalConfig) : option Config :=
  hosts ← match gc_allowed_hosts rhs with
          | Some hosts => Some <$> convert_hosts hosts
          | None => Some None
          end;
  Some {| address := address self; observability_config := observability_config self;
          jwks_config := jwks_config self;
          user_config_cache_expiry_seconds := user_config_cache_expiry_seconds self;
          redis_config := redis_config self;
          downstream_transport_config := downstream_transport_config self;
          upstream_transport_config := upstream_transport_config self;
          cel_principal_extractor_path := cel_principal_extractor_path self;
          mcp_allowed_origins := gc_allowed_origins rhs;
          mcp_allowed_hosts := hosts;
          mcp_standard_header_max_count :=
            default DEFAULT_MCP_STANDARD_HEADER_MAX_COUNT (gc_standard_header_max_count rhs);
          mcp_standard_header_max_value_bytes :=
            default DEFAULT_MCP_STANDARD_HEADER_MAX_VALUE_BYTES
              (gc_standard_header_max_value_bytes rhs);
          mcp_standard_header_max_total_bytes :=
            default DEFAULT_MCP_STANDARD_HEADER_MAX_TOTAL_BYTES
              (gc_standard_header_max_total_bytes rhs);
          runtime_plugins_enabled := runtime_plugins_enabled self |}.

(** [From<&Config> for StandardHeaderLimits]. *)
Definition config_limits (config : Config) : StandardHeaderLimits :=
  limits_from_config (mcp_standard_header_max_count config)
    (mcp_standard_header_max_value_bytes config) (mcp_standard_header_max_total_bytes config).
End files.

(** ** Listening *)

(** [rustls]: the PEM readers and the server configuration with one certificate. *)
Class Rustls := {
  ServerCertificate : Type;
  ServerKey : Type;
  ServerConfig : Type;
  pem_file_iter : Path → result string (list (result string ServerCertificate));
  private_key_from_pem_file : Path → result string ServerKey;
  with_single_cert : list ServerCertificate → ServerKey → result string ServerConfig;
}.

Section listening.
Context `{!Rustls}.

Record DownstreamTls : Type := { tls_listener : SocketAddr; server_config : ServerConfig }.

(** [TryFrom<&Config> for Option<Tcp>]: it does not fail. *)
Definition tcp_try_from (config : Config) : result string (option SocketAddr) := Ok (address config).

(** [TryFrom<&DownstreamTransportConfig> for Option<DownstreamTls>]; certificates
    that do not decode are left out. *)
Definition tls_try_from (config : DownstreamTransportConfig) : result string (option DownstreamTls) :=
  match tls_address config, server_certificate config, server_private_key config with
  | Some address, Some certificate, Some private_key =>
      certificates ← pem_file_iter certificate;
      let certificates := omap result_ok certificates in
      private_key ← private_key_from_pem_file private_key;
      server_config ← with_single_cert certificates private_key;
      Ok (Some {| tls_listener := address; server_config := server_config |})
  | None, _, _ => Ok None
  | Some _, _, _ => Err "Invalid tls config... configuration missing "
  end.

Inductive Listener : Type := ListenTcp (address : SocketAddr) | ListenTls (tls : DownstreamTls).
Inductive ListenError : Type :=
| NoListeningAddress
| TlsMisconfigured (e : string)
| ListeningMisconfigured.

(** [Gateway::run_gateway]: the listeners it starts. *)
Definition listeners (config : Config) : result ListenError (list Listener) :=
  match tcp_try_from config, tls_try_from (downstream_transport_config config) with
  | Ok (Some tcp), Ok (Some tls) => Ok [ListenTcp tcp; ListenTls tls]
  | Ok (Some tcp), Ok None => Ok [ListenTcp tcp]
  | Ok None, Ok (Some tls) => Ok [ListenTls tls]
  | Ok None, Ok None => Err NoListeningAddress
  | Ok _, Err e => Err (TlsMisconfigured e)
  | _, _ => Err ListeningMisconfigured
  end.
End listening.

(** ** The MCP server's checks of [Host] and [Origin] *)

(** [None]: the check of [Host] is disabled. *)
Record StreamableHttpServerConfig : Type := {
  allowed_hosts : option (list string);
  allowed_origins : list string;
  origin_validation : bool;
}.

(** [origin] is [url.origin().ascii_serialization()]. *)
Definition streamable_http_server_config (origin : Url → string) (config : Config)
    : StreamableHttpServerConfig := {|
  allowed_hosts := mcp_allowed_hosts config;
  allowed_origins := map origin (default [] (mcp_allowed_origins config));
  origin_validation := true |}.

(** ** Theorems *)

Section theorems.
Context `{!Pem, !ReqwestTls, !HttpUri, !Rustls}.
Context (read_file : Path → result string string) (authority_error : string → string).

Lemma validate_certs_ok path bytes : validate_certs read_file path = Ok bytes ↔
  read_file path = Ok bytes ∧ ∃ certs, pem_certificates bytes = Ok certs ∧ certs ≠ [].
Proof.
  unfold validate_certs. destruct (read_file path) as [b|e]; simpl; [|split; [done|by intros [? _]]].
  split.
  - destruct (pem_certificates b) as [[|c certs]|e] eqn:E; simpl; try done.
    intros [= <-]. split; [done|]. by exists (c :: certs).
  - intros ([= ->] & certs & -> & Hne). by destruct certs.
Qed.
Lemma validate_key_ok path bytes : validate_key read_file path = Ok bytes →
  read_file path = Ok bytes ∧ is_ok (pem_pkcs8_key bytes) = true.
Proof.
  unfold validate_key. destruct (read_file path) as [b|e]; simpl; [|done].
  destruct (pem_pkcs8_key b) eqn:E; simpl; [|done]. intros [= <-]. by rewrite E.
Qed.

(** A file the Redis connection may trust or present: readable and with a certificate. *)
Definition certificate_file (o : option Path) (bytes : string) : Prop :=
  ∃ path, o = Some path ∧ validate_certs read_file path = Ok bytes.

Lemma redis_try_from_spec cli config :
  redis_try_from read_file authority_error cli = Ok config →
  match redis_endpoint config with
  | OpenTcp host port =>
      redis_mode cli = RPlainText ∧ host = redis_address cli ∧ port = redis_port cli
  | BuildWithTls url certificates =>
      redis_mode cli ≠ RPlainText ∧
      url = "rediss://" +:+ redis_address cli +:+ ":" +:+ print_Z (redis_port cli) ∧
      (∃ bytes, root_cert certificates = Some bytes ∧
                certificate_file (redis_tls_trust_bundle cli) bytes) ∧
      match client_tls certificates with
      | None => redis_mode cli = RTls
      | Some client =>
          redis_mode cli = RMtls ∧
          certificate_file (redis_tls_client_certificate cli) (client_cert client) ∧
          ∃ path, redis_tls_client_private_key cli = Some path ∧
                  read_file path = Ok (client_key client) ∧
                  is_ok (pem_pkcs8_key (client_key client)) = true
      end
  end.
Proof.
  unfold redis_try_from, required, certificate_file.
  destruct (uri_authority_try_from _); simpl; [|done].
  destruct (redis_mode cli); simpl; [by intros [= <-]| |].
  - destruct (redis_tls_trust_bundle cli) as [p|]; simpl; [|done].
    destruct (validate_certs read_file p) as [b|] eqn:Hb; simpl; [|done].
    intros [= <-]; simpl. split_and!; [done|done|by exists b; eauto|done].
  - destruct (redis_tls_trust_bundle cli) as [p|]; simpl; [|done].
    destruct (validate_certs read_file p) as [b|] eqn:Hb; simpl; [|done].
    destruct (redis_tls_client_certificate cli) as [q|]; simpl; [|done].
    destruct (validate_certs read_file q) as [c|] eqn:Hc; simpl; [|done].
    destruct (redis_tls_client_private_key cli) as [k|]; simpl; [|done].
    destruct (validate_key read_file k) as [key|] eqn:Hk; simpl; [|done].
    intros [= <-]; simpl. apply validate_key_ok in Hk as [Hk1 Hk2].
    split_and!; [done|done|by exists b; eauto|done|by eauto|by eauto].
Qed.

(** The modes in which a backend may be reached without TLS, and those that
    present a client certificate. *)
Definition allows_plaintext (mode : option UpstreamConnectionMode) : Prop :=
  mode = Some PlainTextOrTls ∨ mode = Some PlainTextOrMTls.
Definition presents_identity (mode : option UpstreamConnectionMode) : Prop :=
  mode = Some PlainTextOrMTls ∨ mode = Some MtlsOnly.

(** The identity of a client certificate and a key, from the files of both. *)
Definition identity_files (certificate private_key : option Path) (id : Identity) : Prop :=
  ∃ certificate_path key_path cert key, certificate = Some certificate_path ∧
    private_key = Some key_path ∧ read_file certificate_path = Ok cert ∧
    read_file key_path = Ok key ∧ identity_from_pem (cert +:+ key) = Ok id.
(** The certificates of a bundle that is added to the trusted ones. *)
Definition bundle_file (o : option Path) (certs : list BundleCertificate) : Prop :=
  ∃ path bytes, o = Some path ∧ read_file path = Ok bytes ∧
    certificate_from_pem_bundle bytes = Ok certs.
(** A TLS listener for an address, with the certificates and the key of two files;
    what does not decode as a certificate is left out. *)
Definition tls_files (address : option SocketAddr) (certificate private_key : option Path)
    (tls : DownstreamTls) : Prop :=
  ∃ certificate_path key_path entries key, address = Some (tls_listener tls) ∧
    certificate = Some certificate_path ∧ private_key = Some key_path ∧
    pem_file_iter certificate_path = Ok entries ∧ private_key_from_pem_file key_path = Ok key ∧
    with_single_cert (omap result_ok entries) key = Ok (server_config tls).

Lemma extract_identity_files config id : extract_identity read_file config = Ok id →
  identity_files (upstream_certificate config) (upstream_private_key config) id.
Proof.
  unfold extract_identity, identity_files.
  destruct (upstream_private_key config) as [k|], (upstream_certificate config) as [c|]; try done.
  intros (cert & Hc & Hid)%result_bind_ok. apply result_bind_ok in Hid as (key & Hk & Hid).
  by exists c, k, cert, key.
Qed.

Lemma client_builder_spec config builder : client_builder read_file config = Ok builder →
  (https_only builder = false ↔ allows_plaintext (upstream_connection_mode config)) ∧
  match identity builder with
  | Some id => presents_identity (upstream_connection_mode config) ∧
      identity_files (upstream_certificate config) (upstream_private_key config) id
  | None => ¬ presents_identity (upstream_connection_mode config)
  end ∧
  match merged_certs builder with
  | Some certs => bundle_file (upstream_trust_bundle config) certs
  | None => upstream_trust_bundle config = None
  end.
Proof.
  unfold client_builder, allows_plaintext, presents_identity. intros H'.
  apply result_bind_ok in H' as (base & Hbase & Htrust).
  assert (merged_certs base = None) as Hnone.
  { destruct (upstream_connection_mode config) as [[]|];
      (apply result_bind_ok in Hbase as (id & _ & Hbase) || idtac); by injection Hbase as <-. }
  assert (https_only builder = https_only base ∧ identity builder = identity base ∧
    match merged_certs builder with
    | Some certs => bundle_file (upstream_trust_bundle config) certs
    | None => upstream_trust_bundle config = None
    end) as (-> & -> & Hcerts).
  { destruct (upstream_trust_bundle config) as [path|] eqn:Hpath.
    - apply result_bind_ok in Htrust as (buf & Hbuf & Htrust).
      apply result_bind_ok in Htrust as (certs & Hcerts & [= <-]). split_and!; [done..|].
      by exists path, buf.
    - injection Htrust as <-. by rewrite Hnone. }
  split_and!; [| |exact Hcerts]; destruct (upstream_connection_mode config) as [[]|];
    (apply result_bind_ok in Hbase as (id & Hid%extract_identity_files & Hbase) || idtac);
    injection Hbase as <-; cbn; try (split; [by auto|exact Hid]); naive_solver.
Qed.

Lemma tls_try_from_ok d tls : tls_try_from d = Ok (Some tls) →
  tls_files (tls_address d) (server_certificate d) (server_private_key d) tls.
Proof.
  unfold tls_try_from, tls_files. destruct (tls_address d) as [a|]; [|done].
  destruct (server_certificate d) as [c|], (server_private_key d) as [k|]; try done.
  intros (entries & Hc & Ht)%result_bind_ok. apply result_bind_ok in Ht as (key & Hk & Ht).
  apply result_bind_ok in Ht as (sc & Hs & [= <-]). by exists c, k, entries, key.
Qed.
Lemma tls_try_from_none d : tls_try_from d = Ok None → tls_address d = None.
Proof.
  unfold tls_try_from. destruct (tls_address d); [|done].
  destruct (server_certificate d), (server_private_key d); try done.
  intros (c & _ & Ht)%result_bind_ok. apply result_bind_ok in Ht as (k & _ & Ht).
  by apply result_bind_ok in Ht as (sc & _ & [=]).
Qed.

Lemma listeners_spec config l : listeners config = Ok l →
  let d := downstream_transport_config config in
  l ≠ [] ∧
  (∀ a, ListenTcp a ∈ l ↔ address config = Some a) ∧
  (∀ tls, ListenTls tls ∈ l → tls_files (tls_address d) (server_certificate d) (server_private_key d) tls) ∧
  (is_Some (tls_address d) → ∃ tls, ListenTls tls ∈ l).
Proof.
  unfold listeners, tcp_try_from. set (d := downstream_transport_config config).
  destruct (tls_try_from d) as [[tls|]|e] eqn:Ht; [| |by destruct (address config)].
  - apply tls_try_from_ok in Ht. destruct (address config); intros [= <-];
      (split_and!; [done|set_solver| |set_solver]);
      intros tls' Hin; repeat (apply elem_of_cons in Hin as [[= ->]|Hin]); try done;
      by apply elem_of_nil in Hin.
  - apply tls_try_from_none in Ht as ->.
    destruct (address config); [|done]. intros [= <-]. split_and!; set_solver.
Qed.

(** C33: no connection is weaker than configured, or speaks with other credentials.
    Redis is reached without TLS only in the plain mode, and otherwise under a trust
    bundle, and in the mutual mode a client certificate and key, that are the bytes
    of the configured, valid files; a client to the backends allows plain HTTP only
    in the two modes that say so, presents a certificate exactly in the two mutual
    modes, which is the one of the configured certificate and key files, and adds
    the certificates of the configured bundle, or none when there is none; and a
    gateway that starts listens where it was told to, with TLS whenever a TLS address
    is configured, and then with the certificates and the key of the configured
    files. *)
Theorem transport_security cli config (Hconfig : config_try_from read_file authority_error cli = Ok config) :
  (match redis_endpoint (redis_config config) with
   | OpenTcp host port =>
       redis_mode cli = RPlainText ∧ host = redis_address cli ∧ port = redis_port cli
   | BuildWithTls url certificates =>
       redis_mode cli ≠ RPlainText ∧
       url = "rediss://" +:+ redis_address cli +:+ ":" +:+ print_Z (redis_port cli) ∧
       (∃ bytes, root_cert certificates = Some bytes ∧
                 certificate_file (redis_tls_trust_bundle cli) bytes) ∧
       match client_tls certificates with
       | None => redis_mode cli = RTls
       | Some client =>
           redis_mode cli = RMtls ∧
           certificate_file (redis_tls_client_certificate cli) (client_cert client) ∧
           ∃ path, redis_tls_client_private_key cli = Some path ∧
                   read_file path = Ok (client_key client) ∧
                   is_ok (pem_pkcs8_key (client_key client)) = true
       end
   end) ∧
  (∀ builder, client_builder read_file (upstream_transport_config config) = Ok builder →
     (https_only builder = false ↔ allows_plaintext (cli_upstream_connection_mode cli)) ∧
     match identity builder with
     | Some id => presents_identity (cli_upstream_connection_mode cli) ∧
         identity_files (cli_upstream_certificate cli) (cli_upstream_private_key cli) id
     | None => ¬ presents_identity (cli_upstream_connection_mode cli)
     end ∧
     match merged_certs builder with
     | Some certs => bundle_file (cli_upstream_trust_bundle cli) certs
     | None => cli_upstream_trust_bundle cli = None
     end) ∧
  (∀ l, listeners config = Ok l →
     l ≠ [] ∧ (∀ a, ListenTcp a ∈ l ↔ cli_address cli = Some a) ∧
     (∀ tls, ListenTls tls ∈ l →
        tls_files (cli_tls_address cli) (cli_server_certificate cli) (cli_server_private_key cli) tls) ∧
     (is_Some (cli_tls_address cli) → ∃ tls, ListenTls tls ∈ l)).
Proof.
  unfold config_try_from in Hconfig. apply result_bind_ok in Hconfig as (redis & Hredis & Hc).
  injection Hc as <-. split_and!.
  - by apply redis_try_from_spec.
  - intros builder. apply client_builder_spec.
  - intros l. apply listeners_spec.
Qed.

(** The limits in force after the global configuration is merged: the configured
    ones, and the defaults for settings that are absent or zero. *)
Theorem merged_limits self rhs merged : merge self rhs = Some merged →
  let setting o d := match o with Some n => if (n =? 0)%Z then d else n | None => d end in
  config_limits merged = {|
    limit_count := setting (gc_standard_header_max_count rhs) DEFAULT_MCP_STANDARD_HEADER_MAX_COUNT;
    limit_value_bytes := setting (gc_standard_header_max_value_bytes rhs)
                           DEFAULT_MCP_STANDARD_HEADER_MAX_VALUE_BYTES;
    limit_total_bytes := setting (gc_standard_header_max_total_bytes rhs)
                           DEFAULT_MCP_STANDARD_HEADER_MAX_TOTAL_BYTES |} ∧
  redis_config merged = redis_config self ∧
  upstream_transport_config merged = upstream_transport_config self ∧
  downstream_transport_config merged = downstream_transport_config self ∧
  jwks_config merged = jwks_config self.
Proof.
  unfold merge. intros (hosts & _ & Hm)%bind_Some. injection Hm as <-. split; [|done].
  unfold config_limits, limits_from_config, configured_or_default. simpl.
  destruct (gc_standard_header_max_count rhs), (gc_standard_header_max_value_bytes rhs),
    (gc_standard_header_max_total_bytes rhs); done.
Qed.
End theorems.

(** ** A concrete process *)

Module ConcreteConfig.
#[export] Instance pem : Pem := {|
  Certificate := string;
  pem_certificates text := Ok (if String.eqb text "" then [] else [text]);
  pem_pkcs8_key text := if String.eqb text "KEY" then Ok () else Err "not a key" |}.
#[export] Instance reqwest_tls : ReqwestTls := {|
  Identity := string; BundleCertificate := string; HttpClient := ();
  certificate_from_pem_bundle text := Ok [text]; identity_from_pem text := Ok text |}.
#[export] Instance http_uri : HttpUri := {| uri_authority_try_from s := Some s |}.
#[export] Instance rustls : Rustls := {|
  ServerCertificate := string; ServerKey := string; ServerConfig := ();
  pem_file_iter path := Ok [Ok path; Err "not a certificate"];
  private_key_from_pem_file path := Ok path;
  with_single_cert _ _ := Ok () |}.
Definition files (path : Path) : result string string :=
  if String.eqb path "ca.pem" then Ok "CA" else
  if String.eqb path "cert.pem" then Ok "CERT" else
  if String.eqb path "key.pem" then Ok "KEY" else Err "no such file".
Definition cli : CliConfig := {|
  cli_address := None; cli_jwks_url := "https://idp/jwks"; cli_jwks_ca_cert_path := None;
  enable_open_telemetry := None; otlp_endpoint := None; otlp_protocol := None;
  otlp_headers := None; otlp_service_name := None; enable_otel_metrics := None;
  otlp_metrics_endpoint := None; cli_runtime_plugins_enabled := None;
  cli_tls_address := Some "0.0.0.0:8443"; cli_server_private_key := Some "key.pem";
  cli_server_certificate := Some "cert.pem"; cli_upstream_connection_mode := Some MtlsOnly;
  cli_upstream_private_key := Some "key.pem"; cli_upstream_certificate := Some "cert.pem";
  cli_upstream_trust_bundle := Some "ca.pem"; redis_address := "redis"; redis_port := 6379;
  redis_mode := RMtls; redis_tls_trust_bundle := Some "ca.pem";
  redis_tls_client_private_key := Some "key.pem"; redis_tls_client_certificate := Some "cert.pem";
  cli_cel_principal_extractor_path := None |}.

Example redis_of_cli : redis_try_from files (λ s, s) cli = Ok (MTls "redis" 6379 "CA" "CERT" "KEY").
Proof. vm_compute. reflexivity. Qed.

Lemma transport_security_witness :
  match config_try_from files (λ s, s) cli with
  | Ok config =>
      redis_config config = MTls "redis" 6379 "CA" "CERT" "KEY" ∧
      (∀ builder, client_builder files (upstream_transport_config config) = Ok builder →
         merged_certs builder = Some ["CA"] ∧
         ∃ id, identity builder = Some id ∧ identity_files files (Some "cert.pem") (Some "key.pem") id) ∧
      ∀ l, listeners config = Ok l → ∃ tls, ListenTls tls ∈ l ∧
        tls_files (Some "0.0.0.0:8443") (Some "cert.pem") (Some "key.pem") tls
  | Err _ => False
  end.
Proof.
  destruct (config_try_from files (λ s, s) cli) as [config|e] eqn:E; [|revert E; vm_compute; discriminate].
  split; [revert E; vm_compute; by intros [= <-]|].
  destruct (transport_security files (λ s, s) cli config E) as (_ & Hclient & Hlisten). split.
  - intros builder Hb. destruct (Hclient builder Hb) as (_ & Hid & Hcerts). split.
    + destruct (merged_certs builder) as [certs|]; [|discriminate Hcerts].
      destruct Hcerts as (path & bytes & [= <-] & [= <-] & [= <-]). reflexivity.
    + destruct (identity builder) as [id|]; [exists id; split; [reflexivity|apply Hid]|].
      exfalso. apply Hid. right. reflexivity.
  - intros l Hl. destruct (Hlisten l Hl) as (_ & _ & Htls & Hsome).
    destruct Hsome as [tls Hin]; [by eexists|]. exists tls. split; [exact Hin|]. by apply Htls.
Defined.
End ConcreteConfig.
