(* ===== verification/Debugging.v ===== *)
(** * What the [Debug] implementations print

    Values with secrets have a [Debug] of their own, and the binary logs the whole
    configuration with it when it starts ([main.rs]).  The texts are built as
    [std::fmt] builds them without [#]; how a string, a URL or a path prints itself is
    a parameter. *)

From S2P Require Import Prelude HttpTypes Apis Cmf Config.

(** [Debug] of the values that are text inside. *)
Class DebugLib := {
  debug_str : string → string;
  debug_uri : Uri → string;
  debug_url : Url → string;
  debug_path : Path → string;
  debug_address : SocketAddr → string;
  debug_authority : string → string;
}.

(** ** [std::fmt] *)

Section fmt.
(** [Formatter::debug_struct] with [finish] and with [finish_non_exhaustive]. *)
Definition debug_fields (fields : list (string * string)) : list string :=
  map (λ '(name, value), name +:+ ": " +:+ value) fields.
Definition debug_struct (name : string) (fields : list (string * string)) : string :=
  match fields with
  | [] => name
  | _ => name +:+ " { " +:+ join ", " (debug_fields fields) +:+ " }"
  end.
Definition debug_struct_non_exhaustive (name : string) (fields : list (string * string)) : string :=
  name +:+ " { " +:+ join ", " (debug_fields fields ++ [".."]) +:+ " }".
Definition debug_option {A} (f : A → string) (o : option A) : string :=
  match o with Some a => "Some(" +:+ f a +:+ ")" | None => "None" end.
Definition debug_list {A} (f : A → string) (l : list A) : string :=
  "[" +:+ join ", " (map f l) +:+ "]".
End fmt.

(** ** The implementations *)

Section implementations.
Context `{!DebugLib}.

(** [Debug for RedisConfig]: no certificate and no key. *)
Definition redis_config_debug (self : RedisConfig) : string :=
  match self with
  | PlainText host port => debug_struct "PlainText" [("host", debug_str host); ("port", print_Z port)]
  | Tls host port _ => debug_struct "Tls" [("host", debug_str host); ("port", print_Z port)]
  | MTls host port _ _ _ => debug_struct "MTls" [("host", debug_str host); ("port", print_Z port)]
  end.

Definition otlp_protocol_debug (self : OtlpProtocol) : string :=
  match self with Grpc => "Grpc" | HttpProtobuf => "HttpProtobuf" end.

(** [Debug for ObservabilityConfig]: of the headers, whether there are any. *)
Definition observability_config_debug (self : ObservabilityConfig) : string :=
  debug_struct "ObservabilityConfig" [
    ("traces_enabled", print_bool (traces_enabled self));
    ("traces_endpoint", debug_option debug_uri (traces_endpoint self));
    ("metrics_enabled", print_bool (metrics_enabled self));
    ("metrics_endpoint", debug_option debug_uri (metrics_endpoint self));
    ("protocol", otlp_protocol_debug (protocol self));
    ("headers_configured", print_bool (bool_decide (is_Some (headers self))));
    ("service_name", debug_str (service_name self))].

(** The derived ones of the configuration's parts. *)
Definition jwks_config_debug (self : JwksConfig) : string :=
  debug_struct "JwksConfig" [
    ("url", debug_url (jwks_url self));
    ("ca_cert_path", debug_option debug_path (jwks_ca_cert_path self))].
Definition downstream_debug (self : DownstreamTransportConfig) : string :=
  debug_struct "DownstreamTransportConfig" [
    ("tls_address", debug_option debug_address (tls_address self));
    ("server_private_key", debug_option debug_path (server_private_key self));
    ("server_certificate", debug_option debug_path (server_certificate self))].
Definition upstream_connection_mode_debug (self : UpstreamConnectionMode) : string :=
  match self with
  | PlainTextOrTls => "PlainTextOrTls" | PlainTextOrMTls => "PlainTextOrMTls"
  | TlsOnly => "TlsOnly" | MtlsOnly => "MtlsOnly"
  end.
Definition upstream_debug (self : UpstreamTransportConfig) : string :=
  debug_struct "UpstreamTransportConfig" [
    ("upstream_connection_mode", debug_option upstream_connection_mode_debug (upstream_connection_mode self));
    ("upstream_private_key", debug_option debug_path (upstream_private_key self));
    ("upstream_certificate", debug_option debug_path (upstream_certificate self));
    ("upstream_trust_bundle", debug_option debug_path (upstream_trust_bundle self))].

(** The derived [Debug for Config], without the [with_tools] feature. *)
Definition config_debug (self : Config) : string :=
  debug_struct "Config" [
    ("address", debug_option debug_address (address self));
    ("observability_config", observability_config_debug (observability_config self));
    ("jwks_config", jwks_config_debug (jwks_config self));
    ("user_config_cache_expiry_seconds", print_Z (user_config_cache_expiry_seconds self));
    ("redis_config", redis_config_debug (redis_config self));
    ("downstream_transport_config", downstream_debug (downstream_transport_config self));
    ("upstream_transport_config", upstream_debug (upstream_transport_config self));
    ("cel_principal_extractor_path", debug_option debug_path (cel_principal_extractor_path self));
    ("mcp_allowed_origins", debug_option (debug_list debug_url) (mcp_allowed_origins self));
    ("mcp_allowed_hosts", debug_option (debug_list debug_authority) (mcp_allowed_hosts self));
    ("mcp_standard_header_max_count", print_Z (mcp_standard_header_max_count self));
    ("mcp_standard_header_max_value_bytes", print_Z (mcp_standard_header_max_value_bytes self));
    ("mcp_standard_header_max_total_bytes", print_Z (mcp_standard_header_max_total_bytes self));
    ("runtime_plugins_enabled", debug_option print_bool (runtime_plugins_enabled self))].

(** The line [main] logs once logging is set up. *)
Definition startup_line (config : Config) : string :=
  "starting contextforge-data-plane " +:+ config_debug config.

(** [Debug for GatewayPluginRuntimeError]: never the source. *)
Definition runtime_error_debug (self : GatewayPluginRuntimeError) : string :=
  match self with
  | Configuration hook _ => debug_struct "Configuration" [("hook", debug_str hook)]
  | Initialization _ => "Initialization"
  | ConfigStoreUnavailable => "ConfigStoreUnavailable"
  | ConfigWrongFormat => "ConfigWrongFormat"
  | ConfigMissing => "ConfigMissing"
  | ConfigUnsupported => "ConfigUnsupported"
  | FactoryRegistryShared => "FactoryRegistryShared"
  end.

(** Services print no state: [JwtAuthorizationService] and [ToolHookState]. *)
Definition jwt_service_debug : string :=
  debug_struct_non_exhaustive "JwtAuthorizationService" [("verification_source", debug_str "remote JWKS")].
Definition tool_hook_state_debug : string := debug_struct_non_exhaustive "ToolHookState" [].
End implementations.

(** ** Secrets do not show *)

(** The key material and the exporter headers of a configuration. *)
Record Secrets : Type := {
  secret_trust_bundle : string;
  secret_client_cert : string;
  secret_client_key : string;
  secret_headers : string;
}.
Definition set_redis_secrets (secrets : Secrets) (self : RedisConfig) : RedisConfig :=
  match self with
  | PlainText host port => PlainText host port
  | Tls host port _ => Tls host port (secret_trust_bundle secrets)
  | MTls host port _ _ _ =>
      MTls host port (secret_trust_bundle secrets) (secret_client_cert secrets) (secret_client_key secrets)
  end.
Definition set_headers (secrets : Secrets) (self : ObservabilityConfig) : ObservabilityConfig := {|
  traces_enabled := traces_enabled self; traces_endpoint := traces_endpoint self;
  metrics_enabled := metrics_enabled self; metrics_endpoint := metrics_endpoint self;
  protocol := protocol self; headers := (λ _, secret_headers secrets) <$> headers self;
  service_name := service_name self |}.
Definition set_secrets (secrets : Secrets) (self : Config) : Config := {|
  address := address self;
  observability_config := set_headers secrets (observability_config self);
  jwks_config := jwks_config self;
  user_config_cache_expiry_seconds := user_config_cache_expiry_seconds self;
  redis_config := set_redis_secrets secrets (redis_config self);
  downstream_transport_config := downstream_transport_config self;
  upstream_transport_config := upstream_transport_config self;
  cel_principal_extractor_path := cel_principal_extractor_path self;
  mcp_allowed_origins := mcp_allowed_origins self;
  mcp_allowed_hosts := mcp_allowed_hosts self;
  mcp_standard_header_max_count := mcp_standard_header_max_count self;
  mcp_standard_header_max_value_bytes := mcp_standard_header_max_value_bytes self;
  mcp_standard_header_max_total_bytes := mcp_standard_header_max_total_bytes self;
  runtime_plugins_enabled := runtime_plugins_enabled self |}.

Section hidden.
Context `{!DebugLib}.

(** The line the binary logs when it starts is the same whatever certificates and keys
    it was given for Redis and whatever headers for the exporters; of the headers it
    says only whether there are any. *)
Theorem startup_line_hides_secrets secrets (config : Config) :
  startup_line (set_secrets secrets config) = startup_line config.
Proof.
  assert (redis_config_debug (set_redis_secrets secrets (redis_config config))
    = redis_config_debug (redis_config config)) as Hredis by (by destruct (redis_config config)).
  assert (observability_config_debug (set_headers secrets (observability_config config))
    = observability_config_debug (observability_config config)) as Hheaders.
  { unfold observability_config_debug, set_headers. cbn. by destruct (headers (observability_config config)). }
  unfold startup_line, config_debug. cbn [set_secrets address observability_config redis_config].
  by rewrite Hredis, Hheaders.
Qed.

(** What caused an error of the plugin runtime shows neither in its message nor in its
    [Debug]. *)
Theorem runtime_error_hides_source (f : string → string) (e : GatewayPluginRuntimeError) :
  let e' := match e with
    | Configuration hook source => Configuration hook (f source)
    | Initialization source => Initialization (f source)
    | e => e
    end in
  runtime_error_debug e' = runtime_error_debug e ∧ runtime_error_to_string e' = runtime_error_to_string e.
Proof. by destruct e. Qed.
End hidden.
