(* ===== verification/Observability.v ===== *)
(** * Logging, metrics and trace propagation ([contextforge-data-plane-observability])

    What [init_tracing_logging] sets up for a configuration, and the two seams
    through which a trace passes the gateway.  Exporters, propagators and the
    subscriber registry are OpenTelemetry's and [tracing]'s: parameters, of which
    the model keeps what the code tells them.  The process-wide installations
    are explicit state. *)

From S2P Require Import Prelude HttpTypes Apis McpStandardHeaders ConfigStore Config.
From S2P Require Import UpstreamHeaders Layers Text.

Definition DEFAULT_GRPC_TRACES_ENDPOINT : string := "http://127.0.0.1:4317".
Definition DEFAULT_GRPC_METRICS_ENDPOINT : string := "http://127.0.0.1:4317".
Definition DEFAULT_HTTP_TRACES_ENDPOINT : string := "http://127.0.0.1:4318/v1/traces".
Definition DEFAULT_HTTP_METRICS_ENDPOINT : string := "http://127.0.0.1:4318/v1/metrics".
Definition METRICS_EXPORT_INTERVAL : Duration := 30 * 10 ^ 9.
Definition DEFAULT_LOGGING : string :=
  "debug,hyper_util=OFF,tower_http=OFF,rmcp=warn,reqwest=warn,rustls=WARN,h2=WARN,opentelemetry_sdk=WARN,opentelemetry-otlp=WARN".

(** ** Exporter headers *)

(** The errors of the set-up, with the text they quote. *)
Inductive ObservabilityError : Type :=
| MissingSeparator (entry : string)
| EmptyKey (entry : string)
| InvalidMetadataKey (key e : string)
| InvalidMetadataValue (key e : string)
| ExporterBuild (e : string).

(** One turn of the loop over the comma-separated entries. *)
Definition parse_otlp_entry (out : gmap string string) (entry : string)
    : result ObservabilityError (gmap string string) :=
  let entry := trim entry in
  if String.eqb entry "" then Ok out else
  match split_once (char_is "=") entry with
  | None => Err (MissingSeparator entry)
  | Some (key, value) =>
      if String.eqb (trim key) "" then Err (EmptyKey entry)
      else Ok (<[trim key := trim value]> out)
  end.
Definition parse_otlp_headers (raw : option string)
    : result ObservabilityError (gmap string string) :=
  match raw with
  | None => Ok ∅
  | Some raw => foldM parse_otlp_entry (split (char_is ",") raw) ∅
  end.

(** [tonic]: the keys and values of gRPC metadata; a key is normalised. *)
Class Tonic := {
  metadata_key_from_bytes : string → result string string;
  metadata_value_try_from : string → result string string;
}.

Section metadata.
Context `{!HashIter, !Tonic}.

Definition metadata_step (map : gmap string string) (header : string * string)
    : result ObservabilityError (gmap string string) :=
  let '(k, v) := header in
  key ← map_err (InvalidMetadataKey k) (metadata_key_from_bytes k);
  val ← map_err (InvalidMetadataValue k) (metadata_value_try_from v);
  Ok (<[key := val]> map).
Definition headers_to_metadata (headers : gmap string string)
    : result ObservabilityError (gmap string string) :=
  foldM metadata_step (hash_entries headers) ∅.
End metadata.

(** ** Exporters and providers *)

(** What an exporter builder is told. *)
Inductive ExporterSettings : Type :=
| TonicExporter (endpoint : string) (metadata : gmap string string) (timeout : Duration)
| HttpBinaryExporter (endpoint : string) (headers : option (gmap string string))
    (timeout : Duration).

(** The exporters a build gives; [Propagator] is what a text-map propagator
    reads and writes. *)
Class Otlp := {
  SpanExporter : Type;
  MetricExporter : Type;
  build_span_exporter : ExporterSettings → result string SpanExporter;
  build_metric_exporter : ExporterSettings → result string MetricExporter;
}.

Section init.
Context `{!HashIter, !Tonic, !Otlp}.

(** Spans are exported in batches and all sampled; metrics are read out
    periodically. *)
Record TracerProvider : Type := { span_exporter : SpanExporter; tracer_service_name : string }.
Record MeterProvider : Type := {
  metric_exporter : MetricExporter;
  interval : Duration;
  meter_service_name : string;
}.
(** The registry's layers: the console with its filter, and the trace layer. *)
Record Subscriber : Type := {
  console_filter : string;
  telemetry : option (TracerProvider * string);
}.
Record Guard : Type := { guarded_meter_provider : option MeterProvider }.

(** What is installed process-wide. *)
Record Globals : Type := {
  trace_context_propagator : bool;
  meter_provider : option MeterProvider;
  subscriber : option Subscriber;
}.
Definition set_text_map_propagator (g : Globals) : Globals :=
  {| trace_context_propagator := true; meter_provider := meter_provider g;
     subscriber := subscriber g |}.
Definition set_meter_provider (p : MeterProvider) (g : Globals) : Globals :=
  {| trace_context_propagator := trace_context_propagator g; meter_provider := Some p;
     subscriber := subscriber g |}.
(** [SubscriberInitExt::init] panics when a subscriber is installed already. *)
Definition init_subscriber (s : Subscriber) (g : Globals) : outcome Globals :=
  match subscriber g with
  | Some _ => Panics
  | None => Returns {| trace_context_propagator := trace_context_propagator g;
                       meter_provider := meter_provider g; subscriber := Some s |}
  end.

(** The exporter settings, which traces and metrics choose alike. *)
Definition exporter_settings (protocol : OtlpProtocol) (endpoint : option Uri)
    (default_grpc default_http : string) (headers : gmap string string)
    : result ObservabilityError ExporterSettings :=
  match protocol with
  | Grpc =>
      metadata ← headers_to_metadata headers;
      Ok (TonicExporter (default default_grpc endpoint) metadata (3 * 10 ^ 9))
  | HttpProtobuf =>
      Ok (HttpBinaryExporter (default default_http endpoint)
            (if bool_decide (headers = ∅) then None else Some headers) (10 * 10 ^ 9))
  end.

Definition init_meter_provider (configuration : ObservabilityConfig) (g : Globals)
    : result ObservabilityError (option MeterProvider) * Globals :=
  if negb (metrics_enabled configuration) then (Ok None, g) else
  match (headers ← parse_otlp_headers (headers configuration);
         settings ← exporter_settings (protocol configuration) (metrics_endpoint configuration)
                      DEFAULT_GRPC_METRICS_ENDPOINT DEFAULT_HTTP_METRICS_ENDPOINT headers;
         map_err ExporterBuild (build_metric_exporter settings)) with
  | Err e => (Err e, g)
  | Ok exporter =>
      let provider := {| metric_exporter := exporter; interval := METRICS_EXPORT_INTERVAL;
                         meter_service_name := service_name configuration |} in
      (Ok (Some provider), set_meter_provider provider g)
  end.

Definition init_span_exporter (configuration : ObservabilityConfig)
    : result ObservabilityError SpanExporter :=
  headers ← parse_otlp_headers (headers configuration);
  settings ← exporter_settings (protocol configuration) (traces_endpoint configuration)
               DEFAULT_GRPC_TRACES_ENDPOINT DEFAULT_HTTP_TRACES_ENDPOINT headers;
  map_err ExporterBuild (build_span_exporter settings).

(** [env] is [std::env::var(..).ok()]. *)
Definition init_tracing_logging (env : string → option string)
    (configuration : ObservabilityConfig) (g : Globals)
    : outcome (result ObservabilityError Guard * Globals) :=
  let console_filter := default DEFAULT_LOGGING (env "RUST_LOG") in
  let tracing_filter := default DEFAULT_LOGGING (env "RUST_TRACE_LOG") in
  if traces_enabled configuration then
    match init_span_exporter configuration with
    | Err e => Returns (Err e, g)
    | Ok exporter =>
        let tracer_provider := {| span_exporter := exporter;
                                  tracer_service_name := service_name configuration |} in
        let g := set_text_map_propagator g in
        let '(meter_provider, g) := init_meter_provider configuration g in
        match meter_provider with
        | Err e => Returns (Err e, g)
        | Ok meter_provider =>
            g ← init_subscriber {| console_filter := console_filter;
                                   telemetry := Some (tracer_provider, tracing_filter) |} g;
            Returns (Ok {| guarded_meter_provider := meter_provider |}, g)
        end
    end
  else
    g ← init_subscriber {| console_filter := console_filter; telemetry := None |} g;
    Returns (Ok {| guarded_meter_provider := None |}, g).
End init.

(** ** Trace propagation ([propagation.rs]) *)

(** The W3C propagator: [prop_extract] reads a carrier through [get] and [keys],
    [prop_inject] is the fields it sets.  [HeaderValue::to_str] fails on bytes that
    are not visible ASCII. *)
Class Propagator := {
  Context : Type;
  prop_extract : (string → option string) → list string → Context → Context;
  prop_inject : Context → list (string * string);
  HeaderValue_to_str : HeaderValue → option string;
}.
(** A propagator reads back what it wrote of a valid context, and writes the fields it declares; a value
    made from a text is that text. *)
Class PropagatorLaws `{Propagator, HttpLib} := {
  remote : Context → Context;
  extract_inject c get keys current : prop_inject c ≠ [] →
    (∀ k v, (k, v) ∈ prop_inject c → get k = Some v) →
    prop_extract get keys current = remote c;
  inject_keys_distinct c : NoDup (to_ascii_lowercase <$> (prop_inject c).*1);
  inject_valid c k v : (k, v) ∈ prop_inject c →
    is_Some (HeaderName_from_bytes k) ∧ is_Some (HeaderValue_from_str v);
  to_str_from_str s v : HeaderValue_from_str s = Some v → HeaderValue_to_str v = Some s;
}.

Section propagation.
Context `{!Propagator, !HttpLib}.

(** [HeaderExtractor]: a [HeaderMap] finds a name in any case. *)
Definition extractor_get (headers : HeaderMap) (key : string) : option string :=
  value ← assoc_get (to_ascii_lowercase key) headers; HeaderValue_to_str value.
Definition extractor_keys (headers : HeaderMap) : list string := remove_dups headers.*1.

(** [HeaderInjector::set]. *)
Definition injector_set (headers : UpstreamHeaders) (field : string * string) : UpstreamHeaders :=
  match HeaderName_from_bytes field.1, HeaderValue_from_str field.2 with
  | Some name, Some value => <[name := value]> headers
  | _, _ => headers
  end.

(** [ExtractingMakeSpan::make_span]: the parent of the request's span; without
    an installed propagator nothing is read. *)
Definition make_span_parent (installed : bool) (headers : HeaderMap) (current : Context) : Context :=
  if installed then prop_extract (extractor_get headers) (extractor_keys headers) current
  else current.

(** [inject_current_context], and the interface the connection uses. *)
Definition inject_context (installed : bool) (context : Context) (headers : UpstreamHeaders)
    : UpstreamHeaders :=
  if installed then foldl injector_set headers (prop_inject context) else headers.
Definition current_trace (installed : bool) (context : Context) : TraceContext :=
  {| inject_current_context := inject_context installed context |}.
End propagation.

(** ** Theorems on the configuration *)

Lemma str_eqb_blank s : String.eqb (trim s) "" = is_blank s.
Proof.
  destruct (is_blank s) eqn:E.
  - apply is_blank_trim in E. by rewrite E.
  - apply String.eqb_neq. intros H. apply is_blank_trim in H. congruence.
Qed.

(** What an entry means: nothing if it is blank; else the texts around its first
    equals sign, of which the first is not blank. *)
Definition otlp_pair (entry : string) : option (string * string) :=
  if is_blank entry then None else
  '(k, v) ← split_once (char_is "=") entry; Some (trim k, trim v).
Definition otlp_entry_ok (entry : string) : bool :=
  is_blank entry ||
  match split_once (char_is "=") entry with Some (k, _) => negb (is_blank k) | None => false end.

Lemma equals_not_blank : blank_byte "=" = false.
Proof. done. Qed.
Lemma split_once_equals_trim entry : is_blank entry = false →
  split_once (char_is "=") (trim entry) =
  match split_once (char_is "=") entry with
  | Some (k, v) => Some (trim_start_ws k, trim_end_ws v)
  | None => None
  end.
Proof.
  intros _. destruct (split_once (char_is "=") entry) as [[k v]|] eqn:E.
  - apply split_once_Some in E as (c & -> & Hc & Hk). apply Ascii.eqb_eq in Hc as <-.
    rewrite trim_app by done. apply split_once_Some. exists "="%char. split_and!; try done.
    destruct (trim_start_suffix k) as [b Hb]. rewrite Hb, str_all_app in Hk.
    by apply andb_true_iff in Hk as [_ Hk].
  - apply split_once_None. apply split_once_None in E.
    destruct (trim_infix entry) as (a & b & Hb). rewrite Hb, !str_all_app in E.
    by apply andb_true_iff in E as [_ [E _]%andb_true_iff].
Qed.

Lemma parse_otlp_entry_spec out entry :
  parse_otlp_entry out entry =
  if otlp_entry_ok entry
  then Ok (match otlp_pair entry with Some (k, v) => <[k := v]> out | None => out end)
  else Err (if split_once (char_is "=") entry is Some _ then EmptyKey (trim entry)
            else MissingSeparator (trim entry)).
Proof.
  unfold parse_otlp_entry, otlp_entry_ok, otlp_pair. rewrite str_eqb_blank.
  destruct (is_blank entry) eqn:Hb; [done|]. rewrite split_once_equals_trim by done.
  destruct (split_once _ entry) as [[k v]|]; [|done]. cbn [orb mbind option_bind].
  by rewrite trim_trim_start, trim_trim_end, str_eqb_blank; destruct (is_blank k).
Qed.

(** The exporter headers of a text: every comma-separated entry must be blank or
    have an equals sign with something before it; the entries that are not
    blank are the headers, keys and values without surrounding white space, and of
    several entries with one key the last counts.  Nothing is dropped silently. *)
Theorem parse_otlp_headers_spec raw m :
  let entries := split (char_is ",") raw in
  parse_otlp_headers (Some raw) = Ok m ↔
  Forall (λ entry, otlp_entry_ok entry = true) entries ∧
  m = list_to_map (reverse (omap otlp_pair entries)).
Proof.
  intros entries. change (parse_otlp_headers (Some raw)) with (foldM parse_otlp_entry entries ∅).
  clearbody entries. assert (∀ out, foldM parse_otlp_entry entries out = Ok m ↔
    Forall (λ entry, otlp_entry_ok entry = true) entries ∧
    m = list_to_map (reverse (omap otlp_pair entries)) ∪ out) as Hgo.
  { induction entries as [|e entries IH]; intros out; cbn [foldM omap list_omap].
    - change (reverse (@nil (string * string))) with (@nil (string * string)).
      rewrite list_to_map_nil, (left_id_L ∅ (∪)).
      split; [intros [= ->]; by split; [constructor|]|by intros [_ ->]].
    - rewrite parse_otlp_entry_spec, Forall_cons. destruct (otlp_entry_ok e); [|naive_solver].
      cbn [mbind result_bind]. rewrite IH. destruct (otlp_pair e) as [[k v]|]; [|naive_solver].
      rewrite reverse_cons, list_to_map_app, list_to_map_cons, list_to_map_nil, <- (assoc_L (∪)).
      rewrite <- insert_union_l, (left_id_L ∅ (∪)). naive_solver. }
  by rewrite Hgo, (right_id_L ∅ (∪)).
Qed.

(** Writing headers the way the documentation of the command line shows. *)
Definition render_otlp_headers (headers : list (string * string)) : string :=
  join "," (map (λ '(k, v), k +:+ "=" +:+ v) headers).
Definition renderable (header : string * string) : Prop :=
  let '(k, v) := header in
  k ≠ "" ∧ trim k = k ∧ trim v = v ∧
  str_any (λ c, char_is "," c || char_is "=" c) k = false ∧ str_any (char_is ",") v = false.

Lemma trim_start_fixed k : trim k = k → trim_start_ws k = k ∧ trim_end_ws k = k.
Proof.
  intros Hk. destruct (trim_start_suffix k) as [a Ha].
  destruct (trim_end_prefix (trim_start_ws k)) as (b & Hb & _).
  change (trim_end_ws (trim_start_ws k)) with (trim k) in Hb. rewrite Hk in Hb.
  rewrite Hb in Ha. apply (f_equal String.length) in Ha as Hl. rewrite !length_app_s in Hl.
  destruct a, b; simpl in Hl; try lia. rewrite app_empty_r in Hb.
  split; [done|]. rewrite <- Hk at 2. unfold trim. by rewrite Hb.
Qed.
Lemma render_entry k v : renderable (k, v) →
  otlp_entry_ok (k +:+ "=" +:+ v) = true ∧ otlp_pair (k +:+ "=" +:+ v) = Some (k, v) ∧
  str_any (char_is ",") (k +:+ "=" +:+ v) = false.
Proof.
  intros (Hne & Hk & Hv & Hks & Hvs).
  assert (is_blank k = false) as Hbk.
  { apply not_true_is_false. intros H%is_blank_trim. congruence. }
  assert (str_all (λ c, negb (char_is "," c)) k = true ∧ str_all (λ c, negb (char_is "=" c)) k = true)
    as [Hkc Hke].
  { unfold str_any in Hks. apply negb_false_iff in Hks. clear -Hks.
    induction k as [|c k IH]; [done|]. simpl in *. apply andb_true_iff in Hks as [Hc Hks].
    apply negb_true_iff, orb_false_iff in Hc as [-> ->]. by apply IH. }
  assert (split_once (char_is "=") (k +:+ "=" +:+ v) = Some (k, v)) as Hs.
  { apply split_once_Some. by exists "="%char. }
  assert (is_blank (k +:+ "=" +:+ v) = false) as Hb by (by apply (is_blank_mid "=")).
  unfold otlp_entry_ok, otlp_pair. rewrite Hs, Hb, Hbk. cbn. rewrite Hk, Hv.
  split_and!; [done..|]. unfold str_any in *. rewrite negb_false_iff in *.
  rewrite str_all_app. by rewrite Hkc.
Qed.

(** Headers written as comma-separated pairs are read back exactly, in
    whatever order a map of them is written. *)
Theorem parse_otlp_headers_roundtrip headers
    (Hne : headers ≠ []) (Hok : Forall renderable headers) (Hkeys : NoDup headers.*1) :
  parse_otlp_headers (Some (render_otlp_headers headers)) = Ok (list_to_map headers).
Proof.
  apply parse_otlp_headers_spec. unfold render_otlp_headers.
  assert (∀ e, e ∈ map (λ '(k, v), k +:+ "=" +:+ v) headers →
    ∃ k v, e = k +:+ "=" +:+ v ∧ renderable (k, v)) as Hes.
  { intros e ([k v] & -> & Hin)%list_elem_of_fmap. exists k, v. split; [done|].
    by eapply Forall_forall in Hok. }
  rewrite split_join.
  - split.
    + apply Forall_forall. intros e (k & v & -> & Hr)%Hes. by apply render_entry.
    + assert (omap otlp_pair (map (λ '(k, v), k +:+ "=" +:+ v) headers) = headers) as ->.
      { clear -Hok. induction Hok as [|[k v] headers Hr _ IH]; [done|]. cbn [map omap list_omap].
        destruct (render_entry k v Hr) as (_ & -> & _). by f_equal. }
      apply list_to_map_proper; [|by rewrite reverse_Permutation].
      done.
  - by destruct headers as [|[]].
  - apply Forall_forall. intros e (k & v & -> & Hr)%Hes. by apply render_entry.
Qed.

(** ** Theorems on the set-up *)

Section setup.
Context `{!HashIter, !HashIterLaws, !Tonic, !Otlp}.

Lemma metadata_fold_ok l : ∀ map,
  (∃ m, foldM metadata_step l map = Ok m) ↔
  Forall (λ '(k, v), is_ok (metadata_key_from_bytes k) = true ∧
                     is_ok (metadata_value_try_from v) = true) l.
Proof.
  induction l as [|[k v] l IH]; intros map; cbn [foldM].
  { split; [constructor|by eexists]. }
  rewrite Forall_cons. unfold metadata_step.
  destruct (metadata_key_from_bytes k); cbn; [|naive_solver].
  destruct (metadata_value_try_from v); cbn; [|naive_solver].
  rewrite (IH (<[a:=a0]> map)). naive_solver.
Qed.

(** gRPC metadata is made exactly when every configured header can be encoded:
    one that cannot be is an error, not dropped. *)
Lemma headers_to_metadata_ok headers :
  (∃ m, headers_to_metadata headers = Ok m) ↔
  map_Forall (λ k v, is_ok (metadata_key_from_bytes k) = true ∧
                     is_ok (metadata_value_try_from v) = true) headers.
Proof.
  unfold headers_to_metadata.
  rewrite metadata_fold_ok, map_Forall_to_list, hash_entries_perm.
  split; intros Hall; (eapply Forall_impl; [exact Hall|]); by intros [k v].
Qed.

(** The exporter of one signal, for the headers and the endpoint of a
    configuration. *)
Definition exports {X} (configuration : ObservabilityConfig) (build : ExporterSettings → result string X)
    (endpoint : option Uri) (default_grpc default_http : string) (exporter : X) : Prop :=
  ∃ headers, parse_otlp_headers (Config.headers configuration) = Ok headers ∧
  match protocol configuration with
  | Grpc => ∃ metadata, headers_to_metadata headers = Ok metadata ∧
      build (TonicExporter (default default_grpc endpoint) metadata (3 * 10 ^ 9)) = Ok exporter
  | HttpProtobuf => ∃ sent, default ∅ sent = headers ∧
      build (HttpBinaryExporter (default default_http endpoint) sent (10 * 10 ^ 9)) = Ok exporter
  end.

Lemma exporter_built {X} configuration (build : ExporterSettings → result string X) endpoint dg dh x :
  (headers ← parse_otlp_headers (Config.headers configuration);
   settings ← exporter_settings (protocol configuration) endpoint dg dh headers;
   map_err ExporterBuild (build settings)) = Ok x →
  exports configuration build endpoint dg dh x.
Proof.
  rewrite result_bind_ok. intros (headers & Hh & Hb). rewrite result_bind_ok in Hb.
  destruct Hb as (settings & Hs & Hx). exists headers. split; [done|].
  destruct (build settings) as [y|] eqn:Hy; [|done]. injection Hx as ->.
  unfold exporter_settings in Hs. destruct (protocol configuration).
  - apply result_bind_ok in Hs as (metadata & Hm & [= <-]). by exists metadata.
  - injection Hs as <-. eexists. split; [|done]. by case_bool_decide.
Qed.

(** C38: setting up observability in a process that has no subscriber yet.  It
    never panics, and what it installs is what the configuration says: the
    console always, with the filter of the environment; traces, with the W3C
    propagator, when they are enabled; metrics only when metrics and traces both
    are; both to the configured endpoints, with every configured header and under
    the configured service name.  It fails only while exporters for traces or
    metrics are set up, and then no subscriber is installed. *)
Theorem init_tracing_logging_spec env configuration g
    (Hfresh : subscriber g = None) :
  ∃ r g', init_tracing_logging env configuration g = Returns (r, g') ∧
  match r with
  | Err _ => traces_enabled configuration = true ∧
             subscriber g' = None ∧ meter_provider g' = meter_provider g
  | Ok guard =>
      ∃ s, subscriber g' = Some s ∧
      console_filter s = default DEFAULT_LOGGING (env "RUST_LOG") ∧
      trace_context_propagator g' = trace_context_propagator g || traces_enabled configuration ∧
      match telemetry s with
      | None => traces_enabled configuration = false
      | Some (provider, filter) => traces_enabled configuration = true ∧
          filter = default DEFAULT_LOGGING (env "RUST_TRACE_LOG") ∧
          tracer_service_name provider = service_name configuration ∧
          exports configuration build_span_exporter (traces_endpoint configuration)
            DEFAULT_GRPC_TRACES_ENDPOINT DEFAULT_HTTP_TRACES_ENDPOINT (span_exporter provider)
      end ∧
      match guarded_meter_provider guard with
      | None => (traces_enabled configuration && metrics_enabled configuration) = false ∧
          meter_provider g' = meter_provider g
      | Some provider => traces_enabled configuration = true ∧ metrics_enabled configuration = true ∧
          meter_provider g' = Some provider ∧ interval provider = METRICS_EXPORT_INTERVAL ∧
          meter_service_name provider = service_name configuration ∧
          exports configuration build_metric_exporter (metrics_endpoint configuration)
            DEFAULT_GRPC_METRICS_ENDPOINT DEFAULT_HTTP_METRICS_ENDPOINT (metric_exporter provider)
      end
  end.
Proof.
  unfold init_tracing_logging. destruct (traces_enabled configuration).
  - destruct (init_span_exporter configuration) as [exporter|e] eqn:Hs;
      [|by exists (Err e), g].
    apply exporter_built in Hs. unfold init_meter_provider.
    destruct (metrics_enabled configuration); cbn [negb].
    + destruct (_ ≫= _) as [mexporter|e] eqn:Hm; [|by eexists (Err e), _].
      apply exporter_built in Hm. unfold init_subscriber; cbn. rewrite Hfresh. cbn.
      eexists (Ok _), _. split; [done|]. eexists. rewrite orb_true_r. by split_and!.
    + unfold init_subscriber; cbn. rewrite Hfresh. cbn.
      eexists (Ok _), _. split; [done|]. eexists. rewrite orb_true_r. by split_and!.
  - unfold init_subscriber. rewrite Hfresh. cbn.
    eexists (Ok _), _. split; [done|]. eexists. rewrite orb_false_r. by split_and!.
Qed.
End setup.

(** ** Theorems on propagation *)

Section traces.
Context `{!Propagator, !HttpLib, !HttpLibLaws, !PropagatorLaws, !RmcpHeaders, !UrlParts}.

Lemma inject_lookup fields n : ∀ headers,
  NoDup (to_ascii_lowercase <$> fields.*1) →
  Forall (λ '(k, v), is_Some (HeaderName_from_bytes k) ∧ is_Some (HeaderValue_from_str v)) fields →
  foldl injector_set headers fields !! n =
  match list_find (λ field, to_ascii_lowercase field.1 = n) fields with
  | Some (_, (_, v)) => Some v
  | None => headers !! n
  end.
Proof.
  induction fields as [|[k v] fields IH]; intros headers Hnd Hok; [done|].
  apply Forall_cons in Hok as [[[name Hn] [value Hv]] Hok].
  cbn [fmap list_fmap map] in Hnd. apply NoDup_cons in Hnd as [Hk Hnd].
  cbn [foldl list_find fst]. rewrite IH by done. unfold injector_set; cbn [fst snd].
  rewrite Hn, Hv. apply from_bytes_lower in Hn as ->. apply from_str_same in Hv as ->.
  destruct (decide (to_ascii_lowercase k = n)) as [<-|Hne].
  - destruct (list_find _ fields) as [[i [k' v']]|] eqn:Hf; [|by rewrite lookup_insert_eq].
    apply list_find_Some in Hf as (Hi & Heq & _). exfalso. apply Hk. cbn [fst] in *. rewrite <- Heq.
    apply list_elem_of_fmap. exists k'. split; [done|]. apply list_elem_of_fmap.
    exists (k', v'). split; [done|]. exact (list_elem_of_lookup_2 _ _ _ Hi).
  - rewrite lookup_insert_ne by done. by destruct (list_find _ fields) as [[? []]|].
Qed.

Lemma injected_field context headers k v : (k, v) ∈ prop_inject context →
  inject_context true context headers !! to_ascii_lowercase k = Some v.
Proof.
  intros Hin. pose proof (inject_keys_distinct context) as Hnd. unfold inject_context.
  rewrite inject_lookup; [|done|]; [|apply Forall_forall; intros [] ?; by eapply inject_valid].
  rewrite <- list_fmap_compose in Hnd.
  apply list_elem_of_lookup_1 in Hin as [j Hj].
  destruct (list_find _ _) as [[i [k' v']]|] eqn:Hf.
  - apply list_find_Some in Hf as (Hi & Heq & _). cbn [fst] in Heq.
    assert (i = j) as ->; [|by simplify_eq].
    eapply (NoDup_lookup _ i j (to_ascii_lowercase k) Hnd); rewrite list_lookup_fmap.
    + rewrite Hi. cbn. by rewrite Heq.
    + by rewrite Hj.
  - apply list_find_None in Hf. eapply Forall_lookup_1 in Hf; [|done]. done.
Qed.

(** A backend continues the gateway's trace.  Every field the propagator writes
    is in the request to the backend with the value of the current context,
    whatever headers are configured, passed through or removed; every other
    header is as configured; and what a propagator on the backend's side extracts
    from the request is the gateway's context, if that is valid. *)
Theorem trace_continues context backend added downstream current :
  let headers := custom_headers
    (@connect_request _ _ _ (current_trace true context) backend added downstream) in
  (∀ k v, (k, v) ∈ prop_inject context → headers !! to_ascii_lowercase k = Some v) ∧
  (∀ n, Forall (λ field, to_ascii_lowercase field.1 ≠ n) (prop_inject context) →
     headers !! n = apply_header_config (host_header backend) backend added downstream !! n) ∧
  (prop_inject context ≠ [] →
     make_span_parent true (map_to_list headers) current = remote context).
Proof.
  intros headers.
  assert (∀ k v, (k, v) ∈ prop_inject context → headers !! to_ascii_lowercase k = Some v) as Hf.
  { intros k v Hin. by apply injected_field. }
  split_and!; [done| |].
  - intros n Hn. cbn. rewrite inject_lookup;
      [|apply inject_keys_distinct|apply Forall_forall; intros [] ?; by eapply inject_valid].
    destruct (list_find _ _) as [[i field]|] eqn:Hl; [|done].
    apply list_find_Some in Hl as (Hi & Heq & _). by eapply Forall_lookup_1 in Hn.
  - intros Hne. apply extract_inject; [done|]. intros k v Hin. unfold extractor_get.
    erewrite assoc_get_elem; [|apply NoDup_fst_map_to_list|by apply elem_of_map_to_list, Hf].
    apply inject_valid in Hin as [_ [v' Hv']]. apply from_str_same in Hv' as Heq. subst v'.
    by apply to_str_from_str in Hv'.
Qed.
End traces.

(** ** A concrete set-up

    Metadata keys are lower-case header names; exporters always build; a context is
    one [traceparent] value. *)

Module ConcreteObservability.
Import Concrete.
#[export] Instance tonic : Tonic := {|
  metadata_key_from_bytes s := ok_or (HeaderName_from_bytes s) "invalid";
  metadata_value_try_from s := ok_or (HeaderValue_from_str s) "invalid" |}.
#[export] Instance otlp : Otlp := {|
  SpanExporter := ExporterSettings; MetricExporter := ExporterSettings;
  build_span_exporter s := Ok s; build_metric_exporter s := Ok s |}.
(** A context that cannot be a header value is not written. *)
#[export] Instance propagator : Propagator := {|
  Context := string;
  prop_extract get _ current := default "" (get "traceparent");
  prop_inject c :=
    if HeaderValue_from_str c is Some _
    then (if String.eqb c "" then [] else [("traceparent", c)]) else [];
  HeaderValue_to_str v := HeaderValue_from_str v |}.
#[export] Instance propagator_laws : PropagatorLaws.
Proof.
  refine {| remote c := c |}.
  - intros c get keys current. cbn [prop_inject prop_extract propagator].
    destruct (HeaderValue_from_str c) as [v|]; [|done]. destruct (String.eqb c ""); [done|].
    intros _ Hget. by rewrite (Hget "traceparent" c) by left.
  - intros c. cbn [prop_inject propagator]. destruct (HeaderValue_from_str c); [|constructor].
    destruct (String.eqb c ""); [constructor|]. apply NoDup_singleton.
  - intros c k v. cbn [prop_inject propagator]. destruct (HeaderValue_from_str c) eqn:E; [|by intros ?%not_elem_of_nil].
    destruct (String.eqb c ""); [by intros ?%not_elem_of_nil|]. intros [= -> ->]%list_elem_of_singleton.
    split; [by eexists|by rewrite E].
  - intros s v Hv. apply from_str_same in Hv as Heq. subst v. exact Hv.
Defined.

Definition settings : ObservabilityConfig := {|
  traces_enabled := true; traces_endpoint := None; metrics_enabled := true;
  metrics_endpoint := Some "http://collector:4317"; protocol := Grpc;
  headers := Some "Authorization=Basic abc, X-Project = demo,"; service_name := "gateway" |}.
Definition no_globals : Globals :=
  {| trace_context_propagator := false; meter_provider := None; subscriber := None |}.

Lemma parse_otlp_headers_roundtrip_witness :
  parse_otlp_headers (Some (render_otlp_headers [("Authorization", "Basic abc="); ("X-Project", "demo")]))
  = Ok (list_to_map [("Authorization", "Basic abc="); ("X-Project", "demo")]).
Proof.
  apply parse_otlp_headers_roundtrip; [done| |].
  - repeat constructor; vm_compute; congruence.
  - apply NoDup_cons. split; [set_solver|apply NoDup_singleton].
Defined.

Lemma init_tracing_logging_spec_witness :
  ∃ guard g, init_tracing_logging (λ _, None) settings no_globals = Returns (Ok guard, g) ∧
  trace_context_propagator g = true ∧ guarded_meter_provider guard ≠ None.
Proof.
  destruct (init_tracing_logging_spec (λ _, None) settings no_globals eq_refl)
    as ([guard|e] & g & Hr & H).
  - exists guard, g. split; [exact Hr|]. destruct H as (s & _ & _ & Hp & _ & Hm).
    split; [exact Hp|]. intros Hn. rewrite Hn in Hm. destruct Hm as [Hm _]. discriminate Hm.
  - exfalso. revert Hr. vm_compute. discriminate.
Defined.

#[export] Instance url_parts : UrlParts := {|
  upstream_scheme _ := "https"; upstream_host_str _ := Some "weather"; upstream_port _ := None |}.
Definition context : Context := "00-0af7651916cd43dd8448eb211c80319c-b7ad6b7169203331-01".
(** The trace headers of a client are passed through, and those of the gateway win. *)
Definition traced_backend : BackendMCPGateway := {|
  backend_display_name := "weather"; url := "https://weather/mcp";
  mcp_protocol_version := "2025-11-25"; passthrough_headers := ["traceparent"];
  add_headers := ∅; remove_headers := ["traceparent"];
  completion_config := ∅; tool_schemas := ∅ |}.
Lemma trace_continues_witness :
  let headers := custom_headers (@connect_request _ _ _ (current_trace true context)
                   traced_backend [] (Some [("traceparent", "00-client")])) in
  headers !! "traceparent" = Some context ∧
  make_span_parent true (map_to_list headers) "" = context.
Proof.
  destruct (trace_continues context traced_backend [] (Some [("traceparent", "00-client")]) "")
    as (Hf & _ & Hr).
  split; [apply (Hf "traceparent"); by left|by apply Hr].
Defined.
End ConcreteObservability.
