(* ===== verification/GlobalConfigStore.v ===== *)
(** * The global configuration ([config_stores/global_config_store.rs])

    The same generic store as the subjects' configurations, instantiated with one
    key and opened anew for every access, so its cache never has an entry. *)

From S2P Require Import Prelude HttpTypes McpStandardHeaders Apis HeaderLimits ConfigStore Config.

(** A unit structure: [key] names the cache entry; the key in Redis is the
    structure's own encoding. *)
Inductive GlobalConfigKey : Type := TheGlobalConfig.
#[export] Instance GlobalConfigKey_instance : Key GlobalConfigKey :=
  {| key_of _ := "CONTEXT_FORGE_GLOBAL_CONFIG" |}.

(** The [Display] of [ConfigStoreError]. *)
Definition ConfigStoreError_to_string (e : ConfigStoreError) : string :=
  match e with
  | InvalidConnection => "data store disconnected"
  | NoDataForKey => "no data for key"
  | DataWrongFormat => "data in wrong format"
  | DataEncoding => "unable to encode the data"
  | CantWriteData => "unable to write to store"
  | InvalidConfiguration _ => "unable to create client"
  end.

(** [redis::Client]: opening one, which contacts no server, and its connection
    manager. *)
Class RedisClients (W : Type) := {
  RedisClient : Type;
  redis_client_open : RedisEndpoint → result string RedisClient;
  redis_client_connect : RedisClient → W → result string () * W;
}.

Section client.
Context `{!LruLib} {W : Type} `{!RedisClients W}.

(** [TryFrom<RedisConfig> for RedisClient]. *)
Definition redis_client_try_from (config : RedisConfig) : result string RedisClient :=
  redis_client_open (redis_endpoint config).

(** [RedisStore::new]. *)
Definition RedisStore_connect {V} (client : RedisClient) (expiry : Duration) (w : W)
    : result ConfigStoreError (RedisStore V) * W :=
  let '(connected, w) := redis_client_connect client w in
  (match connected with
   | Ok _ => Ok (RedisStore_new expiry)
   | Err _ => Err InvalidConnection
   end, w).
End client.

Definition GLOBAL_CONFIG_EXPIRY : Duration := 5 * 10 ^ 9.

Section access.
Context `{!LruLib} {W : Type} `{!Redis W, !RedisClients W}.
Context `{!MessagePack GlobalConfigKey, !MessagePack GlobalConfig}.

(** The store both accesses open; its errors are reported as text. *)
Definition global_store (config : RedisConfig) (w : W)
    : result ConfigStoreError (RedisStore GlobalConfig) * W :=
  match redis_client_try_from config with
  | Err e => (Err (InvalidConfiguration e), w)
  | Ok client =>
      let '(store, w) := RedisStore_connect client GLOBAL_CONFIG_EXPIRY w in
      (map_err (λ e, InvalidConfiguration (ConfigStoreError_to_string e)) store, w)
  end.

Definition get_global_config (now now' : Instant) (config : RedisConfig) (w : W)
    : result ConfigStoreError GlobalConfig * W :=
  let '(store, w) := global_store config w in
  match store with
  | Err e => (Err e, w)
  | Ok store =>
      let '(r, (_, w)) := RedisStore_get_config now now' TheGlobalConfig (store, w) in (r, w)
  end.

Definition set_global_config (now' : Instant) (config : RedisConfig) (global_config : GlobalConfig)
    (w : W) : result ConfigStoreError () * W :=
  let '(store, w) := global_store config w in
  match store with
  | Err e => (Err e, w)
  | Ok store =>
      let '(r, (_, w)) := RedisStore_set_config now' TheGlobalConfig global_config (store, w) in (r, w)
  end.
End access.

(** ** Theorems *)

Section reads.
Context `{!LruLib, !LruLibLaws} {W : Type} `{!Redis W, !RedisClients W}.
Context `{!MessagePack GlobalConfigKey, !MessagePack GlobalConfig}.

Lemma fresh_cache_misses {V} now expiry k :
  ∃ store, cache_lookup now k (RedisStore_new (V := V) expiry) = (None, store).
Proof.
  unfold cache_lookup, RedisStore_new. cbn [cache]. destruct (expiry =? 0); [by eexists|].
  destruct (lru_get_mut now k _) as [[e|] c] eqn:E; [|by eexists].
  exfalso. by apply lru_holds_get_mut, lru_holds_new in E.
Qed.

(** Reading the global configuration is one Redis read, at the encoding of
    the key structure, whatever the cache does: a store that cannot be opened is
    an invalid configuration, and a read that fails is reported like a missing
    entry, which start-up takes for "not configured". *)
Lemma get_global_config_spec now now' config (w : W) :
  get_global_config now now' config w =
  match redis_client_try_from config with
  | Err e => (Err (InvalidConfiguration e), w)
  | Ok client =>
      let '(connected, w) := redis_client_connect client w in
      match connected with
      | Err _ => (Err (InvalidConfiguration "data store disconnected"), w)
      | Ok _ => fetch_config TheGlobalConfig w
      end
  end.
Proof.
  unfold get_global_config, global_store, RedisStore_connect.
  destruct (redis_client_try_from config) as [client|e]; [|done].
  destruct (redis_client_connect client w) as [[[]|e] w1]; [|done]. cbn [map_err].
  unfold RedisStore_get_config.
  destruct (fresh_cache_misses (V := GlobalConfig) now GLOBAL_CONFIG_EXPIRY (key_of TheGlobalConfig))
    as [store ->].
  by destruct (fetch_config _ _) as [[] ?].
Qed.

(** What one process writes is what the next one reads at its start, or it cannot
    connect: Redis keeps what it acknowledged, also for a new connection. *)
Theorem get_global_config_reads_write now now' now'' config global (w w' w'' : W) r
    (Hround : ∀ b, mp_to_vec global = Some b → mp_from_slice b = Some global)
    (Hkept : ∀ k b w0 w1, redis_set k b w0 = (Ok (), w1) → (redis_get k w1).1 = Ok (Some b))
    (Hreconnect : ∀ client k w0 w1, redis_client_connect client w0 = (Ok (), w1) →
       (redis_get k w1).1 = (redis_get k w0).1) :
  set_global_config now'' config global w = (Ok (), w') →
  get_global_config now now' config w' = (r, w'') →
  r = Ok global ∨ r = Err (InvalidConfiguration "data store disconnected").
Proof.
  rewrite get_global_config_spec. unfold set_global_config, global_store, RedisStore_connect.
  destruct (redis_client_try_from config) as [client|e]; [|done].
  destruct (redis_client_connect client w) as [[[]|e] w1]; [|done]. cbn [map_err].
  unfold RedisStore_set_config, store_config.
  destruct (mp_to_vec TheGlobalConfig) as [key|] eqn:Hkey; [|done].
  destruct (mp_to_vec global) as [b|] eqn:Hb; [|done].
  destruct (redis_set key b w1) as [[[]|e] w2] eqn:Hset; [|done]. intros [= <-].
  destruct (redis_client_connect client w2) as [[[]|e] w3] eqn:Hc; [|intros [= <- _]; by right].
  unfold fetch_config. rewrite Hkey. apply Hkept in Hset. rewrite <- (Hreconnect _ _ _ _ Hc) in Hset.
  destruct (redis_get key w3) as [got w4]. cbn [fst] in Hset. subst got.
  rewrite (Hround _ eq_refl). intros [= <- _]. by left.
Qed.
End reads.

(** ** A concrete Redis *)

Module ConcreteGlobal.
Import ConcreteStore.
#[export] Instance redis_clients : RedisClients (list (string * string)) := {|
  RedisClient := RedisEndpoint; redis_client_open e := Ok e; redis_client_connect _ w := (Ok (), w) |}.
(** MessagePack's encoding of a unit structure is one byte, [nil]. *)
#[export] Instance mp_global_key : MessagePack GlobalConfigKey :=
  {| mp_to_vec _ := Some (String "192" ""); mp_from_slice _ := Some TheGlobalConfig |}.
(** The limits, as three decimal numbers, are enough of a format here. *)
Definition limits_only (count value total : Z) : GlobalConfig := {|
  gc_standard_header_max_count := Some count; gc_standard_header_max_value_bytes := Some value;
  gc_standard_header_max_total_bytes := Some total; gc_allowed_origins := None;
  gc_allowed_hosts := None |}.
#[export] Instance mp_global : MessagePack GlobalConfig := {|
  mp_to_vec g :=
    match gc_standard_header_max_count g, gc_standard_header_max_value_bytes g,
          gc_standard_header_max_total_bytes g with
    | Some c, Some v, Some t => Some (join "," [print_Z c; print_Z v; print_Z t])
    | _, _, _ => None
    end;
  mp_from_slice b :=
    match split (char_is ",") b with
    | [c; v; t] => c ← parse_u64 c; v ← parse_u64 v; t ← parse_u64 t; Some (limits_only c v t)
    | _ => None
    end |}.

Lemma get_global_config_reads_write_witness :
  let config := PlainText "redis" 6379 in
  let w := (set_global_config 1 config (limits_only 10 20 30) []).2 in
  (get_global_config 5 6 config w).1 = Ok (limits_only 10 20 30).
Proof.
  intros config w.
  destruct (get_global_config 5 6 config w) as [r w''] eqn:E.
  destruct (get_global_config_reads_write 5 6 1 config (limits_only 10 20 30) [] w w'' r)
    as [Hr|Hr]; [..|exact Hr|].
  - intros b [= <-]. vm_compute. reflexivity.
  - intros k b w0 w1 [= <-]. cbn. rewrite assoc_get_insert. by rewrite String.eqb_refl.
  - intros client k w0 w1 [= <-]. reflexivity.
  - vm_compute. reflexivity.
  - exact E.
  - subst r. exfalso. revert E. vm_compute. discriminate.
Defined.
End ConcreteGlobal.
