(* ===== verification/Transports.v ===== *)
(** * Listening and serving ([transports/], [lib.rs])

    How a listening socket is set up, the loop that accepts TLS connections, and
    how the gateway waits for its listeners.  The operating system answers every
    socket call; the TLS loop is a machine driven by the events its [select] and
    its spawned tasks wait for, in any order. *)

From S2P Require Import Prelude HttpTypes McpStandardHeaders Apis HeaderLimits Config.

(** ** The listening socket ([tcp.rs]) *)

Inductive SocketOp : Type :=
| NewV4 | NewV6
| SetReuseaddr (on : bool) | SetKeepalive (on : bool) | SetReuseport (on : bool)
| Bind (address : SocketAddr)
| Listen (backlog : Z).

(** The system's answer to a call, and whether an address is IPv4. *)
Class Sockets (O : Type) := {
  is_ipv4 : SocketAddr → bool;
  socket_call : SocketOp → O → result string () * O;
}.

Section socket.
Context {O : Type} `{!Sockets O}.

(** [TryInto<TcpListener> for Tcp] (on Unix, where the port is shared). *)
Definition listener_ops (address : SocketAddr) : list SocketOp :=
  [if is_ipv4 address then NewV4 else NewV6;
   SetReuseaddr true; SetKeepalive true; SetReuseport true; Bind address; Listen 1024].
Fixpoint socket_calls (ops : list SocketOp) (o : O) : result string () * O :=
  match ops with
  | [] => (Ok (), o)
  | op :: ops =>
      let '(r, o) := socket_call op o in
      match r with Ok _ => socket_calls ops o | Err e => (Err e, o) end
  end.
Definition try_into_listener (address : SocketAddr) : O → result string () * O :=
  socket_calls (listener_ops address).
End socket.

(** ** The TLS accept loop ([tls.rs]) *)

Inductive TlsEvent : Type :=
| Accepted
| AcceptFailed (e : string)
| CtrlC
| HandshakeDone (connection : nat) (ok : bool)
| ConnectionDone (connection : nat) (r : result string ()).

(** What the task of a connection waits for. *)
Inductive Phase : Type := Handshaking | Serving.
#[export] Instance Phase_eq_dec : EqDecision Phase.
Proof. solve_decision. Defined.

(** [finished] is what the loop returned; tasks are spawned, so they outlive it. *)
Record TlsLoop : Type := {
  finished : option (result string ());
  tasks : gmap nat Phase;
  accepted : nat;
}.
Definition tls_start : TlsLoop := {| finished := None; tasks := ∅; accepted := 0 |}.
Definition finish (r : result string ()) (s : TlsLoop) : TlsLoop :=
  {| finished := Some r; tasks := tasks s; accepted := accepted s |}.
Definition set_tasks (t : gmap nat Phase) (s : TlsLoop) : TlsLoop :=
  {| finished := finished s; tasks := t; accepted := accepted s |}.

(** One event; [None] when nobody waits for it. *)
Definition tls_step (s : TlsLoop) (event : TlsEvent) : option TlsLoop :=
  match event with
  | Accepted =>
      if finished s is Some _ then None else
      Some {| finished := None; tasks := <[accepted s := Handshaking]> (tasks s);
              accepted := S (accepted s) |}
  | AcceptFailed e => if finished s is Some _ then None else Some (finish (Err e) s)
  | CtrlC => if finished s is Some _ then None else Some (finish (Ok ()) s)
  | HandshakeDone connection ok =>
      match tasks s !! connection with
      | Some Handshaking =>
          Some (set_tasks (if ok then <[connection := Serving]> (tasks s)
                           else delete connection (tasks s)) s)
      | _ => None
      end
  | ConnectionDone connection _ =>
      match tasks s !! connection with
      | Some Serving => Some (set_tasks (delete connection (tasks s)) s)
      | _ => None
      end
  end.
(** The loop of [DownstreamTls::handle_tls], along a sequence of events. *)
Definition handle_tls (events : list TlsEvent) (s : TlsLoop) : option TlsLoop :=
  foldl (λ s event, s ← s; tls_step s event) (Some s) events.

(** ** Waiting for the listeners ([Gateway::run_gateway]) *)

(** How a listener's future ends: [None] if it never does. *)
Definition future (A : Type) : Type := option A.
Definition join_all {A} (futures : list (future A)) : future (list A) := mapM id futures.

(** [axum::serve] on a listening socket, with its graceful shutdown. *)
Class AxumServe (App O : Type) := { axum_serve : App → O → future (result string ()) }.

Section listening.
Context `{!Rustls} {O : Type} `{!Sockets O} {App : Type} `{!AxumServe App O}.

(** [Tcp::handle_tcp]. *)
Definition handle_tcp (address : SocketAddr) (app : App) (o : O) : future (result string ()) :=
  match try_into_listener address o with
  | (Ok _, o) => axum_serve app o
  | (Err e, _) => Some (Err e)
  end.
(** [DownstreamTls::handle_tls]: the state of the listener after the events. *)
Definition tls_after (tls : DownstreamTls) (o : O) (events : list TlsEvent) : option TlsLoop :=
  match try_into_listener (tls_listener tls) o with
  | (Ok _, _) => handle_tls events tls_start
  | (Err e, _) => handle_tls events (finish (Err e) tls_start)
  end.

(** What each listener's future is, by what the system and the clients do. *)
Definition handle_listener (system : Listener → O) (events : Listener → list TlsEvent)
    (app : App) (listener : Listener) : future (result string ()) :=
  match listener with
  | ListenTcp address => handle_tcp address app (system listener)
  | ListenTls tls => s ← tls_after tls (system listener) (events listener); finished s
  end.
End listening.

Inductive GatewayError : Type :=
| RouterError (e : string)
| ListenersError (e : ListenError).

Section gateway.
Context `{!Rustls} {App : Type}.

(** [app] is what [into_router] builds; [handle] runs one listener over it. *)
Definition run_gateway (config : Config) (app : result string App)
    (handle : App → Listener → future (result string ())) : future (result GatewayError ()) :=
  match map_err RouterError app with
  | Err e => Some (Err e)
  | Ok app =>
      match map_err ListenersError (listeners config) with
      | Err e => Some (Err e)
      | Ok handlers => _ ← join_all (map (handle app) handlers); Some (Ok ())
      end
  end.
End gateway.

(** ** Theorems *)

Section socket_theorems.
Context {O : Type} `{!Sockets O}.

(** The calls the system saw, in order, and what it answered. *)
Inductive answers : list SocketOp → O → O → Prop :=
| answers_nil o : answers [] o o
| answers_cons op ops o o1 o2 :
    socket_call op o = (Ok (), o1) → answers ops o1 o2 → answers (op :: ops) o o2.

Lemma socket_calls_ok ops o o' :
  socket_calls ops o = (Ok (), o') ↔ answers ops o o'.
Proof.
  revert o; induction ops as [|op ops IH]; intros o; cbn [socket_calls].
  - split; [intros [= <-]; constructor|by inversion 1].
  - destruct (socket_call op o) as [[[]|e] o1] eqn:E.
    + rewrite IH. split; [by econstructor|]. inversion 1; simplify_eq. congruence.
    + split; [done|]. inversion 1; congruence.
Qed.
End socket_theorems.

(** What a sequence of events says of the loop and of one connection, each looked
    at alone. *)
Fixpoint first_end (events : list TlsEvent) : option (result string ()) :=
  match events with
  | [] => None
  | AcceptFailed e :: _ => Some (Err e)
  | CtrlC :: _ => Some (Ok ())
  | _ :: events => first_end events
  end.
(** The number of connections accepted, and the phase of the task of connection
    [c], which only its own events move. *)
Definition phase_step (c : nat) (s : nat * option Phase) (event : TlsEvent) : nat * option Phase :=
  let '(n, phase) := s in
  match event with
  | Accepted => (S n, if Nat.eqb n c then Some Handshaking else phase)
  | HandshakeDone c' ok =>
      (n, if Nat.eqb c' c then (if ok then Some Serving else None) else phase)
  | ConnectionDone c' _ => (n, if Nat.eqb c' c then None else phase)
  | _ => s
  end.
Definition phase_of (c : nat) (events : list TlsEvent) : nat * option Phase :=
  foldl (phase_step c) (0%nat, None) events.

Lemma first_end_snoc events event :
  first_end (events ++ [event]) =
  match first_end events with Some r => Some r | None => first_end [event] end.
Proof. by induction events as [|[] events IH]. Qed.
Lemma handle_tls_snoc events event s :
  handle_tls (events ++ [event]) s = (s ← handle_tls events s; tls_step s event).
Proof. unfold handle_tls. by rewrite foldl_app. Qed.

(** The loop and each connection, run together, are what each is alone. *)
Lemma handle_tls_run events s (Hrun : handle_tls events tls_start = Some s) :
  finished s = first_end events ∧
  (∀ c, phase_of c events = (accepted s, tasks s !! c)) ∧
  (finished s = None → is_Some (handle_tls (events ++ [Accepted]) tls_start)) ∧
  (∀ c ok, tasks s !! c = Some Handshaking →
     is_Some (handle_tls (events ++ [HandshakeDone c ok]) tls_start)).
Proof.
  assert (finished s = first_end events ∧
    ∀ c, phase_of c events = (accepted s, tasks s !! c)) as [Hf Hp].
  { revert s Hrun. induction events as [|event events IH] using rev_ind; intros s Hrun.
    { by injection Hrun as <-. }
    rewrite handle_tls_snoc in Hrun. destruct (handle_tls events tls_start) as [s0|]; [|done].
    destruct (IH s0 eq_refl) as [Hf Hp]. rewrite first_end_snoc, <- Hf. unfold phase_of in *.
    destruct event as [|e| |c' ok|c' r]; cbn in Hrun.
    - destruct (finished s0); [done|]. injection Hrun as <-. split; [done|]. intros c.
      rewrite foldl_app, Hp. cbn.
      destruct (Nat.eqb_spec (accepted s0) c) as [->|]; by rewrite ?lookup_insert_eq, ?lookup_insert_ne.
    - destruct (finished s0); [done|]. injection Hrun as <-. split; [done|]. intros c.
      by rewrite foldl_app, Hp.
    - destruct (finished s0); [done|]. injection Hrun as <-. split; [done|]. intros c.
      by rewrite foldl_app, Hp.
    - destruct (tasks s0 !! c') as [[]|] eqn:Ht; try done; injection Hrun as <-.
      split; [cbn; by destruct (finished s0)|]. intros c. rewrite foldl_app, Hp. cbn.
      destruct (Nat.eqb_spec c' c) as [->|], ok;
        by rewrite ?lookup_insert_eq, ?lookup_insert_ne, ?lookup_delete_eq, ?lookup_delete_ne.
    - destruct (tasks s0 !! c') as [[]|] eqn:Ht; try done; injection Hrun as <-.
      split; [cbn; by destruct (finished s0)|]. intros c. rewrite foldl_app, Hp. cbn.
      destruct (Nat.eqb_spec c' c) as [->|]; by rewrite ?lookup_delete_eq, ?lookup_delete_ne. }
  split_and!; [done|done| |].
  - intros Hn. rewrite handle_tls_snoc, Hrun. cbn. rewrite Hn. by eexists.
  - intros c ok Hc. rewrite handle_tls_snoc, Hrun. cbn. rewrite Hc. by eexists.
Qed.

(** C24: the loop accepts connections until an accept fails or the process is
    interrupted, and returns just that; handshakes that fail and connections that
    break never end it.  Each connection's task is where its own events left it,
    whatever the other connections do, also after the loop has returned; and
    while the loop runs, another connection can always be accepted. *)
Theorem handle_tls_spec events s (Hrun : handle_tls events tls_start = Some s) :
  finished s = first_end events ∧
  (∀ c, phase_of c events = (accepted s, tasks s !! c)) ∧
  (finished s = None → is_Some (handle_tls (events ++ [Accepted]) tls_start)) ∧
  (∀ c ok, tasks s !! c = Some Handshaking →
     is_Some (handle_tls (events ++ [HandshakeDone c ok]) tls_start)).
Proof. by apply handle_tls_run. Qed.

Lemma join_all_some {A B} (f : A → future B) l :
  is_Some (join_all (map f l)) ↔ Forall (λ x, is_Some (f x)) l.
Proof.
  unfold join_all. rewrite mapM_is_Some. exact (Forall_fmap f (is_Some ∘ id) l).
Qed.

Section listener_theorems.
Context `{!Rustls} {O : Type} `{!Sockets O} {App : Type} `{!AxumServe App O}.

Definition listen_address (listener : Listener) : SocketAddr :=
  match listener with ListenTcp address => address | ListenTls tls => tls_listener tls end.

(** A listener whose socket cannot be set up ends with that error at once, and
    accepts no connection. *)
Lemma handle_listener_refused (system : Listener → O) events (app : App) listener e o :
  try_into_listener (listen_address listener) (system listener) = (Err e, o) →
  events listener = [] → handle_listener system events app listener = Some (Err e).
Proof.
  destruct listener as [address|tls]; cbn [handle_listener listen_address]; intros Hl Hev.
  - unfold handle_tcp. by rewrite Hl.
  - unfold tls_after. by rewrite Hl, Hev.
Qed.
Lemma tls_refused tls (o : O) e o' events :
  try_into_listener (tls_listener tls) o = (Err e, o') → tls_after tls o (Accepted :: events) = None.
Proof. unfold tls_after. intros ->. unfold handle_tls. cbn. by induction events. Qed.
(** Once it listens, a TLS listener ends as the first event that ends it says. *)
Lemma handle_listener_tls (system : Listener → O) events (app : App) tls s o :
  try_into_listener (tls_listener tls) (system (ListenTls tls)) = (Ok (), o) →
  handle_tls (events (ListenTls tls)) tls_start = Some s →
  handle_listener system events app (ListenTls tls) = first_end (events (ListenTls tls)).
Proof.
  intros Hl Hs. cbn [handle_listener]. unfold tls_after. rewrite Hl, Hs. cbn. by apply handle_tls_run.
Qed.
End listener_theorems.

Section gateway_theorems.
Context `{!Rustls} {App : Type}.

(** When the gateway ends, and with what.  It ends at once with an error if its
    router or its listeners cannot be set up, and never otherwise with one.  Else it
    ends as soon as all listeners have ended, however they ended: that a port was
    taken or an accept failed is not reported, and one listener that keeps running
    keeps the gateway running. *)
Theorem run_gateway_spec config (app : result string App) handle :
  run_gateway config app handle =
  match app, listeners config with
  | Err e, _ => Some (Err (RouterError e))
  | _, Err e => Some (Err (ListenersError e))
  | Ok app, Ok handlers =>
      if decide (Forall (λ listener, is_Some (handle app listener)) handlers)
      then Some (Ok ()) else None
  end.
Proof.
  unfold run_gateway. destruct app as [app|e]; [|done]. cbn [map_err].
  destruct (listeners config) as [handlers|e]; [|done]. cbn [map_err].
  destruct (decide _) as [Hall|Hnot].
  - destruct (join_all _) eqn:Hj; [done|]. exfalso. apply eq_None_not_Some in Hj. apply Hj.
    by apply join_all_some.
  - destruct (join_all _) eqn:Hj; [|done]. exfalso. apply Hnot, join_all_some. by rewrite Hj.
Qed.
End gateway_theorems.

(** ** Concrete events *)

Module ConcreteTransports.
Lemma handle_tls_spec_witness :
  let events := [Accepted; Accepted; HandshakeDone 0 false; HandshakeDone 1 true] in
  match handle_tls events tls_start with
  | Some s => finished s = None ∧ tasks s !! 0%nat = None ∧ tasks s !! 1%nat = Some Serving
  | None => False
  end.
Proof.
  intros events. destruct (handle_tls events tls_start) as [s|] eqn:E; [|discriminate E].
  destruct (handle_tls_spec events s E) as (Hf & Hp & _).
  split_and!; [exact Hf|..].
  - pose proof (Hp 0%nat) as H. injection H as _ H. symmetry. exact H.
  - pose proof (Hp 1%nat) as H. injection H as _ H. symmetry. exact H.
Defined.

Import ConcreteConfig.
(** The system has the port taken, or not; axum serves for ever. *)
#[export] Instance sockets : Sockets bool := {|
  is_ipv4 _ := true;
  socket_call op taken :=
    (match op with Bind _ => if taken : bool then Err "address in use" else Ok () | _ => Ok () end,
     taken) |}.
#[export] Instance axum : AxumServe () bool := {| axum_serve _ _ := None |}.
(** Only a TLS listener is configured; if it could not be bound the gateway ends
    without an error, and while it serves the gateway runs. *)
Example run_gateway_bind_error :
  ((λ config, run_gateway (App := ()) config (Ok ())
                (handle_listener (O := bool) (λ _, true) (λ _, []))) <$>
     config_try_from files (λ s, s) cli) = Ok (Some (Ok ())).
Proof. reflexivity. Qed.
Example run_gateway_serving :
  ((λ config, run_gateway (App := ()) config (Ok ())
                (handle_listener (O := bool) (λ _, false) (λ _, [Accepted]))) <$>
     config_try_from files (λ s, s) cli) = Ok None.
Proof. reflexivity. Qed.
End ConcreteTransports.
