(* ===== verification/Startup.v ===== *)
(** * From the command line to the running gateway ([main.rs], [lib.rs])

    [main] as the computation it is: every stage of the start-up may end it with
    an error, and only after all of them does the gateway serve.  The state is what
    the stages act on: Redis, the plugins, and what is installed process-wide.
    The command line parser, files, clients and sockets are parameters. *)

From S2P Require Import Prelude HttpTypes McpStandardHeaders Apis HeaderLimits ConfigStore.
From S2P Require Import Authorization Jwks Rmcp Layers UpstreamHeaders Cmf CpexRuntime CpexRegistry.
From S2P Require Import SecretsPlugin Config Observability GlobalConfigStore Transports.

(** ** The plugin registry *)

(** The factories that are compiled in, by feature ([test_plugins.rs]). *)
Inductive BuiltinFactory : Type :=
| PayloadMarker | TextPrefixer | ToolNamespace | SecretsDetectionFactory.
Record Features : Type := { feature_test_plugins : bool; feature_plugins : bool }.

Definition test_plugins : list (string * BuiltinFactory) :=
  [("contextforge/payload-marker", PayloadMarker); ("contextforge/text-prefixer", TextPrefixer);
   ("contextforge/tool-namespace", ToolNamespace)].
Definition builtin_factories (features : Features) : list (string * BuiltinFactory) :=
  (if feature_test_plugins features then test_plugins else []) ++
  (if feature_plugins features then [(KIND, SecretsDetectionFactory)] else []).

(** [PluginFactoryRegistry]. *)
Class FactoryRegistry (P : Type) `{!CpexManager P} := {
  factories_new : Factories;
  factories_register : string → BuiltinFactory → Factories → Factories;
}.

Inductive MainError : Type :=
| CliError (e : string)
| InvalidConfig (e : ConfigValidationError)
| ObservabilitySetup (e : ObservabilityError)
| GlobalConfigInvalid
| GlobalConfigUnavailable (e : ConfigStoreError)
| RedisClientError (e : string)
| PluginRuntimeError (e : GatewayPluginRuntimeError)
| AuthorizationSetup (e : AuthorizationError).

Section startup.
Context `{!CmfConstants} {P : Type} `{!CpexManager P, !FactoryRegistry P, !DocumentFormats}.
Context `{!LruLib} {W : Type} `{!Redis W, !RedisClients W}.
Context `{!MessagePack GlobalConfigKey, !MessagePack GlobalConfig}.
Context `{!HashIter, !Tonic, !Otlp, !Pem, !ReqwestTls, !HttpUri, !Rustls, !UrlLib, !CertificateFiles}.
Context `{!Cel}.

(** What the stages act on. *)
Record Machine : Type := {
  machine_redis : W;
  plugin_world : World P;
  globals : Globals;
}.
Definition set_redis (w : W) (m : Machine) : Machine :=
  {| machine_redis := w; plugin_world := plugin_world m; globals := globals m |}.

(** [CpexRuntimeRegistry::with_redis_config], [register_builtin_factories]. *)
Definition registry_with_redis_config : CpexRuntimeRegistry P := {|
  runtime := Active GatewayPluginRuntime_default; has_store := true; factories := factories_new;
  watcher_started := false; last_applied_config := None |}.
Definition register_builtin_factories (features : Features) (r : CpexRuntimeRegistry P)
    : result GatewayPluginRuntimeError (CpexRuntimeRegistry P) :=
  foldM (λ r '(kind, factory), register_factory (factories_register kind factory) r)
    (builtin_factories features) r.

Definition plugin_runtime_from_config (features : Features) (config : Config)
    : result MainError (RedisClient * CpexRuntimeRegistry P) :=
  client ← map_err RedisClientError (redis_client_try_from (redis_config config));
  registry ← map_err PluginRuntimeError
               (register_builtin_factories features registry_with_redis_config);
  Ok (client, registry).

(** The first read of the plugin configuration: connect, then [GET]. *)
Definition first_answer (client : RedisClient) (w : W)
    : Answer * W :=
  let '(connected, w) := redis_client_connect client w in
  match connected with
  | Err e => ((store_get_config false (Err e) (λ _, Err e)).1, w)
  | Ok _ =>
      let '(got, w) := redis_get RUNTIME_PLUGIN_CONFIG_KEY w in
      ((store_get_config false (Ok ()) (λ _, got)).1, w)
  end.

Definition initialize_cpex_runtime (cpex_runtime : option (RedisClient * CpexRuntimeRegistry P))
    (m : Machine) : result MainError (option (CpexRuntimeRegistry P)) * Machine :=
  match cpex_runtime with
  | None => (Ok None, m)
  | Some (client, registry) =>
      let '(answer, w) := first_answer client (machine_redis m) in
      let '(r, registry, pw) := initialize answer registry (plugin_world m) in
      (match r with
       | Ok _ => Ok (Some registry)
       | Err e => Err (PluginRuntimeError e)
       end, {| machine_redis := w; plugin_world := pw; globals := globals m |})
  end.

(** ** The start-up *)

(** What [main] has ready when it calls [run_gateway]. *)
Record Ready : Type := {
  ready_config : Config;
  ready_authorization : JwksClient * Url;
  ready_plugins : option (CpexRuntimeRegistry P);
  ready_guard : Guard;
}.

Context (features : Features) (env : string → option string) (now now' : Instant).
Context (authority_error : string → string) (build_jwks_client : JwksClient → result string ()).

Definition get_authorization_service (config : JwksConfig)
    : result AuthorizationError (JwksClient * Url) :=
  from_jwks_url build_jwks_client (Config.jwks_url config) (jwks_ca_cert_path config).

(** The configuration with the control plane's global one. *)
Definition merged_config (config : Config) (m : Machine) : result MainError Config * Machine :=
  let '(global, w) := get_global_config now now' (redis_config config) (machine_redis m) in
  (match global with
   | Ok global_config => ok_or (merge config global_config) GlobalConfigInvalid
   | Err NoDataForKey => Ok config
   | Err e => Err (GlobalConfigUnavailable e)
   end, set_redis w m).

(** [main] up to [run_gateway]. *)
Definition prepare (cli : result string CliConfig) (m : Machine)
    : outcome (result MainError Ready * Machine) :=
  match (cli ← map_err CliError cli;
         map_err InvalidConfig (config_try_from read_file authority_error cli)) with
  | Err e => Returns (Err e, m)
  | Ok config =>
      '(guard, g) ← init_tracing_logging env (observability_config config) (globals m);
      let m := {| machine_redis := machine_redis m; plugin_world := plugin_world m; globals := g |} in
      match guard with
      | Err e => Returns (Err (ObservabilitySetup e), m)
      | Ok guard =>
          let '(config, m) := merged_config config m in
          match config with
          | Err e => Returns (Err e, m)
          | Ok config =>
              match (registry ←
                       (if default false (runtime_plugins_enabled config)
                        then Some <$> plugin_runtime_from_config features config else Ok None);
                     authorization ← map_err AuthorizationSetup
                                       (get_authorization_service (jwks_config config));
                     Ok (registry, authorization)) with
              | Err e => Returns (Err e, m)
              | Ok (registry, authorization) =>
                  let '(registry, m) := initialize_cpex_runtime registry m in
                  Returns (match registry with
                           | Err e => Err e
                           | Ok registry =>
                               Ok {| ready_config := config; ready_authorization := authorization;
                                     ready_plugins := registry; ready_guard := guard |}
                           end, m)
              end
          end
      end
  end.

(** ** The application ([Gateway::into_router]) *)

Record App : Type := {
  app_store : RedisStore UserConfig;
  app_client : HttpClient;
  app_streamable : StreamableHttpServerConfig;
  app_extractor : DefaultPrincipalExtractor + CelPrincipalExtractor;
  app_limits : StandardHeaderLimits;
}.

(** [get_config_store]. *)
Definition get_config_store (config : Config) (w : W) : result string (RedisStore UserConfig) * W :=
  match redis_client_try_from (redis_config config) with
  | Err e => (Err e, w)
  | Ok client =>
      let '(store, w) :=
        RedisStore_connect client (user_config_cache_expiry_seconds config * 10 ^ 9) w in
      (map_err ConfigStoreError_to_string store, w)
  end.

(** [CelPrincipalExtractor::from_file]. *)
Definition from_file (path : Path) : result CelPrincipalExtractorError CelPrincipalExtractor :=
  expression ← map_err FileReadError (read_file path); from_expression expression.

Context (build_client : ClientBuilder → result string HttpClient) (origin : Url → string).
Context (extractor_error : CelPrincipalExtractorError → string).

Definition build_app (config : Config) (w : W) : result string App * W :=
  let '(store, w) := get_config_store config w in
  (user_config_store ← store;
   client ← upstream_client read_file build_client (upstream_transport_config config);
   extractor ← match cel_principal_extractor_path config with
               | Some path => inr <$> map_err extractor_error (from_file path)
               | None => Ok (inl Build_DefaultPrincipalExtractor)
               end;
   Ok {| app_store := user_config_store; app_client := client;
         app_streamable := streamable_http_server_config origin config;
         app_extractor := extractor; app_limits := config_limits config |}, w).

(** [main]: what [run_gateway] returns is logged and dropped. *)
Definition main (cli : result string CliConfig)
    (handle : App → Listener → future (result string ())) (m : Machine)
    : outcome (future (result MainError ())) :=
  '(ready, m) ← prepare cli m;
  match ready with
  | Err e => Returns (Some (Err e))
  | Ok ready =>
      let '(app, _) := build_app (ready_config ready) (machine_redis m) in
      Returns (_ ← run_gateway (ready_config ready) app handle; Some (Ok ()))
  end.
End startup.

(** ** Theorems *)

Section startup_theorems.
Context `{!CmfConstants} {P : Type} `{!CpexManager P, !FactoryRegistry P, !DocumentFormats}.
Context `{!LruLib, !LruLibLaws} {W : Type} `{!Redis W, !RedisClients W}.
Context `{!MessagePack GlobalConfigKey, !MessagePack GlobalConfig}.
Context `{!HashIter, !Tonic, !Otlp, !Pem, !ReqwestTls, !HttpUri, !Rustls, !UrlLib, !CertificateFiles}.
Context `{!Cel}.
Context (features : Features) (env : string → option string) (now now' : Instant).
Context (authority_error : string → string) (build_jwks_client : JwksClient → result string ()).
Context (build_client : ClientBuilder → result string HttpClient) (origin : Url → string).
Context (extractor_error : CelPrincipalExtractorError → string).
Implicit Types (m : Machine (P := P) (W := W)).

(** The factories a registry starts with: every one that is compiled in. *)
Definition startup_factories : Factories :=
  foldl (λ factories '(kind, factory), factories_register kind factory factories) factories_new
    (builtin_factories features).

Lemma builtin_factories_registered :
  ∃ r, register_builtin_factories features registry_with_redis_config = Ok r ∧
  r = {| runtime := Active GatewayPluginRuntime_default; has_store := true;
         factories := startup_factories; watcher_started := false; last_applied_config := None |}.
Proof.
  unfold register_builtin_factories, startup_factories, registry_with_redis_config.
  generalize (factories_new (P := P)) as f0. induction (builtin_factories features) as [|[k b] l IH]; intros f0.
  - by eexists.
  - cbn [foldM foldl]. unfold register_factory; cbn. apply IH.
Qed.

(** The stored plugin configuration that a connection of [client] reads in the state
    [w] of Redis: the bytes under its key, and the configuration they decode to. *)
Definition stored_plugins (client : RedisClient) (w : W) (bytes : string) (config : CpexConfig) : Prop :=
  ∃ w1 w2 loaded, redis_client_connect client w = (Ok (), w1) ∧
    redis_get RUNTIME_PLUGIN_CONFIG_KEY w1 = (Ok (Some bytes), w2) ∧
    decode_config_document bytes = Ok loaded ∧ cpex_config loaded = Ok config.

(** The registry runs [config], made with the compiled-in factories in the world
    [pw] of the plugins, and watches the store from the bytes it was read from. *)
Definition initialized (bytes : string) (config : CpexConfig) (pw : World P) (r : CpexRuntimeRegistry P)
    : Prop :=
  ∃ rt pw', from_config config startup_factories pw = (Ok rt, pw') ∧ runtime r = Active rt ∧
    last_applied_config r = Some bytes ∧ watcher_started r = true ∧ has_store r = true ∧
    factories r = startup_factories.

Lemma first_answer_loaded client w loaded :
  (first_answer client w).1 = Ok (Some loaded) →
  ∃ w1 w2, redis_client_connect client w = (Ok (), w1) ∧
    redis_get RUNTIME_PLUGIN_CONFIG_KEY w1 = (Ok (Some (fingerprint loaded)), w2) ∧
    decode_config_document (fingerprint loaded) = Ok (document loaded).
Proof.
  unfold first_answer. destruct (redis_client_connect client w) as [[[]|e] w1]; [|done].
  destruct (redis_get _ w1) as [got w2] eqn:Hget. cbn [fst]. unfold store_get_config. cbn [fst map_err].
  destruct got as [[bytes|]|e]; cbn; [|done..]. unfold decode_loaded.
  destruct (decode_config_document bytes) as [d|] eqn:Hd; [|done]. cbn. intros [= <-].
  exists w1, w2. by rewrite Hget.
Qed.

Lemma initialize_ok client w pw r' pw' r :
  register_builtin_factories features registry_with_redis_config = Ok r →
  initialize (first_answer client w).1 r pw = (Ok (), r', pw') →
  ∃ bytes config, stored_plugins client w bytes config ∧ initialized bytes config pw r'.
Proof.
  destruct builtin_factories_registered as (r0 & Hr0 & ->). rewrite Hr0. intros [= <-].
  unfold initialize, reload_runtime, reload_attempt; cbn [has_store negb].
  destruct (first_answer client w).1 as [[loaded|]|e] eqn:Hanswer; cbn [mbind result_bind ok_or]; [|done..].
  apply first_answer_loaded in Hanswer as (w1 & w2 & ? & ? & ?).
  rewrite bool_decide_eq_false_2 by done.
  destruct (cpex_config (document loaded)) as [config|e] eqn:Hconfig; [|done].
  unfold apply_runtime_config; cbn [factories].
  destruct (from_config config startup_factories pw) as [[rt|e] pw1] eqn:Hb; [|done].
  unfold start_config_watcher, set_runtime; cbn. intros [= <- <-].
  exists (fingerprint loaded), config. split; [by exists w1, w2, (document loaded)|].
  exists rt, pw1. by split_and!.
Qed.

(** What the global configuration read makes of a configuration. *)
Definition global_applied (base : Config) (global : result ConfigStoreError GlobalConfig)
    (config : Config) : Prop :=
  match global with
  | Ok global => merge base global = Some config
  | Err e => e = NoDataForKey ∧ config = base ∧
             allowed_hosts (streamable_http_server_config origin config) = None ∧
             allowed_origins (streamable_http_server_config origin config) = []
  end.

Lemma cli_has_no_hosts parsed base :
  config_try_from read_file authority_error parsed = Ok base →
  mcp_allowed_hosts base = None ∧ mcp_allowed_origins base = None.
Proof. unfold config_try_from. rewrite result_bind_ok. by intros (? & _ & [= <-]). Qed.

Lemma merged_config_ok parsed base m config m' :
  config_try_from read_file authority_error parsed = Ok base →
  merged_config now now' base m = (Ok config, m') →
  let global := get_global_config now now' (redis_config base) (machine_redis m) in
  global_applied base global.1 config ∧ m' = set_redis global.2 m.
Proof.
  intros [Hh Ho]%cli_has_no_hosts. unfold merged_config, global_applied.
  destruct (get_global_config _ _ _ _) as [[g|e] w]; cbn [fst snd].
  - intros [= Hm <-]. destruct (merge base g); [by injection Hm as ->|done].
  - destruct e; intros [= <- <-]. unfold streamable_http_server_config; cbn. by rewrite Hh, Ho.
Qed.

Lemma plugins_ok config m registry plugins m' :
  (if default false (runtime_plugins_enabled config)
   then Some <$> plugin_runtime_from_config features config else Ok None) = Ok registry →
  initialize_cpex_runtime registry m = (Ok plugins, m') →
  globals m' = globals m ∧
  match plugins with
  | Some r => runtime_plugins_enabled config = Some true ∧
      ∃ client bytes cpex, redis_client_try_from (redis_config config) = Ok client ∧
        stored_plugins client (machine_redis m) bytes cpex ∧
        initialized bytes cpex (plugin_world m) r
  | None => runtime_plugins_enabled config ≠ Some true
  end.
Proof.
  intros Hreg Hi. destruct (default false _) eqn:He.
  - destruct (runtime_plugins_enabled config) as [[]|]; [|done..].
    destruct (plugin_runtime_from_config features config) as [[client r]|] eqn:Hp; [|done].
    injection Hreg as <-. unfold plugin_runtime_from_config in Hp.
    destruct (redis_client_try_from _) as [client'|]; [|done]. cbn in Hp.
    destruct (register_builtin_factories _ _) as [r0|] eqn:Hrb; [|done]. injection Hp as <- <-.
    unfold initialize_cpex_runtime in Hi. destruct (first_answer _ _) as [answer w] eqn:Hf.
    destruct (initialize answer r0 _) as [[[[]|e] r1] pw] eqn:Hin; [|done].
    injection Hi as <- <-. split; [done|]. split; [done|].
    replace answer with (first_answer client' (machine_redis m)).1 in Hin by (by rewrite Hf).
    destruct (initialize_ok _ _ _ _ _ _ Hrb Hin) as (bytes & cpex & ? & ?). eauto 10.
  - injection Hreg as <-. injection Hi as <- <-. split; [done|]. by destruct (runtime_plugins_enabled config) as [[]|].
Qed.

(** C10: the gateway serves only when everything before has succeeded: the command
    line made a configuration, whose Redis settings were validated; logging and
    telemetry were set up as it says; the control plane's global configuration was
    applied, or Redis had none or could not answer, and then hosts and origins are
    not restricted; tokens are verified against a key set reached securely; and if
    plugins are enabled, what runs is made, with the compiled-in factories, of the
    very configuration that Redis then had under the plugins' key, and is watched: a
    gateway with plugins enabled never starts without them or with others. *)
Theorem prepare_ready cli m ready m'
    (Hready : prepare features env now now' authority_error build_jwks_client cli m =
              Returns (Ok ready, m')) :
  ∃ parsed base, cli = Ok parsed ∧
    config_try_from read_file authority_error parsed = Ok base ∧
    init_tracing_logging env (observability_config base) (globals m) =
      Returns (Ok (ready_guard ready), globals m') ∧
    let global := get_global_config now now' (redis_config base) (machine_redis m) in
    global_applied base global.1 (ready_config ready) ∧
    get_authorization_service build_jwks_client (jwks_config (ready_config ready)) =
      Ok (ready_authorization ready) ∧
    match ready_plugins ready with
    | Some registry => runtime_plugins_enabled (ready_config ready) = Some true ∧
        ∃ client bytes cpex, redis_client_try_from (redis_config (ready_config ready)) = Ok client ∧
          stored_plugins client global.2 bytes cpex ∧
          initialized bytes cpex (plugin_world m) registry
    | None => runtime_plugins_enabled (ready_config ready) ≠ Some true
    end.
Proof.
  unfold prepare in Hready. destruct cli as [parsed|e]; [|done]. cbn in Hready.
  destruct (config_try_from read_file authority_error parsed) as [base|e] eqn:Hbase; [|done].
  cbn in Hready. destruct (init_tracing_logging _ _ _) as [[[guard|e] g]|] eqn:Hinit; [|done..].
  cbn in Hready. set (m1 := {| machine_redis := machine_redis m; plugin_world := _; globals := g |}) in Hready.
  destruct (merged_config now now' base m1) as [[config|e] m2] eqn:Hm; [|done].
  destruct (merged_config_ok parsed _ _ _ _ Hbase Hm) as [Hglobal ->].
  destruct (_ ≫= _) as [[registry authorization]|e] eqn:Hr; [|done].
  apply result_bind_ok in Hr as (registry0 & Hreg & Hr).
  apply result_bind_ok in Hr as (authorization0 & Hauth & [= -> ->]).
  destruct (get_authorization_service _ _) as [a|] eqn:Ha; [|done]. injection Hauth as ->.
  destruct (initialize_cpex_runtime registry _) as [[plugins|e] m3] eqn:Hi; [|done].
  injection Hready as <- <-. destruct (plugins_ok _ _ _ _ _ Hreg Hi) as [Hglobals Hplugins].
  cbn [ready_config ready_authorization ready_plugins ready_guard]. exists parsed, base.
  split_and!; try done. by rewrite Hglobals.
Qed.

(** C36: a global configuration that Redis has but cannot deliver is taken for none:
    when the read fails on an open connection, the gateway goes on without
    restricting hosts and origins, whatever the control plane configured. *)
Theorem unreadable_global_config_ignored parsed base m client w key e w'
    (Hbase : config_try_from read_file authority_error parsed = Ok base)
    (Hclient : redis_client_try_from (redis_config base) = Ok client)
    (Hconnect : redis_client_connect client (machine_redis m) = (Ok (), w))
    (Hkey : mp_to_vec TheGlobalConfig = Some key)
    (Hread : redis_get key w = (Err e, w')) :
  merged_config now now' base m = (Ok base, set_redis w' m) ∧
  allowed_hosts (streamable_http_server_config origin base) = None ∧
  allowed_origins (streamable_http_server_config origin base) = [].
Proof.
  apply cli_has_no_hosts in Hbase as [Hh Ho]. unfold merged_config.
  rewrite get_global_config_spec, Hclient, Hconnect. unfold fetch_config. rewrite Hkey, Hread.
  unfold streamable_http_server_config; cbn. by rewrite Hh, Ho.
Qed.

(** After the start-up nothing makes the process fail: once it is ready, [main]
    ends without an error or not at all, also when the application cannot be built
    or no listener could be opened. *)
Theorem main_never_fails_after_startup cli handle m ready m' r
    (Hready : prepare features env now now' authority_error build_jwks_client cli m =
              Returns (Ok ready, m'))
    (Hmain : main features env now now' authority_error build_jwks_client build_client origin
               extractor_error cli handle m = Returns (Some r)) :
  r = Ok ().
Proof.
  unfold main in Hmain. rewrite Hready in Hmain. cbn in Hmain.
  destruct (build_app _ _ _ _ _) as [app w]. destruct (run_gateway _ _ _); [|done].
  by injection Hmain as <-.
Qed.
End startup_theorems.

(** ** A concrete process *)

Module ConcreteStartup.
Import Concrete ConcreteStore ConcreteGlobal ConcreteConfig ConcreteJwt ConcreteCpex ConcreteObservability.
#[export] Instance factory_registry : FactoryRegistry Z := {|
  factories_new := () : @Factories Z manager; factories_register _ _ f := f |}.
#[export] Instance document_formats : DocumentFormats := {|
  document_from_json s :=
    if String.eqb s "DOC"
    then Some {| version := 1; cpex := ConcreteCpex.config |} else None;
  document_from_messagepack _ := None |}.
#[export] Instance cel : Cel := {|
  CelProgram := string; CelValue := string; cel_compile := Ok; cel_add_variable _ _ := Ok ();
  cel_execute _ _ := Ok ""; cel_map_get _ := None; cel_as_string s := Some s |}.
Definition plain_cli : CliConfig := {|
  cli_address := Some "0.0.0.0:8001"; cli_jwks_url := "https://idp/jwks"; cli_jwks_ca_cert_path := None;
  enable_open_telemetry := None; otlp_endpoint := None; otlp_protocol := None;
  otlp_headers := None; otlp_service_name := None; enable_otel_metrics := None;
  otlp_metrics_endpoint := None; cli_runtime_plugins_enabled := Some true;
  cli_tls_address := None; cli_server_private_key := None;
  cli_server_certificate := None; cli_upstream_connection_mode := None;
  cli_upstream_private_key := None; cli_upstream_certificate := None;
  cli_upstream_trust_bundle := None; redis_address := "redis"; redis_port := 6379;
  redis_mode := RPlainText; redis_tls_trust_bundle := None;
  redis_tls_client_private_key := None; redis_tls_client_certificate := None;
  cli_cel_principal_extractor_path := None |}.
Definition machine : Machine (P := Z) (W := list (string * string)) := {|
  machine_redis := [(RUNTIME_PLUGIN_CONFIG_KEY, "DOC")]; plugin_world := ConcreteCpex.world;
  globals := no_globals |}.
Definition prepared :=
  prepare (Build_Features false true) (λ _, None) 0 1 (λ s, s) (λ _, Ok ()) (Ok plain_cli) machine.

Lemma prepare_ready_witness :
  match prepared with
  | Returns (Ok ready, _) =>
      ∃ registry client, ready_plugins ready = Some registry ∧
        stored_plugins client (machine_redis machine) "DOC" ConcreteCpex.config ∧
        initialized (Build_Features false true) "DOC" ConcreteCpex.config ConcreteCpex.world registry
  | _ => False
  end.
Proof.
  destruct prepared as [[[ready|e] m']|] eqn:E; [|revert E; vm_compute; discriminate..].
  destruct (prepare_ready (Build_Features false true) (λ _, None) 0 1 (λ s, s) (λ _, Ok ()) (λ s, s)
              (Ok plain_cli) machine ready m' E) as (parsed & base & [= <-] & Hbase & _ & _ & _ & Hp).
  assert (∃ r, ready_plugins ready = Some r) as [r Hr].
  { revert E. vm_compute. intros [= <- _]. by eexists. }
  rewrite Hr in *. destruct Hp as (_ & client & bytes & cpex & _ & Hstored & Hinit).
  assert ((get_global_config 0 1 (redis_config base) (machine_redis machine)).2 = machine_redis machine) as Hw.
  { revert Hbase. vm_compute. by intros [= <-]. }
  rewrite Hw in Hstored. assert (bytes = "DOC" ∧ cpex = ConcreteCpex.config) as [-> ->].
  { destruct Hstored as (w1 & w2 & loaded & [= <-] & [= <- _] & [= <-] & [= <-]). done. }
  exists r, client. split; [reflexivity|]. split; [exact Hstored|exact Hinit].
Defined.

Lemma main_never_fails_after_startup_witness :
  match main (Build_Features false true) (λ _, None) 0 1 (λ s, s) (λ _, Ok ()) (λ _, Ok ()) (λ s, s)
          (λ _, "cel") (Ok plain_cli) (λ _ _, Some (Err "address in use")) machine with
  | Returns (Some r) => r = Ok ()
  | _ => False
  end.
Proof.
  destruct (main _ _ _ _ _ _ _ _ _ _ _ _) as [[r|]|] eqn:E; [|revert E; vm_compute; discriminate..].
  destruct prepared as [[[ready|e] m']|] eqn:Hp; [|revert Hp; vm_compute; discriminate..].
  exact (main_never_fails_after_startup _ _ _ _ _ _ _ _ _ _ _ _ _ _ _ Hp E).
Defined.

(** A Redis that accepts connections and answers no read. *)
Module Broken.
#[export] Instance redis : Redis () := {|
  redis_get _ w := (Err "timeout", w); redis_set _ _ w := (Err "timeout", w) |}.
#[export] Instance clients : RedisClients () := {|
  RedisClient := RedisEndpoint; redis_client_open e := Ok e; redis_client_connect _ w := (Ok (), w) |}.
Lemma unreadable_global_config_ignored_witness :
  match config_try_from read_file (λ s, s) plain_cli with
  | Ok base =>
      ∃ m, (merged_config 0 1 base
              {| machine_redis := (); plugin_world := ConcreteCpex.world; globals := no_globals |}).1
           = Ok m ∧ allowed_hosts (streamable_http_server_config (λ s, s) m) = None
  | Err _ => False
  end.
Proof.
  destruct (config_try_from read_file (λ s, s) plain_cli) as [base|e] eqn:E;
    [|revert E; vm_compute; discriminate].
  assert (redis_config base = PlainText "redis" 6379) as Hc by (revert E; vm_compute; by intros [= <-]).
  destruct (unreadable_global_config_ignored 0 1 (λ s, s) (λ s, s) plain_cli base
    {| machine_redis := (); plugin_world := ConcreteCpex.world; globals := no_globals |}
    (OpenTcp "redis" 6379 : @RedisClient () clients) () (String "192" "") "timeout" () E) as (H & Hh & _).
  - unfold redis_client_try_from. rewrite Hc. reflexivity.
  - reflexivity.
  - reflexivity.
  - reflexivity.
  - exists base. rewrite H. split; [reflexivity|exact Hh].
Defined.
End Broken.
End ConcreteStartup.
