(* ===== verification/AdminTools.v ===== *)
(** * The administration helper ([tools.rs])

    The endpoints of the [with_tools] feature: minting tokens, publishing the key
    that verifies them, and writing configurations.  The RSA key, the clock and
    random identifiers are arguments; signing is the JWT library's. *)

From S2P Require Import Prelude HttpTypes McpStandardHeaders Apis ConfigStore Authorization Jwks.
From S2P Require Import HeaderLimits Config GlobalConfigStore Rmcp Layers.

Definition DEFAULT_TOKEN_EMAIL : string := "admin@example.com".
Definition JWKS_CACHE_CONTROL : string := "public, max-age=300, must-revalidate".
Definition TOKEN_PATH : string := "/admin/tokens/{tenant_id}/{user_id}".
Definition JWKS_PATH : string := "/admin/.well-known/jwks.json".
Definition CONFIGURE_USER_PATH : string := "/admin/userconfigs/{user_id}".
Definition CONFIGURE_GLOBAL_CONFIG_PATH : string := "/admin/globalconfig".

(** [add_tools]: method, path and handler. *)
Inductive ToolHandler : Type := GetToken | GetCustomToken | GetJwks | ConfigureUser | ConfigureDataplane.
Definition add_tools (routes : list (string * string * ToolHandler))
    : list (string * string * ToolHandler) :=
  routes ++ [("GET", TOKEN_PATH, GetToken); ("POST", TOKEN_PATH, GetCustomToken);
             ("GET", JWKS_PATH, GetJwks); ("POST", CONFIGURE_USER_PATH, ConfigureUser);
             ("POST", CONFIGURE_GLOBAL_CONFIG_PATH, ConfigureDataplane)].

(** [jsonwebtoken]'s signing side, and the JSON of a key set. *)
Class JwtEncode `{JwtLib} := {
  EncodingKey : Type;
  RS256 : Algorithm;
  encoding_key_from_rsa_pem : string → result string EncodingKey;
  jwk_from_encoding_key : EncodingKey → Algorithm → result string Jwk;
  jwt_encode : Header → Value → EncodingKey → result string string;
  jwk_set_to_json : list Jwk → string;
}.
(** What [jsonwebtoken] checks of the claims for a [Validation] that requires none of
    them and no audience: an expiry that is not behind the clock, in seconds since
    the epoch, and a start that is not ahead of it.  (The library allows a minute
    more on both sides.) *)
Record claims_valid `{JwtLib} (clock : Z) (v : Validation) (claims : Value) : Prop := {
  nothing_required : required_spec_claims v = [];
  any_audience : validate_aud v = false;
  not_expired : validate_exp v = true →
    ∃ exp, value_get "exp" claims = Some (JNumber (PosInt exp)) ∧ clock ≤ exp;
  not_early : validate_nbf v = true →
    ∃ nbf, value_get "nbf" claims = Some (JNumber (PosInt nbf)) ∧ nbf ≤ clock;
}.
(** The public half of an RSA key is a key of no declared use that checks what the
    key signed, when the claims are valid by the verifier's clock. *)
Class JwtEncodeLaws `{JwtEncode, !JwtDecode} := {
  verifier_clock : Z;
  rs256_family : alg_family RS256 = FamilyRsa;
  rsa_jwk key jwk : jwk_from_encoding_key key RS256 = Ok jwk →
    jwk_public_key_use jwk = None ∧ jwk_key_operations jwk = None ∧ jwk_key_id jwk = None ∧
    ∃ dk, decoding_key_from_jwk jwk = Ok dk ∧ key_family dk = FamilyRsa ∧
      ∀ header claims token v, jwt_encode header claims key = Ok token → alg header = RS256 →
        validation_algorithm v = RS256 → claims_valid verifier_clock v claims →
        decode token dk v = Some claims;
  encoded_header header claims key token : jwt_encode header claims key = Ok token →
    decode_header token = Some header ∧ str_all (in_range 0 127) token = true;
  key_set_round_trip keys : parse_jwk_set (jwk_set_to_json keys) = Ok keys;
}.

Section tools.
Context `{!JwtLib, !JwtEncode}.
(** [fs::read] on the key's path. *)
Context (read_key : result string string).

(** [Result::expect]. *)
Definition expect {E A} (r : result E A) : outcome A :=
  match r with Ok a => Returns a | Err _ => Panics end.

(** A response, with the caching header the key set has. *)
Record ToolResponse : Type := { tool_response : Response; cache_control : option string }.
Definition plain (status : Z) (body : string) : ToolResponse :=
  {| tool_response := custom_error status body; cache_control := None |}.
(** [IntoResponse] of a string, with or without a status. *)
Definition text (status : Z) (body : string) : ToolResponse :=
  {| tool_response := {| response_status := status;
                         response_content_type := "text/plain; charset=utf-8";
                         response_body := body |}; cache_control := None |}.
Definition json (body : string) : ToolResponse :=
  {| tool_response := {| response_status := 200; response_content_type := "application/json";
                         response_body := body |}; cache_control := Some JWKS_CACHE_CONTROL |}.

Definition get_jwks : outcome ToolResponse :=
  pem ← expect read_key;
  match (key ← encoding_key_from_rsa_pem pem; jwk_from_encoding_key key RS256) with
  | Err _ => Returns (text 500 "Can't find the encoding key or the format is wrong")
  | Ok key => Returns (json (jwk_set_to_json [key]))
  end.

(** The key both token handlers read; without one they panic. *)
Definition signing_key : outcome EncodingKey :=
  pem ← expect read_key; expect (encoding_key_from_rsa_pem pem).
Definition token_header : Header := {| alg := RS256; kid := Some "test" |}.

(** [u64] arithmetic on seconds, which wraps in the release profile. *)
Definition hour_later (now : Z) : Z := (now + 60 * 60) mod 2 ^ 64.
Definition minute_earlier (now : Z) : Z := (now - 60) mod 2 ^ 64.

(** [value[key] = v]: an object gets the member, [null] becomes an object, and
    anything else panics. *)
Definition index_mut (key : string) (v : Value) (value : Value) : outcome Value :=
  match value with
  | JObject object => Returns (JObject (assoc_insert key v object))
  | JNull => Returns (JObject [(key, v)])
  | _ => Panics
  end.

Definition get_custom_token (now : Z) (jti : string) (claims : Value)
    : outcome ToolResponse :=
  key ← signing_key;
  claims ← index_mut "exp" (JNumber (PosInt (hour_later now))) claims;
  claims ← index_mut "nbf" (JNumber (PosInt (minute_earlier now))) claims;
  claims ← index_mut "iat" (JNumber (PosInt now)) claims;
  claims ← index_mut "jti" (JString jti) claims;
  token ← expect (jwt_encode token_header claims key);
  Returns (text 200 token).

(** [authorization::User] and [Scopes], as [serde] writes them. *)
Record AuthUser : Type := { auth_user_id : string; auth_tenant_id : string }.
Definition user_to_value (u : AuthUser) : Value :=
  JObject [("user_id", JString (auth_user_id u)); ("tenant_id", JString (auth_tenant_id u))].
Record Scopes : Type := {
  scope_server_id : option string;
  scope_permissions : list string;
  scope_ip_restrictions : list string;
  scope_time_restrictions : option Value;
}.
Definition scopes_to_value (s : Scopes) : Value := JObject [
  ("server_id", match scope_server_id s with Some id => JString id | None => JNull end);
  ("permissions", JArray (map JString (scope_permissions s)));
  ("ip_restrictions", JArray (map JString (scope_ip_restrictions s)));
  ("time_restrictions", default JNull (scope_time_restrictions s))].

Definition token_claims (now : Z) (jti tenant_id user_id user_email : string) : Value :=
  JObject [
    ("iss", JString "contexforge-dataplane");
    ("sub", JString user_id);
    ("aud", JString "contexforge-dataplane-audience");
    ("exp", JNumber (PosInt (hour_later now)));
    ("nbf", JNumber (PosInt (minute_earlier now)));
    ("iat", JNumber (PosInt now));
    ("jti", JString jti);
    ("token_use", JString "api");
    ("teams", JArray [JString "team_awesome"]);
    ("user", user_to_value {| auth_user_id := user_id; auth_tenant_id := "team_awesome" |});
    ("scopes", scopes_to_value {|
       scope_server_id := Some "my_id"; scope_permissions := ["tools.read"; "servers.use"];
       scope_ip_restrictions := ["192.169.1.0/24"]; scope_time_restrictions := None |});
    ("tenant_id", JString tenant_id);
    ("user_email", JString user_email)].

Definition get_token (now : Z) (jti tenant_id user_id : string) (email : option string)
    : outcome ToolResponse :=
  key ← signing_key;
  let claims := claims_value {| claims_value :=
    token_claims now jti tenant_id user_id (default DEFAULT_TOKEN_EMAIL email) |} in
  token ← expect (jwt_encode token_header claims key);
  Returns (text 200 token).
End tools.

Section configure.
Context {S : Type} `{!ConfigStore S User UserConfig}.

Definition stored {A B} (r : result A B) : ToolResponse :=
  match r with
  | Ok _ => plain 202 "Added"
  | Err _ => plain 500 "Problem with encoding "
  end.
Definition configure_user (user_id : string) (user_config : UserConfig) (s : S)
    : ToolResponse * S :=
  let '(r, s) := set_config (User_new user_id) user_config s in (stored r, s).

Context `{!LruLib} {W : Type} `{!Redis W, !RedisClients W}.
Context `{!MessagePack GlobalConfigKey, !MessagePack GlobalConfig}.
Definition configure_dataplane (now : Instant) (config : Config) (global_config : GlobalConfig)
    (w : W) : ToolResponse * W :=
  let '(r, w) := set_global_config now (redis_config config) global_config w in (stored r, w).
End configure.

(** ** The tokens it mints are accepted *)

Section accepted.
Context `{!JwtLib, !JwtDecode, !JwtEncode, !JwtEncodeLaws, !LruLib, !LruLibLaws}.
Context {W : Type} `{!Jwks.HttpClient W} (read_key : result string string).

Lemma expect_returns {E A} (r : result E A) a : expect r = Returns a ↔ r = Ok a.
Proof. destruct r; naive_solver. Qed.
Lemma outcome_bind_returns {A B} (m : outcome A) (k : A → outcome B) b :
  (m ≫= k) = Returns b ↔ ∃ a, m = Returns a ∧ k a = Returns b.
Proof. destruct m; cbn; naive_solver. Qed.

(** A published key set: the response of [get_jwks], as a client receives it. *)
Definition publishes (r : HttpResponse) : Prop :=
  ∃ served parts, get_jwks read_key = Returns served ∧
    response_status (tool_response served) = 200 ∧ http_status r = 200 ∧
    chunks r = Ok <$> parts ∧
    concat_strings parts = response_body (tool_response served) ∧
    slen (concat_strings parts) ≤ JWKS_MAX_RESPONSE_BYTES ∧
    (∀ n, content_length r = Some n → n ≤ JWKS_MAX_RESPONSE_BYTES).

Lemma published_keys r :
  publishes r →
  ∃ pem key jwk, read_key = Ok pem ∧ encoding_key_from_rsa_pem pem = Ok key ∧
    jwk_from_encoding_key key RS256 = Ok jwk ∧ error_for_status r = Ok r ∧
    read_body r = Ok (jwk_set_to_json [jwk]).
Proof.
  intros (served & parts & Hj & Hs & Hst & Hc & Hb & Hl & Hn). unfold get_jwks in Hj.
  apply outcome_bind_returns in Hj as (pem & ->%expect_returns & Hj).
  destruct (encoding_key_from_rsa_pem pem) as [key|] eqn:Hkey; [|by simplify_eq/=].
  cbn in Hj. destruct (jwk_from_encoding_key key RS256) as [jwk|] eqn:Hjwk; [|by simplify_eq/=].
  simplify_eq/=. exists pem, key, jwk. split_and!; [done..| |].
  - unfold error_for_status. by rewrite Hst.
  - apply read_body_ok. split; [done|]. exists parts. by rewrite <- Hb.
Qed.

Lemma fetch_published url (w w' : W) r key jwk :
  http_get url w = (Ok r, w') → error_for_status r = Ok r →
  read_body r = Ok (jwk_set_to_json [jwk]) → jwk_from_encoding_key key RS256 = Ok jwk →
  ∃ dk, fetch_jwks url w = (Ok [{| key_id := None; decoding_key := dk |}], w') ∧
    decoding_key_from_jwk jwk = Ok dk.
Proof.
  intros Hget Hstatus Hbody Hjwk.
  destruct (rsa_jwk key jwk Hjwk) as (Huse & Hops & Hid & dk & Hdk & Hfam & _).
  exists dk. split; [|done]. unfold fetch_jwks. rewrite Hget. cbn. rewrite Hstatus. cbn.
  rewrite Hbody. cbn. rewrite key_set_round_trip. cbn.
  unfold validated_json_web_keys. cbn. unfold from_jwk. rewrite Huse, Hops, Hdk. cbn.
  by rewrite Hfam, bool_decide_eq_true_2, Hid by done.
Qed.

Lemma validate_with_one key token header v :
  matches key header = true →
  validate_with_keys [key] token header v = validate_and_decode_claims token (decoding_key key) v.
Proof.
  intros Hm. unfold validate_with_keys. rewrite filter_cons_True, filter_nil by done. cbn.
  by destruct (validate_and_decode_claims _ _ _).
Qed.

(** A new service that fetches the published key set accepts what the key signed. *)
Lemma signed_token_accepted now url (w w' : W) r pem key claims token :
  publishes r → http_get url w = (Ok r, w') →
  read_key = Ok pem → encoding_key_from_rsa_pem pem = Ok key →
  jwt_encode token_header claims key = Ok token →
  claims_valid verifier_clock (validation (Jwks_new url) RS256) claims →
  (jwt_authorize now ("Bearer " +:+ token) (Jwks_new url, w)).1
    = Some {| claims_value := claims |}.
Proof.
  intros Hpub Hget Hpem Hkey Htoken Hwindow.
  destruct (published_keys r Hpub) as (pem' & key' & jwk & Hp & Hk & Hjwk & Hstatus & Hbody).
  destruct (encoded_header _ _ _ _ Htoken) as [Hheader Hascii].
  destruct (fetch_published url w w' r _ jwk Hget Hstatus Hbody Hjwk) as (dk & Hfetch & Hdk).
  assert (pem' = pem) as -> by congruence. assert (key' = key) as -> by congruence.
  destruct (rsa_jwk _ jwk Hjwk) as (_ & _ & _ & dk' & Hdk' & Hfam & Hdecode).
  assert (dk' = dk) as -> by congruence.
  unfold jwt_authorize. rewrite (proj2 (strip_prefix_Some "Bearer " _ token)) by done.
  rewrite utf8_valid_ascii by done.
  unfold authorize_token. rewrite Hheader. unfold validate, validate_cached.
  destruct (lru_peek _ _ _) as [keys|] eqn:Hpeek.
  { by apply lru_holds_peek, lru_holds_new in Hpeek. }
  change (Jwks.jwks_url (Jwks_new url)) with url. rewrite Hfetch. cbn [fst].
  rewrite validate_with_one.
  - unfold validate_and_decode_claims. cbn [decoding_key].
    by rewrite (Hdecode token_header claims token).
  - unfold matches. cbn. by rewrite Hfam, rs256_family, bool_decide_eq_true_2.
Qed.

(** A token is valid from a minute before it is minted until an hour after. *)
Lemma token_claims_valid now jti tenant user email url clock :
  60 ≤ now → now + 60 * 60 ≤ u64_max → now - 60 ≤ clock ≤ now + 60 * 60 →
  claims_valid clock (validation (Jwks_new url) RS256) (token_claims now jti tenant user email).
Proof.
  unfold u64_max. intros Hmin Hmax Hclock. split; [done|done|intros _; exists (hour_later now)|
    intros _; exists (minute_earlier now)]; (split; [reflexivity|]).
  - unfold hour_later. rewrite Z.mod_small; lia.
  - unfold minute_earlier. rewrite Z.mod_small; lia.
Qed.

(** C25: a token minted for a user is accepted by a service that verifies with the
    published key set at any moment from a minute before it was minted to an hour
    after, and the default extractor makes of it exactly the user and the tenant of
    the request's path: what the email parameter says is never part of the
    principal. *)
Theorem admin_token_accepted now jti tenant user email minted url (w w' : W) r t
    (Hminted : get_token read_key now jti tenant user email = Returns minted)
    (Hpublished : publishes r) (Hserved : http_get url w = (Ok r, w'))
    (Hepoch : 60 ≤ now) (Hword : now + 60 * 60 ≤ u64_max)
    (Hclock : now - 60 ≤ verifier_clock ≤ now + 60 * 60) :
  response_status (tool_response minted) = 200 ∧
  ∃ claims, (jwt_authorize t ("Bearer " +:+ response_body (tool_response minted))
               (Jwks_new url, w)).1 = Some claims ∧
    extract Build_DefaultPrincipalExtractor (claims_value claims) =
      Ok {| user_id := user; tenant_id := tenant; scopes := [] |}.
Proof.
  unfold get_token, signing_key in Hminted.
  apply outcome_bind_returns in Hminted as (key & Hkey & Hminted).
  apply outcome_bind_returns in Hkey as (pem & ->%expect_returns & Hkey%expect_returns).
  apply outcome_bind_returns in Hminted as (token & Htoken%expect_returns & [= <-]).
  split; [done|]. eexists. split; [eapply signed_token_accepted; [done..|]; by apply token_claims_valid|reflexivity].
Qed.

(** The claims of a custom token. *)
Definition stamped (now : Z) (jti : string) (object : JsonObject) : JsonObject :=
  assoc_insert "jti" (JString jti) (assoc_insert "iat" (JNumber (PosInt now))
    (assoc_insert "nbf" (JNumber (PosInt (minute_earlier now)))
      (assoc_insert "exp" (JNumber (PosInt (hour_later now))) object))).

Lemma index_mut_returns key v value value' :
  index_mut key v value = Returns value' ↔
  ∃ object, (value = JObject object ∨ value = JNull ∧ object = []) ∧
    value' = JObject (assoc_insert key v object).
Proof.
  split.
  - destruct value as [| | | | |object]; try done; intros [= <-];
      [by exists []; eauto|by exists object; eauto].
  - by intros (object & [->|[-> ->]] & ->).
Qed.

(** A custom token carries the claims it was asked for, whatever they say, with
    only the four stamps of its times and identifier replaced; claims that are
    neither an object nor null crash the handler instead of being refused. *)
Theorem custom_token_claims now jti claims :
  (∀ minted, get_custom_token read_key now jti claims = Returns minted →
     ∃ object key, (claims = JObject object ∨ claims = JNull ∧ object = []) ∧
       jwt_encode token_header (JObject (stamped now jti object)) key
         = Ok (response_body (tool_response minted)) ∧
       ∀ name, name ∉ ["exp"; "nbf"; "iat"; "jti"] →
         assoc_get name (stamped now jti object) = assoc_get name object) ∧
  ((∀ object, claims ≠ JObject object) → claims ≠ JNull →
     get_custom_token read_key now jti claims = Panics).
Proof.
  split.
  - intros minted (key & _ & Hm)%outcome_bind_returns.
    apply outcome_bind_returns in Hm as (? & (object & Hobject & ->)%index_mut_returns & Hm).
    cbn [index_mut mbind outcome_bind] in Hm.
    apply outcome_bind_returns in Hm as (token & Htoken%expect_returns & [= <-]).
    exists object, key. split_and!; [done..|].
    intros name Hname. unfold stamped. rewrite !assoc_get_insert.
    assert (∀ k, k ∈ ["exp"; "nbf"; "iat"; "jti"] → String.eqb name k = false) as Hk.
    { intros k Hk. apply String.eqb_neq. by intros ->. }
    by rewrite !Hk by set_solver.
  - intros Hobject Hnull. unfold get_custom_token.
    destruct (signing_key read_key); [|done]. cbn [mbind outcome_bind].
    by destruct claims as [| | | | |object]; [..|destruct (Hobject object)].
Qed.
End accepted.

(** ** A concrete signer

    One key, which signs one user's claims. *)

#[export] Instance spec_float_eq_dec : EqDecision SpecFloat.spec_float.
Proof. solve_decision. Defined.
#[export] Instance Number_eq_dec : EqDecision Number.
Proof. solve_decision. Defined.
#[export] Instance Value_eq_dec : EqDecision Value.
Proof.
  refine (fix go (a b : Value) : Decision (a = b) :=
    match a, b with
    | JNull, JNull => left eq_refl
    | JBool x, JBool y => cast_if (decide (x = y))
    | JNumber x, JNumber y => cast_if (decide (x = y))
    | JString x, JString y => cast_if (decide (x = y))
    | JArray l, JArray l' => cast_if (@list_eq_dec _ go l l')
    | JObject o, JObject o' => cast_if (@list_eq_dec _ (@prod_eq_dec string _ Value go) o o')
    | _, _ => right _
    end); clear go; abstract congruence.
Defined.

Module ConcreteTools.
Import ConcreteStore.
#[export] Instance tools_jwt : JwtLib := {|
  Algorithm := string; AlgorithmFamily := string; FamilyRsa := "RSA"; FamilyEc := "EC";
  alg_family _ := "RSA"; DecodingKey := string; key_family _ := "RSA";
  PublicKeyUse := string; Signature := "sig"; KeyOperations := string; Verify := "verify";
  Jwk := (); jwk_public_key_use _ := None; jwk_key_operations _ := None; jwk_key_id _ := None;
  decoding_key_from_jwk _ := Ok "pem";
  parse_jwk_set body := Ok (repeat () (String.length body));
|}.
Definition alice_claims : Value := token_claims 1000 "j" "acme" "alice" DEFAULT_TOKEN_EMAIL.
(** The clock of the verifier stands at 1000. *)
Definition window (claims : Value) : bool :=
  match value_get "nbf" claims, value_get "exp" claims with
  | Some (JNumber (PosInt nbf)), Some (JNumber (PosInt exp)) => (nbf <=? 1000) && (1000 <=? exp)
  | _, _ => false
  end.
#[export] Instance tools_decode : JwtDecode := {|
  decode_header t :=
    if String.eqb t "tok" then Some {| alg := "RS256" : Algorithm; kid := Some "test" |} else None;
  decode t key v :=
    if String.eqb t "tok" && String.eqb key "pem" && window alice_claims
    then Some alice_claims else None;
  default_required_claims := ["exp"];
|}.
#[export] Instance tools_encode : JwtEncode := {|
  EncodingKey := ();
  RS256 := "RS256" : Algorithm;
  encoding_key_from_rsa_pem pem := if String.eqb pem "pem" then Ok () else Err "key";
  jwk_from_encoding_key _ a := Ok ();
  jwt_encode header claims _ :=
    if String.eqb (alg header) "RS256" && bool_decide (kid header = Some "test")
       && bool_decide (claims = alice_claims) then Ok "tok" else Err "sign";
  jwk_set_to_json := fix go keys :=
    match keys with [] => "" | _ :: keys => String "k" (go keys) end;
|}.
#[export] Instance tools_laws : JwtEncodeLaws.
Proof.
  refine {| verifier_clock := 1000 |}; [done| | |].
  - intros key jwk _. split_and!; [done..|]. exists "pem". split_and!; [done..|].
    intros header claims token v. cbn. destruct (_ && _ && _) eqn:Hs; [|done].
    apply andb_true_iff in Hs as [_ ->%bool_decide_eq_true]. by intros [= <-].
  - intros [a k] claims [] token. cbn. destruct (_ && _ && _) eqn:Hs; [|done].
    rewrite !andb_true_iff, bool_decide_eq_true in Hs.
    destruct Hs as [[->%String.eqb_eq ->] _]. by intros [= <-].
  - intros keys. cbn. f_equal. induction keys as [|[] keys IH]; [done|]. cbn. by rewrite IH.
Defined.
(** The server publishes what [get_jwks] answers. *)
#[export] Instance tools_server : Jwks.HttpClient () := {|
  http_get _ w := (Ok {| http_status := 200; content_length := Some 1; chunks := [Ok "k"] |}, w);
|}.
End ConcreteTools.

Import ConcreteStore ConcreteTools.

Lemma admin_token_accepted_witness :
  get_token (Ok "pem") 1000 "j" "acme" "alice" None = Returns (text 200 "tok") ∧
  ∃ claims, (jwt_authorize (W := ()) 0 "Bearer tok" (Jwks_new "https://keys", ())).1 = Some claims ∧
    extract Build_DefaultPrincipalExtractor (claims_value claims) =
      Ok {| user_id := "alice"; tenant_id := "acme"; scopes := [] |}.
Proof.
  assert (get_token (Ok "pem") 1000 "j" "acme" "alice" None = Returns (text 200 "tok")) as Hminted
    by (vm_compute; reflexivity).
  split; [exact Hminted|].
  destruct (admin_token_accepted (W := ()) (Ok "pem") 1000 "j" "acme" "alice" None
    (text 200 "tok") "https://keys" () ()
    {| http_status := 200; content_length := Some 1; chunks := [Ok "k"] |} 0 Hminted)
    as [_ Haccepted].
  - exists (json "k"), ["k"]. split_and!; try reflexivity; try (vm_compute; discriminate).
    intros n [= <-]. vm_compute. discriminate.
  - reflexivity.
  - lia.
  - vm_compute. discriminate.
  - cbn. lia.
  - exact Haccepted.
Defined.
